(** * Billdozer2: the invoice parsing core, embedded and verified

    The development follows the Python sources of the repository:

    - [vendor_manager.py], [invoice_sorter_ui.py]: vendor dispatch;
    - [knife_river_parser.py], [missoula_landfill_parser.py],
      [core_main_parser.py]: the per-page field extractors and the
      per-document [parse_invoice] entry points;
    - [Knife_River.py], [Farwest.py]: the line-item block extractors;
    - [Python_tool_scripts/vendor_parser_template.py] and the parser
      text emitted by [vender_parser_wizard.py]: the generated parsers;
    - [Python_tool_scripts/list_vendors.py] and the wizard's file name:
      the names of the parser modules;
    - the helpers of [invoice_sorter_ui.py]: sheet titles, file names,
      the job list, staging, the summary sheet and [safe_move];
    - the batch loop of [Knife_River.py] and [split] of [KNSplit.py].

    Modelling conventions.

    - A Python [str] is a [text], a list of characters.  Characters are
      the code points below 128; the classes [isspace], [isalnum],
      [\d], [\s], [\w] and the case maps are the ASCII ones, and a
      character above 127 belongs to no class and has no case.
    - The [re] module is modelled by a backtracking matcher over the
      syntax tree of the pattern ([Regex.run]), greedy and leftmost as
      in CPython, with a relational semantics it is proved sound for.
    - A Python exception is a [Raise] in the [result] monad: indexing
      out of range, [max] of an empty list and [float] of a string
      that is not a numeral all raise, exactly where Python does.
    - [float] is IEEE binary64 with round-to-nearest-even, as CPython's
      correctly rounded string conversion. *)

From Stdlib Require Import String Ascii List ZArith Lia Bool.
From stdpp Require Import gmap strings list pretty.
Import ListNotations.

Local Open Scope string_scope.
Local Open Scope list_scope.

(** ** Text *)

Definition text := list ascii.

Definition lit (s : string) : text := list_ascii_of_string s.
Coercion lit : string >-> text.
Arguments lit : simpl never.

Definition lits (l : list string) : list text := List.map lit l.

(** Concatenation of texts, for the literals in it to be read as texts. *)
Notation "a ^^ b" := (@app ascii (a : text) (b : text))
  (at level 60, right associativity, only parsing).

Definition text_eqb (a b : text) : bool := bool_decide (a = b).

(** The truth value of a string or of a list: non-empty. *)
Definition truthy {A} (l : list A) : bool :=
  match l with [] => false | _ => true end.

Module Char.

Definition code (c : ascii) : N := N_of_ascii c.

Definition between (lo hi : N) (c : ascii) : bool :=
  ((lo <=? code c) && (code c <=? hi))%N.

Definition is_digit (c : ascii) : bool := between 48 57 c.
Definition is_upper (c : ascii) : bool := between 65 90 c.
Definition is_lower (c : ascii) : bool := between 97 122 c.
Definition is_alpha (c : ascii) : bool := is_upper c || is_lower c.

(** [ch.isalnum()] *)
Definition isalnum (c : ascii) : bool := is_alpha c || is_digit c.

(** [ch.isspace()], also the class [\s]: TAB, LF, VT, FF, CR, the four
    information separators and the space. *)
Definition isspace (c : ascii) : bool :=
  between 9 13 c || between 28 31 c || (code c =? 32)%N.

(** The class [\w]. *)
Definition is_word (c : ascii) : bool := isalnum c || (code c =? 95)%N.

(** The line boundaries of [str.splitlines]: LF, VT, FF, CR, FS, GS, RS. *)
Definition is_linebreak (c : ascii) : bool :=
  between 10 13 c || between 28 30 c.

Definition lower (c : ascii) : ascii :=
  if is_upper c then ascii_of_N (code c + 32) else c.

Definition upper (c : ascii) : ascii :=
  if is_lower c then ascii_of_N (code c - 32) else c.

Definition eqb (a b : ascii) : bool := Ascii.eqb a b.

Definition same (a : ascii) : ascii -> bool := eqb a.

End Char.

Arguments Char.between : simpl never.
Arguments Char.is_digit : simpl never.
Arguments Char.is_upper : simpl never.
Arguments Char.is_lower : simpl never.
Arguments Char.isalnum : simpl never.
Arguments Char.isspace : simpl never.
Arguments Char.is_word : simpl never.
Arguments Char.is_linebreak : simpl never.
Arguments Char.lower : simpl never.
Arguments Char.upper : simpl never.
Arguments Char.eqb : simpl never.
Arguments Char.same : simpl never.

(** ** The string methods the parsers use *)

Module Str.

(** [s.lower()], [s.upper()] *)
Definition lower (s : text) : text := List.map Char.lower s.
Definition upper (s : text) : text := List.map Char.upper s.

Fixpoint lstrip (s : text) : text :=
  match s with
  | c :: s' => if Char.isspace c then lstrip s' else s
  | [] => []
  end.

Definition rstrip (s : text) : text := rev (lstrip (rev s)).

(** [s.strip()] *)
Definition strip (s : text) : text := rstrip (lstrip s).

(** [s.isdigit()]: at least one character and all of them digits. *)
Definition isdigit (s : text) : bool :=
  match s with [] => false | _ => forallb Char.is_digit s end.

(** [s.startswith(p)] *)
Fixpoint startswith (s p : text) : bool :=
  match p, s with
  | [], _ => true
  | a :: p', b :: s' => Char.eqb a b && startswith s' p'
  | _ :: _, [] => false
  end.

(** [s.endswith(p)] *)
Definition endswith (s p : text) : bool := startswith (rev s) (rev p).

(** [w in s] *)
Fixpoint contains (s w : text) : bool :=
  startswith s w ||
  match s with
  | [] => false
  | _ :: s' => contains s' w
  end.

(** [s.replace(old, new)] for a non-empty [old]: occurrences are
    replaced left to right and do not overlap; [skip] counts the
    characters of an occurrence still to be passed over. *)
Fixpoint replace_from (old new : text) (skip : nat) (s : text) : text :=
  match s with
  | [] => []
  | c :: s' =>
      match skip with
      | S k => replace_from old new k s'
      | O =>
          if startswith s old
          then new ++ replace_from old new (length old - 1) s'
          else c :: replace_from old new 0 s'
      end
  end.

Definition replace (old new s : text) : text := replace_from old new 0 s.

(** [s.splitlines()]: [cur] is the current line, reversed, and
    [after_cr] tells that the last character was a carriage return, so
    that a line feed next to it belongs to the same boundary. *)
Fixpoint splitlines_from (cur : text) (after_cr : bool) (s : text)
  : list text :=
  match s with
  | [] => match cur with [] => [] | _ => [rev cur] end
  | c :: s' =>
      if after_cr && Char.same "010" c then splitlines_from cur false s'
      else if Char.is_linebreak c
           then rev cur :: splitlines_from [] (Char.same "013" c) s'
           else splitlines_from (c :: cur) false s'
  end.

Definition splitlines (s : text) : list text := splitlines_from [] false s.

(** [s.split(sep)] for a one-character separator. *)
Fixpoint split_from (sep : ascii) (cur : text) (s : text) : list text :=
  match s with
  | [] => [rev cur]
  | c :: s' =>
      if Char.eqb sep c then rev cur :: split_from sep [] s'
      else split_from sep (c :: cur) s'
  end.

Definition split (sep : ascii) (s : text) : list text := split_from sep [] s.

(** [sep.join(parts)] *)
Fixpoint join (sep : text) (parts : list text) : text :=
  match parts with
  | [] => []
  | [p] => p
  | p :: ps => p ++ sep ++ join sep ps
  end.

(** [[ln.strip() for ln in text.splitlines() if ln.strip()]], the line
    tokenizer every parser starts with. *)
Definition stripped_lines (s : text) : list text :=
  List.filter truthy (List.map strip (splitlines s)).

(** [s.split()]: the maximal runs of characters that are not
    whitespace; [cur] is the current run, reversed. *)
Fixpoint split_whitespace_from (cur : text) (s : text) : list text :=
  match s with
  | [] => match cur with [] => [] | _ => [rev cur] end
  | c :: s' =>
      if Char.isspace c
      then match cur with
           | [] => split_whitespace_from [] s'
           | _ => rev cur :: split_whitespace_from [] s'
           end
      else split_whitespace_from (c :: cur) s'
  end.

Definition split_whitespace (s : text) : list text :=
  split_whitespace_from [] s.

(** [s.title()]: a character that follows a letter is lowered, any
    other is raised. *)
Fixpoint title_from (previous_is_cased : bool) (s : text) : text :=
  match s with
  | [] => []
  | c :: s' =>
      (if previous_is_cased then Char.lower c else Char.upper c)
        :: title_from (Char.is_alpha c) s'
  end.

Definition title (s : text) : text := title_from false s.

(** [v or default] on strings. *)
Definition or_default (v default : text) : text :=
  if truthy v then v else default.

(** [s.find(w)]: the index of the first occurrence, or -1. *)
Fixpoint find_from (s w : text) (i : Z) : Z :=
  if startswith s w then i
  else match s with
       | [] => (-1)%Z
       | _ :: s' => find_from s' w (i + 1)%Z
       end.

Definition find (s w : text) : Z := find_from s w 0.

(** [s[a:b]] for [0 <= a] and [0 <= b] *)
Definition slice (s : text) (a b : Z) : text :=
  firstn (Z.to_nat (b - a)) (skipn (Z.to_nat a) s).

(** [s[-n:]] for [0 < n] *)
Definition last_chars (n : nat) (s : text) : text :=
  skipn (length s - n) s.

End Str.

(** ** Exceptions *)

Inductive exn :=
| IndexError
| ValueError (msg : text)
| AttributeError (msg : text)
| ImportError (module_name : text)
| RuntimeError (msg : text)
| NoSuchGroup                      (* the IndexError of [m.group(n)] for a
                                      pattern with fewer than n groups *)
| IllegalCharacterError (msg : text)   (* of openpyxl *)
| OutOfFuel.   (* no exception of Python: the bound the model puts on
                  the iterations of a [while] loop was reached *)

Inductive result (A : Type) :=
| Ok (a : A)
| Raise (e : exn).
Arguments Ok {A} a.
Arguments Raise {A} e.

Definition bind {A B} (r : result A) (f : A -> result B) : result B :=
  match r with
  | Ok a => f a
  | Raise e => Raise e
  end.

Notation "'let*' x ':=' r 'in' k" := (bind r (fun x => k))
  (at level 10, x name, r at level 100, k at level 200).

(** [l[i]] for a Python list: a negative index counts from the end, and
    an index outside [-len, len) raises. *)
Definition py_index {A} (l : list A) (i : Z) : result A :=
  let n := Z.of_nat (length l) in
  let j := if (i <? 0)%Z then (i + n)%Z else i in
  if ((0 <=? j) && (j <? n))%Z
  then match nth_error l (Z.to_nat j) with
       | Some a => Ok a
       | None => Raise IndexError
       end
  else Raise IndexError.

(** [range(a, b)] *)
Definition py_range (a b : Z) : list Z :=
  List.map (fun k => (a + Z.of_nat k)%Z) (seq 0 (Z.to_nat (b - a))).

(** [len(l)] *)
Definition len {A} (l : list A) : Z := Z.of_nat (length l).

(** [enumerate(l)] *)
Definition enumerate {A} (l : list A) : list (Z * A) :=
  combine (py_range 0 (len l)) l.

(** The first element of [l] on which [f] answers. *)
Fixpoint first_some {A B} (f : A -> option B) (l : list A) : option B :=
  match l with
  | [] => None
  | a :: l' => match f a with Some b => Some b | None => first_some f l' end
  end.

(** [[f(x) for x in l]] when [f] may raise. *)
Fixpoint mapM {A B} (f : A -> result B) (l : list A) : result (list B) :=
  match l with
  | [] => Ok []
  | a :: l' => let* b := f a in let* bs := mapM f l' in Ok (b :: bs)
  end.

(** ** Regular expressions

    The patterns of the sources are written as syntax trees and run by a
    backtracking matcher in continuation-passing style: a repetition is
    greedy, an alternative tries its left branch first, and a failure
    further right makes the matcher come back and try the next shorter
    choice, as the engine of [re] does. *)

Module Regex.

Inductive re :=
| Eps
| Chr (p : ascii -> bool)            (* a literal or a class *)
| Seq (a b : re)
| Alt (a b : re)
| Rep (a : re) (lo : nat) (hi : option nat)   (* a{lo,hi}, greedy *)
| WordB                              (* \b *)
| Bol                                (* ^ *)
| Eol.                               (* $ *)

(** A literal string, and the usual abbreviations. *)
Fixpoint Lit (s : text) : re :=
  match s with
  | [] => Eps
  | c :: s' => Seq (Chr (Char.same c)) (Lit s')
  end.

Fixpoint Seqs (l : list re) : re :=
  match l with
  | [] => Eps
  | [r] => r
  | r :: l' => Seq r (Seqs l')
  end.

Definition Star (a : re) : re := Rep a 0 None.
Definition Plus (a : re) : re := Rep a 1 None.
Definition Opt (a : re) : re := Rep a 0 (Some 1).
Definition Times (a : re) (n : nat) : re := Rep a n (Some n).

Definition digit : re := Chr Char.is_digit.
Definition space : re := Chr Char.isspace.
Definition chr (c : ascii) : re := Chr (Char.same c).

(** A literal under IGNORECASE. *)
Fixpoint LitI (s : text) : re :=
  match s with
  | [] => Eps
  | c :: s' => Seq (Chr (fun x => Char.same (Char.lower c) (Char.lower x))) (LitI s')
  end.

Definition word_before (prev : option ascii) : bool :=
  match prev with Some c => Char.is_word c | None => false end.

Definition word_after (s : text) : bool :=
  match s with c :: _ => Char.is_word c | [] => false end.

(** [$] outside MULTILINE: the end of the string, or just before a line
    feed that ends the string. *)
Definition at_end (s : text) : bool :=
  match s with
  | [] => true
  | [c] => Char.same "010" c
  | _ => false
  end.

(** The last character read after [w] was consumed. *)
Definition last_read (prev : option ascii) (w : text) : option ascii :=
  match rev w with
  | c :: _ => Some c
  | [] => prev
  end.

Section Matcher.

Variable A : Type.

(** A continuation receives the last character read and the rest of the
    input. *)
Definition cont := option ascii -> text -> option A.

Definition or_else (x y : option A) : option A :=
  match x with Some _ => x | None => y end.

(** [n] iterations at most, [lo] of them still required.  An unbounded
    repetition gets as many iterations as there are characters left and
    gives up an iteration that consumes nothing. *)
Fixpoint rep (ma : option ascii -> text -> cont -> option A)
    (unbounded : bool) (k : cont) (n lo : nat)
    (prev : option ascii) (s : text) : option A :=
  let stop := if (lo =? 0)%nat then k prev s else None in
  match n with
  | O => stop
  | S n' =>
      or_else
        (ma prev s (fun p' s' =>
           if unbounded && negb (length s' <? length s)%nat then None
           else rep ma unbounded k n' (pred lo) p' s'))
        stop
  end.

Fixpoint run (r : re) (prev : option ascii) (s : text) (k : cont)
  : option A :=
  match r with
  | Eps => k prev s
  | Chr p =>
      match s with
      | c :: s' => if p c then k (Some c) s' else None
      | [] => None
      end
  | Seq a b => run a prev s (fun p' s' => run b p' s' k)
  | Alt a b => or_else (run a prev s k) (run b prev s k)
  | Rep a lo hi =>
      match hi with
      | Some h => rep (run a) false k h lo prev s
      | None => rep (run a) true k (length s) lo prev s
      end
  | WordB => if xorb (word_before prev) (word_after s) then k prev s else None
  | Bol => match prev with None => k prev s | Some _ => None end
  | Eol => if at_end s then k prev s else None
  end.

End Matcher.

Arguments run {A} r prev s k.

(** [re.fullmatch(r, s)] as a truth value. *)
Definition fullmatch (r : re) (s : text) : bool :=
  match run r None s (fun _ s' => match s' with [] => Some tt | _ => None end)
  with Some _ => true | None => false end.

(** [re.match(r, s)] as a truth value. *)
Definition match_ (r : re) (s : text) : bool :=
  match run r None s (fun _ _ => Some tt) with Some _ => true | None => false end.

(** A pattern with one group: [pre(grp)post].  A pattern without a
    group is written with zero-width [pre] and [post], so that its group
    is the whole match. *)
Record pattern := Pattern { pre : re; grp : re; post : re }.

(** The match that starts exactly here: the text of the group and the
    number of characters of the whole match. *)
Definition match_here (p : pattern) (prev : option ascii) (s : text)
  : option (text * nat) :=
  run (pre p) prev s (fun p1 s1 =>
  run (grp p) p1 s1 (fun p2 s2 =>
  run (post p) p2 s2 (fun _ s3 =>
    Some (firstn (length s1 - length s2) s1, length s - length s3)))).

(** [re.search(p, s)]: the leftmost match; the result is the group. *)
Fixpoint search_from (p : pattern) (prev : option ascii) (s : text)
  : option text :=
  match match_here p prev s with
  | Some (g, _) => Some g
  | None =>
      match s with
      | [] => None
      | c :: s' => search_from p (Some c) s'
      end
  end.

Definition search (p : pattern) (s : text) : option text :=
  search_from p None s.

(** [re.findall(p, s)]: the groups of the successive matches, which do
    not overlap; [skip] counts the characters of the last match still to
    be passed over. *)
Fixpoint findall_from (p : pattern) (skip : nat) (prev : option ascii)
    (s : text) : list text :=
  match skip with
  | S k =>
      match s with
      | [] => []
      | c :: s' => findall_from p k (Some c) s'
      end
  | O =>
      match match_here p prev s, s with
      | Some (g, n), c :: s' => g :: findall_from p (n - 1) (Some c) s'
      | Some (g, _), [] => [g]
      | None, c :: s' => findall_from p 0 (Some c) s'
      | None, [] => []
      end
  end.

Definition findall (p : pattern) (s : text) : list text :=
  findall_from p 0 None s.

(** A match that starts here and is not empty. *)
Definition match_here_advance (p : pattern) (prev : option ascii) (s : text)
  : option (text * nat) :=
  run (pre p) prev s (fun p1 s1 =>
  run (grp p) p1 s1 (fun p2 s2 =>
  run (post p) p2 s2 (fun _ s3 =>
    if (length s3 <? length s)%nat
    then Some (firstn (length s1 - length s2) s1, length s - length s3)
    else None))).

(** [re.sub(p, repl, s)] for a replacement without group references:
    every match, from left to right and without overlap, is replaced by
    [repl].  After an empty match the engine looks for a match that is
    not empty at the same place, and copies the next character when
    there is none. *)
Fixpoint sub_from (p : pattern) (repl : text) (skip : nat)
    (prev : option ascii) (s : text) : text :=
  match skip with
  | S k =>
      match s with
      | [] => []
      | c :: s' => sub_from p repl k (Some c) s'
      end
  | O =>
      match match_here p prev s, s with
      | Some (_, S n), c :: s' => repl ++ sub_from p repl n (Some c) s'
      | Some (_, O), c :: s' =>
          repl ++
          match match_here_advance p prev s with
          | Some (_, S n) => repl ++ sub_from p repl n (Some c) s'
          | _ => c :: sub_from p repl 0 (Some c) s'
          end
      | Some _, [] => repl
      | None, c :: s' => c :: sub_from p repl 0 (Some c) s'
      | None, [] => []
      end
  end.

Definition sub (p : pattern) (repl : text) (s : text) : text :=
  sub_from p repl 0 None s.

End Regex.

(** ** Floating-point numbers

    The values of [float] that the parsers can produce: zero, the
    positive binary64 numbers [m * 2^e] and positive infinity.  No
    pattern of the sources lets a sign through. *)

Module Float.

Inductive float :=
| Zero
| Finite (m : positive) (e : Z)
| Inf.

Local Open Scope Z_scope.

(** [(n/d) / 2^e] as a fraction of integers. *)
Definition scale (n d e : Z) : Z * Z :=
  if 0 <=? e then (n, d * 2 ^ e) else (n * 2 ^ (- e), d).

(** The integer part of the binary logarithm of [n/d]. *)
Definition floor_log2 (n d : Z) : Z :=
  let a := Z.log2 n - Z.log2 d in
  let '(x, y) := scale n d a in
  if y <=? x then a else a - 1.

(** [x/y] rounded to the nearest integer, a tie to the even one. *)
Definition round_half_even (x y : Z) : Z :=
  let q := x / y in
  match Z.compare (2 * (x mod y)) y with
  | Lt => q
  | Gt => q + 1
  | Eq => if Z.even q then q else q + 1
  end.

(** The binary64 number nearest to [n/d], for [0 <= n] and [0 < d]:
    53 bits of precision, exponents from -1074 (subnormal numbers) to
    971, infinity beyond. *)
Definition of_ratio (n d : Z) : float :=
  if n <=? 0 then Zero
  else
    let e := Z.max (floor_log2 n d - 52) (-1074) in
    let '(x, y) := scale n d e in
    let m := round_half_even x y in
    let '(m, e) := if m =? 2 ^ 53 then (2 ^ 52, e + 1) else (m, e) in
    if m =? 0 then Zero
    else if 971 <? e then Inf
    else Finite (Z.to_pos m) e.

(** The decimal literal [digits * 10^-scale], as Python reads it. *)
Definition of_decimal (digits : Z) (scale : nat) : float :=
  of_ratio digits (10 ^ Z.of_nat scale).

(** An order-preserving image in the integers: the value in units of
    [2^-1074], and a bound above every finite number for infinity. *)
Definition key (x : float) : Z :=
  match x with
  | Zero => 0
  | Finite m e => Z.pos m * 2 ^ (e + 1074)
  | Inf => 2 ^ 2100
  end.

Definition ltb (x y : float) : bool := key x <? key y.
Definition leb (x y : float) : bool := key x <=? key y.

Definition digit_value (c : ascii) : Z := Z.of_N (Char.code c) - 48.

Definition digits_value (ds : text) : Z :=
  fold_left (fun acc c => 10 * acc + digit_value c) ds 0.

Fixpoint span_digits (s : text) : text * text :=
  match s with
  | c :: s' =>
      if Char.is_digit c
      then let '(ds, rest) := span_digits s' in (c :: ds, rest)
      else ([], s)
  | [] => ([], [])
  end.

(** [float(s)] on the numerals that reach it in the sources: blanks
    around, digits, and at most one point, with a digit on one side of it
    at least.  Anything else the sources can pass (a numeral followed by
    the letters of a unit) is no numeral for Python either and raises
    ValueError. *)
Definition py_float (s : text) : result float :=
  let t := Str.strip s in
  let '(ip, rest) := span_digits t in
  let bad := Raise (ValueError ("could not convert string to float" : string)) in
  match rest with
  | [] =>
      match ip with
      | [] => bad
      | _ => Ok (of_ratio (digits_value ip) 1)
      end
  | c :: fp =>
      if Char.same "." c && forallb Char.is_digit fp
         && (truthy ip || truthy fp)
      then Ok (of_decimal (digits_value (ip ++ fp)) (length fp))
      else bad
  end.

End Float.

(** [max(l, key=key)]: the first of the greatest elements; raises on an
    empty list. *)
Definition py_max_by {A} (key : A -> Float.float) (l : list A) : result A :=
  match l with
  | [] => Raise (ValueError ("max() arg is an empty sequence" : string))
  | x :: l' =>
      Ok (fold_left
            (fun best y => if Float.ltb (key best) (key y) then y else best)
            l' x)
  end.

(** ** Invoice records and parser results *)

Definition LF : ascii := "010"%char.

(** The dictionary a page parser returns.  [raw_text] is present in the
    Knife River and Missoula Landfill records, [work_number] in the
    records of a generated parser. *)
Record invoice := Invoice {
  vendor : text;
  invoice_number : text;
  jobname : text;
  date : text;
  total : text;
  page : Z;
  raw_text : option text;
  work_number : option text
}.

(** What [parse_invoice] hands back: a list of records, or one bare
    record; [load_parsed_data] tells them apart with [isinstance]. *)
Inductive parsed :=
| PList (records : list invoice)
| PDict (record : invoice).

(** An opened PDF: the text of each page, as [page.get_text("text")]
    gives it. *)
Definition document := list text.

(** [fitz.open]: the documents behind the paths. *)
Definition filesystem := text -> result document.

(** ** Vendor dispatch *)

Module Dispatch.

Section Registry.

(** A parse function takes the path of a PDF. *)
Variable parse_fn : Type.

(** A module is the table of its attributes, and the import system the
    table of the modules that can be imported. *)
Definition py_module := gmap text parse_fn.
Definition importable := gmap text py_module.

(** [vendor_manager.py] *)

Definition VENDOR_PARSER_FOLDER : text := "vendor_parsers".

Definition get_vendor_parser (mods : importable) (vendor_name : text)
  : result parse_fn :=
  let vendor_raw := Str.replace " " "_" (Str.lower vendor_name) in
  let module_name := VENDOR_PARSER_FOLDER ^^ "." ^^ vendor_raw ^^ "_parser" in
  let function_name := lit "parse_" ^^ vendor_raw ^^ "_pdf" in
  match mods !! module_name with
  | None => Raise (RuntimeError (lit "Cannot import vendor parser: " ^^ module_name))
  | Some module =>
      match module !! function_name with
      | None =>
          Raise (RuntimeError
                   (lit "Parser module '" ^^ module_name
                      ^^ "' has no function '" ^^ function_name ^^ "'"))
      | Some f => Ok f
      end
  end.

(** [invoice_sorter_ui.py] *)

Definition VENDOR_ALIASES : gmap text text :=
  <[ lit "knife river" := lit "knife_river_parser" ]>
    (<[ lit "core & main" := lit "core_main_parser" ]> ∅).

Definition derive_vendor_module (vendor_folder : text) : text :=
  let raw := Str.strip (Str.lower vendor_folder) in
  match VENDOR_ALIASES !! raw with
  | Some m => m
  | None =>
      let cleaned :=
        List.map (fun ch => if Char.isalnum ch then ch else "_"%char) raw in
      let cleaned := Str.join "_" (List.filter truthy (Str.split "_" cleaned)) in
      cleaned ^^ "_parser"
  end.

(** [parser = __import__(name); result = parser.parse_invoice(pdf_path)] *)
Definition import_and_parse (run_parser : parse_fn -> text -> result parsed)
    (mods : importable) (vendor_module_name pdf_path : text) : result parsed :=
  match mods !! vendor_module_name with
  | None => Raise (ImportError vendor_module_name)
  | Some module =>
      match module !! lit "parse_invoice" with
      | None =>
          Raise (AttributeError
                   (lit "module '" ^^ vendor_module_name
                      ^^ "' has no attribute 'parse_invoice'"))
      | Some f => run_parser f pdf_path
      end
  end.

End Registry.

Arguments get_vendor_parser {parse_fn} mods vendor_name.
Arguments import_and_parse {parse_fn} run_parser mods vendor_module_name pdf_path.

(** [str(e)] *)
Definition exn_str (e : exn) : text :=
  match e with
  | IndexError => "list index out of range"
  | ValueError msg => msg
  | AttributeError msg => msg
  | ImportError name => lit "No module named '" ^^ name ^^ "'"
  | RuntimeError msg => msg
  | NoSuchGroup => "no such group"
  | IllegalCharacterError msg => msg
  | OutOfFuel => []
  end.

(** The part of the window that [load_parsed_data] writes: the text of
    the parsed-data pane and the invoice kept for staging. *)
Record pane := Pane {
  parsed_output : text;
  last_parsed_invoice : option invoice
}.

Definition show_invoice (inv : invoice) : text :=
  lit "Vendor:         " ^^ vendor inv ^^ [LF]
  ^^ "Invoice Number: " ^^ invoice_number inv ^^ [LF]
  ^^ "Jobname:        " ^^ jobname inv ^^ [LF]
  ^^ "Date:           " ^^ date inv ^^ [LF]
  ^^ "Total:          " ^^ total inv ^^ [LF].

Definition load_parsed_data {parse_fn}
    (run_parser : parse_fn -> text -> result parsed)
    (mods : importable parse_fn) (vendor_module_name pdf_path : text) : pane :=
  if negb (truthy vendor_module_name)
  then Pane "No parser configured for this vendor." None
  else
    match import_and_parse run_parser mods vendor_module_name pdf_path with
    | Raise e => Pane (lit "Parser error:" ^^ [LF] ^^ exn_str e) None
    | Ok (PList records) =>
        let block_lines :=
          flat_map (fun inv => [show_invoice inv; repeat "-"%char 40]) records in
        Pane (Str.join [LF] block_lines) (head records)
    | Ok (PDict inv) => Pane (show_invoice inv) (Some inv)
    end.

End Dispatch.

(** ** [vendor_manager.py]: the vendors on offer *)

Module VendorManager.

(** [listing] is [os.listdir(VENDOR_PARSER_FOLDER)], or [None] when the
    folder does not exist. *)
Definition discover_vendors (listing : option (list text)) : list text :=
  match listing with
  | None => []
  | Some filenames =>
      fold_left
        (fun vendors filename =>
           if Str.endswith filename "_parser.py" then
             let vendor_raw := Str.replace "_parser.py" [] filename in
             let vendor_name := Str.title (Str.replace "_" " " vendor_raw) in
             vendors ++ [vendor_name]
           else vendors)
        filenames []
  end.

End VendorManager.

(** ** [Python_tool_scripts/list_vendors.py] *)

Module ListVendors.

Import Regex.

(** [[^a-z0-9 ]+] *)
Definition other_re : pattern :=
  Pattern Eps
    (Plus (Chr (fun c => negb (Char.is_lower c || Char.is_digit c
                               || Char.same " " c))))
    Eps.

(** [\s+] *)
Definition spaces_re : pattern := Pattern Eps (Plus space) Eps.

Definition make_parser_name (folder_name : text) : text :=
  let name := Str.lower folder_name in
  (* remove '&' entirely *)
  let name := Str.replace "&" [] name in
  (* hyphens become spaces *)
  let name := Str.replace "-" " " name in
  (* remove non-alphanumeric except spaces *)
  let name := sub other_re [] name in
  (* collapse multiple spaces *)
  let name := Str.strip (sub spaces_re " " name) in
  (* spaces to underscores *)
  let name := Str.replace " " "_" name in
  name ^^ "_parser".

(** The two columns that [main] prints for a vendor folder. *)
Definition alias_entry (vendor : text) : text * text :=
  (Str.strip (Str.lower vendor), make_parser_name vendor).

End ListVendors.

(** ** [vender_parser_wizard.py]: the name of the file it saves *)

Module ParserWizard.

(** [entry] is the text of the vendor name field. *)
Definition safe_vendor (entry : text) : text :=
  let vendor_name_for_file := Str.or_default (Str.strip entry) "vendor" in
  let safe_vendor :=
    List.map (fun ch => if Char.isalnum ch then ch else "_"%char)
      (Str.lower vendor_name_for_file) in
  if negb (truthy safe_vendor) then lit "vendor" else safe_vendor.

(** The file name that [generate_parser_code] returns. *)
Definition parser_file_name (entry : text) : text :=
  safe_vendor entry ^^ "_parser.py".

(** The names that the generated module defines. *)
Definition generated_names : list text :=
  lits ["fitz"; "re"; "extract_pdf_text"; "parse_invoice";
        "detect_vendor_name"; "detect_invoice_number"; "detect_invoice_date";
        "detect_invoice_total"; "detect_jobname"; "detect_work_number"].

(** *** The rule of a field

    The pattern of a field is the empty string until the field is set;
    [set_field_from_selection] then makes it [re.escape(value)], or
    [re.escape(anchor)] followed by [\s*([^\n]+)], a text that is never
    empty.  The wizard writes the pattern between the quotes of a raw
    string of the generated file, which reads it back as it is when
    neither the value nor the anchor holds a double quote or a carriage
    return. *)
Inductive wizard_pattern :=
| NotSet
| Escaped (value : text)
| Anchored (anchor : text).

Record field := Field {
  field_value : text;
  field_anchor : text;
  field_pattern : wizard_pattern
}.

(** A field as [__init__] leaves it. *)
Definition new_field : field := Field [] [] NotSet.

(** [build_anchor_and_pattern] *)
Definition build_anchor_and_pattern (full_text : text) (value_pos : Z)
    (value : text) : result (text * wizard_pattern) :=
  let window := 40%Z in
  let start := Z.max 0 (value_pos - window) in
  let left_chunk := Str.slice full_text start value_pos in
  let* line :=
    if truthy left_chunk then py_index (Str.splitlines left_chunk) (-1)
    else Ok [] in
  let line := Str.strip line in
  let line := if (25 <? len line)%Z then Str.last_chars 25 line else line in
  let anchor := line in
  if negb (truthy anchor) then Ok (anchor, Escaped value)
  else Ok (anchor, Anchored anchor).

(** [set_field_from_selection]: the field afterwards; [selected] is the
    text that is highlighted and [full_text] the text of the page on
    show.  A selection of blanks leaves the field as it is. *)
Definition set_field_from_selection (old : field) (selected full_text : text)
  : result field :=
  let selected := Str.strip selected in
  if negb (truthy selected) then Ok old
  else
    let pos := Str.find full_text selected in
    let* built :=
      if (pos =? -1)%Z then Ok ([], Escaped selected)
      else build_anchor_and_pattern full_text pos selected in
    Ok (Field selected (fst built) (snd built)).

(** [if info["pattern"]] *)
Definition pattern_is_set (p : wizard_pattern) : bool :=
  match p with
  | NotSet => false
  | Escaped value => truthy value
  | Anchored _ => true
  end.

(** The pattern, compiled: [re.escape] of a text matches that text. *)
Definition anchored_re (anchor : text) : Regex.pattern :=
  Regex.Pattern
    (Regex.Seq (Regex.Lit anchor) (Regex.Star Regex.space))
    (Regex.Plus (Regex.Chr (fun c => negb (Char.same "010" c))))
    Regex.Eps.

Definition escaped_re (value : text) : Regex.pattern :=
  Regex.Pattern Regex.Eps (Regex.Lit value) Regex.Eps.

(** The body that [generate_parser_code] writes for a detector:
    [m = re.search(r"<pattern>", text, re.MULTILINE)], then
    [m.group(1).strip()] when there is a match, and [fallback] when there
    is none or when the pattern is not set.  The fallback is the empty
    string, and for the vendor the value of the field, which the
    generated file holds between the quotes of a plain string.  A
    pattern without an anchor has no group, and [m.group(1)] raises. *)
Definition detect (p : wizard_pattern) (fallback : text) (txt : text)
  : result text :=
  if negb (pattern_is_set p) then Ok fallback
  else
    match p with
    | NotSet => Ok fallback
    | Escaped value =>
        match Regex.search (escaped_re value) txt with
        | Some _ => Raise NoSuchGroup
        | None => Ok fallback
        end
    | Anchored anchor =>
        match Regex.search (anchored_re anchor) txt with
        | Some g => Ok (Str.strip g)
        | None => Ok fallback
        end
    end.

(** The six fields of the wizard. *)
Record fields := Fields {
  f_vendor : field;
  f_invoice_num : field;
  f_date : field;
  f_total : field;
  f_jobname : field;
  f_work_number : field
}.

End ParserWizard.

(** ** [invoice_sorter_ui.py]: sheet titles, file names, the job list *)

Module InvoiceSorterUI.

Definition forbidden : list ascii :=
  [":"; "\"; "/"; "?"; "*"; "["; "]"]%char.

Definition sanitize_sheet_title (title : text) : text :=
  let cleaned :=
    List.filter (fun ch => negb (bool_decide (ch ∈ forbidden))) title in
  let cleaned := Str.strip cleaned in
  let cleaned := if negb (truthy cleaned) then lit "Sheet1" else cleaned in
  if (31 <? len cleaned)%Z then firstn 31 cleaned else cleaned.

(** [load_jobnames]: [file_lines] are the lines of the job list file, or
    [None] when the file does not exist. *)
Definition load_jobnames (file_lines : option (list text)) : list text :=
  match file_lines with
  | None => []
  | Some lines =>
      fold_left
        (fun jobnames line =>
           let name := Str.strip line in
           if truthy name then jobnames ++ [name] else jobnames)
        lines []
  end.

(** [for idx in range(self.job_list.size())], with [rest] the entries
    from [idx] on. *)
Fixpoint highlight_loop (target : text) (idx : Z) (rest : list text)
  : option Z :=
  match rest with
  | [] => None
  | txt :: rest' =>
      let key := Str.replace " " [] (Str.lower txt) in
      if Str.contains key target || Str.contains target key then Some idx
      else highlight_loop target (idx + 1) rest'
  end.

(** [auto_highlight_job]: the entry of the job list that it selects. *)
Definition auto_highlight_job (job_list : list text) (jobname : text)
  : option Z :=
  if negb (truthy jobname) then None
  else
    let target := Str.replace " " [] (Str.lower jobname) in
    if negb (truthy target) then None
    else highlight_loop target 0 job_list.

Definition bad_chars : list text :=
  [["034"]; ["'"]; [":"]; ["?"]; ["*"]; ["<"]; [">"]; ["|"]]%char.

(** [process_invoices]: the name of the file that the page of the
    record [inv] is saved under. *)
Definition file_name (inv : invoice) : text :=
  let invoice_num := Str.or_default (invoice_number inv) "NOINV" in
  let vendor := vendor inv in
  let job := Str.or_default (jobname inv) "Job" in
  let date_str := Str.or_default (date inv) [] in
  let total_str := Str.or_default (total inv) [] in
  let vendor_clean := Str.replace " " [] vendor in
  let job_clean := Str.replace "/" "-" (Str.replace " " [] job) in
  let date_clean := Str.replace "/" "-" date_str in
  let invoice_clean := Str.replace " " [] invoice_num in
  let total_clean := Str.replace " " [] (Str.replace "," [] total_str) in
  let file_name :=
    vendor_clean ^^ "_" ^^ job_clean ^^ "_" ^^ date_clean ^^ "_"
      ^^ invoice_clean ^^ "_" ^^ total_clean ^^ ".pdf" in
  fold_left (fun file_name ch => Str.replace ch [] file_name)
    bad_chars file_name.

(** *** [safe_move]

    [os.path.join], [os.path.basename] and [os.path.splitext] are
    parameters, and the file system is the set [existing] of the paths
    that exist once the destination folder is made. *)

(** [str(counter)] *)
Definition py_str (counter : Z) : text := lit (pretty counter).

Section Paths.

Variable path_join : text -> text -> text.
Variable basename : text -> text.
Variable splitext : text -> text * text.

(** [os.path.join(dst_folder, f"{name}_{counter}{ext}")] *)
Definition numbered (dst_folder name ext : text) (counter : Z) : text :=
  path_join dst_folder (name ^^ "_" ^^ py_str counter ^^ ext).

(** [while os.path.exists(candidate)]; [fuel] bounds its turns. *)
Fixpoint free_candidate (fuel : nat) (existing : gset text)
    (dst_folder name ext candidate : text) (counter : Z) : result text :=
  if bool_decide (candidate ∈ existing) then
    match fuel with
    | O => Raise OutOfFuel
    | S fuel' =>
        free_candidate fuel' existing dst_folder name ext
          (numbered dst_folder name ext counter) (counter + 1)
    end
  else Ok candidate.

(** The path returned and the paths that exist after the move of a
    file [src] that exists. *)
Definition safe_move (existing : gset text) (src dst_folder : text)
  : result (text * gset text) :=
  let base := basename src in
  let '(name, ext) := splitext base in
  let candidate := path_join dst_folder base in
  let counter := 1%Z in
  let* candidate :=
    free_candidate (S (size existing)) existing dst_folder name ext
      candidate counter in
  (* shutil.move(src, candidate) *)
  Ok (candidate, {[candidate]} ∪ existing ∖ {[src]}).

End Paths.

(** *** [secret_auto_stage] *)

(** The entry of [self.invoice_info] of an invoice. *)
Record info := Info {
  info_parsed : option invoice;
  info_jobname : option text;
  info_staged : bool
}.

Definition new_info : info := Info None None false.

(** [{j.lower().strip(): j for j in self.jobnames}] *)
Definition job_lookup (jobnames : list text) : gmap text text :=
  fold_left (fun lookup j => <[Str.strip (Str.lower j) := j]> lookup)
    jobnames ∅.

Section Staging.

Variable parse_fn : Type.
Variable run_parser : parse_fn -> text -> result parsed.
Variable mods : Dispatch.importable parse_fn.
Variable vendor_module_name : text.

(** [result[0] if isinstance(result, list) else result], after the
    import and the call of [parse_invoice]. *)
Definition parse_first (inv_path : text) : result invoice :=
  let* res :=
    Dispatch.import_and_parse run_parser mods vendor_module_name inv_path in
  match res with
  | PList records => py_index records 0
  | PDict record => Ok record
  end.

(** One turn of [for idx, inv_path in enumerate(self.invoices)]: the
    state is [self.invoice_info] and [matches]. *)
Definition stage_step (lookup : gmap text text)
    (st : gmap text info * Z) (inv_path : text) : gmap text info * Z :=
  let '(invoice_info, matches) := st in
  (* info = self.invoice_info.setdefault(inv_path, {...}) *)
  let info := default new_info (invoice_info !! inv_path) in
  let invoice_info := <[inv_path := info]> invoice_info in
  let parsed_now :=
    match info_parsed info with
    | Some record => Ok record
    | None => parse_first inv_path
    end in
  match parsed_now with
  | Raise _ => (invoice_info, matches)
  | Ok record =>
      let jn := Str.lower (Str.strip (Str.or_default (jobname record) [])) in
      match lookup !! jn with
      | Some job =>
          (<[inv_path := Info (Some record) (Some job) true]> invoice_info,
           (matches + 1)%Z)
      | None =>
          (<[inv_path := Info (Some record) (info_jobname info)
                           (info_staged info)]> invoice_info,
           matches)
      end
  end.

Definition secret_auto_stage (jobnames invoices : list text)
    (invoice_info : gmap text info) : gmap text info * Z :=
  fold_left (stage_step (job_lookup jobnames)) invoices (invoice_info, 0%Z).

End Staging.

(** *** [add_to_summary]: the rows of a sheet

    A worksheet is the table of its cells that hold a string, as the
    parsers give them; a cell that is not in the table holds [None]. *)

Definition sheet := gmap (Z * Z) text.

(** What openpyxl does with a string that is written in a cell
    ([Cell.check_string]): the string is cut at 32767 characters, and
    [IllegalCharacterError] is raised when what is left holds a control
    character other than the tab, the line feed and the carriage
    return. *)
Definition illegal_character (c : ascii) : bool :=
  let n := Char.code c in
  ((n <=? 8) || ((11 <=? n) && (n <=? 12)) || ((14 <=? n) && (n <=? 31)))%N.

Definition check_string (value : text) : result text :=
  let value := firstn (Z.to_nat 32767) value in
  if existsb illegal_character value
  then Raise (IllegalCharacterError (value ^^ " cannot be used in a worksheet."))
  else Ok value.

(** [ws.cell(row=row, column=column, value=value)] for a string *)
Definition write_cell (ws : sheet) (row column : Z) (value : text)
  : result sheet :=
  let* stored := check_string value in
  Ok (<[(row, column) := stored]> ws).

(** [ws.cell(row=row, column=column).value] *)
Definition cell (ws : sheet) (row column : Z) : option text :=
  ws !! (row, column).

(** [str(v)] of the value of a cell *)
Definition str_of_cell (v : option text) : text :=
  match v with
  | None => "None"
  | Some t => t
  end.

(** The last row that holds a value. *)
Definition max_row (ws : sheet) : Z :=
  map_fold (fun key _ top => Z.max (fst key) top) 0%Z ws.

(** The loop [while True] of [invoice_exists_in_sheet], from [row] on;
    [fuel] bounds its turns. *)
Fixpoint exists_loop (fuel : nat) (ws : sheet)
    (date_str vendor invoice_number total : text) (row : Z) : result bool :=
  let a := cell ws row 1 in
  let b := cell ws row 2 in
  let c := cell ws row 3 in
  let d := cell ws row 4 in
  (* hit empty row: not found *)
  if bool_decide (a = None) && bool_decide (b = None)
     && bool_decide (c = None) && bool_decide (d = None)
  then Ok false
  else if text_eqb (str_of_cell a) date_str && text_eqb (str_of_cell b) vendor
          && text_eqb (str_of_cell c) invoice_number
          && text_eqb (str_of_cell d) total
  then Ok true
  else
    match fuel with
    | O => Raise OutOfFuel
    | S fuel' =>
        exists_loop fuel' ws date_str vendor invoice_number total (row + 1)
    end.

Definition invoice_exists_in_sheet (ws : sheet)
    (date_str vendor invoice_number total : text) : result bool :=
  exists_loop (Z.to_nat (max_row ws)) ws date_str vendor invoice_number total 18.

(** [while ws.cell(row=row, column=1).value not in (None, "")] *)
Fixpoint empty_row_loop (fuel : nat) (ws : sheet) (row : Z) : result Z :=
  match cell ws row 1 with
  | None => Ok row
  | Some value =>
      if negb (truthy value) then Ok row
      else
        match fuel with
        | O => Raise OutOfFuel
        | S fuel' => empty_row_loop fuel' ws (row + 1)
        end
  end.

Definition first_empty_row (ws : sheet) : result Z :=
  empty_row_loop (Z.to_nat (max_row ws)) ws 18.

(** What [add_to_summary] does with a staged invoice on the sheet of its
    job: the sheet afterwards, and the row written, or [None] for a
    duplicate that is skipped.  Nothing catches what a write raises. *)
Definition add_row (ws : sheet) (inv : invoice) : result (sheet * option Z) :=
  let date_str := date inv in
  let vendor := vendor inv in
  let invoice_number := invoice_number inv in
  let total := total inv in
  let* duplicate := invoice_exists_in_sheet ws date_str vendor invoice_number total in
  if duplicate then Ok (ws, None)
  else
    let* row := first_empty_row ws in
    let* ws := write_cell ws row 1 date_str in
    let* ws := write_cell ws row 2 vendor in
    let* ws := write_cell ws row 3 invoice_number in
    let* ws := write_cell ws row 4 total in
    Ok (ws, Some row).

End InvoiceSorterUI.

(** ** [knife_river_parser.py] *)

Module KnifeRiverParser.

Import Regex.

(** [txt.replace("\x00", "").strip()] of the page [page_index]. *)
Definition _extract_page_text (doc : document) (page_index : Z) : result text :=
  let* txt := py_index doc page_index in
  Ok (Str.strip (Str.replace ["000"%char] [] txt)).

(** [\d{6,}] *)
Definition invoice_re : re := Rep digit 6 None.

(** [\b\d{2}/\d{2}/\d{2}\b] *)
Definition date_re : pattern :=
  Pattern WordB
    (Seqs [Times digit 2; chr "/"; Times digit 2; chr "/"; Times digit 2])
    WordB.

(** [\d{1,3}(?:,\d{3})*\.\d{2}] *)
Definition money_re : re :=
  Seqs [Rep digit 1 (Some 3); Star (Seq (chr ",") (Times digit 3));
        chr "."; Times digit 2].

(** [\b\d{1,3}(?:,\d{3})*\.\d{2}\b] *)
Definition total_re : pattern := Pattern WordB money_re WordB.

Definition bad_words : gset text :=
  list_to_set (lits ["INVOICE"; "TICKET"; "PAYABLE COPY"; "SUBTOTAL"; "TOTAL"]).

(** The loop over [enumerate(lines)] that looks for the line ORIGINAL;
    [rest] is what is left of [lines] from position [idx] on. *)
Fixpoint jobname_loop (lines : list text) (idx : Z) (rest : list text)
  : result text :=
  match rest with
  | [] => Ok []
  | ln :: rest' =>
      if text_eqb (Str.upper ln) "ORIGINAL" then
        let* candidate :=
          if (0 <=? idx - 1)%Z then py_index lines (idx - 1) else Ok [] in
        let* candidate2 :=
          if (0 <=? idx - 2)%Z then py_index lines (idx - 2) else Ok [] in
        let cand_up := Str.upper candidate in
        let cand2_up := Str.upper candidate2 in
        if truthy candidate && negb (bool_decide (cand_up ∈ bad_words))
        then Ok candidate
        else if truthy candidate2 && negb (bool_decide (cand2_up ∈ bad_words))
        then Ok candidate2
        else Ok []
      else jobname_loop lines (idx + 1) rest'
  end.

Definition _parse_knife_river_page (raw_text : text) (page_number : Z)
  : result invoice :=
  let lines := Str.stripped_lines raw_text in
  let vendor := lit "Knife River" in
  (* first line that is 6+ digits only *)
  let invoice_number :=
    match List.find (fullmatch invoice_re) lines with
    | Some ln => ln
    | None => []
    end in
  (* first MM/DD/YY pattern *)
  let date :=
    match first_some (search date_re) lines with
    | Some d => d
    | None => []
    end in
  (* the last money value on the page *)
  let total_matches := findall total_re raw_text in
  let* total :=
    if truthy total_matches
    then let* last := py_index total_matches (-1) in
         Ok (Str.replace "," [] last)
    else Ok [] in
  let* jobname := jobname_loop lines 0 lines in
  let jobname := if negb (truthy jobname) then [] else jobname in
  Ok (Invoice vendor invoice_number jobname date total page_number
        (Some raw_text) None).

(** The loop of [parse_invoice] over [range(len(doc))]. *)
Fixpoint pages_loop (doc : document) (indices : list Z) (results : list invoice)
  : result (list invoice) :=
  match indices with
  | [] => Ok results
  | page_index :: indices' =>
      let* raw_text := _extract_page_text doc page_index in
      let* parsed := _parse_knife_river_page raw_text (page_index + 1) in
      pages_loop doc indices' (results ++ [parsed])
  end.

Definition parse_invoice (fs : filesystem) (pdf_path : text)
  : result (list invoice) :=
  match fs pdf_path with
  | Raise e =>
      Raise (RuntimeError
               (lit "Could not open PDF '" ^^ pdf_path ^^ "': " ^^ Dispatch.exn_str e))
  | Ok doc => pages_loop doc (py_range 0 (len doc)) []
  end.

End KnifeRiverParser.

(** ** [missoula_landfill_parser.py] *)

Module MissoulaLandfillParser.

Import Regex.

Definition _extract_page_text (doc : document) (page_index : Z) : result text :=
  let* txt := py_index doc page_index in
  Ok (Str.strip (Str.replace ["000"%char] [] txt)).

(** [\d{6,7}] *)
Definition number_re : re := Rep digit 6 (Some 7).

(** [\b(\d{6,7})\b] *)
Definition number_anywhere_re : pattern := Pattern WordB number_re WordB.

(** [\b\d{1,2}/\d{1,2}/\d{2}\b] *)
Definition date_pattern : pattern :=
  Pattern WordB
    (Seqs [Rep digit 1 (Some 2); chr "/"; Rep digit 1 (Some 2); chr "/";
           Times digit 2])
    WordB.

(** [\$(\d{1,3}(?:,\d{3})*\.\d{2})] *)
Definition money_re : pattern :=
  Pattern (chr "$") KnifeRiverParser.money_re Eps.

(** [[A-Z0-9 ]{3,30}] *)
Definition fallback_re : re :=
  Rep (Chr (fun c => Char.is_upper c || Char.is_digit c || Char.same " " c))
      3 (Some 30).

(** [for j in range(i + 1, min(i + 5, len(lines)))]: [Some] is a
    [return]. *)
Fixpoint after_signature (lines : list text) (js : list Z)
  : result (option text) :=
  match js with
  | [] => Ok None
  | j :: js' =>
      let* line := py_index lines j in
      if fullmatch number_re line then Ok (Some line)
      else after_signature lines js'
  end.

(** [for i, ln in enumerate(lines)], with [rest] the lines from [i] on. *)
Fixpoint signature_loop (lines : list text) (i : Z) (rest : list text)
  : result (option text) :=
  match rest with
  | [] => Ok None
  | ln :: rest' =>
      if Str.contains (Str.upper ln) "SIGNATURE" then
        let* found :=
          after_signature lines (py_range (i + 1) (Z.min (i + 5) (len lines))) in
        match found with
        | Some number => Ok (Some number)
        | None => signature_loop lines (i + 1) rest'
        end
      else signature_loop lines (i + 1) rest'
  end.

Definition _extract_missoula_invoice_number (raw_text : text) : result text :=
  let lines := Str.stripped_lines raw_text in
  (* 1) lines immediately after SIGNATURE *)
  let* found := signature_loop lines 0 lines in
  match found with
  | Some number => Ok number
  | None =>
      (* 2) standalone 6-7 digit line *)
      match List.find (fullmatch number_re) lines with
      | Some ln => Ok ln
      | None =>
          (* 3) any 6-7 digit number anywhere *)
          match search number_anywhere_re raw_text with
          | Some g => Ok g
          | None => Ok []
          end
      end
  end.

Definition _extract_missoula_date (lines : list text) : text :=
  match first_some (search date_pattern) lines with
  | Some d => d
  | None => []
  end.

Definition _extract_missoula_total (raw_text : text) : result text :=
  let money_matches := findall money_re raw_text in
  if negb (truthy money_matches) then Ok []
  else
    let* parsed :=
      mapM (fun x => let* v := Float.py_float (Str.replace "," [] x) in Ok (v, x))
           money_matches in
    let nonzero := List.filter (fun p => Float.ltb Float.Zero (fst p)) parsed in
    let* best :=
      if truthy nonzero then py_max_by fst nonzero else py_max_by fst parsed in
    Ok (Str.replace "," [] (snd best)).

Definition _fallback_jobname (lines : list text) : text :=
  let bad := lits ["PAYMENT"; "GRANT"; "CREEK"; "EXCAVATING"; "MISSOULA";
                   "LANDFILL"; "GROSS"; "TARE"; "NET"; "WEIGHT"; "INVOICE";
                   "INBOUND"; "SCALE"; "SIGNATURE"] in
  match List.find
          (fun ln => fullmatch fallback_re ln
                     && negb (existsb (Str.contains (Str.upper ln)) bad))
          lines with
  | Some ln => ln
  | None => []
  end.

Definition weight_keywords : list text :=
  lits ["GROSS"; "TARE"; "NET"; "WEIGHT"; "SCALE"; "INBOUND"].

(** [for i in range(start_idx, min(start_idx + 6, len(lines)))] *)
Fixpoint after_second_date (lines : list text) (indices : list Z)
  : result (option text) :=
  match indices with
  | [] => Ok None
  | i :: indices' =>
      let* line := py_index lines i in
      let ln := Str.strip line in
      let up := Str.upper ln in
      if negb (truthy ln) then after_second_date lines indices'
      else if Str.isdigit ln then after_second_date lines indices'
      else if existsb (Str.contains up) weight_keywords
           then after_second_date lines indices'
      else Ok (Some ln)
  end.

Definition _extract_missoula_jobname (lines : list text) : result text :=
  let date_indices :=
    List.map fst
      (List.filter (fun p => match search date_pattern (snd p) with
                             | Some _ => true | None => false end)
                   (enumerate lines)) in
  if (len date_indices <? 2)%Z then Ok (_fallback_jobname lines)
  else
    let* second := py_index date_indices 1 in
    let start_idx := (second + 1)%Z in
    let* found :=
      after_second_date lines
        (py_range start_idx (Z.min (start_idx + 6) (len lines))) in
    match found with
    | Some ln => Ok ln
    | None => Ok (_fallback_jobname lines)
    end.

Definition _parse_missoula_landfill_page (raw_text : text) (page_number : Z)
  : result invoice :=
  let lines := Str.stripped_lines raw_text in
  let vendor := lit "Missoula Landfill" in
  let* invoice_number := _extract_missoula_invoice_number raw_text in
  let date := _extract_missoula_date lines in
  let* total := _extract_missoula_total raw_text in
  let* jobname := _extract_missoula_jobname lines in
  Ok (Invoice vendor invoice_number jobname date total page_number
        (Some raw_text) None).

Fixpoint pages_loop (doc : document) (indices : list Z) (results : list invoice)
  : result (list invoice) :=
  match indices with
  | [] => Ok results
  | page_index :: indices' =>
      let* raw_text := _extract_page_text doc page_index in
      let* parsed := _parse_missoula_landfill_page raw_text (page_index + 1) in
      pages_loop doc indices' (results ++ [parsed])
  end.

Definition parse_invoice (fs : filesystem) (pdf_path : text)
  : result (list invoice) :=
  match fs pdf_path with
  | Raise e =>
      Raise (RuntimeError
               (lit "Could not open PDF '" ^^ pdf_path ^^ "': " ^^ Dispatch.exn_str e))
  | Ok doc => pages_loop doc (py_range 0 (len doc)) []
  end.

(** The class of the pattern of [_clean_for_filename]: backslash, slash,
    colon, star, question mark, double quote, angle brackets and bar. *)
Definition illegal : list ascii :=
  ["\"; "/"; ":"; "*"; "?"; "034"; "<"; ">"; "|"]%char.

Definition illegal_re : pattern :=
  Pattern Eps (Chr (fun c => bool_decide (c ∈ illegal))) Eps.

Definition _clean_for_filename (value : text) : text :=
  if negb (truthy value) then []
  else
    let v := Str.strip value in
    let v := Str.replace "/" "-" v in
    let v := Str.replace " " [] v in
    sub illegal_re [] v.

(** Format A: [Vendor_Job_Date_Invoice_Total.pdf]. *)
Definition build_output_filename (inv : invoice) : text :=
  let vendor := _clean_for_filename (vendor inv) in
  let job := _clean_for_filename (jobname inv) in
  let date := _clean_for_filename (date inv) in
  let invoice := _clean_for_filename (invoice_number inv) in
  let total := _clean_for_filename (total inv) in
  let invoice := if negb (truthy invoice) then lit "NOINV" else invoice in
  let parts := [vendor; job; date; invoice; total] in
  let parts := List.filter truthy parts in
  let base := Str.join "_" parts in
  base ^^ ".pdf".

End MissoulaLandfillParser.

(** ** [core_main_parser.py] *)

Module CoreMainParser.

Import Regex.

Definition SKIP_PREFIXES : list text :=
  lits ["job #"; "bill of lading"; "shipped via"; "invoice#"; "invoice #";
        "invoice"; "date ordered"; "date shipped"].

(** [^[0-9]{1,2}/[0-9]{1,2}/[0-9]{2,4}$] *)
Definition DATE_RE : re :=
  Seqs [Bol; Rep digit 1 (Some 2); chr "/"; Rep digit 1 (Some 2); chr "/";
        Rep digit 2 (Some 4); Eol].

(** [^[A-Z0-9]{6,}$] *)
Definition code_re : re :=
  Seqs [Bol; Rep (Chr (fun c => Char.is_upper c || Char.is_digit c)) 6 None; Eol].

(** [Invoice\s*#\s*\n\s*([A-Z0-9]+)] with IGNORECASE *)
Definition invoice_re : pattern :=
  Pattern
    (Seqs [LitI "Invoice"; Star space; chr "#"; Star space; chr LF; Star space])
    (Plus (Chr Char.isalnum))
    Eps.

(** [Invoice Date\s*\n\s*([0-9/]+)] *)
Definition date_re : pattern :=
  Pattern
    (Seqs [Lit "Invoice Date"; Star space; chr LF; Star space])
    (Plus (Chr (fun c => Char.is_digit c || Char.same "/" c)))
    Eps.

(** [Total Amount Due\s*\n\s*\$?([0-9,]+\.[0-9]+)] *)
Definition total_body : re :=
  Seqs [Plus (Chr (fun c => Char.is_digit c || Char.same "," c)); chr ".";
        Plus digit].

Definition total_re : pattern :=
  Pattern
    (Seqs [Lit "Total Amount Due"; Star space; chr LF; Star space; Opt (chr "$")])
    total_body
    Eps.

(** The tests of the first inner loop that make it [continue]. *)
Definition skipped (nxt : text) : bool :=
  let low := Str.lower nxt in
  existsb (Str.startswith low) SKIP_PREFIXES
  || match_ DATE_RE nxt
  || match_ code_re nxt.

(** [for nxt in lines[idx+1:]]: the first line that is not skipped. *)
Fixpoint scan (nxts : list text) : option text :=
  match nxts with
  | [] => None
  | nxt :: nxts' => if skipped nxt then scan nxts' else Some (Str.strip nxt)
  end.

(** The tests of the inner loop of the fallback. *)
Definition skipped_fallback (nxt : text) : bool :=
  let low := Str.lower nxt in
  skipped nxt
  || existsb (text_eqb low) (lits ["job #"; "job#"; "job no"; "job number"]).

Fixpoint scan_fallback (nxts : list text) : option text :=
  match nxts with
  | [] => None
  | nxt :: nxts' =>
      if skipped_fallback nxt then scan_fallback nxts' else Some (Str.strip nxt)
  end.

Definition is_label (line : text) : bool :=
  Str.contains (Str.lower line) "customer po #"
  && Str.contains (Str.lower line) "job name".

(** The first loop over [enumerate(lines)]: it stops at the first label
    line, whatever the inner loop found. *)
Fixpoint primary_loop (rest : list text) (jobname : text) : text :=
  match rest with
  | [] => jobname
  | line :: rest' =>
      if is_label line
      then match scan rest' with Some found => found | None => jobname end
      else primary_loop rest' jobname
  end.

(** The loop of the fallback: every line equal to "job name" is tried
    until a job name is found. *)
Fixpoint secondary_loop (rest : list text) (jobname : text) : text :=
  match rest with
  | [] => jobname
  | line :: rest' =>
      let jobname :=
        if text_eqb (Str.lower line) "job name"
        then match scan_fallback rest' with Some found => found | None => jobname end
        else jobname in
      if negb (text_eqb jobname "UNKNOWN") then jobname
      else secondary_loop rest' jobname
  end.

Definition extract_jobname (lines : list text) : text :=
  let jobname := primary_loop lines "UNKNOWN" in
  if text_eqb jobname "UNKNOWN" then secondary_loop lines jobname else jobname.

(** The body of the loop of [parse_invoice] over the pages. *)
Definition parse_page (txt : text) (page_index : Z) : invoice :=
  let lines := Str.stripped_lines txt in
  let invoice_number :=
    match search invoice_re txt with Some g => Str.strip g | None => [] end in
  let date_str :=
    match search date_re txt with Some g => Str.strip g | None => [] end in
  let total :=
    match search total_re txt with
    | Some g => Str.replace "," [] g
    | None => []
    end in
  let jobname := extract_jobname lines in
  Invoice "Core & Main" invoice_number jobname date_str total
    (page_index + 1) None None.

Definition parse_invoice (fs : filesystem) (pdf_path : text)
  : result (list invoice) :=
  let* doc := fs pdf_path in
  Ok (fold_left (fun results p => results ++ [parse_page (snd p) (fst p)])
        (enumerate doc) []).

End CoreMainParser.

(** ** [Knife_River.py]: the six-line load blocks *)

Module KnifeRiver.

Import Regex.

(** [extract_job_name_from_text]: the line above ORIGINAL, or [None]. *)
Fixpoint job_name_loop (lines : list text) (i : Z) (rest : list text)
  : result (option text) :=
  match rest with
  | [] => Ok None
  | line :: rest' =>
      if text_eqb (Str.lower line) "original" && (0 <? i)%Z then
        let* candidate := py_index lines (i - 1) in
        if negb (Str.isdigit candidate) && (1 <? len candidate)%Z
        then Ok (Some candidate)
        else job_name_loop lines (i + 1) rest'
      else job_name_loop lines (i + 1) rest'
  end.

Definition extract_job_name_from_text (txt : text) : result (option text) :=
  let lines := Str.stripped_lines txt in
  job_name_loop lines 0 lines.

(** [[A-Z]{3}\d] *)
Definition is_truck_code (line : text) : bool :=
  fullmatch (Seqs [Times (Chr Char.is_upper) 3; digit]) line.

(** [\d+(\.\d+)?\s*TN] on [line.upper()] *)
Definition is_quantity_line (line : text) : bool :=
  fullmatch
    (Seqs [Plus digit; Opt (Seq (chr ".") (Plus digit)); Star space; Lit "TN"])
    (Str.upper line).

(** [\d+(\.\d{1,4})?] *)
Definition is_unit_price (line : text) : bool :=
  fullmatch (Seqs [Plus digit; Opt (Seq (chr ".") (Rep digit 1 (Some 4)))]) line.

(** [\d+(\.\d{2})] *)
Definition is_extended_price (line : text) : bool :=
  fullmatch (Seqs [Plus digit; Seq (chr ".") (Times digit 2)]) line.

Definition bad_words : list text :=
  lits ["item"; "description"; "special"; "instructions";
        "subtotal"; "total"; "sales"; "discount";
        "taxable"; "nontaxable"; "kr-mtn"; "quantity"].

(** [line.isdigit() and 5 <= len(line) <= 7]: a ticket number starts a
    block. *)
Definition starts_block (line : text) : bool :=
  Str.isdigit line && (5 <=? len line)%Z && (len line <=? 7)%Z.

(** The state of the loop of [extract_item_blocks]: the blocks found and
    the block being built ([current], empty when none is open). *)
Definition state := (list (list text) * list text)%type.

(** One turn of [for line in lines]. *)
Definition step (st : state) (line : text) : state :=
  let '(blocks, current) := st in
  if existsb (Str.contains (Str.lower line)) bad_words then (blocks, current)
  else if starts_block line then (blocks, [line])
  else if truthy current then
    let current := current ++ [line] in
    if (len current =? 6)%Z then
      match current with
      | [ticket; desc; truck; qty; unit; ext] =>
          if is_truck_code truck && is_quantity_line qty
             && is_unit_price unit && is_extended_price ext
          then (blocks ++ [current], [])
          else (blocks, [])
      | _ => (blocks, [])      (* not reached: [current] has six lines *)
      end
    else (blocks, current)
  else (blocks, current).

Definition extract_item_blocks (txt : text) : list (list text) :=
  let lines := Str.stripped_lines txt in
  fst (fold_left step lines ([], [])).

Record load := Load {
  job_name : option text;
  ticket : text;
  description : text;
  truck : text;
  quantity_tons : Float.float;
  unit_price : Float.float;
  extended_price : Float.float
}.

Definition parse_block (block : list text) (jobname : option text)
  : result load :=
  match block with
  | [ticket; desc; truck; qty; unit; ext] =>
      let* quantity := Float.py_float (Str.strip (Str.replace "TN" [] qty)) in
      let* unit_price := Float.py_float unit in
      let* extended := Float.py_float ext in
      Ok (Load jobname ticket desc truck quantity unit_price extended)
  | _ => Raise (ValueError ("not enough values to unpack" : string))
  end.

(** [batch_process_folder], what it does with the text of one file:
    the two filters, then the job name and the blocks; the result is
    what the file adds to [all_items]. *)
Definition process_text (txt : text) : result (list load) :=
  (* FILTER 1: must contain ORIGINAL *)
  if negb (Str.contains (Str.upper txt) "ORIGINAL") then Ok []
  else
    (* FILTER 2: must contain at least one truck code *)
    let words := Str.split_whitespace txt in
    let has_truck := existsb is_truck_code words in
    if negb has_truck then Ok []
    else
      let* jobname := extract_job_name_from_text txt in
      let blocks := extract_item_blocks txt in
      if negb (truthy blocks) then Ok []
      else mapM (fun block => parse_block block jobname) blocks.

(** The loop over the files of the folder; a file that cannot be read
    is skipped, and nothing catches what [parse_block] raises.  [None]
    is the folder without a PDF. *)
Fixpoint files_loop (texts : list (result text)) (all_items : list load)
  : result (list load) :=
  match texts with
  | [] => Ok all_items
  | Raise _ :: texts' => files_loop texts' all_items
  | Ok txt :: texts' =>
      let* items := process_text txt in
      files_loop texts' (all_items ++ items)
  end.

Definition batch_process_folder (texts : list (result text))
  : result (option (list load)) :=
  if negb (truthy texts) then Ok None
  else let* all_items := files_loop texts [] in Ok (Some all_items).

End KnifeRiver.

(** ** [KNSplit.py]: one file for each page *)

Module KNSplit.

(** The name of the file of a page. *)
Definition filename (inv : invoice) : text :=
  let vendor := Str.replace " " [] (vendor inv) in
  let job := Str.replace " " [] (Str.replace "/" "-" (jobname inv)) in
  let date := Str.replace "/" "-" (date inv) in
  let total := total inv in
  vendor ^^ "_" ^^ job ^^ "_" ^^ date ^^ "_" ^^ total ^^ ".pdf".

(** [split]: the output folder is the table of its files, each with the
    index of the page that was saved in it; saving under a name that is
    taken replaces the file.  The pages of the records are pages of the
    document, as [knife_river_parser.parse_invoice] numbers them.  The
    result is the folder afterwards and [count]. *)
Definition split (parsed_pages : list invoice) (output_folder : gmap text Z)
  : gmap text Z * Z :=
  fold_left
    (fun st inv =>
       let '(folder, count) := st in
       let page_number := (page inv - 1)%Z in
       (<[filename inv := page_number]> folder, (count + 1)%Z))
    parsed_pages (output_folder, 0%Z).

End KNSplit.

(** ** [Farwest.py]: the five-line items *)

Module Farwest.

Import Regex.

(** The line after "Invoice #", without its "#", or [None]. *)
Fixpoint invoice_number_loop (lines : list text) (i : Z) (rest : list text)
  : result (option text) :=
  match rest with
  | [] => Ok None
  | ln :: rest' =>
      if text_eqb (Str.lower ln) "invoice #" && (i + 1 <? len lines)%Z then
        let* next := py_index lines (i + 1) in
        Ok (Some (Str.strip (Str.replace "#" [] next)))
      else invoice_number_loop lines (i + 1) rest'
  end.

Definition extract_invoice_number (txt : text) : result (option text) :=
  let lines := Str.stripped_lines txt in
  invoice_number_loop lines 0 lines.

(** The line after "JOB", or [None]. *)
Fixpoint job_name_loop (lines : list text) (i : Z) (rest : list text)
  : result (option text) :=
  match rest with
  | [] => Ok None
  | ln :: rest' =>
      if text_eqb (Str.lower ln) "job" && (i + 1 <? len lines)%Z then
        let* next := py_index lines (i + 1) in
        Ok (Some (Str.strip next))
      else job_name_loop lines (i + 1) rest'
  end.

Definition extract_job_name (txt : text) : result (option text) :=
  let lines := Str.stripped_lines txt in
  job_name_loop lines 0 lines.

(** [\d+(\.\d+)?] *)
Definition decimal_re : re := Seqs [Plus digit; Opt (Seq (chr ".") (Plus digit))].

(** [\d{1,2}/\d{1,2}/\d{4}] *)
Definition date_re : re :=
  Seqs [Rep digit 1 (Some 2); chr "/"; Rep digit 1 (Some 2); chr "/";
        Times digit 4].

Record item := Item {
  job_name : option text;
  invoice_number : option text;
  date : text;
  description : text;
  quantity_tons : Float.float;
  unit_price : Float.float;
  extended_price : Float.float
}.

(** [k < len(lines) and re.fullmatch(r, lines[k])] *)
Definition slot_matches (lines : list text) (k : Z) (r : re) : result bool :=
  if (k <? len lines)%Z
  then let* line := py_index lines k in Ok (fullmatch r line)
  else Ok false.

(** The loop [while i < len(lines)]; [fuel] bounds its turns. *)
Fixpoint items_loop (fuel : nat) (lines : list text)
    (job_name invoice_number : option text) (i : Z) (items : list item)
  : result (list item) :=
  if negb (i <? len lines)%Z then Ok items
  else
    match fuel with
    | O => Raise OutOfFuel
    | S fuel' =>
        let continue_at i items :=
          items_loop fuel' lines job_name invoice_number i items in
        let* line := py_index lines i in
        (* quantity *)
        if fullmatch decimal_re line then
          let* qty := Float.py_float line in
          (* extended amount *)
          let* has_extended := slot_matches lines (i + 1) decimal_re in
          if has_extended then
            let* line1 := py_index lines (i + 1) in
            let* extended := Float.py_float line1 in
            (* date *)
            let* has_date := slot_matches lines (i + 2) date_re in
            if has_date then
              let* date := py_index lines (i + 2) in
              (* description *)
              let* description :=
                if (i + 3 <? len lines)%Z then py_index lines (i + 3) else Ok [] in
              (* unit price *)
              let* has_unit := slot_matches lines (i + 4) decimal_re in
              let* unit_price :=
                if has_unit
                then let* line4 := py_index lines (i + 4) in Float.py_float line4
                else Ok Float.Zero in
              continue_at (i + 5)%Z
                (items ++ [Item job_name invoice_number date description
                             qty unit_price extended])
            else continue_at (i + 1)%Z items
          else continue_at (i + 1)%Z items
        else continue_at (i + 1)%Z items
    end.

Definition extract_line_items (txt : text)
    (job_name invoice_number : option text) : result (list item) :=
  let lines := Str.stripped_lines txt in
  items_loop (length lines) lines job_name invoice_number 0 [].

End Farwest.

(** ** The parser that [vender_parser_wizard.py] generates

    [generate_parser_code] writes the text of a parser module whose
    [detect_*] functions search the patterns picked in the wizard; the
    [parse_invoice] of the template [vendor_parser_template.py] has the
    same loop and the same return, without the work number.  The
    detectors are the parameters of the model. *)

Module GeneratedParser.

Section Detectors.

(** A detector returns a string or raises. *)
Variables detect_vendor_name detect_invoice_number detect_jobname
          detect_invoice_date detect_invoice_total detect_work_number
  : text -> result text.

Definition extract_pdf_text (fs : filesystem) (pdf_path : text)
  : result (list (Z * text)) :=
  let* doc := fs pdf_path in
  Ok (fold_left (fun pages p => pages ++ [((fst p + 1)%Z, snd p)])
        (enumerate doc) []).

(** The dictionary of a page: its values are computed in the order of
    its keys, and nothing catches what a detector raises. *)
Definition page_record (page_num : Z) (txt : text) : result invoice :=
  let* vendor := detect_vendor_name txt in
  let* invoice_number := detect_invoice_number txt in
  let* jobname := detect_jobname txt in
  let* date := detect_invoice_date txt in
  let* total := detect_invoice_total txt in
  let* work_number := detect_work_number txt in
  Ok (Invoice vendor invoice_number jobname date total page_num None
        (Some work_number)).

(** [for page_num, text in pages] *)
Fixpoint pages_loop (pages : list (Z * text)) (results : list invoice)
  : result (list invoice) :=
  match pages with
  | [] => Ok results
  | p :: pages' =>
      let* inv := page_record (fst p) (snd p) in
      pages_loop pages' (results ++ [inv])
  end.

Definition parse_invoice (fs : filesystem) (pdf_path : text) : result parsed :=
  let* pages := extract_pdf_text fs pdf_path in
  let* results := pages_loop pages [] in
  (* return results[0] if len(results) == 1 else results *)
  if (len results =? 1)%Z
  then let* first := py_index results 0 in Ok (PDict first)
  else Ok (PList results).

End Detectors.

(** The parser that the wizard generates from its fields. *)
Definition of_wizard (f : ParserWizard.fields) : filesystem -> text -> result parsed :=
  let rule field := ParserWizard.detect (ParserWizard.field_pattern field) in
  parse_invoice
    (rule (ParserWizard.f_vendor f)
       (ParserWizard.field_value (ParserWizard.f_vendor f)))
    (rule (ParserWizard.f_invoice_num f) [])
    (rule (ParserWizard.f_jobname f) [])
    (rule (ParserWizard.f_date f) [])
    (rule (ParserWizard.f_total f) [])
    (rule (ParserWizard.f_work_number f) []).

End GeneratedParser.

(** ** What a pattern denotes

    [matches r prev w rest]: the pattern [r] matches the word [w] when
    the character before it is [prev] and the input goes on with
    [rest]; the context is what [\b], [^] and [$] look at. *)

Module RegexSem.

Import Regex.

Inductive matches : re -> option ascii -> text -> text -> Prop :=
| M_eps prev rest :
    matches Eps prev [] rest
| M_chr p c prev rest :
    p c = true ->
    matches (Chr p) prev [c] rest
| M_seq a b prev w1 w2 rest :
    matches a prev w1 (w2 ++ rest) ->
    matches b (last_read prev w1) w2 rest ->
    matches (Seq a b) prev (w1 ++ w2) rest
| M_alt_l a b prev w rest :
    matches a prev w rest ->
    matches (Alt a b) prev w rest
| M_alt_r a b prev w rest :
    matches b prev w rest ->
    matches (Alt a b) prev w rest
| M_rep_stop a hi prev rest :
    matches (Rep a 0 hi) prev [] rest
| M_rep_more a lo hi prev w1 w2 rest :
    hi <> Some 0%nat ->
    matches a prev w1 (w2 ++ rest) ->
    matches (Rep a (pred lo) (option_map pred hi)) (last_read prev w1) w2 rest ->
    matches (Rep a lo hi) prev (w1 ++ w2) rest
| M_wordb prev rest :
    xorb (word_before prev) (word_after rest) = true ->
    matches WordB prev [] rest
| M_bol rest :
    matches Bol None [] rest
| M_eol prev rest :
    at_end rest = true ->
    matches Eol prev [] rest.

(** The words of a pattern, whatever the context. *)
Definition in_language (r : re) (w : text) : Prop :=
  exists prev rest, matches r prev w rest.

(** Every character of [w] is in the class [p]. *)
Definition every (p : ascii -> bool) (w : text) : Prop :=
  Forall (fun c => p c = true) w.

(** The characters a pattern can read. *)
Fixpoint charset (r : re) (c : ascii) : bool :=
  match r with
  | Chr p => p c
  | Seq a b | Alt a b => charset a c || charset b c
  | Rep a _ _ => charset a c
  | Eps | WordB | Bol | Eol => false
  end.

End RegexSem.

(** ** The vocabulary of the properties *)

Module Spec.

Import RegexSem.

(** Digits, at least one before the point and at least one after it. *)
Definition plain_decimal (t : text) : Prop :=
  exists x y, t = x ++ "."%char :: y
              /\ x <> [] /\ every Char.is_digit x
              /\ y <> [] /\ every Char.is_digit y.

(** Only digits and exactly one decimal point. *)
Definition digits_and_one_point (t : text) : bool :=
  forallb (fun c => Char.is_digit c || Char.same "." c) t
  && (count_occ ascii_dec t "."%char =? 1)%nat.

(** Only digits, and between [lo] and [hi] of them. *)
Definition digits_between (lo : nat) (hi : option nat) (t : text) : Prop :=
  every Char.is_digit t /\ (lo <= length t)%nat
  /\ (forall h, hi = Some h -> (length t <= h)%nat).

(** A block of [Knife_River.py] whose slots all pass their validators;
    the description has none. *)
Definition knife_river_block_valid (block : list text) : bool :=
  match block with
  | [ticket; desc; truck; qty; unit; ext] =>
      KnifeRiver.starts_block ticket && KnifeRiver.is_truck_code truck
      && KnifeRiver.is_quantity_line qty && KnifeRiver.is_unit_price unit
      && KnifeRiver.is_extended_price ext
  | _ => false
  end.

(** The unit price that [Farwest.py] gives the window at line [i]: the
    number in the fifth line when that line is a decimal number, and 0.0
    when the line is missing or is no decimal number. *)
Definition farwest_unit_price (lines : list text) (i : Z) (v : Float.float)
  : Prop :=
  (exists unit, py_index lines (i + 4) = Ok unit
                /\ Regex.fullmatch Farwest.decimal_re unit = true
                /\ Float.py_float unit = Ok v)
  \/ (v = Float.Zero
      /\ ((len lines <= i + 4)%Z
          \/ exists unit, py_index lines (i + 4) = Ok unit
                          /\ Regex.fullmatch Farwest.decimal_re unit = false)).

(** The item [it] was read in the window that starts at line [i]: the
    quantity, the extended amount and the date passed their validators. *)
Definition farwest_item_from (lines : list text) (i : Z) (it : Farwest.item)
  : Prop :=
  exists qty extended,
    (0 <= i)%Z /\ (i + 2 < len lines)%Z
    /\ py_index lines i = Ok qty
    /\ Regex.fullmatch Farwest.decimal_re qty = true
    /\ Float.py_float qty = Ok (Farwest.quantity_tons it)
    /\ py_index lines (i + 1) = Ok extended
    /\ Regex.fullmatch Farwest.decimal_re extended = true
    /\ Float.py_float extended = Ok (Farwest.extended_price it)
    /\ py_index lines (i + 2) = Ok (Farwest.date it)
    /\ Regex.fullmatch Farwest.date_re (Farwest.date it) = true
    /\ (if (i + 3 <? len lines)%Z then py_index lines (i + 3) else Ok [])
       = Ok (Farwest.description it)
    /\ farwest_unit_price lines i (Farwest.unit_price it).

(** A candidate that the Knife River job name rule turns down: empty,
    or one of the words to skip. *)
Definition knife_river_turned_down (candidate : text) : bool :=
  negb (truthy candidate
        && negb (bool_decide (Str.upper candidate ∈ KnifeRiverParser.bad_words))).

(** One record per page, in the order of the pages, numbered from 1. *)
Definition pages_in_order (doc : document) (records : list invoice) : Prop :=
  length records = length doc
  /\ forall i r, nth_error records i = Some r -> page r = (Z.of_nat i + 1)%Z.

(** The characters of a module name. *)
Definition name_char (c : ascii) : bool := Char.isalnum c || Char.same "_" c.

(** The number a monetary string stands for: [float] of the string
    without its commas (zero where [float] raises). *)
Definition amount (x : text) : Float.float :=
  match Float.py_float (Str.replace "," [] x) with
  | Ok v => v
  | Raise _ => Float.Zero
  end.

(** [best] is the first of the greatest elements of [l]. *)
Definition first_max {A} (key : A -> Float.float) (l : list A) (best : A)
  : Prop :=
  exists before after,
    l = before ++ best :: after
    /\ Forall (fun y => Float.ltb (key y) (key best) = true) before
    /\ Forall (fun y => Float.leb (key y) (key best) = true) after.

(** [x] is a binary64 number with a mantissa of 53 bits, at most half a
    unit in the last place away from the decimal number
    [digits / 10^scale]. *)
Definition nearest_binary64 (x : Float.float) (digits : Z) (scale : nat)
  : Prop :=
  match x with
  | Float.Finite m e =>
      (2 ^ 52 <= Z.pos m < 2 ^ 53)%Z /\ (-1074 <= e <= 971)%Z
      /\ (2 * Z.abs (Z.pos m * 2 ^ (e + 1074) * 10 ^ Z.of_nat scale
                     - digits * 2 ^ 1074)
          <= 2 ^ (e + 1074) * 10 ^ Z.of_nat scale)%Z
  | _ => False
  end.

(** [n] stands in [raw_text] as a whole word: no letter, digit or
    underscore touches it on either side. *)
Definition whole_word (raw_text n : text) : Prop :=
  exists before after,
    raw_text = before ++ n ++ after
    /\ Regex.word_before (Regex.last_read None before) = false
    /\ Regex.word_after after = false.

(** [t] is what is left of a line of [txt] after [anchor] and the blanks
    that follow it, without the blanks at its ends. *)
Definition rest_of_line_after (anchor txt t : text) : Prop :=
  exists before blanks g after,
    txt = before ++ anchor ++ blanks ++ g ++ after
    /\ every Char.isspace blanks
    /\ g <> [] /\ ~ In LF g
    /\ t = Str.strip g.

(** Every detector returns a string on every page of [doc]. *)
Definition detectors_return (detectors : list (text -> result text))
    (doc : document) : Prop :=
  forall detect txt,
    In detect detectors -> In txt doc -> exists v, detect txt = Ok v.

End Spec.

(** ** Sentences of the specification, as it words them

    Each is compared with the code further down. *)

Module Claim.

(** The normalized vendor key: lower case, the characters that are
    neither alphanumeric nor blank removed, the blanks collapsed to
    single underscores. *)
Definition normalized_key (vendor_key : text) : text :=
  let kept :=
    List.filter (fun c => Char.isalnum c || Char.isspace c)
      (Str.lower vendor_key) in
  let spaced := List.map (fun c => if Char.isspace c then " "%char else c) kept in
  Str.join "_" (List.filter truthy (Str.split " " spaced)).

(** Vendor dispatch retries a key that has no exact match with the
    normalized key: in [invoice_sorter_ui.py], the module looked for is
    named after the normalized key; *)
Definition derive_retries_normalized_key : Prop :=
  forall vendor_key,
    Dispatch.VENDOR_ALIASES !! Str.strip (Str.lower vendor_key) = None ->
    Dispatch.derive_vendor_module vendor_key
    = normalized_key vendor_key ^^ "_parser".

(** in [vendor_manager.py], a parser registered under the normalized
    key is found. *)
Definition get_vendor_parser_retries_normalized_key : Prop :=
  forall (mods : Dispatch.importable unit) vendor_key module f,
    mods !! (Dispatch.VENDOR_PARSER_FOLDER ^^ "."
               ^^ normalized_key vendor_key ^^ "_parser") = Some module ->
    module !! (lit "parse_" ^^ normalized_key vendor_key ^^ "_pdf") = Some f ->
    Dispatch.get_vendor_parser mods vendor_key = Ok f.

Definition dispatch_retries_normalized_key : Prop :=
  derive_retries_normalized_key /\ get_vendor_parser_retries_normalized_key.

(** Every item that [Farwest.py] emits comes from a window all of whose
    validated slots passed, the unit price too. *)
Definition farwest_every_slot_validated : Prop :=
  forall txt job_name invoice_number items,
    Farwest.extract_line_items txt job_name invoice_number = Ok items ->
    Forall
      (fun it =>
         exists i unit,
           Spec.farwest_item_from (Str.stripped_lines txt) i it
           /\ py_index (Str.stripped_lines txt) (i + 4) = Ok unit
           /\ Regex.fullmatch Farwest.decimal_re unit = true)
      items.

(** The job name rule of Core & Main gives the empty string when its
    label line is found and no line after it qualifies. *)
Definition core_main_jobname_empty_when_nothing_qualifies : Prop :=
  forall before label after,
    Forall (fun line => CoreMainParser.is_label line = false) before ->
    CoreMainParser.is_label label = true ->
    Forall (fun nxt => CoreMainParser.skipped nxt = true) after ->
    CoreMainParser.extract_jobname (before ++ label :: after) = [].

(** [parse_invoice] of a generated parser returns a list of records,
    one per page, whatever their number. *)
Definition generated_parser_returns_a_list : Prop :=
  forall (found : text -> text) fs pdf_path doc,
    fs pdf_path = Ok doc ->
    let detect := fun txt => Ok (found txt) in
    exists records,
      GeneratedParser.parse_invoice detect detect detect detect detect detect
        fs pdf_path = Ok (PList records)
      /\ length records = length doc.


(** The invoice number of Missoula Landfill is never a part of a token:
    it is empty or one of the words of the page that blanks separate. *)
Definition invoice_number_is_a_token : Prop :=
  forall raw_text n,
    MissoulaLandfillParser._extract_missoula_invoice_number raw_text = Ok n ->
    n = [] \/ In n (Str.split_whitespace raw_text).

(** In [Farwest.py], a line that matches the window-start predicate
    while a window is open discards the window and opens a new one at
    that line: the loop goes on from that line and the open window emits
    nothing. *)
Definition farwest_start_line_resets : Prop :=
  forall lines job_name invoice_number fuel i items,
    (0 <= i)%Z ->
    Farwest.slot_matches lines i Farwest.decimal_re = Ok true ->
    Farwest.slot_matches lines (i + 1) Farwest.decimal_re = Ok true ->
    Farwest.items_loop (S fuel) lines job_name invoice_number i items
    = Farwest.items_loop fuel lines job_name invoice_number (i + 1) items.

End Claim.

(** ** Notions of the proofs *)

Module Aux.

Import Regex RegexSem Spec.

(** A matcher for [a] is sound: what it hands to its continuation is
    what is left after a word of [a]. *)
Definition sound_for {A} (a : re)
    (ma : option ascii -> text -> cont A -> option A) : Prop :=
  forall prev s k x,
    ma prev s k = Some x ->
    exists w rest,
      s = w ++ rest /\ matches a prev w rest /\ k (last_read prev w) rest = Some x.

(** The invoice number and the date of a Knife River page. *)
Definition page_invoice_number (raw_text : text) : text :=
  match List.find (fullmatch KnifeRiverParser.invoice_re)
          (Str.stripped_lines raw_text) with
  | Some ln => ln
  | None => []
  end.

Definition page_date (raw_text : text) : text :=
  match first_some (search KnifeRiverParser.date_re)
          (Str.stripped_lines raw_text) with
  | Some d => d
  | None => []
  end.

(** One turn of the loop of [max]. *)
Definition keep_greater {A} (key : A -> Float.float) (best y : A) : A :=
  if Float.ltb (key best) (key y) then y else best.

(** An index within a list. *)
Definition in_range {A} (l : list A) (j : Z) : Prop := (0 <= j < len l)%Z.

(** A candidate of the total, with what [float] reads in it. *)
Definition priced (x : text) : Float.float * text := (amount x, x).

(** What the loop of [extract_item_blocks] keeps true: the blocks found
    are valid and an open block starts with a ticket number. *)
Definition blocks_invariant (st : KnifeRiver.state) : Prop :=
  Forall (fun b => knife_river_block_valid b = true) (fst st)
  /\ match snd st with
     | [] => True
     | ticket :: _ => KnifeRiver.starts_block ticket = true
     end.

(** An item of [Farwest.py] that comes from some window. *)
Definition emitted (lines : list text) (it : Farwest.item) : Prop :=
  exists i, farwest_item_from lines i it.

Definition not_original (line : text) : Prop :=
  text_eqb (Str.upper line) "ORIGINAL" = false.

Definition not_anchor (line : text) : Prop :=
  text_eqb (Str.lower line) "job name" = false.

Definition not_job (line : text) : Prop :=
  text_eqb (Str.lower line) "job" = false.

(** The lines of scenarios A and B of the specification. *)
Definition scenario_a : text :=
  Str.join [LF] (lits ["65.31"; "641.34"; "10/1/2025"; "3/4 Base"; "9.82"]).

Definition scenario_b : text :=
  Str.join [LF] (lits ["123456"; "Base Rock"; "ABC1"; "12.50 TN"; "9.82"; "122.75"]).

End Aux.

(** ** Notions of the further properties *)

Module Notions.

(** The longest start of [s] made of characters of the class [p], and
    what follows it. *)
Fixpoint run_of (p : ascii -> bool) (s : text) : text :=
  match s with
  | c :: s' => if p c then c :: run_of p s' else []
  | [] => []
  end.

Fixpoint after_run (p : ascii -> bool) (s : text) : text :=
  match s with
  | c :: s' => if p c then after_run p s' else s
  | [] => []
  end.

(** [s] with every run of characters of the class [p] replaced by
    [repl]; [in_run] tells that the character before was of the class. *)
Fixpoint replace_runs (p : ascii -> bool) (repl : text) (in_run : bool)
    (s : text) : text :=
  match s with
  | [] => []
  | c :: s' =>
      if p c
      then (if in_run then [] else repl) ++ replace_runs p repl true s'
      else c :: replace_runs p repl false s'
  end.

(** No two characters of the class [p] next to each other. *)
Definition no_two (p : ascii -> bool) (s : text) : Prop :=
  forall pre a b post,
    s = pre ++ a :: b :: post -> p a = true -> p b = true -> False.

(** The characters that [make_parser_name] keeps. *)
Definition kept (c : ascii) : bool :=
  Char.is_lower c || Char.is_digit c || Char.same " " c.

Definition stem_char (c : ascii) : bool :=
  Char.is_lower c || Char.is_digit c || Char.same "_" c.

(** The name before its blanks become underscores. *)
Definition spaced (folder_name : text) : text :=
  Str.strip
    (Regex.sub ListVendors.spaces_re " "
       (Regex.sub ListVendors.other_re []
          (Str.replace "-" " " (Str.replace "&" [] (Str.lower folder_name))))).

(** The words of [s]: its maximal runs of characters that are no
    separator. *)
Fixpoint words (sep : ascii -> bool) (s : text) : list text :=
  match s with
  | [] => []
  | c :: s' =>
      if sep c then words sep s'
      else
        match s' with
        | [] => [[c]]
        | d :: _ =>
            if sep d then [c] :: words sep s'
            else match words sep s' with
                 | w :: ws => (c :: w) :: ws
                 | [] => [[c]]
                 end
        end
  end.

Definition not_alnum (c : ascii) : bool := negb (Char.isalnum c).

(** The module name that [derive_vendor_module] forms from the folder
    name in lower case and stripped, when it looks at no alias. *)
Definition cleaned_name (raw : text) : text :=
  let cleaned :=
    List.map (fun ch => if Char.isalnum ch then ch else "_"%char) raw in
  Str.join "_" (List.filter truthy (Str.split "_" cleaned)) ^^ "_parser".

(** The characters of a plain folder name: letters, digits, spaces and
    hyphens. *)
Definition plain_char (c : ascii) : bool :=
  Char.is_alpha c || Char.is_digit c || Char.same " " c || Char.same "-" c.

(** A character that may stand in the name of a file: none of the class
    of [_clean_for_filename], and no space. *)
Definition legal_char (c : ascii) : Prop :=
  (c ∉ MissoulaLandfillParser.illegal) /\ c <> " "%char.

(** A parser module as the repository writes them and as the wizard
    generates them: [parse_invoice] is its only name that starts with
    [parse_]. *)
Definition parse_invoice_only {parse_fn} (module : Dispatch.py_module parse_fn)
  : Prop :=
  forall name f,
    module !! name = Some f ->
    Str.startswith name "parse_" = true -> name = lit "parse_invoice".

(** The module that the wizard generates, with [f] for its functions. *)
Definition generated_module {parse_fn} (f : parse_fn)
  : Dispatch.py_module parse_fn :=
  list_to_map (List.map (fun name => (name, f)) ParserWizard.generated_names).

(** A text that is empty or ends with a blank, and one that is empty or
    starts with a blank. *)
Definition ends_blank (s : text) : Prop :=
  match rev s with d :: _ => Char.isspace d = true | [] => True end.

Definition starts_blank (s : text) : Prop :=
  match s with d :: _ => Char.isspace d = true | [] => True end.

(** [w] stands in [s] between blanks or the ends of [s]. *)
Definition stands_in (s w : text) : Prop :=
  exists before after,
    s = before ++ w ++ after /\ ends_blank before /\ starts_blank after.

(** The blocks and the open block of [extract_item_blocks] are made of
    lines of the text. *)
Definition made_of (lines : list text) (st : KnifeRiver.state) : Prop :=
  Forall (Forall (fun line => In line lines)) (fst st)
  /\ Forall (fun line => In line lines) (snd st).

(** A numeral without sign or exponent: digits, or digits around one
    point. *)
Definition numeral (t : text) : Prop :=
  (t <> [] /\ RegexSem.every Char.is_digit t) \/ Spec.plain_decimal t.

(** The two letters of a unit of weight, in either case. *)
Definition unit_letters (u : text) : Prop :=
  exists c1 c2, u = [c1; c2] /\ Char.upper c1 = "T"%char /\ Char.upper c2 = "N"%char.

(** The quantity line of a block ends with the unit in capitals. *)
Definition capital_unit (block : list text) : bool :=
  match block with
  | [_; _; _; qty; _; _] => Str.endswith qty "TN"
  | _ => true
  end.

(** A date written with slashes: month and day of [lo] to [hi] digits,
    year of [year] digits. *)
Definition slash_date (lo hi year : nat) (t : text) : Prop :=
  exists m d y,
    t = m ++ "/"%char :: d ++ "/"%char :: y
    /\ Spec.digits_between lo (Some hi) m
    /\ Spec.digits_between lo (Some hi) d
    /\ Spec.digits_between year (Some year) y.

(** What [auto_highlight_job] compares: the name in lower case, without
    its spaces. *)
Definition job_key (name : text) : text := Str.replace " " [] (Str.lower name).

(** A row whose first cell holds a date, and one whose first cell holds
    nothing or the empty string. *)
Definition dated (ws : InvoiceSorterUI.sheet) (row : Z) : Prop :=
  exists value, InvoiceSorterUI.cell ws row 1 = Some value /\ value <> [].

Definition undated (ws : InvoiceSorterUI.sheet) (row : Z) : Prop :=
  InvoiceSorterUI.cell ws row 1 = None \/ InvoiceSorterUI.cell ws row 1 = Some [].

(** What a cell keeps of a string that is written in it: its first
    32767 characters. *)
Definition stored (value : text) : text := firstn (Z.to_nat 32767) value.

(** The row [row] holds the four fields of the invoice, as the cells keep
    them. *)
Definition holds (ws : InvoiceSorterUI.sheet) (row : Z) (inv : invoice) : Prop :=
  InvoiceSorterUI.cell ws row 1 = Some (stored (date inv))
  /\ InvoiceSorterUI.cell ws row 2 = Some (stored (vendor inv))
  /\ InvoiceSorterUI.cell ws row 3 = Some (stored (invoice_number inv))
  /\ InvoiceSorterUI.cell ws row 4 = Some (stored (total inv)).

(** The four fields that [add_to_summary] writes. *)
Definition written_fields (inv : invoice) : list text :=
  [date inv; vendor inv; invoice_number inv; total inv].


(** A string with a character that the sheet refuses among those that a
    cell would keep. *)
Definition refused (value : text) : bool :=
  existsb InvoiceSorterUI.illegal_character (stored value).

(** The entry [i] was staged by [secret_auto_stage]: with a job of the
    list that is the job name of its record, up to case and to the blanks
    around. *)
Definition auto_staged (jobnames : list text) (i : InvoiceSorterUI.info)
  : Prop :=
  exists job record,
    InvoiceSorterUI.info_jobname i = Some job
    /\ InvoiceSorterUI.info_staged i = true
    /\ InvoiceSorterUI.info_parsed i = Some record
    /\ In job jobnames
    /\ Str.strip (Str.lower job) = Str.lower (Str.strip (jobname record)).

(** The entry of the path [p] is staged, or not, as it was in
    [before]. *)
Definition staged_as_before (before : gmap text InvoiceSorterUI.info)
    (p : text) (i : InvoiceSorterUI.info) : Prop :=
  let old := default InvoiceSorterUI.new_info (before !! p) in
  InvoiceSorterUI.info_staged i = InvoiceSorterUI.info_staged old
  /\ InvoiceSorterUI.info_jobname i = InvoiceSorterUI.info_jobname old.

(** What [secret_auto_stage] keeps true of [self.invoice_info]. *)
Definition staging_invariant (jobnames : list text)
    (before now : gmap text InvoiceSorterUI.info) : Prop :=
  forall p,
    match now !! p with
    | Some i => staged_as_before before p i \/ auto_staged jobnames i
    | None => before !! p = None
    end.

End Notions.

(** The characters that are no blank, and [re.sub("\s+", " ", s)]. *)
Abbreviation solid := (fun c : ascii => negb (Char.isspace c)).
Abbreviation collapse := (Notions.replace_runs Char.isspace [" "%char]).


(** * Properties *)

(** Case analysis on the condition of the first [if] of the goal. *)
Ltac case_if :=
  match goal with
  | |- context [if ?b then _ else _] => destruct b eqn:?
  end.

Lemma text_eqb_eq (a b : text) : text_eqb a b = true <-> a = b.
Proof. unfold text_eqb. apply bool_decide_eq_true. Qed.

(** ** The model on small inputs *)

Module Examples.

Example float_12_50 :
  Float.py_float "12.50" = Ok (Float.Finite 7036874417766400 (-49)).
Proof. vm_compute. reflexivity. Qed.

Example float_one_tenth :
  Float.py_float " 0.1 " = Ok (Float.Finite 0x1999999999999a (-56)).
Proof. vm_compute. reflexivity. Qed.

(** A tie between two neighbours goes to the even one. *)
Example float_tie :
  Float.py_float "9007199254740993" = Ok (Float.Finite 0x10000000000000 1).
Proof. vm_compute. reflexivity. Qed.

Example float_with_unit :
  Float.py_float "12.50 tn"
  = Raise (ValueError ("could not convert string to float" : string)).
Proof. vm_compute. reflexivity. Qed.

Example splitlines_crlf :
  Str.splitlines (lit "a" ^^ ["010"%char; "013"%char; "010"%char] ^^ "b c " ^^ [LF])
  = lits ["a"; ""; "b c "].
Proof. vm_compute. reflexivity. Qed.

Example findall_money :
  Regex.findall MissoulaLandfillParser.money_re
    "a $10.00 b $1,250.755 $1234.00 $12,34.00 $90.00$1.2"
  = lits ["10.00"; "1,250.75"; "90.00"].
Proof. vm_compute. reflexivity. Qed.

Example derive_alias :
  Dispatch.derive_vendor_module "Core & Main" = "core_main_parser".
Proof. vm_compute. reflexivity. Qed.

Example derive_cleaned :
  Dispatch.derive_vendor_module " A&B  Supply-Co. " = "a_b_supply_co_parser".
Proof. vm_compute. reflexivity. Qed.

Example missoula_total_commas :
  MissoulaLandfillParser._extract_missoula_total
    "Fee $10.00 Total $1,250.75 Tax $90.00"
  = Ok (lit "1250.75").
Proof. vm_compute. reflexivity. Qed.

(** Scenario C of the specification: the value on the line after its
    anchor. *)
Example core_main_invoice_number :
  Regex.search CoreMainParser.invoice_re (lit "Invoice #" ^^ [LF] ^^ "12345")
  = Some (lit "12345").
Proof. vm_compute. reflexivity. Qed.

Example core_main_page :
  CoreMainParser.parse_page
    (Str.join [LF]
       (lits ["INVOICE #"; " ab12 x"; "Total Amount Due "; "$1,234.5";
              "Customer PO # / Job Name"; "10/1/2025"; "Main St"])) 0
  = Invoice "Core & Main" "ab12" "Main St" "" "1234.5" 1 None None.
Proof. vm_compute. reflexivity. Qed.

Example knife_river_blocks :
  KnifeRiver.extract_item_blocks Aux.scenario_b
  = [lits ["123456"; "Base Rock"; "ABC1"; "12.50 TN"; "9.82"; "122.75"]].
Proof. vm_compute. reflexivity. Qed.

(** Scenario A of the specification. *)
Example farwest_items :
  Farwest.extract_line_items Aux.scenario_a None None
  = Ok [Farwest.Item None None "10/1/2025" "3/4 Base"
          (Float.of_decimal 6531 2) (Float.of_decimal 982 2)
          (Float.of_decimal 64134 2)].
Proof. vm_compute. reflexivity. Qed.

(** A quantity in lower case passes [is_quantity_line], which reads
    [line.upper()], and then stops [parse_block], which removes "TN"
    only. *)
Example parse_block_lower_case_unit :
  KnifeRiver.is_quantity_line "12.50 tn" = true
  /\ KnifeRiver.parse_block
       (lits ["123456"; "Base Rock"; "ABC1"; "12.50 tn"; "9.82"; "122.75"]) None
     = Raise (ValueError ("could not convert string to float" : string)).
Proof. split; vm_compute; reflexivity. Qed.

End Examples.

(** ** The matcher is sound for the semantics of patterns *)

Module RegexFacts.

Import Regex RegexSem Aux.

Lemma last_read_nil prev : last_read prev [] = prev.
Proof. reflexivity. Qed.

Lemma last_read_app prev w1 w2 :
  last_read prev (w1 ++ w2) = last_read (last_read prev w1) w2.
Proof.
  unfold last_read. rewrite rev_app_distr.
  destruct (rev w2) as [|c r]; simpl; [|reflexivity].
  destruct (rev w1); reflexivity.
Qed.

Lemma last_read_one prev c : last_read prev [c] = Some c.
Proof. reflexivity. Qed.

Section Soundness.

Variable A : Type.

Lemma or_else_some (x y : option A) (v : A) :
  or_else A x y = Some v -> x = Some v \/ y = Some v.
Proof. destruct x; simpl; intros H; [left|right]; assumption. Qed.

Lemma rep_sound a ma unbounded k :
  sound_for a ma ->
  forall n lo prev s x,
    rep A ma unbounded k n lo prev s = Some x ->
    exists w rest,
      s = w ++ rest
      /\ matches (Rep a lo (if unbounded then None else Some n)) prev w rest
      /\ k (last_read prev w) rest = Some x.
Proof.
  intros Hma.
  assert (Hstop : forall lo hi prev s x,
    (if (lo =? 0)%nat then k prev s else None) = Some x ->
    exists w rest, s = w ++ rest /\ matches (Rep a lo hi) prev w rest
                   /\ k (last_read prev w) rest = Some x).
  { intros lo hi prev s x H.
    destruct (Nat.eqb_spec lo 0) as [->|]; [|discriminate].
    exists [], s. repeat split; [constructor | exact H]. }
  induction n as [|n IH]; intros lo prev s x H; simpl in H.
  - apply Hstop; exact H.
  - apply or_else_some in H. destruct H as [H|H]; [|apply Hstop; exact H].
    apply Hma in H. destruct H as (w1 & rest1 & -> & Hw1 & H).
    destruct (unbounded && negb (length rest1 <? length (w1 ++ rest1))%nat);
      [discriminate|].
    apply IH in H. destruct H as (w2 & rest & -> & Hw2 & H).
    exists (w1 ++ w2), rest. rewrite <- app_assoc. split; [reflexivity|].
    rewrite last_read_app. split; [|exact H].
    apply M_rep_more; [destruct unbounded; discriminate | exact Hw1 |].
    destruct unbounded; exact Hw2.
Qed.

Lemma run_sound r : @sound_for A r (run r).
Proof.
  induction r as [|p|a IHa b IHb|a IHa b IHb|a IHa lo hi| | |];
    intros prev s k x H; simpl in H.
  - exists [], s. repeat split; [constructor | exact H].
  - destruct s as [|c s']; [discriminate|].
    destruct (p c) eqn:Hp; [|discriminate].
    exists [c], s'. repeat split; [constructor; exact Hp | exact H].
  - apply IHa in H. destruct H as (w1 & rest1 & -> & Hw1 & H).
    apply IHb in H. destruct H as (w2 & rest & -> & Hw2 & H).
    exists (w1 ++ w2), rest. rewrite <- app_assoc. split; [reflexivity|].
    rewrite last_read_app. split; [|exact H].
    constructor; assumption.
  - apply or_else_some in H. destruct H as [H|H].
    + apply IHa in H. destruct H as (w & rest & -> & Hw & H).
      exists w, rest. repeat split; [apply M_alt_l; exact Hw | exact H].
    + apply IHb in H. destruct H as (w & rest & -> & Hw & H).
      exists w, rest. repeat split; [apply M_alt_r; exact Hw | exact H].
  - destruct hi as [h|].
    + apply (rep_sound a (run a) false k IHa) in H. exact H.
    + apply (rep_sound a (run a) true k IHa) in H. exact H.
  - destruct (xorb (word_before prev) (word_after s)) eqn:Hb; [|discriminate].
    exists [], s. repeat split; [constructor; exact Hb | exact H].
  - destruct prev; [discriminate|].
    exists [], s. repeat split; [constructor | exact H].
  - destruct (at_end s) eqn:He; [|discriminate].
    exists [], s. repeat split; [constructor; exact He | exact H].
Qed.

End Soundness.

Lemma fullmatch_sound r s :
  fullmatch r s = true -> matches r None s [].
Proof.
  unfold fullmatch. intros H.
  destruct (run r None s _) eqn:E; [|discriminate].
  apply run_sound in E. destruct E as (w & rest & -> & Hw & Hk).
  destruct rest; [|discriminate]. rewrite app_nil_r. exact Hw.
Qed.

Lemma match_sound r s :
  match_ r s = true -> exists w rest, s = w ++ rest /\ matches r None w rest.
Proof.
  unfold match_. intros H.
  destruct (run r None s _) eqn:E; [|discriminate].
  apply run_sound in E. destruct E as (w & rest & -> & Hw & _).
  exists w, rest. split; [reflexivity | exact Hw].
Qed.

Lemma match_here_sound p prev s g n :
  match_here p prev s = Some (g, n) -> in_language (grp p) g.
Proof.
  unfold match_here. intros H.
  apply run_sound in H. destruct H as (w0 & s1 & -> & _ & H).
  apply run_sound in H. destruct H as (w1 & s2 & -> & Hw1 & H).
  apply run_sound in H. destruct H as (w2 & s3 & -> & _ & H).
  injection H as <- _.
  rewrite length_app.
  replace (length w1 + length (w2 ++ s3) - length (w2 ++ s3))%nat
    with (length w1) by lia.
  rewrite firstn_app, firstn_all, Nat.sub_diag, firstn_O, app_nil_r.
  eexists _, _. exact Hw1.
Qed.

Lemma search_from_sound p s : forall prev g,
  search_from p prev s = Some g -> in_language (grp p) g.
Proof.
  induction s as [|c s IH]; intros prev g; simpl;
    destruct (match_here p prev _) as [[g' n]|] eqn:E; intros H;
    try discriminate.
  - injection H as <-. eapply match_here_sound; eassumption.
  - injection H as <-. eapply match_here_sound; eassumption.
  - eapply IH; eassumption.
Qed.

Lemma search_sound p s g :
  search p s = Some g -> in_language (grp p) g.
Proof. apply search_from_sound. Qed.

Lemma findall_from_sound p s : forall skip prev,
  Forall (in_language (grp p)) (findall_from p skip prev s).
Proof.
  induction s as [|c s IH]; intros [|k] prev; simpl.
  - destruct (match_here p prev []) as [[g n]|] eqn:E; [|constructor].
    repeat constructor. eapply match_here_sound; eassumption.
  - constructor.
  - destruct (match_here p prev (c :: s)) as [[g n]|] eqn:E; [|apply IH].
    constructor; [eapply match_here_sound; eassumption | apply IH].
  - apply IH.
Qed.

Lemma findall_sound p s : Forall (in_language (grp p)) (findall p s).
Proof. apply findall_from_sound. Qed.

End RegexFacts.

(** ** Words of the patterns *)

Module Lang.

Import Regex RegexSem Aux.

Lemma every_app p w1 w2 : every p (w1 ++ w2) <-> every p w1 /\ every p w2.
Proof. apply List.Forall_app. Qed.

Lemma every_impl (p q : ascii -> bool) w :
  (forall c, p c = true -> q c = true) -> every p w -> every q w.
Proof. intros H. apply List.Forall_impl. exact H. Qed.

Lemma every_forallb p w : every p w <-> forallb p w = true.
Proof.
  unfold every. rewrite forallb_forall, List.Forall_forall. reflexivity.
Qed.

Lemma chr_inv p prev w rest :
  matches (Chr p) prev w rest -> exists c, w = [c] /\ p c = true.
Proof. inversion 1; subst. eauto. Qed.

Lemma seq_inv a b prev w rest :
  matches (Seq a b) prev w rest ->
  exists w1 w2, w = w1 ++ w2 /\ matches a prev w1 (w2 ++ rest)
                /\ matches b (last_read prev w1) w2 rest.
Proof. inversion 1; subst. eauto. Qed.

Lemma eps_inv prev w rest : matches Eps prev w rest -> w = [].
Proof. inversion 1; reflexivity. Qed.

Lemma bol_inv prev w rest : matches Bol prev w rest -> w = [].
Proof. inversion 1; reflexivity. Qed.

Lemma eol_inv prev w rest : matches Eol prev w rest -> w = [] /\ at_end rest = true.
Proof. inversion 1; subst; auto. Qed.

Lemma wordb_inv prev w rest : matches WordB prev w rest -> w = [].
Proof. inversion 1; reflexivity. Qed.

(** A repeated class: the characters are in the class and their number
    is within the bounds. *)
Lemma rep_chr_inv p lo hi prev w rest :
  matches (Rep (Chr p) lo hi) prev w rest ->
  every p w /\ (lo <= length w)%nat
  /\ (forall h, hi = Some h -> (length w <= h)%nat).
Proof.
  intros H. remember (Rep (Chr p) lo hi) as r eqn:Er.
  revert lo hi Er.
  induction H; intros lo' hi' Er; try discriminate.
  - injection Er as Ea Elo Ehi. subst.
    split; [constructor|]. split; [reflexivity|]. intros; simpl; lia.
  - injection Er as Ea Elo Ehi. subst.
    apply chr_inv in H0. destruct H0 as (c & -> & Hc).
    destruct (IHmatches2 _ _ eq_refl) as (Hall & Hlo & Hhi).
    split; [constructor; assumption|].
    split; [simpl; lia|].
    intros h ->. simpl.
    destruct h as [|h]; [congruence|].
    specialize (Hhi h eq_refl). lia.
Qed.

Lemma matches_charset r prev w rest :
  matches r prev w rest -> every (charset r) w.
Proof.
  induction 1; simpl; try (constructor; fail).
  - repeat constructor. assumption.
  - apply every_app. split.
    + eapply every_impl; [|exact IHmatches1]. intros c ->. reflexivity.
    + eapply every_impl; [|exact IHmatches2]. intros c ->. apply orb_true_r.
  - eapply every_impl; [|exact IHmatches]. intros c ->. reflexivity.
  - eapply every_impl; [|exact IHmatches]. intros c ->. apply orb_true_r.
  - apply every_app. split; assumption.
Qed.

End Lang.

(** ** Facts about the string methods and the Python helpers *)

Module PyFacts.

Import Lang Aux.

Lemma digit_not_space c : Char.is_digit c = true -> Char.isspace c = false.
Proof. destruct c as [[] [] [] [] [] [] [] []]; vm_compute; congruence. Qed.

Lemma digit_not_point c : Char.is_digit c = true -> Char.same "." c = false.
Proof. destruct c as [[] [] [] [] [] [] [] []]; vm_compute; congruence. Qed.

Lemma digit_not_comma c : Char.is_digit c = true -> Char.same "," c = false.
Proof. destruct c as [[] [] [] [] [] [] [] []]; vm_compute; congruence. Qed.

Lemma same_eq a c : Char.same a c = true <-> a = c.
Proof. unfold Char.same, Char.eqb. apply Ascii.eqb_eq. Qed.

Lemma lstrip_keep c s : Char.isspace c = false -> Str.lstrip (c :: s) = c :: s.
Proof. intros H. simpl. rewrite H. reflexivity. Qed.

Lemma rstrip_keep s c : Char.isspace c = false -> Str.rstrip (s ++ [c]) = s ++ [c].
Proof.
  intros H. unfold Str.rstrip. rewrite rev_app_distr. simpl.
  rewrite H. simpl. rewrite rev_involutive. reflexivity.
Qed.

(** [strip] leaves alone a text that starts and ends with a character
    that is no blank. *)
Lemma strip_keep c s d :
  Char.isspace c = false -> Char.isspace d = false ->
  Str.strip (c :: s ++ [d]) = c :: s ++ [d].
Proof.
  intros Hc Hd. unfold Str.strip. rewrite lstrip_keep by assumption.
  change (c :: s ++ [d]) with ((c :: s) ++ [d]). apply rstrip_keep. assumption.
Qed.

Lemma startswith_nil s : Str.startswith s [] = true.
Proof. destruct s; reflexivity. Qed.

(** Removing a character with [replace] is a filter. *)
Lemma replace_char_filter a s :
  Str.replace [a] [] s = List.filter (fun c => negb (Char.eqb a c)) s.
Proof.
  unfold Str.replace. induction s as [|c s IH]; [reflexivity|].
  simpl. rewrite startswith_nil, andb_true_r.
  destruct (Char.eqb a c); simpl; rewrite IH; reflexivity.
Qed.

Lemma py_index_ok {A} (l : list A) (i : Z) :
  (0 <= i < len l)%Z -> exists a, py_index l i = Ok a /\ In a l.
Proof.
  intros Hi. unfold py_index, len in *.
  destruct (Z.ltb_spec i 0); [lia|].
  destruct (Z.leb_spec 0 i); [|lia].
  destruct (Z.ltb_spec i (Z.of_nat (length l))); [|lia]. simpl.
  destruct (nth_error l (Z.to_nat i)) as [a|] eqn:E.
  - exists a. split; [reflexivity|]. eapply nth_error_In; eassumption.
  - apply nth_error_None in E. lia.
Qed.

Lemma py_index_last {A} (l : list A) :
  l <> [] -> exists a, py_index l (-1) = Ok a /\ In a l.
Proof.
  intros Hl. unfold py_index.
  assert (0 < length l)%nat by (destruct l; [congruence | simpl; lia]).
  destruct (Z.ltb_spec (-1) 0); [|lia].
  destruct (Z.leb_spec 0 (-1 + Z.of_nat (length l))); [|lia].
  destruct (Z.ltb_spec (-1 + Z.of_nat (length l)) (Z.of_nat (length l))); [|lia].
  simpl.
  destruct (nth_error l (Z.to_nat (-1 + Z.of_nat (length l)))) as [a|] eqn:E.
  - exists a. split; [reflexivity|]. eapply nth_error_In; eassumption.
  - apply nth_error_None in E. lia.
Qed.

Lemma py_index_in_range {A} (l : list A) (i : Z) a :
  (0 <= i)%Z -> py_index l i = Ok a -> (i < len l)%Z.
Proof.
  intros Hi. unfold py_index, len.
  destruct (Z.ltb_spec i 0); [lia|].
  destruct (Z.leb_spec 0 i); [|lia].
  destruct (Z.ltb_spec i (Z.of_nat (length l))); [lia|]. discriminate.
Qed.

Lemma py_range_bounds a b j : In j (py_range a b) -> (a <= j < b)%Z.
Proof.
  unfold py_range. rewrite in_map_iff. intros (k & <- & Hk).
  apply in_seq in Hk. lia.
Qed.

Lemma py_range_length a b : length (py_range a b) = Z.to_nat (b - a).
Proof. unfold py_range. rewrite length_map, length_seq. reflexivity. Qed.

Lemma truthy_true {A} (l : list A) : truthy l = true <-> l <> [].
Proof. destruct l; simpl; split; congruence. Qed.

Lemma truthy_false {A} (l : list A) : truthy l = false <-> l = [].
Proof. destruct l; simpl; split; congruence. Qed.

Lemma find_In {A} (f : A -> bool) l x :
  List.find f l = Some x -> In x l /\ f x = true.
Proof. apply find_some. Qed.

Lemma first_some_In {A B} (f : A -> option B) l b :
  first_some f l = Some b -> exists a, In a l /\ f a = Some b.
Proof.
  induction l as [|a l IH]; simpl; [discriminate|].
  destruct (f a) eqn:E.
  - intros [= <-]. eauto.
  - intros H. destruct (IH H) as (a' & ? & ?). eauto.
Qed.

End PyFacts.

(** ** Monetary amounts *)

Module MoneyFacts.

Import Regex RegexSem Lang PyFacts Spec Aux.

Lemma filter_keep (q : ascii -> bool) w :
  every q w -> List.filter q w = w.
Proof.
  induction 1 as [|c w Hc _ IH]; simpl; [reflexivity|].
  rewrite Hc, IH. reflexivity.
Qed.

Lemma not_comma_digit c :
  Char.is_digit c = true -> negb (Char.eqb "," c) = true.
Proof. intros H. apply digit_not_comma in H. unfold Char.same in H. rewrite H. reflexivity. Qed.

Lemma remove_commas_digits w :
  every Char.is_digit w -> Str.replace "," [] w = w.
Proof.
  intros H. change (lit ",") with [","%char]. rewrite replace_char_filter.
  apply filter_keep. eapply every_impl; [|exact H]. apply not_comma_digit.
Qed.

Lemma remove_commas_app w1 w2 :
  Str.replace "," [] (w1 ++ w2) = Str.replace "," [] w1 ++ Str.replace "," [] w2.
Proof.
  change (lit ",") with [","%char]. rewrite !replace_char_filter.
  apply List.filter_app.
Qed.

(** What is left of digits and commas without the commas is digits. *)
Lemma remove_commas_mixed w :
  every (fun c => Char.is_digit c || Char.same "," c) w ->
  every Char.is_digit (Str.replace "," [] w).
Proof.
  change (lit ",") with [","%char]. rewrite replace_char_filter.
  induction 1 as [|c w Hc _ IH]; simpl; [constructor|].
  destruct (Char.eqb "," c) eqn:E; simpl; [exact IH|].
  constructor; [|exact IH].
  unfold Char.same in Hc. rewrite E, orb_false_r in Hc. exact Hc.
Qed.

Lemma remove_commas_point : Str.replace "," [] ["."%char] = ["."%char].
Proof. reflexivity. Qed.

(** The words of [\d{1,3}(?:,\d{3})*\.\d{2}], commas removed. *)
Lemma money_words g :
  in_language KnifeRiverParser.money_re g ->
  exists x y, Str.replace "," [] g = x ++ "."%char :: y
              /\ x <> [] /\ every Char.is_digit x
              /\ length y = 2%nat /\ every Char.is_digit y.
Proof.
  intros (prev & rest & H).
  unfold KnifeRiverParser.money_re in H. simpl in H.
  apply seq_inv in H. destruct H as (w1 & t1 & -> & H1 & H).
  apply seq_inv in H. destruct H as (w2 & t2 & -> & H2 & H).
  apply seq_inv in H. destruct H as (w3 & w4 & -> & H3 & H4).
  apply rep_chr_inv in H1. destruct H1 as (D1 & L1 & _).
  apply matches_charset in H2. simpl in H2.
  apply chr_inv in H3. destruct H3 as (c & -> & Hc). apply same_eq in Hc. subst c.
  apply rep_chr_inv in H4. destruct H4 as (D4 & L4 & U4).
  specialize (U4 _ eq_refl).
  exists (w1 ++ Str.replace "," [] w2), w4.
  rewrite !remove_commas_app, remove_commas_point.
  rewrite (remove_commas_digits w1), (remove_commas_digits w4) by assumption.
  rewrite <- app_assoc. split; [reflexivity|].
  split; [destruct w1; [simpl in L1; lia | discriminate]|].
  split; [|split; [lia | exact D4]].
  apply every_app. split; [exact D1|].
  apply remove_commas_mixed. eapply every_impl; [|exact H2].
  intros c Hc. rewrite orb_comm. exact Hc.
Qed.

Lemma count_point_digits w :
  every Char.is_digit w -> count_occ ascii_dec w "."%char = 0%nat.
Proof.
  induction 1 as [|c w Hc _ IH]; simpl; [reflexivity|].
  destruct (ascii_dec c "."); [|exact IH].
  subst c. discriminate Hc.
Qed.

(** Digits around one point: only digits and exactly one point. *)
Lemma point_between_digits x y :
  every Char.is_digit x -> every Char.is_digit y ->
  digits_and_one_point (x ++ "."%char :: y) = true.
Proof.
  intros Hx Hy. unfold digits_and_one_point.
  apply andb_true_iff. split.
  - apply every_forallb. apply every_app. split.
    + eapply every_impl; [|exact Hx]. intros c ->. reflexivity.
    + constructor; [reflexivity|].
      eapply every_impl; [|exact Hy]. intros c ->. reflexivity.
  - rewrite count_occ_app. simpl.
    rewrite (count_point_digits x), (count_point_digits y) by assumption.
    reflexivity.
Qed.

Lemma money_total g :
  in_language KnifeRiverParser.money_re g ->
  digits_and_one_point (Str.replace "," [] g) = true.
Proof.
  intros H. apply money_words in H.
  destruct H as (x & y & -> & _ & Hx & _ & Hy).
  apply point_between_digits; assumption.
Qed.

Lemma money_plain g :
  in_language KnifeRiverParser.money_re g ->
  plain_decimal (Str.replace "," [] g).
Proof.
  intros H. apply money_words in H.
  destruct H as (x & y & -> & Nx & Hx & Ly & Hy).
  exists x, y. repeat split; try assumption.
  destruct y; [discriminate Ly | discriminate].
Qed.

End MoneyFacts.

(** ** The Knife River page parser *)

Module KnifeRiverParserFacts.

Import Regex RegexSem Lang PyFacts Spec MoneyFacts KnifeRiverParser Aux.

Lemma len_app {A} (l1 l2 : list A) : len (l1 ++ l2) = (len l1 + len l2)%Z.
Proof. unfold len. rewrite length_app. lia. Qed.

Lemma len_nonneg {A} (l : list A) : (0 <= len l)%Z.
Proof. unfold len. lia. Qed.

(** A guarded access [lines[k] if k >= 0 else ""] below the current
    position never raises. *)
Lemma guarded_index (lines : list text) (k : Z) :
  (k < len lines)%Z ->
  exists c, (if (0 <=? k)%Z then py_index lines k else Ok []) = Ok c
            /\ (c = [] \/ In c lines).
Proof.
  intros Hk. destruct (Z.leb_spec 0 k).
  - destruct (py_index_ok lines k) as (c & -> & Hc); [lia|]. eauto.
  - eauto.
Qed.

(** The loop that looks for ORIGINAL never raises: its two accesses are
    guarded from below and lie before the current line. *)
Lemma jobname_loop_ok (lines : list text) : forall rest pre,
  lines = pre ++ rest ->
  exists j, jobname_loop lines (len pre) rest = Ok j /\ (j = [] \/ In j lines).
Proof.
  induction rest as [|ln rest IH]; intros pre E; simpl.
  - eauto.
  - case_if.
    + assert (Hlen : (len pre < len lines)%Z).
      { rewrite E, len_app. unfold len at 3. simpl length. lia. }
      destruct (guarded_index lines (len pre - 1)) as (c1 & -> & H1); [lia|].
      destruct (guarded_index lines (len pre - 2)) as (c2 & -> & H2); [lia|].
      simpl.
      case_if; [eauto|]. case_if; eauto.
    + specialize (IH (pre ++ [ln])).
      rewrite len_app in IH. change (len [ln]) with 1%Z in IH.
      apply IH. rewrite <- app_assoc. exact E.
Qed.

(** The page parser never raises, and its record is made of the four
    fields as the rules compute them. *)
Lemma knife_river_page_ok raw_text page_number :
  exists total jobname,
    _parse_knife_river_page raw_text page_number
    = Ok (Invoice "Knife River" (page_invoice_number raw_text) jobname
            (page_date raw_text) total page_number (Some raw_text) None)
    /\ jobname_loop (Str.stripped_lines raw_text) 0 (Str.stripped_lines raw_text)
       = Ok jobname
    /\ (total = []
        \/ exists g, In g (findall total_re raw_text)
                     /\ total = Str.replace "," [] g).
Proof.
  unfold _parse_knife_river_page, page_invoice_number, page_date.
  set (lines := Str.stripped_lines raw_text).
  destruct (jobname_loop_ok lines lines [] eq_refl) as (j & Hj & _).
  change (len []) with 0%Z in Hj.
  destruct (findall total_re raw_text) as [|g0 gs] eqn:Ef.
  - exists [], j. simpl. rewrite Hj. simpl.
    destruct j; simpl; auto.
  - destruct (py_index_last (g0 :: gs)) as (g & Hg & Hin); [discriminate|].
    exists (Str.replace "," [] g), j.
    cbn [truthy]. rewrite Hg. cbn [bind]. rewrite Hj. cbn [bind].
    split; [destruct j; reflexivity|].
    split; [reflexivity|]. right. exists g. auto.
Qed.

(** The total of a Knife River page: empty, or digits around one point. *)
Lemma knife_river_page_total raw_text page_number inv :
  _parse_knife_river_page raw_text page_number = Ok inv ->
  total inv = [] \/ digits_and_one_point (total inv) = true.
Proof.
  destruct (knife_river_page_ok raw_text page_number) as (t & j & E & _ & Ht).
  rewrite E. intros [= <-]. simpl.
  destruct Ht as [->|(g & Hg & ->)]; [auto|right].
  apply money_total.
  pose proof (RegexFacts.findall_sound total_re raw_text) as Hall.
  rewrite List.Forall_forall in Hall. apply Hall. exact Hg.
Qed.

(** The invoice number of a Knife River page: empty, or six digits and
    more. *)
Lemma knife_river_number_digits raw_text :
  page_invoice_number raw_text = []
  \/ digits_between 6 None (page_invoice_number raw_text).
Proof.
  unfold page_invoice_number.
  destruct (List.find _ _) as [ln|] eqn:E; [right|auto].
  apply find_some in E. destruct E as [_ E].
  apply RegexFacts.fullmatch_sound in E. apply rep_chr_inv in E.
  exact E.
Qed.

End KnifeRiverParserFacts.

(** ** Floats and maxima *)

Module FloatFacts.

Import RegexSem Lang PyFacts Spec Aux.

Lemma span_digits_app x rest :
  every Char.is_digit x ->
  match rest with c :: _ => Char.is_digit c = false | [] => True end ->
  Float.span_digits (x ++ rest) = (x, rest).
Proof.
  intros Hx Hrest. induction Hx as [|c x Hc _ IH]; simpl.
  - destruct rest as [|c rest]; [reflexivity|]. simpl. rewrite Hrest. reflexivity.
  - rewrite Hc, IH. reflexivity.
Qed.

Lemma nonempty_last {A} (l : list A) : l <> [] -> exists l' a, l = l' ++ [a].
Proof.
  intros H. destruct (exists_last H) as (l' & a & ->). eauto.
Qed.

Lemma strip_plain t : plain_decimal t -> Str.strip t = t.
Proof.
  intros (x & y & -> & Nx & Hx & Ny & Hy).
  destruct x as [|c x]; [congruence|].
  destruct (nonempty_last y Ny) as (y' & d & ->).
  inversion Hx as [|? ? Hc _]; subst.
  apply every_app in Hy. destruct Hy as [_ Hd].
  inversion Hd as [|? ? Hd' _]; subst.
  replace ((c :: x) ++ "."%char :: y' ++ [d])
    with (c :: (x ++ "."%char :: y') ++ [d])
    by (simpl; rewrite <- app_assoc; reflexivity).
  apply strip_keep; apply digit_not_space; assumption.
Qed.

(** [float] reads every plain decimal numeral. *)
Lemma py_float_plain t :
  plain_decimal t -> exists v, Float.py_float t = Ok v.
Proof.
  intros H. unfold Float.py_float. rewrite (strip_plain t H).
  destruct H as (x & y & -> & Nx & Hx & Ny & Hy).
  rewrite span_digits_app; [|exact Hx|reflexivity].
  change (Char.same "." ".") with true. cbn [andb].
  apply every_forallb in Hy. rewrite Hy.
  destruct x; [congruence|]. simpl. eauto.
Qed.

Lemma amount_ok x :
  RegexSem.in_language KnifeRiverParser.money_re x ->
  Float.py_float (Str.replace "," [] x) = Ok (amount x).
Proof.
  intros H. apply MoneyFacts.money_plain in H.
  destruct (py_float_plain _ H) as (v & E).
  unfold amount. rewrite E. reflexivity.
Qed.

Lemma mapM_ok {A B} (f : A -> result B) (g : A -> B) (l : list A) :
  Forall (fun a => f a = Ok (g a)) l -> mapM f l = Ok (List.map g l).
Proof.
  induction 1 as [|a l Ha _ IH]; simpl; [reflexivity|].
  rewrite Ha. simpl. rewrite IH. reflexivity.
Qed.

Lemma ltb_lt x y : Float.ltb x y = true <-> (Float.key x < Float.key y)%Z.
Proof. unfold Float.ltb. apply Z.ltb_lt. Qed.

Lemma leb_le x y : Float.leb x y = true <-> (Float.key x <= Float.key y)%Z.
Proof. unfold Float.leb. apply Z.leb_le. Qed.

Lemma ltb_ge x y : Float.ltb x y = false <-> (Float.key y <= Float.key x)%Z.
Proof. unfold Float.ltb. rewrite Z.ltb_ge. reflexivity. Qed.

Lemma key_nonneg x : (0 <= Float.key x)%Z.
Proof. destruct x; simpl; lia. Qed.

Section Max.

Context {A : Type} (key : A -> Float.float).

Lemma fold_first_max : forall rest seen best,
  first_max key seen best ->
  first_max key (seen ++ rest) (fold_left (keep_greater key) rest best).
Proof.
  induction rest as [|y rest IH]; intros seen best H; simpl.
  - rewrite app_nil_r. exact H.
  - replace (seen ++ y :: rest) with ((seen ++ [y]) ++ rest)
      by (rewrite <- app_assoc; reflexivity).
    apply IH. unfold keep_greater.
    destruct H as (before & after & -> & Hb & Ha).
    destruct (Float.ltb (key best) (key y)) eqn:E.
    + apply ltb_lt in E.
      exists (before ++ best :: after), []. split; [reflexivity|].
      split; [|constructor].
      apply List.Forall_app. split; [|constructor].
      * eapply List.Forall_impl; [|exact Hb].
        intros z Hz. apply ltb_lt. apply ltb_lt in Hz. lia.
      * apply ltb_lt. exact E.
      * eapply List.Forall_impl; [|exact Ha].
        intros z Hz. apply ltb_lt. apply leb_le in Hz. lia.
    + apply ltb_ge in E.
      exists before, (after ++ [y]).
      split; [rewrite <- app_assoc; reflexivity|].
      split; [exact Hb|].
      apply List.Forall_app. split; [exact Ha|].
      constructor; [|constructor]. apply leb_le. exact E.
Qed.

(** [max] of a list that is not empty returns the first of its greatest
    elements. *)
Lemma py_max_by_first x l :
  exists best, py_max_by key (x :: l) = Ok best /\ first_max key (x :: l) best.
Proof.
  eexists. split; [reflexivity|].
  apply (fold_first_max l [x] x).
  exists [], []. repeat split; constructor.
Qed.

(** An element kept by a filter sits in the list between what the
    filter keeps before it and after it. *)
Lemma filter_split (P : A -> bool) : forall l before best after,
  List.filter P l = before ++ best :: after ->
  exists before' after',
    l = before' ++ best :: after'
    /\ List.filter P before' = before /\ List.filter P after' = after.
Proof.
  induction l as [|a l IH]; intros before best after E; simpl in E.
  - destruct before; discriminate.
  - destruct (P a) eqn:Pa.
    + destruct before as [|b before]; simpl in E.
      * injection E as -> E. exists [], l. auto.
      * injection E as -> E.
        destruct (IH _ _ _ E) as (b' & a' & -> & <- & <-).
        exists (b :: b'), a'. simpl. rewrite Pa. auto.
    + destruct (IH _ _ _ E) as (b' & a' & -> & <- & <-).
      exists (a :: b'), a'. simpl. rewrite Pa. auto.
Qed.

(** The first greatest of the positive elements is the first greatest
    of all. *)
Lemma first_max_positive l best :
  first_max key (List.filter (fun p => Float.ltb Float.Zero (key p)) l) best ->
  first_max key l best.
Proof.
  set (P := fun p => Float.ltb Float.Zero (key p)).
  intros (before & after & E & Hb & Ha).
  assert (Pbest : P best = true).
  { assert (Hin : In best (List.filter P l)) by (rewrite E; apply in_elt).
    apply filter_In in Hin. tauto. }
  apply ltb_lt in Pbest. simpl in Pbest.
  destruct (filter_split P _ _ _ _ E) as (b' & a' & -> & <- & <-).
  exists b', a'. split; [reflexivity|].
  rewrite List.Forall_forall in Hb, Ha.
  split; apply List.Forall_forall; intros y Hy.
  - destruct (P y) eqn:Py.
    + apply Hb. apply filter_In. auto.
    + apply ltb_ge in Py. simpl in Py. apply ltb_lt.
      pose proof (key_nonneg (key y)). lia.
  - destruct (P y) eqn:Py.
    + apply Ha. apply filter_In. auto.
    + apply ltb_ge in Py. simpl in Py. apply leb_le.
      pose proof (key_nonneg (key y)). lia.
Qed.

End Max.

End FloatFacts.

(** ** The Missoula Landfill page parser *)

Module MissoulaFacts.

Import Regex RegexSem Lang PyFacts Spec MoneyFacts FloatFacts Aux.
Import KnifeRiverParserFacts MissoulaLandfillParser.

(** The inner loop after SIGNATURE never raises when its indices are
    within the lines, and what it returns is a line of 6 or 7 digits. *)
Lemma after_signature_ok (lines : list text) js :
  Forall (in_range lines) js ->
  exists r, after_signature lines js = Ok r
            /\ (forall x, r = Some x -> fullmatch number_re x = true).
Proof.
  induction 1 as [|j js Hj _ IH]; simpl.
  - eexists. split; [reflexivity|]. discriminate.
  - destruct (py_index_ok lines j Hj) as (line & -> & _). simpl.
    destruct (fullmatch number_re line) eqn:E; [|exact IH].
    eexists. split; [reflexivity|]. intros x [= <-]. exact E.
Qed.

Lemma range_in_lines (lines : list text) i :
  (0 <= i)%Z ->
  Forall (in_range lines) (py_range (i + 1) (Z.min (i + 5) (len lines))).
Proof.
  intros Hi. apply List.Forall_forall. intros j Hj.
  apply py_range_bounds in Hj. unfold in_range. lia.
Qed.

Lemma signature_loop_ok lines : forall rest i,
  (0 <= i)%Z ->
  exists r, signature_loop lines i rest = Ok r
            /\ (forall x, r = Some x -> fullmatch number_re x = true).
Proof.
  induction rest as [|ln rest IH]; intros i Hi; simpl.
  - eexists. split; [reflexivity|]. discriminate.
  - case_if; [|apply IH; lia].
    destruct (after_signature_ok lines _ (range_in_lines lines i Hi))
      as (r & -> & Hr).
    simpl. destruct r as [x|]; [|apply IH; lia].
    eexists. split; [reflexivity|]. intros y [= <-]. apply Hr. reflexivity.
Qed.

Lemma number_digits x :
  fullmatch number_re x = true -> digits_between 6 (Some 7) x.
Proof.
  intros H. apply RegexFacts.fullmatch_sound in H.
  apply rep_chr_inv in H. exact H.
Qed.

(** The invoice number rule never raises and gives nothing, or 6 or 7
    digits. *)
Lemma invoice_number_ok raw_text :
  exists n, _extract_missoula_invoice_number raw_text = Ok n
            /\ (n = [] \/ digits_between 6 (Some 7) n).
Proof.
  unfold _extract_missoula_invoice_number.
  destruct (signature_loop_ok (Str.stripped_lines raw_text)
              (Str.stripped_lines raw_text) 0) as (r & -> & Hr); [lia|].
  simpl. destruct r as [x|].
  { eexists. split; [reflexivity|]. right. apply number_digits. auto. }
  destruct (List.find _ _) as [ln|] eqn:Ef.
  { eexists. split; [reflexivity|]. right. apply number_digits.
    apply find_some in Ef. tauto. }
  destruct (search number_anywhere_re raw_text) as [g|] eqn:Es.
  - eexists. split; [reflexivity|]. right.
    apply RegexFacts.search_sound in Es. destruct Es as (prev & rest & Hm).
    simpl in Hm. apply rep_chr_inv in Hm. exact Hm.
  - eexists. split; [reflexivity|]. auto.
Qed.

Lemma candidates_money raw_text :
  Forall (in_language KnifeRiverParser.money_re) (findall money_re raw_text).
Proof. apply (RegexFacts.findall_sound money_re). Qed.

Lemma parsed_ok raw_text :
  mapM (fun x => let* v := Float.py_float (Str.replace "," [] x) in Ok (v, x))
       (findall money_re raw_text)
  = Ok (List.map priced (findall money_re raw_text)).
Proof.
  apply mapM_ok. eapply List.Forall_impl; [|apply candidates_money].
  intros x Hx. rewrite (amount_ok x Hx). reflexivity.
Qed.

Lemma first_max_priced cands best :
  first_max fst (List.map priced cands) best ->
  exists x, best = priced x /\ first_max amount cands x.
Proof.
  intros (before & after & E & Hb & Ha).
  apply map_eq_app in E.
  destruct E as (b' & r' & -> & <- & E).
  apply map_eq_cons in E. destruct E as (x & a' & -> & <- & <-).
  exists x. split; [reflexivity|].
  exists b', a'. split; [reflexivity|].
  rewrite List.Forall_map in Hb, Ha. split; assumption.
Qed.

(** The total rule never raises: nothing when there is no candidate,
    else the first of the candidates of greatest amount, without its
    commas. *)
Lemma total_ok raw_text :
  match findall money_re raw_text with
  | [] => _extract_missoula_total raw_text = Ok []
  | _ :: _ =>
      exists best,
        _extract_missoula_total raw_text = Ok (Str.replace "," [] best)
        /\ first_max amount (findall money_re raw_text) best
  end.
Proof.
  unfold _extract_missoula_total. rewrite parsed_ok.
  destruct (findall money_re raw_text) as [|x0 cands] eqn:Ec; [reflexivity|].
  cbn [truthy negb bind].
  set (parsed := List.map priced (x0 :: cands)).
  assert (Hmax : exists best,
    (if truthy (List.filter (fun p => Float.ltb Float.Zero (fst p)) parsed)
     then py_max_by fst (List.filter (fun p => Float.ltb Float.Zero (fst p)) parsed)
     else py_max_by fst parsed) = Ok best
    /\ first_max fst parsed best).
  { destruct (List.filter _ parsed) as [|p ps] eqn:Ef.
    - simpl truthy. cbv iota. apply (py_max_by_first fst).
    - simpl truthy. cbv iota.
      destruct (py_max_by_first fst p ps) as (best & E & H).
      exists best. split; [exact E|].
      apply first_max_positive. rewrite Ef. exact H. }
  destruct Hmax as (best & -> & Hbest). cbn [bind].
  apply first_max_priced in Hbest. destruct Hbest as (x & -> & Hx).
  exists x. split; [reflexivity | exact Hx].
Qed.

Lemma first_max_In {A} (key : A -> Float.float) l best :
  first_max key l best -> In best l.
Proof. intros (b & a & -> & _). apply in_elt. Qed.

(** The total of a Missoula page: empty, or digits around one point. *)
Lemma total_shape raw_text :
  exists t, _extract_missoula_total raw_text = Ok t
            /\ (t = [] \/ digits_and_one_point t = true).
Proof.
  pose proof (total_ok raw_text) as H.
  pose proof (candidates_money raw_text) as Hm.
  destruct (findall money_re raw_text) as [|x0 cands].
  - eauto.
  - destruct H as (best & E & Hbest). eexists. split; [exact E|]. right.
    apply money_total. rewrite List.Forall_forall in Hm. apply Hm.
    eapply first_max_In. exact Hbest.
Qed.

Lemma after_second_date_ok (lines : list text) indices :
  Forall (in_range lines) indices ->
  exists r, after_second_date lines indices = Ok r.
Proof.
  induction 1 as [|i indices Hi _ IH]; simpl; [eauto|].
  destruct (py_index_ok lines i Hi) as (line & -> & _). simpl.
  repeat (case_if; [exact IH|]). eauto.
Qed.

Lemma enumerate_bounds {A} (l : list A) p :
  In p (enumerate l) -> (0 <= fst p < len l)%Z.
Proof.
  unfold enumerate. destruct p as [i a]. intros H.
  apply in_combine_l in H. apply py_range_bounds in H. simpl. lia.
Qed.

(** The job name rule never raises. *)
Lemma jobname_ok lines :
  exists j, _extract_missoula_jobname lines = Ok j.
Proof.
  unfold _extract_missoula_jobname.
  set (date_indices := List.map fst (List.filter _ (enumerate lines))).
  assert (Hd : Forall (fun i => 0 <= i)%Z date_indices).
  { apply List.Forall_forall. intros i Hi. unfold date_indices in Hi.
    apply in_map_iff in Hi. destruct Hi as (p & <- & Hp).
    apply filter_In in Hp. destruct Hp as [Hp _].
    apply enumerate_bounds in Hp. lia. }
  destruct (Z.ltb_spec (len date_indices) 2); [eauto|].
  destruct (py_index_ok date_indices 1) as (second & -> & Hin); [lia|].
  simpl.
  rewrite List.Forall_forall in Hd. specialize (Hd _ Hin).
  destruct (after_second_date_ok lines
    (py_range (second + 1) (Z.min (second + 1 + 6) (len lines)))) as (r & ->).
  { apply List.Forall_forall. intros j Hj. apply py_range_bounds in Hj.
    unfold in_range. lia. }
  simpl. destruct r; eauto.
Qed.

(** The page parser never raises; its invoice number and total are
    those of the two rules. *)
Lemma missoula_page_ok raw_text page_number :
  exists n t j,
    _parse_missoula_landfill_page raw_text page_number
    = Ok (Invoice "Missoula Landfill" n j
            (_extract_missoula_date (Str.stripped_lines raw_text)) t
            page_number (Some raw_text) None)
    /\ _extract_missoula_invoice_number raw_text = Ok n
    /\ _extract_missoula_total raw_text = Ok t.
Proof.
  unfold _parse_missoula_landfill_page.
  destruct (invoice_number_ok raw_text) as (n & En & _).
  destruct (total_shape raw_text) as (t & Et & _).
  destruct (jobname_ok (Str.stripped_lines raw_text)) as (j & Ej).
  exists n, t, j. rewrite En, Et, Ej. auto.
Qed.

End MissoulaFacts.

(** ** The Core & Main page parser *)

Module CoreMainFacts.

Import Regex RegexSem Lang PyFacts Spec MoneyFacts CoreMainParser Aux.

(** The words of [[0-9,]+\.[0-9]+], commas removed. *)
Lemma total_words g :
  in_language total_body g ->
  digits_and_one_point (Str.replace "," [] g) = true.
Proof.
  intros (prev & rest & H). unfold total_body in H. simpl in H.
  apply seq_inv in H. destruct H as (w1 & t1 & -> & H1 & H).
  apply seq_inv in H. destruct H as (w2 & w3 & -> & H2 & H3).
  apply rep_chr_inv in H1. destruct H1 as (D1 & _).
  apply chr_inv in H2. destruct H2 as (c & -> & Hc). apply same_eq in Hc. subst c.
  apply rep_chr_inv in H3. destruct H3 as (D3 & _).
  rewrite !remove_commas_app, remove_commas_point.
  rewrite (remove_commas_digits w3) by assumption.
  apply point_between_digits; [|exact D3].
  apply remove_commas_mixed. exact D1.
Qed.

(** The total of a Core & Main page: empty, or digits around one point. *)
Lemma core_main_page_total txt page_index :
  total (parse_page txt page_index) = []
  \/ digits_and_one_point (total (parse_page txt page_index)) = true.
Proof.
  unfold parse_page. simpl.
  destruct (search total_re txt) as [g|] eqn:E; [right|auto].
  apply total_words. apply (RegexFacts.search_sound total_re txt g E).
Qed.

End CoreMainFacts.

(** ** The rules that read the line next to a label *)

Module LabelFacts.

Import PyFacts KnifeRiverParserFacts Aux.

Lemma farwest_invoice_number_loop_ok (lines : list text) : forall rest pre,
  lines = pre ++ rest ->
  exists r, Farwest.invoice_number_loop lines (len pre) rest = Ok r.
Proof.
  induction rest as [|ln rest IH]; intros pre E; simpl; [eauto|].
  case_if.
  - apply andb_true_iff in Heqb. destruct Heqb as [_ Hi].
    apply Z.ltb_lt in Hi.
    destruct (py_index_ok lines (len pre + 1)) as (next & -> & _).
    { pose proof (len_nonneg pre). lia. }
    simpl. eauto.
  - specialize (IH (pre ++ [ln])).
    rewrite len_app in IH. change (len [ln]) with 1%Z in IH.
    apply IH. rewrite <- app_assoc. exact E.
Qed.

Lemma farwest_job_name_loop_ok (lines : list text) : forall rest pre,
  lines = pre ++ rest ->
  exists r, Farwest.job_name_loop lines (len pre) rest = Ok r.
Proof.
  induction rest as [|ln rest IH]; intros pre E; simpl; [eauto|].
  case_if.
  - apply andb_true_iff in Heqb. destruct Heqb as [_ Hi].
    apply Z.ltb_lt in Hi.
    destruct (py_index_ok lines (len pre + 1)) as (next & -> & _).
    { pose proof (len_nonneg pre). lia. }
    simpl. eauto.
  - specialize (IH (pre ++ [ln])).
    rewrite len_app in IH. change (len [ln]) with 1%Z in IH.
    apply IH. rewrite <- app_assoc. exact E.
Qed.

Lemma knife_river_job_name_loop_ok (lines : list text) : forall rest pre,
  lines = pre ++ rest ->
  exists r, KnifeRiver.job_name_loop lines (len pre) rest = Ok r.
Proof.
  induction rest as [|ln rest IH]; intros pre E; simpl; [eauto|].
  assert (IH' : exists r,
    KnifeRiver.job_name_loop lines (len pre + 1) rest = Ok r).
  { specialize (IH (pre ++ [ln])).
    rewrite len_app in IH. change (len [ln]) with 1%Z in IH.
    apply IH. rewrite <- app_assoc. exact E. }
  case_if; [|exact IH'].
  apply andb_true_iff in Heqb. destruct Heqb as [_ Hi].
  apply Z.ltb_lt in Hi.
  destruct (py_index_ok lines (len pre - 1)) as (c & -> & _).
  { rewrite E, len_app. pose proof (len_nonneg (ln :: rest)). lia. }
  simpl. case_if; eauto.
Qed.

End LabelFacts.

(** ** The load blocks of [Knife_River.py] *)

Module KnifeRiverFacts.

Import PyFacts Spec KnifeRiver Aux.

Lemma step_invariant st line : blocks_invariant st -> blocks_invariant (step st line).
Proof.
  destruct st as [blocks current]. intros [Hb Hc]. simpl in Hb, Hc.
  unfold step.
  case_if; [split; assumption|].
  case_if; [split; assumption|].
  case_if; [|split; assumption].
  case_if; [|split; [assumption|]].
  - destruct current as [|ticket current]; [discriminate|].
    destruct current as [|desc [|truck [|qty [|unit [|extra current]]]]];
      try (split; [assumption | exact I]).
    + cbn [app]. case_if; (split; [|exact I]); cbn [fst]; [|assumption].
      apply List.Forall_app. split; [assumption|].
      constructor; [|constructor].
      cbn [knife_river_block_valid]. rewrite Hc. assumption.
    + exfalso. apply Z.eqb_eq in Heqb2. unfold len in Heqb2.
      rewrite length_app in Heqb2. simpl length in Heqb2. lia.
  - destruct current as [|ticket current]; [discriminate|]. exact Hc.
Qed.

Lemma fold_invariant lines : forall st,
  blocks_invariant st -> blocks_invariant (fold_left step lines st).
Proof.
  induction lines as [|line lines IH]; intros st H; simpl; [exact H|].
  apply IH. apply step_invariant. exact H.
Qed.

(** Every block that is emitted passes every validator. *)
Lemma blocks_valid txt :
  Forall (fun b => knife_river_block_valid b = true) (extract_item_blocks txt).
Proof.
  unfold extract_item_blocks.
  apply (fold_invariant (Str.stripped_lines txt) ([], [])).
  split; [constructor | exact I].
Qed.

Lemma lower_digit c : Char.is_digit c = true -> Char.lower c = c.
Proof. destruct c as [[] [] [] [] [] [] [] []]; vm_compute; congruence. Qed.

Lemma lower_digits s :
  forallb Char.is_digit s = true -> Str.lower s = s.
Proof.
  induction s as [|c s IH]; simpl; [reflexivity|].
  intros H. apply andb_true_iff in H. destruct H as [Hc Hs].
  rewrite (lower_digit c Hc), (IH Hs). reflexivity.
Qed.

(** A word found in a text starts with a character of the text. *)
Lemma contains_first s c w :
  Str.contains s (c :: w) = true -> In c s.
Proof.
  induction s as [|a s IH]; simpl; [discriminate|].
  intros H. apply orb_true_iff in H. destruct H as [H|H].
  - apply andb_true_iff in H. destruct H as [H _].
    apply Ascii.eqb_eq in H. left. symmetry. exact H.
  - right. apply IH. exact H.
Qed.

Lemma bad_words_letters :
  Forall (fun w => match w with
                   | c :: _ => Char.is_digit c = false
                   | [] => False
                   end) bad_words.
Proof. unfold bad_words. repeat constructor. Qed.

(** A line of digits holds none of the words that make the loop skip a
    line. *)
Lemma digits_no_bad_word line :
  Str.isdigit line = true ->
  existsb (Str.contains (Str.lower line)) bad_words = false.
Proof.
  intros H. unfold Str.isdigit in H.
  assert (Hd : forallb Char.is_digit line = true) by (destruct line; [discriminate|exact H]).
  rewrite (lower_digits line Hd).
  apply not_true_is_false. intros E.
  apply existsb_exists in E. destruct E as (w & Hw & Hc).
  pose proof bad_words_letters as L. rewrite List.Forall_forall in L.
  specialize (L w Hw). destruct w as [|c w]; [exact L|].
  apply contains_first in Hc.
  rewrite forallb_forall in Hd. specialize (Hd c Hc). congruence.
Qed.

(** A ticket number always opens a new block, whatever was being
    built. *)
Lemma step_resets blocks current line :
  starts_block line = true -> step (blocks, current) line = (blocks, [line]).
Proof.
  intros H. unfold step. rewrite H.
  unfold starts_block in H. apply andb_true_iff in H. destruct H as [H _].
  apply andb_true_iff in H. destruct H as [H _].
  rewrite (digits_no_bad_word line H). reflexivity.
Qed.

End KnifeRiverFacts.

(** ** The items of [Farwest.py] *)

Module FarwestFacts.

Import Regex RegexSem Lang PyFacts Spec FloatFacts KnifeRiverParserFacts Farwest Aux.

(** An optional part is absent or present once. *)
Lemma opt_inv a prev w rest :
  matches (Opt a) prev w rest -> w = [] \/ matches a prev w rest.
Proof.
  unfold Opt. intros H. inversion H as [| | | | | |a' lo hi p w1 w2 r Hhi H1 H2| | |];
    subst; [left; reflexivity|].
  right. simpl in H2. inversion H2; subst.
  - rewrite app_nil_r. exact H1.
  - congruence.
Qed.

Lemma strip_id s :
  match s with c :: _ => Char.isspace c = false | [] => True end ->
  match rev s with d :: _ => Char.isspace d = false | [] => True end ->
  Str.strip s = s.
Proof.
  intros Hc Hd. unfold Str.strip.
  destruct s as [|c s]; [reflexivity|].
  rewrite lstrip_keep by assumption.
  unfold Str.rstrip. destruct (rev (c :: s)) as [|d r] eqn:E.
  - apply (f_equal (@rev ascii)) in E. rewrite rev_involutive in E. discriminate.
  - simpl. rewrite Hd. rewrite <- E. apply rev_involutive.
Qed.

Lemma every_rev p w : every p w -> every p (rev w).
Proof. apply List.Forall_rev. Qed.

(** [float] reads every numeral made of digits only. *)
Lemma py_float_digits s :
  s <> [] -> every Char.is_digit s -> exists v, Float.py_float s = Ok v.
Proof.
  intros Hne Hs. unfold Float.py_float.
  rewrite strip_id.
  - pose proof (span_digits_app s [] Hs I) as E.
    rewrite app_nil_r in E. rewrite E.
    destruct s; [congruence|]. eauto.
  - destruct s as [|c s]; [exact I|].
    inversion Hs; subst. apply digit_not_space. assumption.
  - pose proof (every_rev _ _ Hs) as Hr.
    destruct (rev s) as [|d r]; [exact I|].
    inversion Hr; subst. apply digit_not_space. assumption.
Qed.

(** [float] reads every line that passes [\d+(\.\d+)?]. *)
Lemma py_float_decimal s :
  fullmatch decimal_re s = true -> exists v, Float.py_float s = Ok v.
Proof.
  intros H. apply RegexFacts.fullmatch_sound in H.
  unfold decimal_re in H. simpl in H.
  apply seq_inv in H. destruct H as (w1 & w2 & -> & H1 & H2).
  apply rep_chr_inv in H1. destruct H1 as (D1 & L1 & _).
  assert (N1 : w1 <> []) by (destruct w1; [simpl in L1; lia | discriminate]).
  apply opt_inv in H2. destruct H2 as [->|H2].
  - rewrite app_nil_r. apply py_float_digits; assumption.
  - apply seq_inv in H2. destruct H2 as (p & w3 & -> & Hp & H3).
    apply chr_inv in Hp. destruct Hp as (c & -> & Hc).
    apply same_eq in Hc. subst c.
    apply rep_chr_inv in H3. destruct H3 as (D3 & L3 & _).
    apply py_float_plain. exists w1, w3. repeat split; try assumption.
    destruct w3; [simpl in L3; lia | discriminate].
Qed.

(** The guarded test of a slot. *)
Lemma slot_matches_cases lines k r :
  (0 <= k)%Z ->
  (slot_matches lines k r = Ok true
   /\ (k < len lines)%Z
   /\ exists line, py_index lines k = Ok line /\ fullmatch r line = true)
  \/ (slot_matches lines k r = Ok false
      /\ ((len lines <= k)%Z
          \/ exists line, py_index lines k = Ok line /\ fullmatch r line = false)).
Proof.
  intros Hk. unfold slot_matches.
  destruct (Z.ltb_spec k (len lines)); [|right; split; [reflexivity | left; lia]].
  destruct (py_index_ok lines k) as (line & E & _); [lia|].
  rewrite E. simpl.
  destruct (fullmatch r line) eqn:F; [left | right]; eauto 6.
Qed.

Section Loop.

Variables (lines : list text) (job_name invoice_number : option text).

(** One turn of the loop at a line that opens a window whose second and
    third lines are a decimal number and a date: the item is emitted and
    the loop goes on five lines further.  The decimal number in the
    second line does not open a window of its own. *)
Lemma window_emitted fuel i items :
  (0 <= i)%Z ->
  slot_matches lines i decimal_re = Ok true ->
  slot_matches lines (i + 1) decimal_re = Ok true ->
  slot_matches lines (i + 2) date_re = Ok true ->
  exists it,
    farwest_item_from lines i it
    /\ items_loop (S fuel) lines job_name invoice_number i items
       = items_loop fuel lines job_name invoice_number (i + 5) (items ++ [it]).
Proof.
  intros Hi S0 S1 S2.
  destruct (slot_matches_cases lines i decimal_re Hi)
    as [(_ & L0 & q & E0 & F0)|(E & _)]; [|congruence].
  destruct (slot_matches_cases lines (i + 1) decimal_re)
    as [(_ & L1 & e & E1 & F1)|(E & _)]; [lia| |congruence].
  destruct (slot_matches_cases lines (i + 2) date_re)
    as [(_ & L2 & d & E2 & F2)|(E & _)]; [lia| |congruence].
  destruct (py_float_decimal q F0) as (vq & Vq).
  destruct (py_float_decimal e F1) as (ve & Ve).
  assert (Hdesc : exists desc,
    (if (i + 3 <? len lines)%Z then py_index lines (i + 3) else Ok []) = Ok desc).
  { destruct (Z.ltb_spec (i + 3) (len lines)); [|eauto].
    destruct (py_index_ok lines (i + 3)) as (x & -> & _); [lia|]. eauto. }
  destruct Hdesc as (desc & Hdesc).
  assert (Hunit : exists vu,
    (let* has_unit := slot_matches lines (i + 4) decimal_re in
     if has_unit
     then let* line4 := py_index lines (i + 4) in Float.py_float line4
     else Ok Float.Zero) = Ok vu
    /\ farwest_unit_price lines i vu).
  { destruct (slot_matches_cases lines (i + 4) decimal_re)
      as [(-> & L4 & u & E4 & F4)|(-> & H4)]; [lia| |].
    - destruct (py_float_decimal u F4) as (vu & Vu).
      exists vu. cbn [bind]. rewrite E4. cbn [bind]. split; [exact Vu|].
      left. eauto.
    - exists Float.Zero. split; [reflexivity|]. right. auto. }
  destruct Hunit as (vu & Hunit & Pu).
  exists (Item job_name invoice_number d desc vq vu ve).
  split.
  - exists q, e. cbn [quantity_tons extended_price date description unit_price].
    repeat split; assumption.
  - cbn [items_loop].
    destruct (Z.ltb_spec i (len lines)); [|lia]. cbn [negb].
    rewrite E0. cbn [bind]. rewrite F0, Vq. cbn [bind].
    rewrite S1. cbn [bind]. rewrite E1. cbn [bind]. rewrite Ve. cbn [bind].
    rewrite S2. cbn [bind]. rewrite E2. cbn [bind].
    rewrite Hdesc. cbn [bind].
    cbn [bind] in Hunit.
    destruct (slot_matches lines (i + 4) decimal_re) as [b|]; [|discriminate].
    cbn [bind] in Hunit |- *. rewrite Hunit. reflexivity.
Qed.

(** A turn of the loop at a line that opens no complete window: the
    loop goes on at the next line. *)
Lemma window_skipped fuel i items :
  (0 <= i < len lines)%Z ->
  slot_matches lines i decimal_re = Ok false
  \/ slot_matches lines (i + 1) decimal_re = Ok false
  \/ slot_matches lines (i + 2) date_re = Ok false ->
  items_loop (S fuel) lines job_name invoice_number i items
  = items_loop fuel lines job_name invoice_number (i + 1) items.
Proof.
  intros Hi H. cbn [items_loop].
  destruct (Z.ltb_spec i (len lines)); [|lia]. cbn [negb].
  destruct (py_index_ok lines i) as (q & E0 & _); [lia|].
  rewrite E0. cbn [bind].
  destruct (fullmatch decimal_re q) eqn:F0; [|reflexivity].
  destruct (py_float_decimal q F0) as (vq & ->). cbn [bind].
  assert (S0 : slot_matches lines i decimal_re = Ok true).
  { unfold slot_matches. destruct (Z.ltb_spec i (len lines)); [|lia].
    rewrite E0. cbn [bind]. rewrite F0. reflexivity. }
  destruct H as [H|H]; [congruence|].
  destruct (slot_matches_cases lines (i + 1) decimal_re)
    as [(S1 & L1 & e & E1 & F1)|(S1 & _)]; [lia| |rewrite S1; reflexivity].
  rewrite S1. cbn [bind]. rewrite E1. cbn [bind].
  destruct (py_float_decimal e F1) as (ve & ->). cbn [bind].
  destruct H as [H|H]; [congruence|].
  rewrite H. reflexivity.
Qed.

(** The loop never raises, with the number of lines for fuel, and every
    item comes from a window whose first three lines passed their
    validators. *)
Lemma items_loop_ok : forall fuel i items,
  (0 <= i)%Z -> (len lines - i <= Z.of_nat fuel)%Z ->
  Forall (emitted lines) items ->
  exists items',
    items_loop fuel lines job_name invoice_number i items = Ok items'
    /\ Forall (emitted lines) items'.
Proof.
  induction fuel as [|fuel IH]; intros i items Hi Hf Hitems.
  - cbn [items_loop]. destruct (Z.ltb_spec i (len lines)); [lia|]. eauto.
  - destruct (Z.ltb_spec i (len lines)) as [Hlt|Hge].
    2:{ cbn [items_loop]. destruct (Z.ltb_spec i (len lines)); [lia|]. eauto. }
    destruct (slot_matches_cases lines i decimal_re Hi) as [(S0 & _)|(S0 & _)].
    2:{ rewrite window_skipped by (auto; lia). apply IH; [lia | lia | assumption]. }
    destruct (slot_matches_cases lines (i + 1) decimal_re) as [(S1 & _)|(S1 & _)];
      [lia| |].
    2:{ rewrite window_skipped by (auto; lia). apply IH; [lia | lia | assumption]. }
    destruct (slot_matches_cases lines (i + 2) date_re) as [(S2 & _)|(S2 & _)];
      [lia| |].
    2:{ rewrite window_skipped by (auto; lia). apply IH; [lia | lia | assumption]. }
    destruct (window_emitted fuel i items Hi S0 S1 S2) as (it & Hit & ->).
    apply IH; [lia | lia |].
    apply List.Forall_app. split; [assumption|].
    constructor; [|constructor]. exists i. exact Hit.
Qed.

End Loop.

Lemma extract_line_items_ok txt job_name invoice_number :
  exists items,
    extract_line_items txt job_name invoice_number = Ok items
    /\ Forall (emitted (Str.stripped_lines txt)) items.
Proof.
  unfold extract_line_items.
  apply items_loop_ok; [lia | unfold len; lia | constructor].
Qed.

End FarwestFacts.

(** ** Vendor dispatch *)

Module DispatchFacts.

Import RegexSem Lang PyFacts Spec Dispatch Aux.

Lemma every_join p sep parts :
  every p sep -> Forall (every p) parts -> every p (Str.join sep parts).
Proof.
  intros Hsep. induction 1 as [|x parts Hx Hparts IH]; simpl; [constructor|].
  destruct parts as [|y parts]; [exact Hx|].
  apply every_app. split; [exact Hx|].
  apply every_app. split; [exact Hsep | exact IH].
Qed.

Lemma every_split p sep s : forall cur,
  every p cur -> every p s -> Forall (every p) (Str.split_from sep cur s).
Proof.
  induction s as [|c s IH]; intros cur Hcur Hs; simpl.
  - constructor; [apply List.Forall_rev; exact Hcur | constructor].
  - inversion Hs as [|? ? Hc Hs']; subst.
    destruct (Char.eqb sep c).
    + constructor; [apply List.Forall_rev; exact Hcur|].
      apply IH; [constructor | exact Hs'].
    + apply IH; [constructor; assumption | exact Hs'].
Qed.

Lemma Forall_filter_keep {A} (P : A -> Prop) (f : A -> bool) l :
  Forall P l -> Forall P (List.filter f l).
Proof.
  induction 1 as [|x l Hx _ IH]; simpl; [constructor|].
  destruct (f x); [constructor; assumption | exact IH].
Qed.

Lemma aliases_cases raw m :
  VENDOR_ALIASES !! raw = Some m ->
  m = lit "knife_river_parser" \/ m = lit "core_main_parser".
Proof.
  unfold VENDOR_ALIASES. intros H.
  apply lookup_insert_Some in H. destruct H as [[_ <-]|[_ H]]; [auto|].
  apply lookup_insert_Some in H. destruct H as [[_ <-]|[_ H]]; [auto|].
  rewrite lookup_empty in H. discriminate.
Qed.

(** A derived module name is made of alphanumeric characters and
    underscores. *)
Lemma derive_chars vendor_folder :
  every name_char (derive_vendor_module vendor_folder).
Proof.
  unfold derive_vendor_module.
  destruct (VENDOR_ALIASES !! _) as [m|] eqn:E.
  - apply aliases_cases in E. destruct E as [->| ->];
      apply every_forallb; vm_compute; reflexivity.
  - apply every_app. split; [|apply every_forallb; vm_compute; reflexivity].
    apply every_join; [apply every_forallb; vm_compute; reflexivity|].
    apply Forall_filter_keep. apply every_split; [constructor|].
    apply List.Forall_map. apply List.Forall_forall. intros c _.
    unfold name_char. destruct (Char.isalnum c) eqn:Ec.
    + rewrite Ec. reflexivity.
    + vm_compute. reflexivity.
Qed.

Lemma derive_nonempty vendor_folder :
  truthy (derive_vendor_module vendor_folder) = true.
Proof.
  unfold derive_vendor_module.
  destruct (VENDOR_ALIASES !! _) as [m|] eqn:E.
  - apply aliases_cases in E. destruct E as [->| ->]; reflexivity.
  - destruct (Str.join _ _); reflexivity.
Qed.

End DispatchFacts.

(** ** The job name rules *)

Module JobnameFacts.

Import PyFacts Spec KnifeRiverParserFacts Aux.

Lemma py_index_middle {A} (l1 : list A) x l2 :
  py_index (l1 ++ x :: l2) (len l1) = Ok x.
Proof.
  unfold py_index, len.
  destruct (Z.ltb_spec (Z.of_nat (length l1)) 0); [lia|].
  destruct (Z.leb_spec 0 (Z.of_nat (length l1))); [|lia].
  rewrite length_app. simpl length.
  destruct (Z.ltb_spec (Z.of_nat (length l1))
              (Z.of_nat (length l1 + S (length l2)))); [|lia].
  simpl. rewrite Nat2Z.id.
  rewrite nth_error_app2, Nat.sub_diag by lia. reflexivity.
Qed.

(** *** Knife River *)

Section KnifeRiver.

Import KnifeRiverParser.

(** The loop passes over the lines that are not ORIGINAL. *)
Lemma jobname_loop_skip lines : forall mid idx rest,
  Forall not_original mid ->
  jobname_loop lines idx (mid ++ rest)
  = jobname_loop lines (idx + len mid) rest.
Proof.
  induction mid as [|ln mid IH]; intros idx rest H; simpl.
  - f_equal. unfold len. simpl. lia.
  - inversion H as [|? ? Hln Hmid]; subst. unfold not_original in Hln.
    rewrite Hln. rewrite IH by assumption.
    f_equal. unfold len. simpl length. lia.
Qed.

(** The two candidates above the line at position [len before]. *)
Lemma candidates_above (before : list text) label after :
  let lines := before ++ label :: after in
  exists c1 c2,
    (if (0 <=? len before - 1)%Z then py_index lines (len before - 1) else Ok [])
    = Ok c1
    /\ (if (0 <=? len before - 2)%Z then py_index lines (len before - 2) else Ok [])
       = Ok c2
    /\ (Forall (fun c => knife_river_turned_down c = true) (firstn 2 (rev before)) ->
        knife_river_turned_down c1 = true /\ knife_river_turned_down c2 = true).
Proof.
  intros lines. subst lines.
  destruct (rev before) as [|c1 [|c2 r]] eqn:E;
    apply (f_equal (@rev text)) in E; rewrite rev_involutive in E; subst before.
  - exists [], []. simpl. auto.
  - exists c1, []. simpl rev. split; [|split].
    + change (len [c1] - 1)%Z with (len (@nil text)).
      apply (py_index_middle [] c1).
    + reflexivity.
    + simpl. intros H. inversion H; subst. auto.
  - exists c1, c2. simpl rev. rewrite <- !app_assoc. simpl app.
    split; [|split].
    + replace (len (rev r ++ [c2; c1]) - 1)%Z with (len (rev r ++ [c2])).
      2:{ rewrite !len_app. unfold len. simpl. lia. }
      pose proof (len_nonneg (rev r ++ [c2])).
      destruct (Z.leb_spec 0 (len (rev r ++ [c2]))); [|lia].
      replace (rev r ++ c2 :: c1 :: label :: after)
        with ((rev r ++ [c2]) ++ c1 :: label :: after)
        by (rewrite <- app_assoc; reflexivity).
      apply py_index_middle.
    + replace (len (rev r ++ [c2; c1]) - 2)%Z with (len (rev r)).
      2:{ rewrite !len_app. unfold len. simpl. lia. }
      pose proof (len_nonneg (rev r)).
      destruct (Z.leb_spec 0 (len (rev r))); [|lia].
      apply py_index_middle.
    + simpl. intros H. inversion H as [|? ? H1 H']; subst.
      inversion H' as [|? ? H2 _]; subst. auto.
Qed.

(** The label line is found and the two lines above it are turned
    down: the job name is the empty string. *)
Lemma jobname_empty before label after :
  Forall not_original before ->
  text_eqb (Str.upper label) "ORIGINAL" = true ->
  Forall (fun c => knife_river_turned_down c = true) (firstn 2 (rev before)) ->
  jobname_loop (before ++ label :: after) 0 (before ++ label :: after) = Ok [].
Proof.
  intros Hbefore Hlabel Hdown.
  rewrite jobname_loop_skip by assumption.
  cbn [jobname_loop]. rewrite Hlabel. rewrite Z.add_0_l.
  destruct (candidates_above before label after) as (c1 & c2 & -> & -> & H).
  destruct (H Hdown) as [H1 H2]. cbn [bind].
  unfold knife_river_turned_down in H1, H2.
  apply negb_true_iff in H1, H2. rewrite H1, H2. reflexivity.
Qed.

End KnifeRiver.

(** *** Core & Main *)

Section CoreMain.

Import CoreMainParser.

Lemma scan_none nxts :
  Forall (fun nxt => skipped nxt = true) nxts -> scan nxts = None.
Proof.
  induction 1 as [|nxt nxts H _ IH]; simpl; [reflexivity|].
  rewrite H. exact IH.
Qed.

Lemma scan_fallback_none nxts :
  Forall (fun nxt => skipped nxt = true) nxts -> scan_fallback nxts = None.
Proof.
  induction 1 as [|nxt nxts H _ IH]; simpl; [reflexivity|].
  unfold skipped_fallback. rewrite H. simpl. exact IH.
Qed.

Lemma primary_loop_skip before rest jobname :
  Forall (fun line => is_label line = false) before ->
  primary_loop (before ++ rest) jobname = primary_loop rest jobname.
Proof.
  induction 1 as [|line before H _ IH]; simpl; [reflexivity|].
  rewrite H. exact IH.
Qed.

Lemma unknown_is_unknown : text_eqb "UNKNOWN" "UNKNOWN" = true.
Proof. reflexivity. Qed.

Lemma secondary_loop_skip before rest :
  Forall not_anchor before ->
  secondary_loop (before ++ rest) "UNKNOWN" = secondary_loop rest "UNKNOWN".
Proof.
  induction 1 as [|line before H _ IH]; simpl; [reflexivity|].
  unfold not_anchor in H. rewrite H, unknown_is_unknown. exact IH.
Qed.

Lemma secondary_loop_nothing after :
  Forall (fun nxt => skipped nxt = true) after ->
  secondary_loop after "UNKNOWN" = "UNKNOWN".
Proof.
  induction 1 as [|line after H Hafter IH]; simpl; [reflexivity|].
  rewrite (scan_fallback_none after Hafter).
  destruct (text_eqb (Str.lower line) "job name");
    rewrite unknown_is_unknown; exact IH.
Qed.

(** A label line is not the anchor of the fallback. *)
Lemma label_not_anchor label : is_label label = true -> not_anchor label.
Proof.
  unfold is_label, not_anchor. intros H.
  apply andb_true_iff in H. destruct H as [H _].
  destruct (text_eqb (Str.lower label) "job name") eqn:E; [|reflexivity].
  apply text_eqb_eq in E. rewrite E in H. vm_compute in H. discriminate H.
Qed.

(** The label line is found, every line after it is skipped, and no
    line before it is the anchor of the fallback: the job name is the
    sentinel. *)
Lemma jobname_unknown before label after :
  Forall (fun line => is_label line = false) before ->
  Forall not_anchor before ->
  is_label label = true ->
  Forall (fun nxt => skipped nxt = true) after ->
  extract_jobname (before ++ label :: after) = "UNKNOWN".
Proof.
  intros Hbefore Hanchor Hlabel Hafter. unfold extract_jobname.
  rewrite primary_loop_skip by assumption. cbn [primary_loop].
  rewrite Hlabel, (scan_none after Hafter), unknown_is_unknown.
  rewrite secondary_loop_skip by assumption. cbn [secondary_loop].
  rewrite (label_not_anchor label Hlabel), unknown_is_unknown.
  apply secondary_loop_nothing. exact Hafter.
Qed.

End CoreMain.

(** *** Farwest *)

Lemma farwest_job_name_skip lines : forall mid idx rest,
  Forall not_job mid ->
  Farwest.job_name_loop lines idx (mid ++ rest)
  = Farwest.job_name_loop lines (idx + len mid) rest.
Proof.
  induction mid as [|ln mid IH]; intros idx rest H; simpl.
  - f_equal. unfold len. simpl. lia.
  - inversion H as [|? ? Hln Hmid]; subst. unfold not_job in Hln.
    rewrite Hln. cbn [andb]. rewrite IH by assumption.
    f_equal. unfold len. simpl length. lia.
Qed.

(** The label JOB is the last line and no line before it is JOB: the
    rule returns [None]. *)
Lemma farwest_job_name_absent before label :
  Forall not_job before ->
  Farwest.job_name_loop (before ++ [label]) 0 (before ++ [label]) = Ok None.
Proof.
  intros H. rewrite farwest_job_name_skip by assumption.
  cbn [Farwest.job_name_loop].
  destruct (Z.ltb_spec (0 + len before + 1) (len (before ++ [label])))
    as [Hlt|_].
  - rewrite len_app in Hlt. change (len [label]) with 1%Z in Hlt. lia.
  - rewrite andb_false_r. reflexivity.
Qed.

End JobnameFacts.

(** ** One record per page *)

Module PagesFacts.

Import PyFacts Spec KnifeRiverParserFacts Aux.

Lemma range_pages_exist (doc : document) :
  Forall (in_range doc) (py_range 0 (len doc)).
Proof.
  apply List.Forall_forall. intros i Hi. apply py_range_bounds in Hi. exact Hi.
Qed.

(** Records whose page numbers are those of the loop over the pages are
    in the order of the pages. *)
Lemma pages_from_range (doc : document) records :
  List.map page records
  = List.map (fun i => (i + 1)%Z) (py_range 0 (len doc)) ->
  pages_in_order doc records.
Proof.
  intros H. split.
  - apply (f_equal (@length Z)) in H.
    rewrite !length_map, py_range_length in H. unfold len in H. lia.
  - intros i r Hr.
    apply (map_nth_error page) in Hr. rewrite H in Hr.
    unfold py_range in Hr. rewrite !nth_error_map in Hr.
    destruct (nth_error (seq 0 _) i) as [k|] eqn:Ek; [|discriminate].
    simpl in Hr. injection Hr as <-.
    assert (Hlt : (i < length (seq 0 (Z.to_nat (len doc - 0))))%nat).
    { apply nth_error_Some. congruence. }
    rewrite length_seq in Hlt.
    rewrite nth_error_seq in Ek.
    destruct (Nat.ltb_spec i (Z.to_nat (len doc - 0))); [|lia].
    injection Ek as <-. lia.
Qed.

Lemma knife_river_pages_loop doc : forall indices results,
  Forall (in_range doc) indices ->
  exists new,
    KnifeRiverParser.pages_loop doc indices results = Ok (results ++ new)
    /\ List.map page new = List.map (fun i => (i + 1)%Z) indices.
Proof.
  induction indices as [|i indices IH]; intros results H; simpl.
  - exists []. rewrite app_nil_r. auto.
  - inversion H as [|? ? Hi Hrest]; subst.
    unfold KnifeRiverParser._extract_page_text.
    destruct (py_index_ok doc i Hi) as (txt & -> & _). cbn [bind].
    destruct (knife_river_page_ok
                (Str.strip (Str.replace ["000"%char] [] txt)) (i + 1))
      as (t & j & -> & _).
    cbn [bind].
    match goal with
    | |- context [KnifeRiverParser.pages_loop _ _ (results ++ [?r])] =>
        destruct (IH (results ++ [r]) Hrest) as (new & -> & Hnew)
    end.
    eexists (_ :: new). rewrite <- app_assoc. split; [reflexivity|].
    simpl. rewrite Hnew. reflexivity.
Qed.

Lemma missoula_pages_loop doc : forall indices results,
  Forall (in_range doc) indices ->
  exists new,
    MissoulaLandfillParser.pages_loop doc indices results = Ok (results ++ new)
    /\ List.map page new = List.map (fun i => (i + 1)%Z) indices.
Proof.
  induction indices as [|i indices IH]; intros results H; simpl.
  - exists []. rewrite app_nil_r. auto.
  - inversion H as [|? ? Hi Hrest]; subst.
    unfold MissoulaLandfillParser._extract_page_text.
    destruct (py_index_ok doc i Hi) as (txt & -> & _). cbn [bind].
    destruct (MissoulaFacts.missoula_page_ok
                (Str.strip (Str.replace ["000"%char] [] txt)) (i + 1))
      as (n & t & j & -> & _).
    cbn [bind].
    match goal with
    | |- context [MissoulaLandfillParser.pages_loop _ _ (results ++ [?r])] =>
        destruct (IH (results ++ [r]) Hrest) as (new & -> & Hnew)
    end.
    eexists (_ :: new). rewrite <- app_assoc. split; [reflexivity|].
    simpl. rewrite Hnew. reflexivity.
Qed.

(** A loop that appends one element per turn builds a map. *)
Lemma fold_append {A B} (f : A -> B) l : forall acc,
  fold_left (fun acc a => acc ++ [f a]) l acc = acc ++ List.map f l.
Proof.
  induction l as [|a l IH]; intros acc; simpl.
  - rewrite app_nil_r. reflexivity.
  - rewrite IH, <- app_assoc. reflexivity.
Qed.

Lemma fst_combine {A B} (l1 : list A) : forall (l2 : list B),
  length l1 = length l2 -> List.map fst (combine l1 l2) = l1.
Proof.
  induction l1 as [|a l1 IH]; intros [|b l2] H; simpl in *; try congruence.
  rewrite IH by lia. reflexivity.
Qed.

Lemma enumerate_fst {A} (l : list A) :
  List.map fst (enumerate l) = py_range 0 (len l).
Proof.
  unfold enumerate. apply fst_combine.
  rewrite py_range_length. unfold len. lia.
Qed.

Lemma core_main_pages doc :
  List.map page
    (List.map (fun p => CoreMainParser.parse_page (snd p) (fst p)) (enumerate doc))
  = List.map (fun i => (i + 1)%Z) (py_range 0 (len doc)).
Proof.
  rewrite <- enumerate_fst, !List.map_map. reflexivity.
Qed.

Section Generated.

Variables d1 d2 d3 d4 d5 d6 : text -> result text.

Lemma generated_record_page page_num txt inv :
  GeneratedParser.page_record d1 d2 d3 d4 d5 d6 page_num txt = Ok inv ->
  page inv = page_num.
Proof.
  unfold GeneratedParser.page_record.
  destruct (d1 txt); [|discriminate]. destruct (d2 txt); [|discriminate].
  destruct (d3 txt); [|discriminate]. destruct (d4 txt); [|discriminate].
  destruct (d5 txt); [|discriminate]. destruct (d6 txt); [|discriminate].
  cbn [bind]. intros [= <-]. reflexivity.
Qed.

Lemma generated_record_ok page_num txt :
  (forall d, In d [d1; d2; d3; d4; d5; d6] -> exists v, d txt = Ok v) ->
  exists inv, GeneratedParser.page_record d1 d2 d3 d4 d5 d6 page_num txt = Ok inv.
Proof.
  intros H. unfold GeneratedParser.page_record.
  destruct (H d1) as (v1 & ->); [simpl; tauto|].
  destruct (H d2) as (v2 & ->); [simpl; tauto|].
  destruct (H d3) as (v3 & ->); [simpl; tauto|].
  destruct (H d4) as (v4 & ->); [simpl; tauto|].
  destruct (H d5) as (v5 & ->); [simpl; tauto|].
  destruct (H d6) as (v6 & ->); [simpl; tauto|].
  cbn [bind]. eauto.
Qed.

(** What the loop over the pages returns holds one more record for
    each page, with the number of the page. *)
Lemma generated_loop_returns pages : forall results out,
  GeneratedParser.pages_loop d1 d2 d3 d4 d5 d6 pages results = Ok out ->
  exists new, out = results ++ new /\ List.map page new = List.map fst pages.
Proof.
  induction pages as [|p pages IH]; intros results out; cbn [GeneratedParser.pages_loop].
  - intros [= <-]. exists []. rewrite app_nil_r. auto.
  - destruct (GeneratedParser.page_record d1 d2 d3 d4 d5 d6 (fst p) (snd p))
      as [inv|e] eqn:E; [|discriminate].
    cbn [bind]. intros H. destruct (IH _ _ H) as (new & -> & Hnew).
    exists (inv :: new). rewrite <- app_assoc. split; [reflexivity|].
    cbn [List.map]. rewrite Hnew, (generated_record_page _ _ _ E). reflexivity.
Qed.

(** The loop returns when every detector returns on every page. *)
Lemma generated_loop_ok pages :
  (forall d txt, In d [d1; d2; d3; d4; d5; d6] -> In txt (List.map snd pages) ->
                 exists v, d txt = Ok v) ->
  forall results,
    exists out, GeneratedParser.pages_loop d1 d2 d3 d4 d5 d6 pages results = Ok out.
Proof.
  induction pages as [|p pages IH]; intros H results; cbn [GeneratedParser.pages_loop].
  - eauto.
  - destruct (generated_record_ok (fst p) (snd p)) as (inv & ->).
    { intros d Hd. apply H; [exact Hd | left; reflexivity]. }
    cbn [bind]. apply IH. intros d txt Hd Htxt. apply H; [exact Hd|].
    right. exact Htxt.
Qed.

Lemma generated_pages fs pdf_path doc :
  fs pdf_path = Ok doc ->
  GeneratedParser.extract_pdf_text fs pdf_path
  = Ok (List.map (fun p => ((fst p + 1)%Z, snd p)) (enumerate doc)).
Proof.
  intros H. unfold GeneratedParser.extract_pdf_text. rewrite H. cbn [bind].
  rewrite (fold_append (fun p => ((fst p + 1)%Z, snd p))). reflexivity.
Qed.

Lemma snd_enumerate {A} (l : list A) : List.map snd (enumerate l) = l.
Proof.
  unfold enumerate.
  assert (H : length (py_range 0 (len l)) = length l)
    by (rewrite py_range_length; unfold len; lia).
  revert H. generalize (py_range 0 (len l)).
  induction l as [|a l IH]; intros [|i r] H; simpl in *; try congruence.
  rewrite IH by lia. reflexivity.
Qed.

(** The generated [parse_invoice], when it returns, returns the records
    of the pages as a list, except when there is exactly one, which it
    returns bare. *)
Lemma generated_parse_invoice_returns fs pdf_path doc r :
  fs pdf_path = Ok doc ->
  GeneratedParser.parse_invoice d1 d2 d3 d4 d5 d6 fs pdf_path = Ok r ->
  exists records,
    pages_in_order doc records
    /\ r = match records with
           | [record] => PDict record
           | several => PList several
           end.
Proof.
  intros Hdoc. unfold GeneratedParser.parse_invoice.
  rewrite (generated_pages _ _ _ Hdoc). cbn [bind].
  destruct (GeneratedParser.pages_loop _ _ _ _ _ _ _ _) as [records|e] eqn:E;
    [|discriminate].
  cbn [bind]. intros H. exists records.
  destruct (generated_loop_returns _ _ _ E) as (new & -> & Hnew).
  cbn [app] in *. split.
  - apply pages_from_range. rewrite Hnew, <- enumerate_fst, !List.map_map.
    reflexivity.
  - destruct new as [|r1 [|r2 rs]].
    + unfold len in H. simpl in H. congruence.
    + unfold len in H. simpl in H. congruence.
    + unfold len in H. cbn [length] in H.
      destruct (Z.eqb_spec (Z.of_nat (S (S (length rs)))) 1); [lia | congruence].
Qed.

Lemma generated_parse_invoice_ok fs pdf_path doc :
  fs pdf_path = Ok doc ->
  detectors_return [d1; d2; d3; d4; d5; d6] doc ->
  exists r, GeneratedParser.parse_invoice d1 d2 d3 d4 d5 d6 fs pdf_path = Ok r.
Proof.
  intros Hdoc Hret. unfold GeneratedParser.parse_invoice.
  rewrite (generated_pages _ _ _ Hdoc). cbn [bind].
  destruct (generated_loop_ok
              (List.map (fun p => ((fst p + 1)%Z, snd p)) (enumerate doc)))
    with (results := @nil invoice) as (records & E).
  { intros d txt Hd Htxt. apply Hret; [exact Hd|].
    rewrite List.map_map in Htxt. cbn [snd] in Htxt.
    rewrite snd_enumerate in Htxt. exact Htxt. }
  rewrite E. cbn [bind].
  destruct (generated_loop_returns _ _ _ E) as (new & -> & _). cbn [app].
  destruct new as [|r1 [|r2 rs]].
  - unfold len. simpl. eauto.
  - unfold len. simpl. eauto.
  - unfold len. cbn [length].
    destruct (Z.eqb_spec (Z.of_nat (S (S (length rs)))) 1); [lia | eauto].
Qed.

End Generated.

End PagesFacts.

(** ** Where a match stands in the text *)

Module PlaceFacts.

Import Regex RegexSem Lang PyFacts Spec Aux.

Lemma last_read_cons prev c w : last_read prev (c :: w) = last_read (Some c) w.
Proof. apply (RegexFacts.last_read_app prev [c] w). Qed.

(** A match that starts here: what the three parts of the pattern read,
    one after the other. *)
Lemma match_here_place p prev s g n :
  match_here p prev s = Some (g, n) ->
  exists w1 w3 rest,
    s = w1 ++ g ++ w3 ++ rest
    /\ matches (pre p) prev w1 (g ++ w3 ++ rest)
    /\ matches (grp p) (last_read prev w1) g (w3 ++ rest)
    /\ matches (post p) (last_read (last_read prev w1) g) w3 rest.
Proof.
  unfold match_here. intros H.
  apply RegexFacts.run_sound in H. destruct H as (w1 & s1 & -> & Hw1 & H).
  apply RegexFacts.run_sound in H. destruct H as (w2 & s2 & -> & Hw2 & H).
  apply RegexFacts.run_sound in H. destruct H as (w3 & s3 & -> & Hw3 & H).
  injection H as <- _.
  rewrite length_app.
  replace (length w2 + length (w3 ++ s3) - length (w3 ++ s3))%nat
    with (length w2) by lia.
  rewrite firstn_app, firstn_all, Nat.sub_diag, firstn_O, app_nil_r.
  exists w1, w3, s3. auto.
Qed.

Lemma search_from_place p s : forall prev g,
  search_from p prev s = Some g ->
  exists before w1 w3 rest,
    s = before ++ w1 ++ g ++ w3 ++ rest
    /\ matches (pre p) (last_read prev before) w1 (g ++ w3 ++ rest)
    /\ matches (grp p) (last_read (last_read prev before) w1) g (w3 ++ rest)
    /\ matches (post p) (last_read (last_read (last_read prev before) w1) g)
         w3 rest.
Proof.
  assert (Hhere : forall prev s g n,
    match_here p prev s = Some (g, n) ->
    exists before w1 w3 rest,
      s = before ++ w1 ++ g ++ w3 ++ rest
      /\ matches (pre p) (last_read prev before) w1 (g ++ w3 ++ rest)
      /\ matches (grp p) (last_read (last_read prev before) w1) g (w3 ++ rest)
      /\ matches (post p) (last_read (last_read (last_read prev before) w1) g)
           w3 rest).
  { intros prev s' g n E. apply match_here_place in E.
    destruct E as (w1 & w3 & rest & -> & H1 & H2 & H3).
    exists [], w1, w3, rest. auto. }
  induction s as [|c s IH]; intros prev g; cbn [search_from];
    destruct (match_here p prev _) as [[g' n]|] eqn:E; intros H;
    try discriminate.
  - injection H as <-. eapply Hhere; eassumption.
  - injection H as <-. eapply Hhere; eassumption.
  - apply IH in H.
    destruct H as (before & w1 & w3 & rest & -> & H1 & H2 & H3).
    exists (c :: before), w1, w3, rest. rewrite !last_read_cons. auto.
Qed.

Lemma wordb_boundary prev w rest :
  matches WordB prev w rest ->
  w = [] /\ xorb (word_before prev) (word_after rest) = true.
Proof. inversion 1; subst; auto. Qed.

(** A literal reads itself. *)
Lemma lit_inv s : forall prev w rest, matches (Lit s) prev w rest -> w = s.
Proof.
  induction s as [|c s IH]; intros prev w rest H; cbn [Lit] in H.
  - apply eps_inv in H. exact H.
  - apply seq_inv in H. destruct H as (w1 & w2 & -> & H1 & H2).
    apply chr_inv in H1. destruct H1 as (x & -> & Hx).
    apply same_eq in Hx. subst x. apply IH in H2. subst w2. reflexivity.
Qed.

Lemma run_lit {A} v : forall prev rest (k : cont A),
  run (Lit v) prev (v ++ rest) k = k (last_read prev v) rest.
Proof.
  induction v as [|c v IH]; intros prev rest k; cbn [Lit run app].
  - reflexivity.
  - assert (E : Char.same c c = true) by (apply same_eq; reflexivity).
    rewrite E, IH, last_read_cons. reflexivity.
Qed.

Lemma starts_split : forall s w,
  Str.startswith s w = true -> exists rest, s = w ++ rest.
Proof.
  intros s w. revert s. induction w as [|a w IH]; intros s H.
  - exists s. reflexivity.
  - destruct s as [|b s]; [discriminate|]. cbn [Str.startswith] in H.
    apply andb_true_iff in H. destruct H as [Hab H].
    apply same_eq in Hab. subst b.
    destruct (IH _ H) as (rest & ->). exists rest. reflexivity.
Qed.

Lemma starts_with_itself w rest : Str.startswith (w ++ rest) w = true.
Proof.
  induction w as [|a w IH]; [apply startswith_nil|].
  cbn [app Str.startswith]. rewrite IH.
  assert (E : Char.eqb a a = true) by (apply (same_eq a a); reflexivity).
  rewrite E. reflexivity.
Qed.

Lemma contains_middle before w rest :
  Str.contains (before ++ w ++ rest) w = true.
Proof.
  induction before as [|b before IH].
  - cbn [app]. destruct (w ++ rest) as [|x l] eqn:E; cbn [Str.contains];
      rewrite <- E, starts_with_itself; reflexivity.
  - cbn [app Str.contains]. rewrite IH. apply orb_true_r.
Qed.

(** [find] answers -1 only when the text does not hold the word. *)
Lemma find_from_found s w : forall i,
  (0 <= i)%Z -> Str.find_from s w i <> (-1)%Z -> Str.contains s w = true.
Proof.
  induction s as [|c s IH]; intros i Hi; cbn [Str.find_from Str.contains].
  - destruct (Str.startswith [] w); [reflexivity|]. congruence.
  - destruct (Str.startswith (c :: s) w); [reflexivity|].
    intros H. cbn [orb]. apply (IH (i + 1)%Z); [lia | exact H].
Qed.

(** A literal is found wherever the text holds it. *)
Lemma search_lit v s : forall prev,
  Str.contains s v = true ->
  exists g, search_from (Pattern Eps (Lit v) Eps) prev s = Some g.
Proof.
  assert (Hhere : forall prev s',
    Str.startswith s' v = true ->
    exists g n, match_here (Pattern Eps (Lit v) Eps) prev s' = Some (g, n)).
  { intros prev s' H. apply starts_split in H. destruct H as (rest & ->).
    unfold match_here. cbn [pre grp post run]. rewrite run_lit. eauto. }
  induction s as [|c s IH]; intros prev H; cbn [Str.contains] in H.
  - rewrite orb_false_r in H.
    destruct (Hhere prev [] H) as (g & n & E).
    cbn [search_from]. rewrite E. eauto.
  - cbn [search_from].
    destruct (match_here _ prev (c :: s)) as [[g n]|] eqn:E; [eauto|].
    apply orb_true_iff in H. destruct H as [H|H].
    + destruct (Hhere prev _ H) as (g & n & E'). congruence.
    + apply IH. exact H.
Qed.

End PlaceFacts.

(** ** The invoice number stands alone *)

Module NumberFacts.

Import Regex RegexSem Lang PyFacts Spec Aux MissoulaLandfillParser.

Lemma digit_is_word c : Char.is_digit c = true -> Char.is_word c = true.
Proof.
  intros H. unfold Char.is_word, Char.isalnum. rewrite H.
  rewrite orb_true_r. reflexivity.
Qed.

(** A number that [\b(\d{6,7})\b] finds is a whole word of the text. *)
Lemma number_anywhere_whole raw_text g :
  search number_anywhere_re raw_text = Some g -> whole_word raw_text g.
Proof.
  intros H. apply PlaceFacts.search_from_place in H.
  destruct H as (before & w1 & w3 & rest & -> & H1 & H2 & H3).
  cbn [pre grp post number_anywhere_re] in *.
  apply PlaceFacts.wordb_boundary in H1. destruct H1 as [-> Hb].
  apply PlaceFacts.wordb_boundary in H3. destruct H3 as [-> Ha].
  cbn [app] in *. rewrite RegexFacts.last_read_nil in *.
  apply rep_chr_inv in H2. destruct H2 as (Hd & Hlen & _).
  destruct g as [|c g]; [cbn in Hlen; lia|].
  exists before, rest. split; [reflexivity|].
  inversion Hd as [|? ? Hc Hg]; subst.
  split.
  - cbn [app word_after] in Hb. rewrite (digit_is_word _ Hc) in Hb.
    destruct (word_before (last_read None before));
      [cbn in Hb; discriminate | reflexivity].
  - assert (Hlast : word_before (last_read (last_read None before) (c :: g))
                    = true).
    { unfold last_read at 1.
      destruct (rev (c :: g)) as [|x r] eqn:Er.
      - apply (f_equal (@length ascii)) in Er.
        rewrite length_rev in Er. discriminate Er.
      - cbn [word_before]. apply digit_is_word.
        assert (Hin : In x (c :: g)).
        { apply in_rev. rewrite Er. left. reflexivity. }
        unfold every in Hd. rewrite List.Forall_forall in Hd.
        apply Hd. exact Hin. }
    rewrite Hlast in Ha.
    destruct (word_after rest); [cbn in Ha; discriminate | reflexivity].
Qed.

Lemma after_signature_line (lines : list text) js x :
  after_signature lines js = Ok (Some x) -> In x lines.
Proof.
  induction js as [|j js IH]; cbn [after_signature]; [discriminate|].
  unfold py_index.
  destruct (_ && _)%bool; [|discriminate].
  destruct (nth_error lines _) as [line|] eqn:E; [|discriminate].
  cbn [bind]. destruct (fullmatch number_re line); [|exact IH].
  intros [= <-]. eapply nth_error_In. exact E.
Qed.

Lemma signature_loop_line lines : forall rest i x,
  signature_loop lines i rest = Ok (Some x) -> In x lines.
Proof.
  induction rest as [|ln rest IH]; intros i x; cbn [signature_loop];
    [discriminate|].
  destruct (Str.contains _ _); [|apply IH].
  destruct (after_signature lines _) as [[y|]|e] eqn:E; cbn [bind];
    [|apply IH|discriminate].
  intros [= <-]. eapply after_signature_line. exact E.
Qed.

(** The invoice number rule of Missoula Landfill: nothing, or 6 or 7
    digits that are a whole line of the page or a whole word of its
    text. *)
Lemma invoice_number_place raw_text :
  exists n, _extract_missoula_invoice_number raw_text = Ok n
            /\ (n = []
                \/ (digits_between 6 (Some 7) n
                    /\ (In n (Str.stripped_lines raw_text)
                        \/ whole_word raw_text n))).
Proof.
  unfold _extract_missoula_invoice_number.
  destruct (MissoulaFacts.signature_loop_ok (Str.stripped_lines raw_text)
              (Str.stripped_lines raw_text) 0) as (r & E & Hr); [lia|].
  rewrite E. cbn [bind]. destruct r as [x|].
  { eexists. split; [reflexivity|]. right. split.
    - apply MissoulaFacts.number_digits. auto.
    - left. eapply signature_loop_line. exact E. }
  destruct (List.find _ _) as [ln|] eqn:Ef.
  { eexists. split; [reflexivity|]. right.
    apply find_some in Ef. destruct Ef as [Hin Hm]. split.
    - apply MissoulaFacts.number_digits. exact Hm.
    - left. exact Hin. }
  destruct (search number_anywhere_re raw_text) as [g|] eqn:Es.
  - eexists. split; [reflexivity|]. right. split.
    + apply RegexFacts.search_sound in Es. destruct Es as (prev & rest & Hm).
      cbn [grp number_anywhere_re] in Hm. apply rep_chr_inv in Hm. exact Hm.
    + right. apply number_anywhere_whole. exact Es.
  - eexists. split; [reflexivity|]. auto.
Qed.

(** The invoice number of a Knife River page: nothing, or a whole line
    of six digits and more. *)
Lemma knife_river_number_line raw_text :
  page_invoice_number raw_text = []
  \/ (digits_between 6 None (page_invoice_number raw_text)
      /\ In (page_invoice_number raw_text) (Str.stripped_lines raw_text)).
Proof.
  unfold page_invoice_number.
  destruct (List.find _ _) as [ln|] eqn:E; [right|auto].
  apply find_some in E. destruct E as [Hin E]. split; [|exact Hin].
  apply RegexFacts.fullmatch_sound in E. apply rep_chr_inv in E. exact E.
Qed.

End NumberFacts.

(** ** The detectors that the wizard generates *)

Module WizardRuleFacts.

Import Regex RegexSem Lang PyFacts Spec Aux ParserWizard.

(** What a pattern with an anchor captures. *)
Lemma anchored_capture anchor txt g :
  search (anchored_re anchor) txt = Some g ->
  exists before blanks after,
    txt = before ++ anchor ++ blanks ++ g ++ after
    /\ every Char.isspace blanks /\ g <> [] /\ ~ In LF g.
Proof.
  intros H. apply PlaceFacts.search_from_place in H.
  destruct H as (before & w1 & w3 & rest & -> & H1 & H2 & H3).
  cbn [pre grp post anchored_re] in *.
  apply seq_inv in H1. destruct H1 as (a & blanks & -> & Ha & Hb).
  apply PlaceFacts.lit_inv in Ha. subst a.
  apply rep_chr_inv in Hb. destruct Hb as (Hb & _).
  apply rep_chr_inv in H2. destruct H2 as (Hg & Hlen & _).
  apply eps_inv in H3. subst w3.
  exists before, blanks, rest. rewrite <- !app_assoc. cbn [app].
  split; [reflexivity|]. split; [exact Hb|]. split.
  - intros ->. cbn in Hlen. lia.
  - intros Hin. unfold every in Hg. rewrite List.Forall_forall in Hg.
    specialize (Hg _ Hin). apply negb_true_iff in Hg.
    assert (Char.same LF LF = true) by (apply same_eq; reflexivity).
    unfold LF in *. congruence.
Qed.

(** A detector with an anchor never raises: it gives the fallback, or
    the rest of a line after the anchor. *)
Lemma detect_anchored anchor fallback txt :
  exists t, detect (Anchored anchor) fallback txt = Ok t
            /\ (t = fallback \/ rest_of_line_after anchor txt t).
Proof.
  unfold detect. cbn [pattern_is_set negb].
  destruct (search (anchored_re anchor) txt) as [g|] eqn:E.
  - eexists. split; [reflexivity|]. right.
    destruct (anchored_capture _ _ _ E) as (before & blanks & after & -> & Hb & Hg & Hlf).
    exists before, blanks, g, after. auto.
  - eexists. split; [reflexivity|]. auto.
Qed.

(** A detector whose pattern is not set gives the fallback. *)
Lemma detect_not_set fallback txt : detect NotSet fallback txt = Ok fallback.
Proof. reflexivity. Qed.

(** A detector without an anchor raises wherever its value occurs. *)
Lemma detect_escaped (value : text) fallback txt :
  value <> [] ->
  detect (Escaped value) fallback txt
  = if Str.contains txt value then Raise NoSuchGroup else Ok fallback.
Proof.
  intros Hv. unfold detect. cbn [pattern_is_set].
  destruct value as [|c v]; [congruence|]. cbn [truthy negb].
  destruct (Str.contains txt (c :: v)) eqn:Ec.
  - destruct (PlaceFacts.search_lit (c :: v) txt None Ec) as (g & E).
    unfold search, escaped_re. rewrite E. reflexivity.
  - destruct (search (escaped_re (c :: v)) txt) as [g|] eqn:E; [|reflexivity].
    apply PlaceFacts.search_from_place in E.
    destruct E as (before & w1 & w3 & rest & -> & H1 & H2 & H3).
    cbn [pre grp post escaped_re] in *.
    apply eps_inv in H1. apply eps_inv in H3. subst w1 w3.
    apply PlaceFacts.lit_inv in H2. subst g. cbn [app] in Ec.
    pose proof (PlaceFacts.contains_middle before (c :: v) rest) as Hc.
    cbn [app] in Hc. congruence.
Qed.

(** The pattern that the wizard makes from a selection in a page: it has
    an anchor, or it is the selection itself. *)
Lemma built_pattern full_text value_pos value anchor pattern :
  build_anchor_and_pattern full_text value_pos value = Ok (anchor, pattern) ->
  (anchor = [] /\ pattern = Escaped value)
  \/ (anchor <> [] /\ pattern = Anchored anchor).
Proof.
  unfold build_anchor_and_pattern. cbv zeta.
  destruct (if truthy _ then _ else _) as [line|e]; [|discriminate].
  cbn [bind].
  set (l := if (25 <? len (Str.strip line))%Z then _ else _).
  destruct l as [|c l']; cbn [truthy negb].
  - intros [= <- <-]. auto.
  - intros [= <- <-]. right. split; [discriminate | reflexivity].
Qed.

(** A field that was set from a selection of the page and has no anchor
    makes a detector that raises on that page. *)
Lemma set_field_raises old selected full_text f fallback :
  set_field_from_selection old selected full_text = Ok f ->
  Str.strip selected <> [] ->
  Str.find full_text (Str.strip selected) <> (-1)%Z ->
  field_anchor f = [] ->
  detect (field_pattern f) fallback full_text = Raise NoSuchGroup.
Proof.
  unfold set_field_from_selection. cbv zeta. intros H Hsel Hfind Hanchor.
  apply truthy_true in Hsel as Ht. rewrite Ht in H. cbn [negb] in H.
  destruct (Z.eqb_spec (Str.find full_text (Str.strip selected)) (-1));
    [congruence|].
  destruct (build_anchor_and_pattern _ _ _) as [[anchor pattern]|e] eqn:E;
    [|discriminate].
  cbn [bind fst snd] in H. injection H as <-. cbn [field_anchor field_pattern] in *.
  destruct (built_pattern _ _ _ _ _ E) as [[_ ->]|[Ha _]]; [|congruence].
  rewrite detect_escaped by exact Hsel.
  rewrite (PlaceFacts.find_from_found full_text (Str.strip selected) 0);
    [reflexivity | lia | exact Hfind].
Qed.

End WizardRuleFacts.


(** * The claims of the specification *)

Import Spec.

(** C1, as the specification words it, fails in both dispatchers.
    For the key "Core & Main", [get_vendor_parser] looks for the module
    "vendor_parsers.core_&_main_parser" (lower case, spaces turned into
    underscores, nothing else) and raises although a parser is registered
    under the normalized key "core_main".  For the key "A&B Supply",
    [derive_vendor_module] gives "a_b_supply_parser", not the module of
    the normalized key "ab_supply". *)
Lemma dispatch_retries_normalized_key_C1_counterexample :
  ~ Claim.get_vendor_parser_retries_normalized_key
  /\ ~ Claim.derive_retries_normalized_key
  /\ ~ Claim.dispatch_retries_normalized_key.
Proof.
  assert (Hmanager : ~ Claim.get_vendor_parser_retries_normalized_key).
  { intros H.
    pose (module := <[ lit "parse_core_main_pdf" := tt ]>
                      (∅ : Dispatch.py_module unit)).
    pose (mods := <[ lit "vendor_parsers.core_main_parser" := module ]>
                    (∅ : Dispatch.importable unit)).
    specialize (H mods (lit "Core & Main") module tt).
    assert (E : Dispatch.get_vendor_parser mods (lit "Core & Main")
                = Raise (RuntimeError
                           "Cannot import vendor parser: vendor_parsers.core_&_main_parser"))
      by (vm_compute; reflexivity).
    rewrite E in H.
    assert (F : @Raise unit
                  (RuntimeError
                     "Cannot import vendor parser: vendor_parsers.core_&_main_parser")
                = Ok tt); [|discriminate F].
    apply H; vm_compute; reflexivity. }
  assert (Hderive : ~ Claim.derive_retries_normalized_key).
  { intros H. specialize (H (lit "A&B Supply")).
    assert (E : Dispatch.VENDOR_ALIASES !! Str.strip (Str.lower (lit "A&B Supply"))
                = None) by (vm_compute; reflexivity).
    specialize (H E). vm_compute in H. discriminate H. }
  split; [exact Hmanager|]. split; [exact Hderive|].
  intros [H _]. exact (Hderive H).
Qed.

(** C1, amended.  The module that dispatch looks for is the alias of
    the lower-cased, trimmed key when it has one, and otherwise a cleaned
    form of that key followed by "_parser"; it is a name of alphanumeric
    characters and underscores.  When no module of that name can be
    imported, [load_parsed_data] shows a parser error and keeps no record;
    when no module "vendor_parsers.<key>_parser" (the key in lower case,
    its spaces turned into underscores) can be imported,
    [get_vendor_parser] raises.  No other module is tried. *)
Theorem unknown_vendor_fails_C1 {parse_fn : Type}
    (run_parser : parse_fn -> text -> result parsed)
    (mods : Dispatch.importable parse_fn) (vendor_key pdf_path : text) :
  mods !! Dispatch.derive_vendor_module vendor_key = None ->
  mods !! (Dispatch.VENDOR_PARSER_FOLDER ^^ "."
             ^^ Str.replace " " "_" (Str.lower vendor_key) ^^ "_parser") = None ->
  Dispatch.import_and_parse run_parser mods
    (Dispatch.derive_vendor_module vendor_key) pdf_path
  = Raise (ImportError (Dispatch.derive_vendor_module vendor_key))
  /\ Dispatch.load_parsed_data run_parser mods
       (Dispatch.derive_vendor_module vendor_key) pdf_path
     = Dispatch.Pane
         (lit "Parser error:" ^^ [LF] ^^ "No module named '"
            ^^ Dispatch.derive_vendor_module vendor_key ^^ "'")
         None
  /\ Dispatch.get_vendor_parser mods vendor_key
     = Raise (RuntimeError
                (lit "Cannot import vendor parser: "
                   ^^ Dispatch.VENDOR_PARSER_FOLDER ^^ "."
                   ^^ Str.replace " " "_" (Str.lower vendor_key) ^^ "_parser"))
  /\ RegexSem.every name_char (Dispatch.derive_vendor_module vendor_key)
  /\ match Dispatch.VENDOR_ALIASES !! Str.strip (Str.lower vendor_key) with
     | Some alias => Dispatch.derive_vendor_module vendor_key = alias
     | None =>
         exists cleaned,
           Dispatch.derive_vendor_module vendor_key = cleaned ^^ "_parser"
     end.
Proof.
  intros Hui Hvm.
  assert (E : Dispatch.import_and_parse run_parser mods
                (Dispatch.derive_vendor_module vendor_key) pdf_path
              = Raise (ImportError (Dispatch.derive_vendor_module vendor_key))).
  { unfold Dispatch.import_and_parse. rewrite Hui. reflexivity. }
  split; [exact E|]. split; [|split; [|split]].
  - unfold Dispatch.load_parsed_data.
    rewrite DispatchFacts.derive_nonempty, E. reflexivity.
  - unfold Dispatch.get_vendor_parser. rewrite Hvm. reflexivity.
  - apply DispatchFacts.derive_chars.
  - unfold Dispatch.derive_vendor_module.
    destruct (Dispatch.VENDOR_ALIASES !! _); [reflexivity | eauto].
Qed.

Lemma unknown_vendor_fails_C1_witness :
  let mods : Dispatch.importable unit :=
    <[ lit "knife_river_parser" := (∅ : Dispatch.py_module unit) ]> ∅ in
  mods !! Dispatch.derive_vendor_module "A&B Supply" = None
  /\ Dispatch.load_parsed_data (fun _ _ => Ok (PList [])) mods
       (Dispatch.derive_vendor_module "A&B Supply") "invoice.pdf"
     = Dispatch.Pane
         (lit "Parser error:" ^^ [LF] ^^ "No module named 'a_b_supply_parser'")
         None.
Proof.
  intros mods.
  assert (H1 : mods !! Dispatch.derive_vendor_module "A&B Supply" = None)
    by (vm_compute; reflexivity).
  split; [exact H1|].
  refine (proj1 (proj2 (unknown_vendor_fails_C1 (fun _ _ => Ok (PList [])) mods
                          "A&B Supply" "invoice.pdf" H1 _))).
  vm_compute. reflexivity.
Defined.

(** C2, as the specification words it, fails for [Farwest.py]: with
    "N/A" in the unit-price slot the window is emitted all the same, with
    the unit price 0.0. *)
Lemma farwest_unit_price_C2_counterexample :
  ~ Claim.farwest_every_slot_validated.
Proof.
  intros H.
  pose (txt := Str.join [LF]
                 (lits ["65.31"; "641.34"; "10/1/2025"; "3/4 Base"; "N/A"])).
  pose (it := Farwest.Item None None "10/1/2025" "3/4 Base"
                (Float.of_decimal 6531 2) Float.Zero (Float.of_decimal 64134 2)).
  assert (E : Farwest.extract_line_items txt None None = Ok [it])
    by (vm_compute; reflexivity).
  specialize (H txt None None [it] E).
  inversion H as [|? ? (i & unit & Hfrom & Hunit & Hmatch) _]; subst.
  assert (L : Str.stripped_lines txt
              = lits ["65.31"; "641.34"; "10/1/2025"; "3/4 Base"; "N/A"])
    by (vm_compute; reflexivity).
  rewrite L in Hfrom, Hunit.
  destruct Hfrom as (q & e & Hi & _).
  assert (Hlt : (i + 4 < 5)%Z).
  { change 5%Z
      with (len (lits ["65.31"; "641.34"; "10/1/2025"; "3/4 Base"; "N/A"])).
    apply (PyFacts.py_index_in_range _ (i + 4) unit); [lia | exact Hunit]. }
  assert (i = 0%Z) by lia. subst i.
  vm_compute in Hunit. injection Hunit as <-.
  vm_compute in Hmatch. discriminate Hmatch.
Qed.

(** C2, amended.  Every block that [Knife_River.py] emits has six
    lines that pass their validators (the ticket number, the truck code,
    the quantity, the unit price and the extended price; the description
    has no validator).  [Farwest.py] never raises, and every item it
    emits comes from a window whose quantity, extended amount and date
    passed their validators; its description is the fourth line, or the
    empty string when there is none, and its unit price is the number in
    the fifth line when that line is a decimal number. *)
Theorem emitted_windows_validated_C2
    (txt : text) (job_name invoice_number : option text) :
  Forall (fun block => knife_river_block_valid block = true)
    (KnifeRiver.extract_item_blocks txt)
  /\ exists items,
       Farwest.extract_line_items txt job_name invoice_number = Ok items
       /\ Forall
            (fun it => exists i, farwest_item_from (Str.stripped_lines txt) i it)
            items.
Proof.
  split; [apply KnifeRiverFacts.blocks_valid|].
  apply FarwestFacts.extract_line_items_ok.
Qed.

(** C3, as the specification words it, fails for Core & Main: with the
    label line "Customer PO # / Job Name" followed by a date only, the
    job name is the sentinel "UNKNOWN", not the empty string. *)
Lemma core_main_jobname_C3_counterexample :
  ~ Claim.core_main_jobname_empty_when_nothing_qualifies.
Proof.
  intros H.
  specialize (H [] (lit "Customer PO # / Job Name") [lit "10/1/2025"]).
  assert (E : CoreMainParser.extract_jobname
                ([] ++ lit "Customer PO # / Job Name" :: [lit "10/1/2025"])
              = lit "UNKNOWN") by (vm_compute; reflexivity).
  rewrite E in H.
  assert (F : lit "UNKNOWN" = []); [|vm_compute in F; discriminate F].
  apply H; [constructor | vm_compute; reflexivity |].
  constructor; [vm_compute; reflexivity | constructor].
Qed.

(** C3, amended.  When the page has the label line and no candidate
    qualifies, the Knife River rule (the two lines above ORIGINAL, each
    missing or one of the words to skip) gives the empty string as the
    job name; the Core & Main rule (every line after the label line
    skipped, and no "Job Name" line before it for the fallback) gives the
    sentinel "UNKNOWN"; and the Farwest rule (the label JOB is the last
    line, so that no line follows it) gives [None]. *)
Theorem jobname_when_nothing_qualifies_C3
    (raw_text : text) (page_number : Z) (before after : list text) (label : text)
    (txt : text) (page_index : Z) (cm_before cm_after : list text)
    (cm_label : text)
    (fw_txt : text) (fw_before : list text) (fw_label : text) :
  Str.stripped_lines raw_text = before ++ label :: after ->
  forallb (fun line => negb (text_eqb (Str.upper line) "ORIGINAL")) before = true ->
  text_eqb (Str.upper label) "ORIGINAL" = true ->
  forallb knife_river_turned_down (firstn 2 (rev before)) = true ->
  Str.stripped_lines txt = cm_before ++ cm_label :: cm_after ->
  forallb (fun line => negb (CoreMainParser.is_label line)) cm_before = true ->
  forallb (fun line => negb (text_eqb (Str.lower line) "job name")) cm_before
  = true ->
  CoreMainParser.is_label cm_label = true ->
  forallb CoreMainParser.skipped cm_after = true ->
  Str.stripped_lines fw_txt = fw_before ++ [fw_label] ->
  forallb (fun line => negb (text_eqb (Str.lower line) "job")) fw_before = true ->
  text_eqb (Str.lower fw_label) "job" = true ->
  (exists inv,
      KnifeRiverParser._parse_knife_river_page raw_text page_number = Ok inv
      /\ jobname inv = [])
  /\ jobname (CoreMainParser.parse_page txt page_index) = lit "UNKNOWN"
  /\ Farwest.extract_job_name fw_txt = Ok None.
Proof.
  intros Hlines Hbefore Hlabel Hdown Hcm Hnolabel Hnoanchor Hcmlabel Hskipped
         Hfw Hnojob _.
  rewrite forallb_forall in Hbefore, Hdown, Hnolabel, Hnoanchor, Hskipped, Hnojob.
  split; [|split].
  - destruct (KnifeRiverParserFacts.knife_river_page_ok raw_text page_number)
      as (t & j & E & Hj & _).
    eexists. split; [exact E|]. simpl.
    rewrite Hlines in Hj.
    rewrite JobnameFacts.jobname_empty in Hj; [congruence | | exact Hlabel |].
    + apply List.Forall_forall. intros line Hin.
      apply negb_true_iff. apply Hbefore. exact Hin.
    + apply List.Forall_forall. exact Hdown.
  - unfold CoreMainParser.parse_page. simpl. rewrite Hcm.
    apply JobnameFacts.jobname_unknown; [| |exact Hcmlabel|].
    + apply List.Forall_forall. intros line Hin.
      apply negb_true_iff. apply Hnolabel. exact Hin.
    + apply List.Forall_forall. intros line Hin.
      apply negb_true_iff. apply Hnoanchor. exact Hin.
    + apply List.Forall_forall. exact Hskipped.
  - unfold Farwest.extract_job_name. rewrite Hfw.
    apply JobnameFacts.farwest_job_name_absent.
    apply List.Forall_forall. intros line Hin.
    apply negb_true_iff. apply Hnojob. exact Hin.
Qed.

Lemma jobname_when_nothing_qualifies_C3_witness :
  let raw_text := Str.join [LF] (lits ["TICKET"; "INVOICE"; "ORIGINAL"; "968457"]) in
  let txt := Str.join [LF] (lits ["Customer PO # / Job Name"; "10/1/2025"]) in
  let fw_txt := Str.join [LF] (lits ["Invoice #"; "#1042"; "JOB"]) in
  (exists inv,
      KnifeRiverParser._parse_knife_river_page raw_text 1 = Ok inv
      /\ jobname inv = [])
  /\ jobname (CoreMainParser.parse_page txt 0) = lit "UNKNOWN"
  /\ Farwest.extract_job_name fw_txt = Ok None.
Proof.
  intros raw_text txt fw_txt.
  apply (jobname_when_nothing_qualifies_C3 raw_text 1
           (lits ["TICKET"; "INVOICE"]) (lits ["968457"]) (lit "ORIGINAL")
           txt 0 [] (lits ["10/1/2025"]) (lit "Customer PO # / Job Name")
           fw_txt (lits ["Invoice #"; "#1042"]) (lit "JOB"));
    vm_compute; reflexivity.
Defined.

(** C4, as the specification words it, fails for the generated parsers:
    on a document of one page [parse_invoice] returns the bare record. *)
Lemma generated_parser_C4_counterexample :
  ~ Claim.generated_parser_returns_a_list.
Proof.
  intros H.
  pose proof (H (fun t => t) (fun _ => Ok [lit "Invoice 1"]) (lit "one.pdf")
                [lit "Invoice 1"] eq_refl) as G.
  cbv zeta in G. destruct G as (records & E & _).
  vm_compute in E. discriminate E.
Qed.

(** C4, amended.  For a document that opens, [parse_invoice] of the
    Knife River, Missoula Landfill and Core & Main parsers returns a list
    with one record per page in the order of the pages, the record at
    position i carrying the page number i+1, also when there is one page
    only.  [parse_invoice] of a generated parser returns when its
    detectors return on every page, and whenever it returns it has built
    the same list and returns it, except when the list has exactly one
    record, which it returns bare. *)
Theorem parse_invoice_one_record_per_page_C4
    (d1 d2 d3 d4 d5 d6 : text -> result text)
    (fs : filesystem) (pdf_path : text) (doc : document) :
  fs pdf_path = Ok doc ->
  (exists records,
      KnifeRiverParser.parse_invoice fs pdf_path = Ok records
      /\ pages_in_order doc records)
  /\ (exists records,
      MissoulaLandfillParser.parse_invoice fs pdf_path = Ok records
      /\ pages_in_order doc records)
  /\ (exists records,
      CoreMainParser.parse_invoice fs pdf_path = Ok records
      /\ pages_in_order doc records)
  /\ (detectors_return [d1; d2; d3; d4; d5; d6] doc ->
      exists r, GeneratedParser.parse_invoice d1 d2 d3 d4 d5 d6 fs pdf_path = Ok r)
  /\ (forall r,
      GeneratedParser.parse_invoice d1 d2 d3 d4 d5 d6 fs pdf_path = Ok r ->
      exists records,
        pages_in_order doc records
        /\ r = match records with
               | [record] => PDict record
               | several => PList several
               end).
Proof.
  intros Hdoc. split; [|split; [|split; [|split]]].
  - unfold KnifeRiverParser.parse_invoice. rewrite Hdoc.
    destruct (PagesFacts.knife_river_pages_loop doc _ []
                (PagesFacts.range_pages_exist doc)) as (new & -> & Hnew).
    exists new. split; [reflexivity|].
    apply PagesFacts.pages_from_range. exact Hnew.
  - unfold MissoulaLandfillParser.parse_invoice. rewrite Hdoc.
    destruct (PagesFacts.missoula_pages_loop doc _ []
                (PagesFacts.range_pages_exist doc)) as (new & -> & Hnew).
    exists new. split; [reflexivity|].
    apply PagesFacts.pages_from_range. exact Hnew.
  - unfold CoreMainParser.parse_invoice. rewrite Hdoc. cbn [bind].
    rewrite (PagesFacts.fold_append
               (fun p => CoreMainParser.parse_page (snd p) (fst p))).
    eexists. split; [reflexivity|].
    apply PagesFacts.pages_from_range. apply PagesFacts.core_main_pages.
  - intros Hret.
    apply (PagesFacts.generated_parse_invoice_ok d1 d2 d3 d4 d5 d6 _ _ _ Hdoc Hret).
  - intros r Hr.
    apply (PagesFacts.generated_parse_invoice_returns d1 d2 d3 d4 d5 d6 _ _ _ _
             Hdoc Hr).
Qed.

Lemma parse_invoice_one_record_per_page_C4_witness :
  let doc := lits ["Invoice 968457"] in
  let fs : filesystem := fun _ => Ok doc in
  let found : text -> result text := fun txt => Ok txt in
  fs (lit "one.pdf") = Ok doc
  /\ detectors_return [found; found; found; found; found; found] doc
  /\ (exists records,
       KnifeRiverParser.parse_invoice fs "one.pdf" = Ok records
       /\ pages_in_order doc records)
  /\ (exists record,
       GeneratedParser.parse_invoice found found found found found found
         fs "one.pdf" = Ok (PDict record)).
Proof.
  intros doc fs found.
  assert (Hret : detectors_return [found; found; found; found; found; found] doc).
  { intros detect txt Hd _. exists txt.
    repeat (destruct Hd as [<-|Hd]; [reflexivity|]). destruct Hd. }
  destruct (parse_invoice_one_record_per_page_C4
              found found found found found found fs "one.pdf" doc eq_refl)
    as (H1 & _ & _ & H4 & H5).
  split; [reflexivity|]. split; [exact Hret|]. split; [exact H1|].
  destruct (H4 Hret) as (r & Hr).
  destruct (H5 r Hr) as (records & [Hlen _] & ->).
  destruct records as [|record [|r2 rs]]; [discriminate Hlen | | discriminate Hlen].
  exists record. exact Hr.
Defined.



(** C6. For the six-slot extractor of [Knife_River.py], the lines
    "123456", "Base Rock", "ABC1", "12.50 TN", "9.82", "122.75" give
    exactly one block, which [parse_block] turns into the load with ticket
    "123456", truck "ABC1", quantity 12.50, unit price 9.82 and extended
    price 122.75: the three numbers are written out as binary64 numbers,
    each of them the one nearest to its decimal.  With the truck code
    "AB1" instead there is no block. *)
Theorem knife_river_scenario_C6 (jobname : option text) :
  let block := lits ["123456"; "Base Rock"; "ABC1"; "12.50 TN"; "9.82"; "122.75"] in
  let quantity := Float.Finite 7036874417766400 (-49) in
  let unit_price := Float.Finite 5528168542597284 (-49) in
  let extended := Float.Finite 8637763347808256 (-46) in
  KnifeRiver.extract_item_blocks (Str.join [LF] block) = [block]
  /\ KnifeRiver.parse_block block jobname
     = Ok (KnifeRiver.Load jobname "123456" "Base Rock" "ABC1"
             quantity unit_price extended)
  /\ nearest_binary64 quantity 1250 2
  /\ nearest_binary64 unit_price 982 2
  /\ nearest_binary64 extended 12275 2
  /\ KnifeRiver.extract_item_blocks
       (Str.join [LF]
          (lits ["123456"; "Base Rock"; "AB1"; "12.50 TN"; "9.82"; "122.75"]))
     = [].
Proof.
  cbv zeta. unfold nearest_binary64.
  repeat split; try (vm_compute; reflexivity); vm_compute; discriminate.
Qed.

(** C7, as the specification words it, fails for [Farwest.py]: in the
    lines of scenario A the second line, "641.34", matches the
    window-start predicate while the window of "65.31" is open, and the
    window is emitted all the same. *)
Lemma farwest_start_line_C7_counterexample :
  ~ Claim.farwest_start_line_resets.
Proof.
  intros H.
  specialize (H (lits ["65.31"; "641.34"; "10/1/2025"; "3/4 Base"; "9.82"])
                None None 4%nat 0%Z []).
  vm_compute in H.
  specialize (H ltac:(discriminate) eq_refl eq_refl).
  discriminate H.
Qed.

(** C7, amended.  In [Knife_River.py], a ticket number met while a
    block is being built discards that block and opens a new one at that
    line.  [Farwest.py] has no such reset: when the line after a quantity
    is a decimal number and the next one a date, the window of the
    quantity is emitted, the decimal number being its extended amount,
    and the loop goes on five lines further. *)
Theorem start_line_resets_in_knife_river_C7
    (blocks : list (list text)) (current : list text) (line : text)
    (lines : list text) (job_name invoice_number : option text)
    (fuel : nat) (i : Z) (items : list Farwest.item) :
  KnifeRiver.starts_block line = true ->
  (0 <= i)%Z ->
  Farwest.slot_matches lines i Farwest.decimal_re = Ok true ->
  Farwest.slot_matches lines (i + 1) Farwest.decimal_re = Ok true ->
  Farwest.slot_matches lines (i + 2) Farwest.date_re = Ok true ->
  KnifeRiver.step (blocks, current) line = (blocks, [line])
  /\ exists it,
       farwest_item_from lines i it
       /\ Farwest.items_loop (S fuel) lines job_name invoice_number i items
          = Farwest.items_loop fuel lines job_name invoice_number (i + 5)
              (items ++ [it]).
Proof.
  intros Hstart Hi S0 S1 S2. split.
  - apply KnifeRiverFacts.step_resets. exact Hstart.
  - apply FarwestFacts.window_emitted; assumption.
Qed.

Lemma start_line_resets_in_knife_river_C7_witness :
  KnifeRiver.starts_block "654321" = true
  /\ KnifeRiver.step ([], lits ["123456"; "Base Rock"]) "654321"
     = ([], lits ["654321"]).
Proof.
  split; [vm_compute; reflexivity|].
  apply (start_line_resets_in_knife_river_C7
           [] (lits ["123456"; "Base Rock"]) "654321"
           (lits ["65.31"; "641.34"; "10/1/2025"; "3/4 Base"; "9.82"])
           None None 4%nat 0%Z []);
    [vm_compute; reflexivity | lia | vm_compute; reflexivity ..].
Defined.

(** The field rules of the page parsers return a value, possibly the
    empty string or [None], on every page text and never raise: the
    accesses to the lines next to a label stay within the list.  This
    holds for the invoice number, total and job name rules of Missoula
    Landfill and for its page parser, for the Knife River page parser,
    for the label rules of [Farwest.py] and [Knife_River.py], and for a
    generated detector whose pattern is not set or has an anchor. *)
Theorem field_rules_with_a_group_never_raise (raw_text : text) (page_number : Z)
    (anchor fallback : text) :
  (exists v, MissoulaLandfillParser._extract_missoula_invoice_number raw_text = Ok v)
  /\ (exists v, MissoulaLandfillParser._extract_missoula_total raw_text = Ok v)
  /\ (exists v, MissoulaLandfillParser._extract_missoula_jobname
                  (Str.stripped_lines raw_text) = Ok v)
  /\ (exists inv, MissoulaLandfillParser._parse_missoula_landfill_page
                    raw_text page_number = Ok inv)
  /\ (exists inv, KnifeRiverParser._parse_knife_river_page
                    raw_text page_number = Ok inv)
  /\ (exists v, Farwest.extract_invoice_number raw_text = Ok v)
  /\ (exists v, Farwest.extract_job_name raw_text = Ok v)
  /\ (exists v, KnifeRiver.extract_job_name_from_text raw_text = Ok v)
  /\ ParserWizard.detect ParserWizard.NotSet fallback raw_text = Ok fallback
  /\ (exists v, ParserWizard.detect (ParserWizard.Anchored anchor) fallback
                  raw_text = Ok v).
Proof.
  repeat split.
  - destruct (MissoulaFacts.invoice_number_ok raw_text) as (n & E & _). eauto.
  - destruct (MissoulaFacts.total_shape raw_text) as (t & E & _). eauto.
  - apply MissoulaFacts.jobname_ok.
  - destruct (MissoulaFacts.missoula_page_ok raw_text page_number) as (n & t & j & E & _).
    eauto.
  - destruct (KnifeRiverParserFacts.knife_river_page_ok raw_text page_number)
      as (t & j & E & _). eauto.
  - apply (LabelFacts.farwest_invoice_number_loop_ok _ _ [] eq_refl).
  - apply (LabelFacts.farwest_job_name_loop_ok _ _ [] eq_refl).
  - apply (LabelFacts.knife_river_job_name_loop_ok _ _ [] eq_refl).
  - destruct (WizardRuleFacts.detect_anchored anchor fallback raw_text)
      as (t & E & _). eauto.
Qed.

(** C8 fails for a detector that the wizard generates from a selection
    with nothing before it on its line.  The field then has no anchor,
    its pattern is the selection itself and has no group, and the
    detector, which asks for the first group of the match, raises
    IndexError on the very page the selection was made on, and wherever
    else the selection occurs; so does [parse_invoice] of the generated
    parser. *)
Theorem unanchored_detector_raises_C8 (old f : ParserWizard.field)
    (selected full_text fallback : text) :
  ParserWizard.set_field_from_selection old selected full_text = Ok f ->
  Str.strip selected <> [] ->
  Str.find full_text (Str.strip selected) <> (-1)%Z ->
  ParserWizard.field_anchor f = [] ->
  ParserWizard.detect (ParserWizard.field_pattern f) fallback full_text
  = Raise NoSuchGroup.
Proof. apply WizardRuleFacts.set_field_raises. Qed.

Lemma unanchored_detector_raises_C8_witness :
  let page := Str.join [LF] (lits ["968457"; "Total: $1,250.75"]) in
  let number := ParserWizard.Field "968457" [] (ParserWizard.Escaped "968457") in
  let f := ParserWizard.Fields ParserWizard.new_field number ParserWizard.new_field
             ParserWizard.new_field ParserWizard.new_field ParserWizard.new_field in
  ParserWizard.set_field_from_selection ParserWizard.new_field "968457" page
  = Ok number
  /\ ParserWizard.detect (ParserWizard.field_pattern number) [] page
     = Raise NoSuchGroup
  /\ GeneratedParser.of_wizard f (fun _ => Ok [page]) "one.pdf"
     = Raise NoSuchGroup.
Proof.
  intros page number f.
  assert (E : ParserWizard.set_field_from_selection ParserWizard.new_field
                "968457" page = Ok number) by (vm_compute; reflexivity).
  split; [exact E|]. split.
  - apply (unanchored_detector_raises_C8 ParserWizard.new_field number
             "968457" page [] E).
    + vm_compute. discriminate.
    + vm_compute. discriminate.
    + reflexivity.
  - vm_compute. reflexivity.
Defined.



(** C10, as the specification words it, fails for Missoula Landfill: in
    the text "Paid $654321.00" the last rule, which looks for six or
    seven digits anywhere, finds 654321, a part of the amount. *)
Lemma invoice_number_token_C10_counterexample :
  ~ Claim.invoice_number_is_a_token.
Proof.
  intros H.
  destruct (H (lit "Paid $654321.00") (lit "654321")) as [G|G].
  - vm_compute. reflexivity.
  - vm_compute in G. discriminate G.
  - vm_compute in G. destruct G as [G|[G|[]]]; discriminate G.
Qed.

(** C10, amended.  On every page text, the invoice number of the Knife
    River record is empty or a whole line made of six digits or more, and
    the one of the Missoula Landfill record is empty or made of six or
    seven digits that are a whole line or stand between word boundaries:
    no letter, digit or underscore touches them, but a sign or a point
    may, so that they can be a part of a longer token. *)
Theorem invoice_number_digits_C10 (raw_text : text) (page_number : Z) :
  (exists inv,
      KnifeRiverParser._parse_knife_river_page raw_text page_number = Ok inv
      /\ (invoice_number inv = []
          \/ (digits_between 6 None (invoice_number inv)
              /\ In (invoice_number inv) (Str.stripped_lines raw_text))))
  /\ (exists inv,
      MissoulaLandfillParser._parse_missoula_landfill_page raw_text page_number
      = Ok inv
      /\ (invoice_number inv = []
          \/ (digits_between 6 (Some 7) (invoice_number inv)
              /\ (In (invoice_number inv) (Str.stripped_lines raw_text)
                  \/ whole_word raw_text (invoice_number inv))))).
Proof.
  split.
  - destruct (KnifeRiverParserFacts.knife_river_page_ok raw_text page_number)
      as (t & j & E & _).
    eexists. split; [exact E|]. simpl.
    apply NumberFacts.knife_river_number_line.
  - destruct (MissoulaFacts.missoula_page_ok raw_text page_number)
      as (n & t & j & E & En & _).
    eexists. split; [exact E|]. simpl.
    destruct (NumberFacts.invoice_number_place raw_text) as (n' & En' & Hn).
    rewrite En in En'. injection En' as <-. exact Hn.
Qed.

(** * Further properties of the code *)

Module StrFacts.

Import PyFacts.

Lemma Forall_lstrip {P : ascii -> Prop} s : Forall P s -> Forall P (Str.lstrip s).
Proof.
  induction 1 as [|c s Hc Hs IH]; simpl; [constructor|].
  destruct (Char.isspace c); [exact IH | constructor; assumption].
Qed.

Lemma Forall_strip {P : ascii -> Prop} s : Forall P s -> Forall P (Str.strip s).
Proof.
  intros H. unfold Str.strip, Str.rstrip.
  apply List.Forall_rev, Forall_lstrip, List.Forall_rev, Forall_lstrip, H.
Qed.

Lemma lstrip_length s : (length (Str.lstrip s) <= length s)%nat.
Proof.
  induction s as [|c s IH]; simpl; [lia|].
  destruct (Char.isspace c); simpl; lia.
Qed.

Lemma strip_length s : (length (Str.strip s) <= length s)%nat.
Proof.
  unfold Str.strip, Str.rstrip.
  rewrite length_rev.
  etransitivity; [apply lstrip_length|].
  rewrite length_rev. apply lstrip_length.
Qed.

Lemma eqb_eq a c : Char.eqb a c = true <-> a = c.
Proof. unfold Char.eqb. apply Ascii.eqb_eq. Qed.

Lemma eqb_neq a c : Char.eqb a c = false <-> a <> c.
Proof. unfold Char.eqb. apply Ascii.eqb_neq. Qed.

Lemma startswith_spec p : forall s,
  Str.startswith s p = true <-> exists post, s = p ++ post.
Proof.
  induction p as [|a p IH]; intros s.
  - rewrite startswith_nil. split; [eauto | reflexivity].
  - destruct s as [|b s]; simpl.
    + split; [discriminate | intros (post & E); discriminate].
    + rewrite andb_true_iff, eqb_eq, IH. split.
      * intros (-> & post & ->). eauto.
      * intros (post & E). injection E as -> ->. eauto.
Qed.

Lemma contains_spec w : forall s,
  Str.contains s w = true <-> exists pre post, s = pre ++ w ++ post.
Proof.
  induction s as [|c s IH].
  - cbn [Str.contains]. rewrite orb_false_r, startswith_spec. split.
    + intros (post & E). exists [], post. exact E.
    + intros (pre & post & E).
      destruct pre; [eauto | discriminate].
  - cbn [Str.contains]. rewrite orb_true_iff, startswith_spec, IH. split.
    + intros [(post & E)|(pre & post & E)].
      * exists [], post. exact E.
      * exists (c :: pre), post. rewrite E. reflexivity.
    + intros (pre & post & E). destruct pre as [|a pre].
      * left. eauto.
      * right. injection E as -> ->. eauto.
Qed.

Lemma contains_refl s : Str.contains s s = true.
Proof. apply contains_spec. exists [], []. rewrite app_nil_r. reflexivity. Qed.

Lemma endswith_spec p s :
  Str.endswith s p = true <-> exists pre, s = pre ++ p.
Proof.
  unfold Str.endswith. rewrite startswith_spec. split.
  - intros (post & E). exists (rev post).
    apply (f_equal (@rev ascii)) in E.
    rewrite rev_involutive, rev_app_distr, rev_involutive in E. exact E.
  - intros (pre & ->). exists (rev pre). apply rev_app_distr.
Qed.

(** What [lstrip] and [strip] take away is blank, and what they leave
    starts and ends with a character that is not. *)
Lemma lstrip_split s :
  exists pre, s = pre ++ Str.lstrip s /\ Forall (fun c => Char.isspace c = true) pre.
Proof.
  induction s as [|c s (pre & E & H)]; simpl.
  - exists []. split; [reflexivity | constructor].
  - destruct (Char.isspace c) eqn:Ec.
    + exists (c :: pre). split; [simpl; congruence | constructor; assumption].
    + exists []. split; [reflexivity | constructor].
Qed.

Lemma lstrip_head s :
  match Str.lstrip s with c :: _ => Char.isspace c = false | [] => True end.
Proof.
  induction s as [|c s IH]; simpl; [exact I|].
  destruct (Char.isspace c) eqn:Ec; [exact IH | exact Ec].
Qed.

Lemma lstrip_last s d :
  Char.isspace d = false -> Str.lstrip (s ++ [d]) = Str.lstrip s ++ [d].
Proof.
  intros Hd. induction s as [|c s IH]; simpl.
  - rewrite Hd. reflexivity.
  - destruct (Char.isspace c); [exact IH | reflexivity].
Qed.

Lemma strip_split s :
  exists pre post,
    s = pre ++ Str.strip s ++ post
    /\ Forall (fun c => Char.isspace c = true) pre
    /\ Forall (fun c => Char.isspace c = true) post.
Proof.
  unfold Str.strip, Str.rstrip.
  destruct (lstrip_split s) as (pre & E1 & H1).
  destruct (lstrip_split (rev (Str.lstrip s))) as (tsop & E2 & H2).
  exists pre, (rev tsop). split; [|split].
  - rewrite E1 at 1. f_equal.
    apply (f_equal (@rev ascii)) in E2.
    rewrite rev_involutive, rev_app_distr in E2. exact E2.
  - exact H1.
  - apply List.Forall_rev. exact H2.
Qed.

Lemma strip_head s :
  match Str.strip s with c :: _ => Char.isspace c = false | [] => True end.
Proof.
  unfold Str.strip, Str.rstrip.
  pose proof (lstrip_head s) as H.
  pose proof (lstrip_head (rev (Str.lstrip s))) as H'.
  destruct (lstrip_split (rev (Str.lstrip s))) as (tsop & E & Ht).
  destruct (Str.lstrip (rev (Str.lstrip s))) as [|d r] eqn:Er; [exact I|].
  apply (f_equal (@rev ascii)) in E.
  rewrite rev_involutive, rev_app_distr in E. 
  destruct (rev (d :: r)) as [|c t] eqn:Ec.
  - exact I.
  - rewrite E in H. simpl in H. exact H.
Qed.

Lemma strip_last s :
  match rev (Str.strip s) with d :: _ => Char.isspace d = false | [] => True end.
Proof.
  unfold Str.strip, Str.rstrip. rewrite rev_involutive. apply lstrip_head.
Qed.

(** Replacing a character by another is a map. *)
Lemma replace_char_map a b s :
  Str.replace [a] [b] s = List.map (fun c => if Char.eqb a c then b else c) s.
Proof.
  unfold Str.replace. induction s as [|c s IH]; [reflexivity|].
  simpl. rewrite startswith_nil, andb_true_r.
  destruct (Char.eqb a c); simpl; rewrite IH; reflexivity.
Qed.

End StrFacts.

Module SheetTitleFacts.

Import PyFacts StrFacts InvoiceSorterUI.

Lemma sanitize_cases title :
  let cleaned :=
    Str.strip (List.filter (fun ch => negb (bool_decide (ch ∈ forbidden))) title) in
  sanitize_sheet_title title
  = firstn 31 (if truthy cleaned then cleaned else lit "Sheet1").
Proof.
  unfold sanitize_sheet_title. cbv zeta.
  set (cleaned := Str.strip _).
  destruct (truthy cleaned) eqn:E; cbn [negb].
  - destruct (Z.ltb_spec 31 (len cleaned)) as [H|H]; [reflexivity|].
    symmetry. apply firstn_all2. unfold len in H. lia.
  - reflexivity.
Qed.

End SheetTitleFacts.

(** X1. The sheet title that [sanitize_sheet_title] gives is never empty,
    has at most 31 characters and holds none of the characters that a
    sheet title may not hold, whatever the job name. *)
Theorem sanitize_sheet_title_ok (title : text) :
  InvoiceSorterUI.sanitize_sheet_title title <> []
  /\ (length (InvoiceSorterUI.sanitize_sheet_title title) <= 31)%nat
  /\ Forall (fun ch => ch ∉ InvoiceSorterUI.forbidden)
       (InvoiceSorterUI.sanitize_sheet_title title).
Proof.
  rewrite SheetTitleFacts.sanitize_cases. cbv zeta.
  set (cleaned := Str.strip _).
  assert (Hc : Forall (fun ch => ch ∉ InvoiceSorterUI.forbidden) cleaned).
  { apply StrFacts.Forall_strip.
    apply List.Forall_forall. intros ch Hin.
    apply filter_In in Hin. destruct Hin as [_ Hin].
    apply negb_true_iff, bool_decide_eq_false in Hin. exact Hin. }
  split; [|split].
  - destruct cleaned as [|c cleaned']; [discriminate|]. discriminate.
  - apply firstn_le_length.
  - destruct (truthy cleaned).
    + apply Forall_take, Hc.
    + vm_compute. repeat constructor; intros H; 
        repeat (apply elem_of_cons in H; destruct H as [H|H]; [discriminate|]);
        inversion H.
Qed.



Module SubFacts.

Import Regex RegexFacts PyFacts StrFacts Notions.

Lemma run_split p s : s = run_of p s ++ after_run p s.
Proof.
  induction s as [|c s IH]; simpl; [reflexivity|].
  destruct (p c); simpl; congruence.
Qed.

Lemma run_length p s : length s - length (after_run p s) = length (run_of p s).
Proof.
  rewrite (run_split p s) at 1. rewrite length_app. lia.
Qed.

Lemma firstn_run p s : firstn (length (run_of p s)) s = run_of p s.
Proof.
  rewrite (run_split p s) at 2.
  rewrite firstn_app, Nat.sub_diag, firstn_all. simpl. apply app_nil_r.
Qed.

(** A greedy repetition of a class takes the whole run, when what
    follows the repetition cannot fail. *)
Lemma rep_class_greedy {A} p (k : cont A) :
  (forall q t, k q t <> None) ->
  forall n lo prev s,
    (length (run_of p s) <= n)%nat ->
    rep A (run (Chr p)) true k n lo prev s
    = if (lo <=? length (run_of p s))%nat
      then k (last_read prev (run_of p s)) (after_run p s)
      else None.
Proof.
  intros Hk. induction n as [|n IH]; intros lo prev s Hn.
  - destruct s as [|c s]; simpl in *.
    + destruct lo; reflexivity.
    + destruct (p c); simpl in *; [lia|]. destruct lo; reflexivity.
  - cbn [rep]. destruct s as [|c s].
    + simpl. destruct lo; reflexivity.
    + cbn [run run_of after_run] in *. destruct (p c) eqn:Ec.
      * cbn [length] in *.
        destruct (Nat.ltb_spec (length s) (S (length s))) as [_|]; [|lia].
        cbn [andb negb].
        rewrite IH by lia.
        change (c :: run_of p s) with ([c] ++ run_of p s).
        rewrite last_read_app, last_read_one.
        destruct lo as [|lo]; cbn [pred Nat.eqb Nat.leb].
        -- destruct (k (last_read (Some c) (run_of p s)) (after_run p s)) eqn:E;
             [reflexivity | exfalso; eapply Hk; eassumption].
        -- destruct (Nat.leb_spec lo (length (run_of p s))).
           ++ destruct (k (last_read (Some c) (run_of p s)) (after_run p s)) eqn:E;
                [reflexivity | exfalso; eapply Hk; eassumption].
           ++ reflexivity.
      * cbn [or_else length]. destruct lo; reflexivity.
Qed.

Lemma run_eps {A} prev s (k : cont A) : run Eps prev s k = k prev s.
Proof. reflexivity. Qed.

Lemma run_rep_unbounded {A} a lo prev s (k : cont A) :
  run (Rep a lo None) prev s k = rep A (run a) true k (length s) lo prev s.
Proof. reflexivity. Qed.

(** The match of [[p]+] at the start of [s]: the whole run. *)
Lemma match_here_plus p prev s :
  match_here (Pattern Eps (Plus (Chr p)) Eps) prev s
  = match run_of p s with
    | [] => None
    | _ => Some (run_of p s, length (run_of p s))
    end.
Proof.
  unfold match_here, Plus. cbn [pre grp post].
  rewrite run_eps, run_rep_unbounded, rep_class_greedy.
  - rewrite run_eps, run_length, firstn_run.
    destruct (run_of p s); reflexivity.
  - intros q t. discriminate.
  - rewrite (run_split p s) at 2. rewrite length_app. lia.
Qed.

Lemma sub_plus_both p repl s :
  (forall prev, sub_from (Pattern Eps (Plus (Chr p)) Eps) repl 0 prev s
                = replace_runs p repl false s)
  /\ (forall prev, sub_from (Pattern Eps (Plus (Chr p)) Eps) repl
                     (length (run_of p s)) prev s
                   = replace_runs p repl true s).
Proof.
  induction s as [|c s [IHa IHb]].
  - split; intros prev; reflexivity.
  - assert (Ha : forall prev,
      sub_from (Pattern Eps (Plus (Chr p)) Eps) repl 0 prev (c :: s)
      = replace_runs p repl false (c :: s)).
    { intros prev. cbn [sub_from]. rewrite match_here_plus.
      cbn [run_of replace_runs]. destruct (p c).
      - cbn [length]. rewrite IHb. reflexivity.
      - rewrite IHa. reflexivity. }
    split; [exact Ha|].
    intros prev. cbn [run_of replace_runs]. destruct (p c) eqn:Ec.
    + cbn [length sub_from]. rewrite IHb. reflexivity.
    + cbn [length]. rewrite Ha. cbn [replace_runs]. rewrite Ec. reflexivity.
Qed.

(** [re.sub("[p]+", repl, s)] replaces every run of the class. *)
Lemma sub_plus p repl s :
  sub (Pattern Eps (Plus (Chr p)) Eps) repl s = replace_runs p repl false s.
Proof. apply sub_plus_both. Qed.

(** [re.sub("[p]", "", s)] and [re.sub("[p]+", "", s)] remove the
    characters of the class. *)
Lemma sub_chr p s :
  sub (Pattern Eps (Chr p) Eps) [] s = List.filter (fun c => negb (p c)) s.
Proof.
  unfold sub. generalize (@None ascii) as prev.
  induction s as [|c s IH]; intros prev; [reflexivity|].
  cbn [sub_from]. unfold match_here. cbn [pre grp post run List.filter].
  destruct (p c); cbn [negb].
  - cbn [length]. replace (S (length s) - length s) with 1 by lia.
    cbn [app]. apply IH.
  - rewrite IH. reflexivity.
Qed.

Lemma replace_runs_remove p s : forall in_run,
  replace_runs p [] in_run s = List.filter (fun c => negb (p c)) s.
Proof.
  induction s as [|c s IH]; intros in_run; [reflexivity|].
  cbn [replace_runs List.filter]. destruct (p c); cbn [negb].
  - rewrite IH. destruct in_run; reflexivity.
  - rewrite IH. reflexivity.
Qed.

Lemma sub_plus_remove p s :
  sub (Pattern Eps (Plus (Chr p)) Eps) [] s = List.filter (fun c => negb (p c)) s.
Proof. rewrite sub_plus. apply replace_runs_remove. Qed.

(** Replacing the runs of a class by one character of the class leaves
    no two characters of the class side by side. *)
Lemma replace_runs_chars (Q : ascii -> Prop) p r s : forall in_run,
  Q r -> Forall Q s -> Forall Q (replace_runs p [r] in_run s).
Proof.
  intros in_run Hr H. revert in_run.
  induction H as [|c s Hc Hs IH]; intros in_run; cbn [replace_runs]; [constructor|].
  destruct (p c).
  - destruct in_run; cbn [app]; [apply IH | constructor; [assumption | apply IH]].
  - constructor; [assumption | apply IH].
Qed.

Lemma replace_runs_head p r s :
  p r = true ->
  match replace_runs p [r] true s with
  | c :: _ => p c = false
  | [] => True
  end.
Proof.
  intros Hr. induction s as [|c s IH]; cbn [replace_runs]; [exact I|].
  destruct (p c) eqn:Ec; [exact IH | exact Ec].
Qed.

Lemma no_two_cons p c s :
  (p c = true -> match s with d :: _ => p d = false | [] => True end) ->
  no_two p s -> no_two p (c :: s).
Proof.
  intros Hc Hs pre a b post E Ha Hb.
  destruct pre as [|x pre]; injection E as -> E.
  - subst s. specialize (Hc Ha). simpl in Hc. congruence.
  - eapply Hs; eassumption.
Qed.

Lemma no_two_nil p : no_two p [].
Proof. intros [|x pre] a b post E; discriminate. Qed.

Lemma replace_runs_no_two p r s : forall in_run,
  p r = true -> no_two p (replace_runs p [r] in_run s).
Proof.
  intros in_run Hr. revert in_run.
  induction s as [|c s IH]; intros in_run; cbn [replace_runs]; [apply no_two_nil|].
  destruct (p c) eqn:Ec.
  - destruct in_run; cbn [app]; [apply IH|].
    apply no_two_cons; [|apply IH].
    intros _. apply replace_runs_head. exact Hr.
  - apply no_two_cons; [congruence | apply IH].
Qed.

Lemma no_two_part p pre s post : no_two p (pre ++ s ++ post) -> no_two p s.
Proof.
  intros H pre' a b post' -> Ha Hb.
  apply (H (pre ++ pre') a b (post' ++ post)); [|assumption..].
  rewrite <- !app_assoc. reflexivity.
Qed.

Lemma no_two_strip p s : no_two p s -> no_two p (Str.strip s).
Proof.
  destruct (strip_split s) as (pre & post & E & _).
  intros H. rewrite E in H. eapply no_two_part. exact H.
Qed.

End SubFacts.

Module ListVendorsFacts.

Import Regex RegexSem PyFacts StrFacts Notions SubFacts ListVendors.

Lemma make_parser_name_spaced folder_name :
  make_parser_name folder_name
  = List.map (fun c => if Char.eqb " " c then "_"%char else c) (spaced folder_name)
    ++ lit "_parser".
Proof.
  unfold make_parser_name, spaced.
  change (lit " ") with [" "%char]. change (lit "_") with ["_"%char].
  rewrite replace_char_map. reflexivity.
Qed.

Lemma kept_space c : kept c = true -> Char.isspace c = true -> c = " "%char.
Proof. destruct c as [[] [] [] [] [] [] [] []]; vm_compute; congruence. Qed.

Lemma kept_stem c :
  kept c = true -> stem_char (if Char.eqb " " c then "_"%char else c) = true.
Proof. destruct c as [[] [] [] [] [] [] [] []]; vm_compute; congruence. Qed.

Lemma kept_underscore c :
  kept c = true -> (if Char.eqb " " c then "_"%char else c) = "_"%char ->
  Char.isspace c = true.
Proof. destruct c as [[] [] [] [] [] [] [] []]; vm_compute; congruence. Qed.

Lemma spaced_kept folder_name : Forall (fun c => kept c = true) (spaced folder_name).
Proof.
  unfold spaced. apply Forall_strip.
  unfold spaces_re, space. rewrite sub_plus.
  change (lit " ") with [" "%char].
  apply replace_runs_chars; [reflexivity|].
  unfold other_re. rewrite sub_plus_remove.
  apply List.Forall_forall. intros c Hc.
  apply filter_In in Hc. destruct Hc as [_ Hc].
  apply negb_true_iff, negb_false_iff in Hc. exact Hc.
Qed.

Lemma spaced_no_two folder_name : no_two Char.isspace (spaced folder_name).
Proof.
  unfold spaced. apply no_two_strip.
  unfold spaces_re, space. rewrite sub_plus.
  change (lit " ") with [" "%char].
  apply replace_runs_no_two. reflexivity.
Qed.

End ListVendorsFacts.

(** X2. The module name that [make_parser_name] gives a folder is a stem
    followed by [_parser]; the stem is made of lower-case letters, digits
    and underscores, and no underscore starts it, ends it or follows
    another. *)
Theorem make_parser_name_shape (folder_name : text) :
  exists stem,
    ListVendors.make_parser_name folder_name = stem ++ lit "_parser"
    /\ Forall (fun c => Notions.stem_char c = true) stem
    /\ Str.startswith stem "_" = false
    /\ Str.endswith stem "_" = false
    /\ Str.contains stem "__" = false.
Proof.
  pose proof (ListVendorsFacts.spaced_kept folder_name) as Hk.
  pose proof (ListVendorsFacts.spaced_no_two folder_name) as Hn.
  pose proof (StrFacts.strip_head
                (Regex.sub ListVendors.spaces_re " "
                   (Regex.sub ListVendors.other_re []
                      (Str.replace "-" " "
                         (Str.replace "&" [] (Str.lower folder_name)))))) as Hh.
  pose proof (StrFacts.strip_last
                (Regex.sub ListVendors.spaces_re " "
                   (Regex.sub ListVendors.other_re []
                      (Str.replace "-" " "
                         (Str.replace "&" [] (Str.lower folder_name)))))) as Hl.
  fold (Notions.spaced folder_name) in Hh, Hl.
  rewrite ListVendorsFacts.make_parser_name_spaced.
  set (f := fun c : ascii => if Char.eqb " " c then "_"%char else c).
  set (s := Notions.spaced folder_name) in *.
  exists (List.map f s). split; [reflexivity|].
  assert (Hnot : forall c, In c s -> Char.isspace c = false -> f c <> "_"%char).
  { intros c Hc Hs E. rewrite List.Forall_forall in Hk.
    apply (ListVendorsFacts.kept_underscore c (Hk c Hc)) in E. congruence. }
  split; [|split; [|split]].
  - apply List.Forall_map. eapply List.Forall_impl; [|exact Hk].
    intros c. apply ListVendorsFacts.kept_stem.
  - destruct (Str.startswith (List.map f s) "_") eqn:E; [|reflexivity].
    apply StrFacts.startswith_spec in E. destruct E as (post & E).
    destruct s as [|c s']; [discriminate|]. injection E as E _.
    exfalso. apply (Hnot c); [left; reflexivity | exact Hh | exact E].
  - destruct (Str.endswith (List.map f s) "_") eqn:E; [|reflexivity].
    apply StrFacts.endswith_spec in E. destruct E as (pre & E).
    apply (f_equal (@rev ascii)) in E.
    rewrite <- map_rev, rev_app_distr in E.
    destruct (rev s) as [|d r] eqn:Er; [discriminate|]. injection E as E _.
    exfalso. apply (Hnot d); [|exact Hl | exact E].
    apply in_rev. rewrite Er. left. reflexivity.
  - destruct (Str.contains (List.map f s) "__") eqn:E; [|reflexivity].
    apply StrFacts.contains_spec in E. destruct E as (pre & post & E).
    change (lit "__" ++ post) with ("_"%char :: "_"%char :: post) in E.
    apply map_eq_app in E. destruct E as (pre' & rest & Es & _ & E).
    destruct rest as [|a [|b post']]; try discriminate.
    injection E as Ea Eb _.
    exfalso. rewrite List.Forall_forall in Hk.
    apply (Hn pre' a b post' Es).
    + apply ListVendorsFacts.kept_underscore; [|exact Ea].
      apply Hk. rewrite Es. apply in_or_app. right. left. reflexivity.
    + apply ListVendorsFacts.kept_underscore; [|exact Eb].
      apply Hk. rewrite Es. apply in_or_app. right. right. left. reflexivity.
Qed.

Module WordsFacts.

Import PyFacts StrFacts Notions.

Lemma words_all_sep sep s :
  Forall (fun c => sep c = true) s -> words sep s = [].
Proof.
  induction 1 as [|c s Hc _ IH]; [reflexivity|].
  cbn [words]. rewrite Hc. exact IH.
Qed.

Lemma words_skip_pre sep pre s :
  Forall (fun c => sep c = true) pre -> words sep (pre ++ s) = words sep s.
Proof.
  induction 1 as [|c pre Hc _ IH]; [reflexivity|].
  cbn [app words]. rewrite Hc. exact IH.
Qed.

Lemma words_skip_post sep post :
  Forall (fun c => sep c = true) post ->
  forall s, words sep (s ++ post) = words sep s.
Proof.
  intros Hpost. induction s as [|c s IH].
  - apply words_all_sep. exact Hpost.
  - cbn [app words]. destruct (sep c); [exact IH|].
    destruct s as [|d s].
    + cbn [app]. destruct post as [|d post]; [reflexivity|].
      inversion Hpost as [|? ? Hd Hp]; subst. rewrite Hd.
      cbn [words]. rewrite Hd, (words_all_sep sep post Hp). reflexivity.
    + cbn [app] in *. destruct (sep d); rewrite IH; reflexivity.
Qed.

Lemma words_strip sep s :
  (forall c, Char.isspace c = true -> sep c = true) ->
  words sep (Str.strip s) = words sep s.
Proof.
  intros H. destruct (strip_split s) as (pre & post & E & Hpre & Hpost).
  rewrite E at 2.
  rewrite words_skip_pre, words_skip_post; [reflexivity | |].
  - eapply List.Forall_impl; [|exact Hpost]. exact H.
  - eapply List.Forall_impl; [|exact Hpre]. exact H.
Qed.

Lemma words_ext_in p q s :
  Forall (fun c => p c = q c) s -> words p s = words q s.
Proof.
  induction 1 as [|c s Hc Hs IH]; [reflexivity|].
  cbn [words]. rewrite Hc, IH. destruct (q c); [reflexivity|].
  destruct s as [|d s]; [reflexivity|].
  inversion Hs as [|? ? Hd _]; subst. rewrite Hd. reflexivity.
Qed.

Lemma words_map p (f : ascii -> ascii) s :
  words p (List.map f s) = List.map (List.map f) (words (fun c => p (f c)) s).
Proof.
  induction s as [|c s IH]; [reflexivity|].
  cbn [List.map words]. destruct (p (f c)); [exact IH|].
  destruct s as [|d s]; [reflexivity|].
  cbn [List.map] in *. destruct (p (f d)).
  - rewrite IH. reflexivity.
  - rewrite IH. destruct (words _ (d :: s)); reflexivity.
Qed.

(** A word is not empty and holds no separator. *)
Lemma words_chars sep s :
  Forall (fun w => w <> [] /\ Forall (fun c => sep c = false) w) (words sep s).
Proof.
  induction s as [|c s IH]; [constructor|].
  cbn [words]. destruct (sep c) eqn:Ec; [exact IH|].
  assert (H1 : [c] <> [] /\ Forall (fun c => sep c = false) [c]).
  { split; [discriminate | repeat constructor; exact Ec]. }
  destruct s as [|d s]; [constructor; [exact H1 | constructor]|].
  destruct (sep d); [constructor; [exact H1 | exact IH]|].
  destruct (words sep (d :: s)) as [|w ws]; [constructor; [exact H1 | constructor]|].
  inversion IH as [|? ? [Hw1 Hw2] Hws]; subst.
  constructor; [|exact Hws].
  split; [discriminate | constructor; assumption].
Qed.

Lemma map_id_on {A} (f : A -> A) l :
  Forall (fun x => f x = x) l -> List.map f l = l.
Proof. induction 1 as [|x l Hx _ IH]; simpl; congruence. Qed.

(** Mapping a function that moves separators only leaves the words. *)
Lemma words_map_fixed p (f : ascii -> ascii) s :
  (forall c, p (f c) = false -> f c = c) ->
  words p (List.map f s) = words (fun c => p (f c)) s.
Proof.
  intros Hf. rewrite words_map. apply map_id_on.
  eapply List.Forall_impl; [|apply words_chars].
  intros w [_ Hw]. apply map_id_on.
  eapply List.Forall_impl; [|exact Hw]. exact Hf.
Qed.

(** The words start where the first run of separators ends. *)
Lemma words_run sep s :
  words sep s
  = match run_of (fun c => negb (sep c)) s with
    | [] => words sep (after_run (fun c => negb (sep c)) s)
    | w => w :: words sep (after_run (fun c => negb (sep c)) s)
    end.
Proof.
  induction s as [|c s IH]; [reflexivity|].
  cbn [words run_of after_run]. destruct (sep c) eqn:Ec; cbn [negb].
  - cbn [words]. rewrite Ec. reflexivity.
  - destruct s as [|d s]; [reflexivity|].
    rewrite IH. cbn [run_of after_run].
    destruct (sep d) eqn:Ed; cbn [negb].
    + cbn [words]. rewrite Ed. reflexivity.
    + reflexivity.
Qed.

(** [[w for w in s.split(sep) if w]] are the words. *)
Lemma split_words sep s : forall cur,
  List.filter truthy (Str.split_from sep cur s)
  = match rev cur ++ run_of (fun c => negb (Char.eqb sep c)) s with
    | [] => words (Char.eqb sep) (after_run (fun c => negb (Char.eqb sep c)) s)
    | w => w :: words (Char.eqb sep) (after_run (fun c => negb (Char.eqb sep c)) s)
    end.
Proof.
  induction s as [|c s IH]; intros cur.
  - cbn [Str.split_from run_of after_run words List.filter].
    rewrite app_nil_r. destruct (rev cur); reflexivity.
  - cbn [Str.split_from run_of after_run]. destruct (Char.eqb sep c) eqn:Ec; cbn [negb].
    + cbn [List.filter]. rewrite (IH []). cbn [rev app].
      rewrite app_nil_r. cbn [words]. rewrite Ec.
      rewrite (words_run (Char.eqb sep) s).
      destruct (rev cur); reflexivity.
    + rewrite IH. cbn [rev]. rewrite <- app_assoc. reflexivity.
Qed.

Lemma filter_split_words sep s :
  List.filter truthy (Str.split sep s) = words (Char.eqb sep) s.
Proof.
  unfold Str.split. rewrite split_words. cbn [rev app].
  symmetry. apply words_run.
Qed.

End WordsFacts.

Module CollapseFacts.

Import PyFacts StrFacts Notions SubFacts WordsFacts.

Lemma run_of_all p s : Forall (fun c => p c = true) (run_of p s).
Proof.
  induction s as [|c s IH]; simpl; [constructor|].
  destruct (p c) eqn:E; constructor; assumption.
Qed.

Lemma after_run_head p s :
  match after_run p s with c :: _ => p c = false | [] => True end.
Proof.
  induction s as [|c s IH]; simpl; [exact I|].
  destruct (p c) eqn:E; [exact IH | exact E].
Qed.

Lemma after_run_length p s : (length (after_run p s) <= length s)%nat.
Proof.
  induction s as [|c s IH]; simpl; [lia|].
  destruct (p c); simpl; lia.
Qed.

Lemma words_after_sep sep s : words sep (after_run sep s) = words sep s.
Proof.
  rewrite (run_split sep s) at 2.
  symmetry. apply words_skip_pre, run_of_all.
Qed.

Lemma lstrip_app a b :
  Str.lstrip a <> [] -> Str.lstrip (a ++ b) = Str.lstrip a ++ b.
Proof.
  induction a as [|c a IH]; simpl; [congruence|].
  destruct (Char.isspace c); [exact IH | reflexivity].
Qed.

Lemma rstrip_app x y :
  Str.rstrip y <> [] -> Str.rstrip (x ++ y) = x ++ Str.rstrip y.
Proof.
  unfold Str.rstrip. intros H.
  rewrite rev_app_distr, lstrip_app, rev_app_distr, rev_involutive; [reflexivity|].
  intros E. apply H. rewrite E. reflexivity.
Qed.

Lemma rstrip_blank x d :
  Char.isspace d = true -> Str.rstrip (x ++ [d]) = Str.rstrip x.
Proof.
  intros Hd. unfold Str.rstrip. rewrite rev_app_distr. simpl.
  rewrite Hd. reflexivity.
Qed.

Lemma rstrip_solid w :
  Forall (fun c => Char.isspace c = false) w -> Str.rstrip w = w.
Proof.
  intros H. unfold Str.rstrip.
  apply List.Forall_rev in H.
  destruct (rev w) as [|d r] eqn:E.
  - apply (f_equal (@rev ascii)) in E. rewrite rev_involutive in E. subst. reflexivity.
  - inversion H; subst. rewrite lstrip_keep by assumption.
    rewrite <- E. apply rev_involutive.
Qed.


Lemma collapse_in_run s :
  collapse true s = collapse false (after_run Char.isspace s).
Proof.
  induction s as [|c s IH]; [reflexivity|].
  cbn [replace_runs after_run].
  destruct (Char.isspace c) eqn:E.
  - exact IH.
  - cbn [replace_runs]. rewrite E. reflexivity.
Qed.

Lemma lstrip_collapse s : forall b,
  Str.lstrip (collapse b s) = collapse false (after_run Char.isspace s).
Proof.
  induction s as [|c s IH]; intros b; [reflexivity|].
  cbn [replace_runs after_run].
  destruct (Char.isspace c) eqn:E.
  - destruct b; cbn [app]; [apply IH|].
    cbn [Str.lstrip]. change (Char.isspace " ") with true. cbv iota. apply IH.
  - cbn [Str.lstrip replace_runs]. rewrite E. reflexivity.
Qed.

Lemma collapse_run s :
  collapse false s = run_of solid s ++ collapse false (after_run solid s).
Proof.
  induction s as [|c s IH]; [reflexivity|].
  cbn [replace_runs run_of after_run].
  destruct (Char.isspace c) eqn:E; cbn [negb].
  - cbn [app replace_runs]. rewrite E. reflexivity.
  - cbn [app]. rewrite IH. reflexivity.
Qed.

Lemma join_nonempty sep w ws : w <> [] -> Str.join sep (w :: ws) <> [].
Proof.
  intros Hw. cbn [Str.join]. destruct ws; [exact Hw|].
  destruct w; [congruence | discriminate].
Qed.

Lemma words_nonempty s :
  match s with c :: _ => Char.isspace c = false | [] => False end ->
  exists w ws, words Char.isspace s = w :: ws /\ w <> [].
Proof.
  destruct s as [|c s]; [contradiction|]. intros Hc.
  rewrite (words_run Char.isspace (c :: s)). cbn [run_of]. rewrite Hc.
  cbn [negb]. eexists _, _. split; [reflexivity | discriminate].
Qed.

(** A text that starts with a word: the word, and what follows it. *)
Lemma first_word c v0 :
  Char.isspace c = false ->
  exists w1 rest,
    w1 <> [] /\ Forall (fun x => Char.isspace x = false) w1
    /\ (length rest < length (c :: v0))%nat
    /\ match rest with d :: _ => Char.isspace d = true | [] => True end
    /\ collapse false (c :: v0) = w1 ++ collapse false rest
    /\ words Char.isspace (c :: v0) = w1 :: words Char.isspace rest.
Proof.
  intros Hc. set (v := c :: v0).
  exists (run_of solid v), (after_run solid v).
  assert (E : run_of solid v = c :: run_of solid v0).
  { subst v. cbn [run_of]. rewrite Hc. reflexivity. }
  split; [rewrite E; discriminate|].
  split.
  { eapply List.Forall_impl; [|apply run_of_all]. intros x Hx.
    apply negb_true_iff in Hx. exact Hx. }
  split.
  { rewrite (run_split solid v) at 2. rewrite length_app, E. cbn [length]. lia. }
  split.
  { pose proof (after_run_head solid v) as H.
    destruct (after_run solid v); [exact I|].
    apply negb_false_iff in H. exact H. }
  split; [apply collapse_run|].
  rewrite (words_run Char.isspace v), E. reflexivity.
Qed.

Lemma rstrip_collapse : forall n v,
  (length v <= n)%nat ->
  match v with c :: _ => Char.isspace c = false | [] => True end ->
  Str.rstrip (collapse false v) = Str.join " " (words Char.isspace v).
Proof.
  induction n as [|n IH]; intros v Hn Hv.
  { destruct v; [reflexivity | simpl in Hn; lia]. }
  destruct v as [|c v0]; [reflexivity|].
  destruct (first_word c v0 Hv) as (w1 & rest & Hne & Hs & Hlen & Hrest & Ec & Ew).
  rewrite Ec, Ew. clear Ec Ew.
  destruct rest as [|d rest'].
  - cbn [replace_runs words Str.join]. rewrite app_nil_r.
    apply rstrip_solid. exact Hs.
  - cbn [replace_runs words]. rewrite Hrest.
    rewrite collapse_in_run, <- (words_after_sep Char.isspace rest').
    pose proof (after_run_head Char.isspace rest') as Hh.
    pose proof (after_run_length Char.isspace rest') as Hl.
    destruct (after_run Char.isspace rest') as [|e v'] eqn:Ev.
    + cbn [replace_runs words app Str.join].
      rewrite rstrip_blank by reflexivity. apply rstrip_solid. exact Hs.
    + assert (IHv : Str.rstrip (collapse false (e :: v'))
                    = Str.join " " (words Char.isspace (e :: v'))).
      { apply IH; [|exact Hh]. cbn [length] in *. lia. }
      destruct (words_nonempty (e :: v') Hh) as (w & ws & Ews & Hw).
      rewrite app_assoc, rstrip_app, IHv, Ews.
      * cbn [Str.join]. rewrite <- app_assoc. reflexivity.
      * rewrite IHv, Ews. apply join_nonempty. exact Hw.
Qed.

(** [re.sub("\s+", " ", s).strip()] is [" ".join(s.split())]. *)
Lemma strip_collapse u :
  Str.strip (collapse false u) = Str.join " " (words Char.isspace u).
Proof.
  unfold Str.strip. rewrite lstrip_collapse.
  rewrite <- (words_after_sep Char.isspace u).
  apply (rstrip_collapse (length (after_run Char.isspace u))); [lia|].
  apply after_run_head.
Qed.

(** [s.split()] gives the words between the blanks. *)
Lemma split_whitespace_from_words s : forall cur,
  Str.split_whitespace_from cur s
  = match rev cur ++ run_of solid s with
    | [] => words Char.isspace (after_run solid s)
    | w => w :: words Char.isspace (after_run solid s)
    end.
Proof.
  induction s as [|c s IH]; intros cur.
  - cbn [Str.split_whitespace_from run_of after_run words].
    rewrite app_nil_r. destruct cur as [|a cur]; [reflexivity|].
    destruct (rev (a :: cur)) eqn:E; [|reflexivity].
    apply (f_equal (@rev ascii)) in E. rewrite rev_involutive in E. discriminate.
  - cbn [Str.split_whitespace_from run_of after_run].
    destruct (Char.isspace c) eqn:Ec; cbn [negb].
    + rewrite app_nil_r. cbn [words]. rewrite Ec.
      rewrite (words_run Char.isspace s), (IH []). cbn [rev app].
      destruct cur as [|a cur]; [reflexivity|].
      destruct (rev (a :: cur)) eqn:E; [|reflexivity].
      apply (f_equal (@rev ascii)) in E. rewrite rev_involutive in E. discriminate.
    + rewrite IH. cbn [rev]. rewrite <- app_assoc. reflexivity.
Qed.

Lemma split_whitespace_words s :
  Str.split_whitespace s = words Char.isspace s.
Proof.
  unfold Str.split_whitespace. rewrite split_whitespace_from_words. cbn [rev app].
  symmetry. apply words_run.
Qed.

End CollapseFacts.

Module DeriveFacts.

Import PyFacts StrFacts Notions WordsFacts CollapseFacts SubFacts Dispatch.

Lemma aliases_exact raw m :
  VENDOR_ALIASES !! raw = Some m ->
  (raw = lit "knife river" /\ m = lit "knife_river_parser")
  \/ (raw = lit "core & main" /\ m = lit "core_main_parser").
Proof.
  unfold VENDOR_ALIASES. intros H.
  apply lookup_insert_Some in H. destruct H as [[<- <-]|[_ H]]; [auto|].
  apply lookup_insert_Some in H. destruct H as [[<- <-]|[_ H]]; [auto|].
  rewrite lookup_empty in H. discriminate.
Qed.

Lemma derive_is_cleaned vendor_folder :
  derive_vendor_module vendor_folder
  = cleaned_name (Str.strip (Str.lower vendor_folder)).
Proof.
  unfold derive_vendor_module.
  destruct (VENDOR_ALIASES !! _) as [m|] eqn:E; [|reflexivity].
  apply aliases_exact in E. destruct E as [[-> ->]|[-> ->]]; vm_compute; reflexivity.
Qed.

Lemma underscore_fixed c :
  Char.eqb "_" (if Char.isalnum c then c else "_"%char) = false ->
  (if Char.isalnum c then c else "_"%char) = c.
Proof. destruct c as [[] [] [] [] [] [] [] []]; vm_compute; congruence. Qed.

Lemma underscore_not_alnum c :
  Char.eqb "_" (if Char.isalnum c then c else "_"%char) = not_alnum c.
Proof. destruct c as [[] [] [] [] [] [] [] []]; vm_compute; congruence. Qed.

Lemma space_not_alnum c : Char.isspace c = true -> not_alnum c = true.
Proof. destruct c as [[] [] [] [] [] [] [] []]; vm_compute; congruence. Qed.

(** The stem of a cleaned name: the alphanumeric words, joined by
    underscores. *)
Lemma cleaned_words raw :
  cleaned_name raw = Str.join "_" (words not_alnum raw) ++ lit "_parser".
Proof.
  unfold cleaned_name. f_equal. f_equal.
  rewrite filter_split_words.
  rewrite (words_map_fixed (Char.eqb "_")
             (fun ch => if Char.isalnum ch then ch else "_"%char));
    [|apply underscore_fixed].
  apply words_ext_in. apply List.Forall_forall. intros c _.
  apply underscore_not_alnum.
Qed.

Lemma derive_words vendor_folder :
  derive_vendor_module vendor_folder
  = Str.join "_" (words not_alnum (Str.lower vendor_folder)) ++ lit "_parser".
Proof.
  rewrite derive_is_cleaned, cleaned_words.
  rewrite words_strip; [reflexivity | apply space_not_alnum].
Qed.

Lemma map_join (f : ascii -> ascii) sep parts :
  List.map f (Str.join sep parts)
  = Str.join (List.map f sep) (List.map (List.map f) parts).
Proof.
  induction parts as [|p parts IH]; [reflexivity|].
  cbn [Str.join List.map]. destruct parts as [|q parts]; [reflexivity|].
  rewrite !map_app, IH. reflexivity.
Qed.

Lemma plain_lower c :
  plain_char c = true ->
  Char.eqb "&" (Char.lower c) = false
  /\ kept (if Char.eqb "-" (Char.lower c) then " "%char else Char.lower c) = true
  /\ Char.isspace (if Char.eqb "-" (Char.lower c) then " "%char else Char.lower c)
     = not_alnum (Char.lower c).
Proof. destruct c as [[] [] [] [] [] [] [] []]; vm_compute; intuition congruence. Qed.

Lemma hyphen_fixed c :
  Char.isspace (if Char.eqb "-" c then " "%char else c) = false ->
  (if Char.eqb "-" c then " "%char else c) = c.
Proof. destruct c as [[] [] [] [] [] [] [] []]; vm_compute; congruence. Qed.

Lemma space_fixed c :
  Char.isspace c = false -> (if Char.eqb " " c then "_"%char else c) = c.
Proof. destruct c as [[] [] [] [] [] [] [] []]; vm_compute; congruence. Qed.

(** The stem that [make_parser_name] gives a plain folder name: the same
    words. *)
Lemma make_parser_name_words folder_name :
  Forall (fun c => plain_char c = true) folder_name ->
  ListVendors.make_parser_name folder_name
  = Str.join "_" (words not_alnum (Str.lower folder_name)) ++ lit "_parser".
Proof.
  intros Hp.
  assert (Hl : Forall (fun c => Char.eqb "&" c = false
                  /\ kept (if Char.eqb "-" c then " "%char else c) = true
                  /\ Char.isspace (if Char.eqb "-" c then " "%char else c)
                     = not_alnum c) (Str.lower folder_name)).
  { unfold Str.lower. apply List.Forall_map.
    eapply List.Forall_impl; [|exact Hp]. intros c. apply plain_lower. }
  rewrite ListVendorsFacts.make_parser_name_spaced. f_equal.
  unfold spaced.
  set (t := Str.lower folder_name) in *.
  change (lit "&") with ["&"%char]. change (lit "-") with ["-"%char].
  change (lit " ") with [" "%char].
  rewrite replace_char_filter, replace_char_map.
  rewrite (MoneyFacts.filter_keep (fun c => negb (Char.eqb "&" c)) t).
  2:{ eapply List.Forall_impl; [|exact Hl]. intros c (-> & _). reflexivity. }
  unfold ListVendors.other_re. rewrite sub_plus_remove.
  rewrite (MoneyFacts.filter_keep).
  2:{ apply List.Forall_map. eapply List.Forall_impl; [|exact Hl].
      intros c (_ & H & _). fold (kept (if Char.eqb "-" c then " "%char else c)).
      rewrite H. reflexivity. }
  unfold ListVendors.spaces_re, Regex.space. rewrite sub_plus.
  rewrite strip_collapse.
  rewrite map_join.
  rewrite (map_id_on (List.map _)).
  2:{ eapply List.Forall_impl; [|apply words_chars].
      intros w [_ Hw]. apply map_id_on.
      eapply List.Forall_impl; [|exact Hw]. apply space_fixed. }
  f_equal.
  rewrite (words_map_fixed Char.isspace
             (fun c => if Char.eqb "-" c then " "%char else c));
    [|apply hyphen_fixed].
  apply words_ext_in. eapply List.Forall_impl; [|exact Hl].
  intros c (_ & _ & H). exact H.
Qed.

End DeriveFacts.

(** X3. The aliases of [invoice_sorter_ui.py] change nothing: for every
    folder name, [derive_vendor_module] gives the name that its cleaning
    steps form. *)
Theorem aliases_redundant (vendor_folder : text) :
  Dispatch.derive_vendor_module vendor_folder
  = Notions.cleaned_name (Str.strip (Str.lower vendor_folder)).
Proof. apply DeriveFacts.derive_is_cleaned. Qed.

(** X4. On a folder name made of letters, digits, spaces and hyphens,
    the tool script [list_vendors.py] and the user interface agree on
    the name of the parser module. *)
Theorem make_parser_name_agrees (folder_name : text) :
  Forall (fun c => Notions.plain_char c = true) folder_name ->
  ListVendors.make_parser_name folder_name
  = Dispatch.derive_vendor_module folder_name.
Proof.
  intros H. rewrite DeriveFacts.make_parser_name_words by exact H.
  symmetry. apply DeriveFacts.derive_words.
Qed.

Lemma make_parser_name_agrees_witness :
  Forall (fun c => Notions.plain_char c = true) (lit "Tire-rama  North 2")
  /\ ListVendors.make_parser_name "Tire-rama  North 2"
     = Dispatch.derive_vendor_module "Tire-rama  North 2".
Proof.
  assert (H : Forall (fun c => Notions.plain_char c = true) (lit "Tire-rama  North 2")).
  { apply Lang.every_forallb. vm_compute. reflexivity. }
  split; [exact H | apply (make_parser_name_agrees _ H)].
Defined.

Module FileNameFacts.

Import PyFacts StrFacts Notions SubFacts MissoulaLandfillParser.

Lemma clean_legal value : Forall legal_char (_clean_for_filename value).
Proof.
  unfold _clean_for_filename.
  destruct (truthy value); cbn [negb]; [|constructor].
  unfold illegal_re. rewrite sub_chr.
  change (lit " ") with [" "%char]. rewrite replace_char_filter.
  apply List.Forall_forall. intros c Hc.
  apply filter_In in Hc. destruct Hc as [Hc Hi].
  apply filter_In in Hc. destruct Hc as [_ Hs].
  split.
  - apply negb_true_iff, bool_decide_eq_false in Hi. exact Hi.
  - apply negb_true_iff, eqb_neq in Hs. congruence.
Qed.

Lemma legal_literal (s : string) :
  forallb (fun c => negb (bool_decide (c ∈ illegal)) && negb (Char.eqb " " c)) (lit s)
  = true ->
  Forall legal_char (lit s).
Proof.
  intros H. apply List.Forall_forall. intros c Hc.
  rewrite forallb_forall in H. specialize (H c Hc).
  apply andb_true_iff in H. destruct H as [H1 H2].
  split.
  - apply negb_true_iff, bool_decide_eq_false in H1. exact H1.
  - apply negb_true_iff, eqb_neq in H2. congruence.
Qed.

Lemma Forall_join {P : ascii -> Prop} sep parts :
  Forall P sep -> Forall (Forall P) parts -> Forall P (Str.join sep parts).
Proof.
  intros Hsep. induction 1 as [|x parts Hx Hparts IH]; simpl; [constructor|].
  destruct parts as [|y parts]; [exact Hx|].
  apply List.Forall_app. split; [exact Hx|].
  apply List.Forall_app. split; [exact Hsep | exact IH].
Qed.

(** A list of texts that holds a text that is not empty. *)
Lemma join_filter_nonempty sep parts :
  Exists (fun p => p <> []) parts ->
  Str.join sep (List.filter truthy parts) <> [].
Proof.
  induction 1 as [p parts Hp|p parts _ IH].
  - cbn [List.filter]. destruct p as [|c p]; [congruence|]. cbn [truthy].
    apply CollapseFacts.join_nonempty. discriminate.
  - cbn [List.filter]. destruct p as [|c p]; [exact IH|]. cbn [truthy].
    apply CollapseFacts.join_nonempty. discriminate.
Qed.

End FileNameFacts.

(** X5. The file name that [build_output_filename] of
    [missoula_landfill_parser.py] gives a record ends in [.pdf], has
    something before it, and holds no space character and none of the
    nine characters that [_clean_for_filename] removes; a tab or another
    blank that is no space can stay in it. *)
Theorem build_output_filename_legal (inv : invoice) :
  exists base,
    MissoulaLandfillParser.build_output_filename inv = base ++ lit ".pdf"
    /\ base <> []
    /\ Forall Notions.legal_char (MissoulaLandfillParser.build_output_filename inv).
Proof.
  unfold MissoulaLandfillParser.build_output_filename. cbv zeta.
  eexists. split; [reflexivity|]. split.
  - apply FileNameFacts.join_filter_nonempty.
    do 3 apply Exists_cons_tl. apply Exists_cons_hd.
    destruct (MissoulaLandfillParser._clean_for_filename (invoice_number inv));
      discriminate.
  - apply List.Forall_app. split.
    + apply FileNameFacts.Forall_join.
      * apply (FileNameFacts.legal_literal "_"). reflexivity.
      * apply DispatchFacts.Forall_filter_keep.
        repeat constructor; try apply FileNameFacts.clean_legal.
        destruct (truthy (MissoulaLandfillParser._clean_for_filename (invoice_number inv)));
          cbn [negb].
        -- apply FileNameFacts.clean_legal.
        -- apply (FileNameFacts.legal_literal "NOINV"). reflexivity.
    + apply (FileNameFacts.legal_literal ".pdf"). reflexivity.
Qed.

Module SplitNameFacts.

Import PyFacts StrFacts Notions InvoiceSorterUI.

Lemma filter_filter {A} (f g : A -> bool) s :
  List.filter f (List.filter g s) = List.filter (fun c => g c && f c) s.
Proof.
  induction s as [|c s IH]; [reflexivity|].
  cbn [List.filter]. destruct (g c); cbn [List.filter andb]; rewrite IH; reflexivity.
Qed.

(** Removing characters one after the other is one filter. *)
Lemma fold_remove chars : forall s,
  fold_left (fun acc ch => Str.replace ch [] acc)
    (List.map (fun a => [a]) chars) s
  = List.filter (fun c => negb (existsb (fun a => Char.eqb a c) chars)) s.
Proof.
  induction chars as [|a chars IH]; intros s; cbn [List.map fold_left existsb].
  - symmetry. apply MoneyFacts.filter_keep. apply List.Forall_forall. reflexivity.
  - rewrite IH, replace_char_filter, filter_filter.
    apply filter_ext. intros c. rewrite negb_orb. reflexivity.
Qed.

Lemma bad_chars_removed s c :
  In c (fold_left (fun file_name ch => Str.replace ch [] file_name) bad_chars s) ->
  In c s /\ ~ In [c] bad_chars.
Proof.
  change bad_chars
    with (List.map (fun a => [a]) ["034"; "'"; ":"; "?"; "*"; "<"; ">"; "|"]%char).
  rewrite fold_remove. intros H. apply filter_In in H. destruct H as [Hin H].
  split; [exact Hin|]. intros Hbad.
  apply in_map_iff in Hbad. destruct Hbad as (a & [= ->] & Ha).
  apply negb_true_iff in H.
  assert (E : existsb (fun a => Char.eqb a c)
                ["034"; "'"; ":"; "?"; "*"; "<"; ">"; "|"]%char = true).
  { apply existsb_exists. exists c. split; [exact Ha | apply eqb_eq; reflexivity]. }
  congruence.
Qed.

Lemma bad_chars_suffix s :
  fold_left (fun file_name ch => Str.replace ch [] file_name) bad_chars
    (s ++ lit ".pdf")
  = fold_left (fun file_name ch => Str.replace ch [] file_name) bad_chars s
    ++ lit ".pdf".
Proof.
  change bad_chars
    with (List.map (fun a => [a]) ["034"; "'"; ":"; "?"; "*"; "<"; ">"; "|"]%char).
  rewrite !fold_remove, List.filter_app. reflexivity.
Qed.

Lemma In_or_default c v d :
  In c (Str.or_default v d) -> In c v \/ In c d.
Proof. unfold Str.or_default. destruct (truthy v); auto. Qed.

Lemma In_remove a c s : In c (Str.replace [a] [] s) -> In c s.
Proof. rewrite replace_char_filter. intros H. apply filter_In in H. apply H. Qed.

Lemma not_In_replaced a b s : a <> b -> ~ In a (Str.replace [a] [b] s).
Proof.
  intros Hab. rewrite replace_char_map. intros H.
  apply in_map_iff in H. destruct H as (c & E & _).
  destruct (Char.eqb a c) eqn:Ec; [congruence|].
  apply eqb_neq in Ec. congruence.
Qed.

(** A slash in the file name comes from the vendor, the invoice number
    or the total. *)
Lemma slash_origin inv :
  In "/"%char (file_name inv) ->
  In "/"%char (vendor inv) \/ In "/"%char (invoice_number inv)
  \/ In "/"%char (total inv).
Proof.
  unfold file_name. cbv zeta. intros H.
  apply bad_chars_removed in H. destruct H as [H _].
  change (lit " ") with [" "%char] in H. change (lit ",") with [","%char] in H.
  change (lit "/") with ["/"%char] in H. change (lit "-") with ["-"%char] in H.
  repeat (apply in_app_or in H; destruct H as [H|H]).
  - apply In_remove in H. auto.
  - vm_compute in H. intuition discriminate.
  - apply not_In_replaced in H; [contradiction | discriminate].
  - vm_compute in H. intuition discriminate.
  - apply not_In_replaced in H; [contradiction | discriminate].
  - vm_compute in H. intuition discriminate.
  - apply In_remove, In_or_default in H. destruct H as [H|H]; [auto|].
    vm_compute in H. intuition discriminate.
  - vm_compute in H. intuition discriminate.
  - apply In_remove, In_remove, In_or_default in H. destruct H as [H|H]; [auto|].
    destruct H.
  - vm_compute in H. intuition discriminate.
Qed.

Lemma digits_no_slash s :
  Forall (fun c => Char.is_digit c = true) s -> ~ In "/"%char s.
Proof.
  intros H Hin. rewrite List.Forall_forall in H.
  specialize (H _ Hin). discriminate.
Qed.

Lemma total_no_slash t :
  t = [] \/ Spec.digits_and_one_point t = true -> ~ In "/"%char t.
Proof.
  intros [->|H] Hin; [destruct Hin|].
  unfold Spec.digits_and_one_point in H. apply andb_true_iff in H.
  destruct H as [H _]. rewrite forallb_forall in H.
  specialize (H _ Hin). discriminate.
Qed.

End SplitNameFacts.

(** X6. The name under which [process_invoices] saves the page of a
    record ends in [.pdf] and holds none of the characters that the
    function removes. *)
Theorem process_invoices_file_name (inv : invoice) :
  Str.endswith (InvoiceSorterUI.file_name inv) ".pdf" = true
  /\ Forall (fun c => ~ In [c] InvoiceSorterUI.bad_chars)
       (InvoiceSorterUI.file_name inv).
Proof.
  split.
  - apply StrFacts.endswith_spec. unfold InvoiceSorterUI.file_name. cbv zeta.
    rewrite !app_assoc, SplitNameFacts.bad_chars_suffix. eauto.
  - apply List.Forall_forall. intros c Hc.
    unfold InvoiceSorterUI.file_name in Hc. cbv zeta in Hc.
    apply SplitNameFacts.bad_chars_removed in Hc. apply Hc.
Qed.

Module PageRecordFacts.

Import Regex RegexSem Lang PyFacts StrFacts Spec Aux SplitNameFacts.

Lemma number_no_slash n lo hi :
  n = [] \/ digits_between lo hi n -> ~ In "/"%char n.
Proof.
  intros [->|(H & _)]; [intros []|]. apply digits_no_slash. exact H.
Qed.

(** The invoice number of a Core & Main page is made of letters and
    digits. *)
Lemma core_main_number txt page_index :
  Forall (fun c => Char.isalnum c = true)
    (invoice_number (CoreMainParser.parse_page txt page_index)).
Proof.
  unfold CoreMainParser.parse_page. cbn [invoice_number].
  destruct (search CoreMainParser.invoice_re txt) as [g|] eqn:E; [|constructor].
  apply RegexFacts.search_sound in E. destruct E as (prev & rest & H).
  cbn [grp CoreMainParser.invoice_re] in H. unfold Plus in H.
  apply rep_chr_inv in H. destruct H as (H & _).
  apply Forall_strip. exact H.
Qed.

End PageRecordFacts.

(** X7. The page of a record of the Knife River, the Missoula Landfill
    or the Core & Main parser is saved by [process_invoices] under a
    name without a slash: neither the vendor, nor the invoice number,
    nor the total that these parsers give can bring one. *)
Theorem split_file_name_no_slash (raw_text : text) (page_number : Z) :
  (exists inv,
      KnifeRiverParser._parse_knife_river_page raw_text page_number = Ok inv
      /\ ~ In "/"%char (InvoiceSorterUI.file_name inv))
  /\ (exists inv,
      MissoulaLandfillParser._parse_missoula_landfill_page raw_text page_number
      = Ok inv
      /\ ~ In "/"%char (InvoiceSorterUI.file_name inv))
  /\ ~ In "/"%char
       (InvoiceSorterUI.file_name (CoreMainParser.parse_page raw_text page_number)).
Proof.
  split; [|split].
  - destruct (KnifeRiverParserFacts.knife_river_page_ok raw_text page_number)
      as (t & j & E & _).
    pose proof (KnifeRiverParserFacts.knife_river_page_total _ _ _ E) as Ht.
    eexists. split; [exact E|]. intros H.
    apply SplitNameFacts.slash_origin in H. cbn [vendor invoice_number total] in *.
    destruct H as [H|[H|H]].
    + vm_compute in H. intuition discriminate.
    + revert H. eapply PageRecordFacts.number_no_slash.
      apply KnifeRiverParserFacts.knife_river_number_digits.
    + revert H. apply SplitNameFacts.total_no_slash. exact Ht.
  - destruct (MissoulaFacts.missoula_page_ok raw_text page_number)
      as (n & t & j & E & En & Et).
    destruct (MissoulaFacts.invoice_number_ok raw_text) as (n' & En' & Hn).
    destruct (MissoulaFacts.total_shape raw_text) as (t' & Et' & Ht).
    rewrite En in En'. injection En' as <-.
    rewrite Et in Et'. injection Et' as <-.
    eexists. split; [exact E|]. intros H.
    apply SplitNameFacts.slash_origin in H. cbn [vendor invoice_number total] in *.
    destruct H as [H|[H|H]].
    + vm_compute in H. intuition discriminate.
    + revert H. eapply PageRecordFacts.number_no_slash. exact Hn.
    + revert H. apply SplitNameFacts.total_no_slash. exact Ht.
  - intros H. apply SplitNameFacts.slash_origin in H.
    destruct H as [H|[H|H]].
    + vm_compute in H. intuition discriminate.
    + pose proof (PageRecordFacts.core_main_number raw_text page_number) as Hn.
      rewrite List.Forall_forall in Hn. specialize (Hn _ H). discriminate.
    + revert H. apply SplitNameFacts.total_no_slash.
      apply CoreMainFacts.core_main_page_total.
Qed.

Module VendorManagerFacts.

Import PyFacts StrFacts Notions WordsFacts VendorManager.

Lemma lower_title_char c b :
  Char.lower (if b : bool then Char.lower c else Char.upper c) = Char.lower c.
Proof. destruct b, c as [[] [] [] [] [] [] [] []]; vm_compute; reflexivity. Qed.

(** [s.title().lower()] is [s.lower()]. *)
Lemma lower_title s : forall b, Str.lower (Str.title_from b s) = Str.lower s.
Proof.
  induction s as [|c s IH]; intros b; [reflexivity|].
  cbn [Str.title_from]. unfold Str.lower in *. cbn [List.map].
  rewrite lower_title_char, IH. reflexivity.
Qed.

Lemma stem_round_trip c :
  stem_char c = true ->
  (if Char.eqb " " (Char.lower (if Char.eqb "_" c then " "%char else c))
   then "_"%char
   else Char.lower (if Char.eqb "_" c then " "%char else c)) = c.
Proof. destruct c as [[] [] [] [] [] [] [] []]; vm_compute; congruence. Qed.

(** The vendor name shown for a file leads back to the stem of the
    file. *)
Lemma vendor_raw_back stem :
  Forall (fun c => stem_char c = true) stem ->
  Str.replace " " "_" (Str.lower (Str.title (Str.replace "_" " " stem))) = stem.
Proof.
  intros H. unfold Str.title. rewrite lower_title.
  change (lit " ") with [" "%char]. change (lit "_") with ["_"%char].
  rewrite !replace_char_map. unfold Str.lower. rewrite !map_map.
  apply map_id_on. eapply List.Forall_impl; [|exact H].
  intros c. apply stem_round_trip.
Qed.

Lemma suffix_chars j x :
  (j <= 6)%nat -> nth_error (lit "_parser.py") j = Some x -> x <> "."%char.
Proof.
  intros Hj.
  do 7 (destruct j as [|j]; [intros [= <-]; discriminate|]). lia.
Qed.

(** No stem character before the suffix lets the suffix start early. *)
Lemma suffix_not_early c stem :
  Forall (fun c => stem_char c = true) (c :: stem) ->
  Str.startswith ((c :: stem) ++ lit "_parser.py") "_parser.py" = false.
Proof.
  intros H. destruct (Str.startswith _ _) eqn:E; [|reflexivity]. exfalso.
  apply startswith_spec in E. destruct E as (post & E).
  assert (N : nth_error ((c :: stem) ++ lit "_parser.py") 7 = Some "."%char).
  { rewrite E. reflexivity. }
  destruct (Nat.ltb_spec 7 (length (c :: stem))) as [Hlt|Hge].
  - rewrite nth_error_app1 in N by exact Hlt.
    apply nth_error_In in N. rewrite List.Forall_forall in H.
    specialize (H _ N). discriminate.
  - rewrite nth_error_app2 in N by exact Hge.
    apply suffix_chars in N; [congruence|]. cbn [length] in *. lia.
Qed.

Lemma remove_suffix stem :
  Forall (fun c => stem_char c = true) stem ->
  Str.replace "_parser.py" [] (stem ++ lit "_parser.py") = stem.
Proof.
  unfold Str.replace. induction 1 as [|c stem Hc Hs IH]; [reflexivity|].
  cbn [app Str.replace_from].
  pose proof (suffix_not_early c stem ltac:(constructor; assumption)) as E.
  cbn [app] in E. rewrite E. rewrite IH. reflexivity.
Qed.

Lemma discover_vendors_map filenames : forall vendors,
  fold_left
    (fun vendors filename =>
       if Str.endswith filename "_parser.py" then
         vendors ++ [Str.title (Str.replace "_" " "
                                  (Str.replace "_parser.py" [] filename))]
       else vendors)
    filenames vendors
  = vendors
    ++ List.map (fun filename =>
                   Str.title (Str.replace "_" " "
                                (Str.replace "_parser.py" [] filename)))
         (List.filter (fun filename => Str.endswith filename "_parser.py")
            filenames).
Proof.
  induction filenames as [|x l IH]; intros vendors; cbn [fold_left List.filter].
  - cbn [List.map]. rewrite app_nil_r. reflexivity.
  - rewrite IH. destruct (Str.endswith x "_parser.py"); [|reflexivity].
    cbn [List.map]. rewrite <- app_assoc. reflexivity.
Qed.

End VendorManagerFacts.

(** X8. A parser file [<stem>_parser.py] whose stem is made of lower-case
    letters, digits and underscores is offered by [discover_vendors]
    under a vendor name that [get_vendor_parser] takes back to the
    module [vendor_parsers.<stem>_parser] and its function
    [parse_<stem>_pdf]. *)
Theorem discovered_vendor_is_found {parse_fn : Type}
    (mods : Dispatch.importable parse_fn) (filenames : list text)
    (stem : text) (module : Dispatch.py_module parse_fn) (f : parse_fn) :
  In (stem ++ lit "_parser.py") filenames ->
  Forall (fun c => Notions.stem_char c = true) stem ->
  mods !! (Dispatch.VENDOR_PARSER_FOLDER ^^ "." ^^ stem ^^ "_parser") = Some module ->
  module !! (lit "parse_" ^^ stem ^^ "_pdf") = Some f ->
  exists vendor_name,
    In vendor_name (VendorManager.discover_vendors (Some filenames))
    /\ Dispatch.get_vendor_parser mods vendor_name = Ok f.
Proof.
  intros Hin Hstem Hmod Hf.
  exists (Str.title (Str.replace "_" " " stem)). split.
  - unfold VendorManager.discover_vendors.
    rewrite VendorManagerFacts.discover_vendors_map. cbn [app].
    apply in_map_iff. exists (stem ++ lit "_parser.py"). split.
    + rewrite VendorManagerFacts.remove_suffix by exact Hstem. reflexivity.
    + apply filter_In. split; [exact Hin|].
      apply StrFacts.endswith_spec. eauto.
  - unfold Dispatch.get_vendor_parser.
    rewrite VendorManagerFacts.vendor_raw_back by exact Hstem.
    rewrite Hmod, Hf. reflexivity.
Qed.

Lemma discovered_vendor_is_found_witness :
  let module : Dispatch.py_module unit :=
    <[ lit "parse_knife_river_pdf" := tt ]> ∅ in
  let mods : Dispatch.importable unit :=
    <[ lit "vendor_parsers.knife_river_parser" := module ]> ∅ in
  exists vendor_name,
    In vendor_name
      (VendorManager.discover_vendors
         (Some (lits ["__init__.py"; "knife_river_parser.py"])))
    /\ Dispatch.get_vendor_parser mods vendor_name = Ok tt.
Proof.
  intros module mods.
  apply (discovered_vendor_is_found mods
           (lits ["__init__.py"; "knife_river_parser.py"]) "knife_river" module tt).
  - right. left. reflexivity.
  - apply Lang.every_forallb. vm_compute. reflexivity.
  - exact (lookup_insert_eq (M := gmap text) _ _ _).
  - exact (lookup_insert_eq (M := gmap text) _ _ _).
Defined.

Module ManagerMissFacts.

Import PyFacts StrFacts Notions.

Lemma function_name_differs vendor_raw :
  lit "parse_" ++ vendor_raw ++ lit "_pdf" <> lit "parse_invoice".
Proof.
  intros E. apply (f_equal (@rev ascii)) in E.
  rewrite !rev_app_distr in E. vm_compute in E. discriminate.
Qed.

Lemma generated_parse_invoice_only {parse_fn} (f : parse_fn) :
  parse_invoice_only (generated_module f).
Proof.
  intros name g Hl Hs. unfold generated_module in Hl.
  apply (elem_of_list_to_map_2 (M := gmap text)) in Hl.
  apply list_elem_of_In, in_map_iff in Hl. destruct Hl as (n & [= <- _] & Hn).
  unfold ParserWizard.generated_names, lits in Hn. cbn [List.map In] in Hn.
  repeat (destruct Hn as [<-|Hn]; [try reflexivity; vm_compute in Hs; discriminate|]).
  destruct Hn.
Qed.

End ManagerMissFacts.

(** X9. [get_vendor_parser] looks in the vendor's module for a function
    [parse_<vendor>_pdf].  The parser modules of the repository and the
    ones that the wizard generates define [parse_invoice] and no other
    name that starts with [parse_]; on such a module [get_vendor_parser]
    raises, whatever the vendor. *)
Theorem get_vendor_parser_misses_parse_invoice {parse_fn : Type}
    (mods : Dispatch.importable parse_fn) (vendor_name : text)
    (module : Dispatch.py_module parse_fn) :
  mods !! (Dispatch.VENDOR_PARSER_FOLDER ^^ "."
             ^^ Str.replace " " "_" (Str.lower vendor_name) ^^ "_parser")
  = Some module ->
  Notions.parse_invoice_only module ->
  Dispatch.get_vendor_parser mods vendor_name
  = Raise (RuntimeError
             (lit "Parser module '" ^^ Dispatch.VENDOR_PARSER_FOLDER ^^ "."
                ^^ Str.replace " " "_" (Str.lower vendor_name) ^^ "_parser"
                ^^ "' has no function '"
                ^^ lit "parse_" ^^ Str.replace " " "_" (Str.lower vendor_name)
                ^^ "_pdf" ^^ "'")).
Proof.
  intros Hmod Honly. unfold Dispatch.get_vendor_parser. rewrite Hmod.
  destruct (module !! _) as [f|] eqn:E.
  - exfalso. apply (ManagerMissFacts.function_name_differs
             (Str.replace " " "_" (Str.lower vendor_name))).
    apply (Honly _ f E). apply StrFacts.startswith_spec. eauto.
  - rewrite <- !app_assoc. reflexivity.
Qed.

Lemma get_vendor_parser_misses_parse_invoice_witness :
  let mods : Dispatch.importable unit :=
    <[ lit "vendor_parsers.farwest_parser" := Notions.generated_module tt ]> ∅ in
  exists msg, Dispatch.get_vendor_parser mods "Farwest" = Raise (RuntimeError msg).
Proof.
  intros mods. eexists.
  apply (get_vendor_parser_misses_parse_invoice mods "Farwest"
           (Notions.generated_module tt)).
  - exact (lookup_insert_eq (M := gmap text) _ _ _).
  - apply ManagerMissFacts.generated_parse_invoice_only.
Defined.

Module WizardFacts.

Import PyFacts StrFacts Notions ParserWizard.

Lemma safe_char c :
  stem_char (if Char.isalnum (Char.lower c) then Char.lower c else "_"%char) = true.
Proof. destruct c as [[] [] [] [] [] [] [] []]; vm_compute; reflexivity. Qed.

Lemma or_default_nonempty (v d : text) : d <> [] -> Str.or_default v d <> [].
Proof.
  unfold Str.or_default. destruct v; cbn [truthy]; [auto | discriminate].
Qed.

(** The test [if not safe_vendor] of [generate_parser_code] never
    holds. *)
Lemma safe_vendor_eq entry :
  safe_vendor entry
  = List.map (fun ch => if Char.isalnum ch then ch else "_"%char)
      (Str.lower (Str.or_default (Str.strip entry) "vendor")).
Proof.
  unfold safe_vendor. cbv zeta.
  pose proof (or_default_nonempty (Str.strip entry) "vendor") as H.
  destruct (Str.or_default (Str.strip entry) "vendor"); [|reflexivity].
  exfalso. apply H; [discriminate | reflexivity].
Qed.

Lemma safe_vendor_chars entry :
  safe_vendor entry <> []
  /\ Forall (fun c => stem_char c = true) (safe_vendor entry).
Proof.
  rewrite safe_vendor_eq.
  pose proof (or_default_nonempty (Str.strip entry) "vendor") as H.
  split.
  - destruct (Str.or_default (Str.strip entry) "vendor"); [|discriminate].
    exfalso. apply H; [discriminate | reflexivity].
  - unfold Str.lower. rewrite map_map. apply List.Forall_map.
    apply List.Forall_forall. intros c _. apply safe_char.
Qed.

End WizardFacts.

(** X10. Whatever is typed as the vendor name, the wizard saves its
    parser under [<stem>_parser.py] with a stem that is not empty and is
    made of lower-case letters, digits and underscores; the test that
    would replace an empty stem by [vendor] never holds. *)
Theorem wizard_file_name_shape (entry : text) :
  ParserWizard.parser_file_name entry
  = ParserWizard.safe_vendor entry ++ lit "_parser.py"
  /\ ParserWizard.safe_vendor entry
     = List.map (fun ch => if Char.isalnum ch then ch else "_"%char)
         (Str.lower (Str.or_default (Str.strip entry) "vendor"))
  /\ ParserWizard.safe_vendor entry <> []
  /\ Forall (fun c => Notions.stem_char c = true) (ParserWizard.safe_vendor entry).
Proof.
  split; [reflexivity|]. split; [apply WizardFacts.safe_vendor_eq|].
  apply WizardFacts.safe_vendor_chars.
Qed.

(** X11. A parser that the wizard generated and saved in the folder of the
    vendor parsers is offered by [discover_vendors], and
    [get_vendor_parser] cannot load it: the generated module has no
    function [parse_<stem>_pdf]. *)
Theorem wizard_parser_offered_not_loaded {parse_fn : Type}
    (entry : text) (filenames : list text)
    (mods : Dispatch.importable parse_fn) (f : parse_fn) :
  In (ParserWizard.parser_file_name entry) filenames ->
  mods !! (Dispatch.VENDOR_PARSER_FOLDER ^^ "."
             ^^ ParserWizard.safe_vendor entry ^^ "_parser")
  = Some (Notions.generated_module f) ->
  exists vendor_name,
    In vendor_name (VendorManager.discover_vendors (Some filenames))
    /\ Dispatch.get_vendor_parser mods vendor_name
       = Raise (RuntimeError
                  (lit "Parser module '" ^^ Dispatch.VENDOR_PARSER_FOLDER ^^ "."
                     ^^ ParserWizard.safe_vendor entry ^^ "_parser"
                     ^^ "' has no function '"
                     ^^ lit "parse_" ^^ ParserWizard.safe_vendor entry
                     ^^ "_pdf" ^^ "'")).
Proof.
  intros Hin Hmod.
  destruct (WizardFacts.safe_vendor_chars entry) as [_ Hstem].
  exists (Str.title (Str.replace "_" " " (ParserWizard.safe_vendor entry))). split.
  - unfold VendorManager.discover_vendors.
    rewrite VendorManagerFacts.discover_vendors_map. cbn [app].
    apply in_map_iff. exists (ParserWizard.parser_file_name entry). split.
    + unfold ParserWizard.parser_file_name.
      rewrite VendorManagerFacts.remove_suffix by exact Hstem. reflexivity.
    + apply filter_In. split; [exact Hin|].
      apply StrFacts.endswith_spec. unfold ParserWizard.parser_file_name. eauto.
  - unfold Dispatch.get_vendor_parser.
    rewrite VendorManagerFacts.vendor_raw_back by exact Hstem.
    rewrite Hmod.
    destruct (Notions.generated_module f !! _) as [g|] eqn:E.
    + exfalso.
      apply (ManagerMissFacts.function_name_differs (ParserWizard.safe_vendor entry)).
      apply (ManagerMissFacts.generated_parse_invoice_only f _ g E).
      apply StrFacts.startswith_spec. eauto.
    + rewrite <- !app_assoc. reflexivity.
Qed.

Lemma wizard_parser_offered_not_loaded_witness :
  let mods : Dispatch.importable unit :=
    <[ lit "vendor_parsers.a_b_supply_parser" := Notions.generated_module tt ]> ∅ in
  exists vendor_name,
    In vendor_name
      (VendorManager.discover_vendors (Some (lits ["a_b_supply_parser.py"])))
    /\ Dispatch.get_vendor_parser mods vendor_name
       = Raise (RuntimeError
                  (lit "Parser module 'vendor_parsers.a_b_supply_parser' has no function 'parse_a_b_supply_pdf'")).
Proof.
  intros mods.
  apply (wizard_parser_offered_not_loaded "A&B Supply"
           (lits ["a_b_supply_parser.py"]) mods tt).
  - left. reflexivity.
  - exact (lookup_insert_eq (M := gmap text) _ _ _).
Defined.

Module TokenFacts.

Import PyFacts StrFacts Notions WordsFacts CollapseFacts.

Lemma linebreak_space c : Char.is_linebreak c = true -> Char.isspace c = true.
Proof. destruct c as [[] [] [] [] [] [] [] []]; vm_compute; congruence. Qed.

Lemma ends_blank_snoc s d : Char.isspace d = true -> ends_blank (s ++ [d]).
Proof. intros H. unfold ends_blank. rewrite rev_app_distr. exact H. Qed.

Lemma ends_blank_app s p :
  ends_blank s -> Forall (fun c => Char.isspace c = true) p -> ends_blank (s ++ p).
Proof.
  intros Hs Hp. unfold ends_blank in *. rewrite rev_app_distr.
  apply List.Forall_rev in Hp.
  destruct (rev p) as [|d r]; [exact Hs|].
  inversion Hp; subst. assumption.
Qed.

Lemma starts_blank_app q s :
  Forall (fun c => Char.isspace c = true) q -> starts_blank s -> starts_blank (q ++ s).
Proof.
  intros Hq Hs. destruct q as [|d q]; [exact Hs|].
  inversion Hq; subst. assumption.
Qed.

(** A line of [splitlines] stands between line boundaries. *)
Lemma splitlines_stand s : forall cur after_cr before raw,
  (after_cr = true -> cur = []) ->
  ends_blank before ->
  In raw (Str.splitlines_from cur after_cr s) ->
  exists A B,
    before ++ rev cur ++ s = A ++ raw ++ B /\ ends_blank A /\ starts_blank B.
Proof.
  induction s as [|c s IH]; intros cur after_cr before raw Hcr Hb Hin.
  - cbn [Str.splitlines_from] in Hin.
    destruct cur as [|a cur]; [destruct Hin|].
    destruct Hin as [<-|[]]. exists before, []. split; [|split; [exact Hb | exact I]].
    rewrite !app_nil_r. reflexivity.
  - cbn [Str.splitlines_from] in Hin.
    destruct (after_cr && Char.same "010" c) eqn:E1.
    + apply andb_true_iff in E1. destruct E1 as [-> E1].
      apply same_eq in E1. subst c. rewrite (Hcr eq_refl) in *.
      destruct (IH [] false (before ++ ["010"%char]) raw) as (A & B & E & HA & HB);
        [discriminate | apply ends_blank_snoc; reflexivity | exact Hin|].
      exists A, B. split; [|split; assumption].
      rewrite <- E. cbn [rev app]. rewrite <- app_assoc. reflexivity.
    + destruct (Char.is_linebreak c) eqn:E2.
      * destruct Hin as [<-|Hin].
        -- exists before, (c :: s). split; [reflexivity|].
           split; [exact Hb | apply linebreak_space; exact E2].
        -- destruct (IH [] (Char.same "013" c) (before ++ rev cur ++ [c]) raw)
             as (A & B & E & HA & HB); [reflexivity | | exact Hin|].
           { rewrite app_assoc. apply ends_blank_snoc, linebreak_space. exact E2. }
           exists A, B. split; [|split; assumption].
           rewrite <- E. cbn [rev app]. rewrite <- !app_assoc. reflexivity.
      * destruct (IH (c :: cur) false before raw) as (A & B & E & HA & HB);
          [discriminate | exact Hb | exact Hin|].
        exists A, B. split; [|split; assumption].
        rewrite <- E. cbn [rev]. rewrite <- !app_assoc. reflexivity.
Qed.

(** A stripped line stands in the text between blanks. *)
Lemma stripped_line_stands txt line :
  In line (Str.stripped_lines txt) -> line <> [] /\ stands_in txt line.
Proof.
  unfold Str.stripped_lines. intros H.
  apply filter_In in H. destruct H as [H Ht].
  apply truthy_true in Ht. split; [exact Ht|].
  apply in_map_iff in H. destruct H as (raw & <- & Hraw).
  destruct (splitlines_stand txt [] false [] raw) as (A & B & E & HA & HB);
    [discriminate | exact I | exact Hraw|].
  cbn [rev app] in E.
  destruct (strip_split raw) as (p & q & Er & Hp & Hq).
  exists (A ++ p), (q ++ B). split; [|split].
  - rewrite E. rewrite Er at 1. rewrite <- !app_assoc. reflexivity.
  - apply ends_blank_app; assumption.
  - apply starts_blank_app; assumption.
Qed.

Lemma words_first sep s :
  match s with c :: _ => sep c = false | [] => False end ->
  exists w ws, words sep s = w :: ws.
Proof.
  destruct s as [|c s]; [contradiction|]. intros Hc.
  rewrite (words_run sep (c :: s)). cbn [run_of]. rewrite Hc.
  cbn [negb]. eauto.
Qed.

(** The words before a separator and the words after it. *)
Lemma words_sep_app sep d rest : sep d = true -> forall x,
  words sep (x ++ d :: rest) = words sep x ++ words sep rest.
Proof.
  intros Hd. induction x as [|c x IH].
  - cbn [app words]. rewrite Hd. reflexivity.
  - cbn [app words]. destruct (sep c) eqn:Ec; [exact IH|].
    destruct x as [|e x].
    + cbn [app words]. rewrite Hd. reflexivity.
    + cbn [app] in *. destruct (sep e) eqn:Ee.
      * rewrite IH. reflexivity.
      * rewrite IH.
        destruct (words_first sep (e :: x) Ee) as (w & ws & ->). reflexivity.
Qed.

Lemma run_of_solid_app w rest :
  Forall (fun c => Char.isspace c = false) w -> starts_blank rest ->
  run_of solid (w ++ rest) = w /\ after_run solid (w ++ rest) = rest.
Proof.
  intros Hw Hr. induction Hw as [|c w Hc _ [IH1 IH2]].
  - destruct rest as [|d rest]; [split; reflexivity|].
    cbn [app run_of after_run]. unfold starts_blank in Hr. rewrite Hr.
    split; reflexivity.
  - cbn [app run_of after_run]. rewrite Hc. cbn [negb].
    rewrite IH1, IH2. split; reflexivity.
Qed.

(** A text without blanks that stands between blanks is a word of
    [split()]. *)
Lemma standing_word s w :
  w <> [] -> Forall (fun c => Char.isspace c = false) w ->
  stands_in s w -> In w (Str.split_whitespace s).
Proof.
  intros Hne Hw (A & B & -> & HA & HB).
  rewrite split_whitespace_words.
  assert (Hwb : In w (words Char.isspace (w ++ B))).
  { rewrite (words_run Char.isspace (w ++ B)).
    destruct (run_of_solid_app w B Hw HB) as [-> ->].
    destruct w; [congruence | left; reflexivity]. }
  unfold ends_blank in HA.
  destruct (rev A) as [|d r] eqn:E.
  - apply (f_equal (@rev ascii)) in E. rewrite rev_involutive in E. subst A.
    exact Hwb.
  - apply (f_equal (@rev ascii)) in E. rewrite rev_involutive in E. subst A.
    cbn [rev]. rewrite <- app_assoc. cbn [app].
    rewrite (words_sep_app Char.isspace d _ HA).
    apply in_or_app. right. exact Hwb.
Qed.

End TokenFacts.

Module BatchFacts.

Import Regex RegexSem Lang PyFacts StrFacts Notions TokenFacts Spec KnifeRiver.

Lemma step_made_of lines st line :
  In line lines -> made_of lines st -> made_of lines (step st line).
Proof.
  destruct st as [blocks current]. intros Hl [Hb Hc]. cbn [fst snd] in Hb, Hc.
  assert (Hnew : Forall (fun l => In l lines) (current ++ [line])).
  { apply List.Forall_app. split; [exact Hc | repeat constructor; exact Hl]. }
  unfold step.
  case_if; [split; assumption|].
  case_if; [split; [assumption | repeat constructor; exact Hl]|].
  case_if; [|split; assumption].
  case_if; [|split; assumption].
  destruct (current ++ [line]) as [|ticket [|desc [|truck [|qty [|unit [|ext [|extra rest]]]]]]];
    try (split; [assumption | constructor]).
  case_if; (split; [|constructor]); cbn [fst]; [|assumption].
  apply List.Forall_app. split; [assumption | constructor; [exact Hnew | constructor]].
Qed.

Lemma fold_made_of lines : forall rest st,
  Forall (fun line => In line lines) rest ->
  made_of lines st -> made_of lines (fold_left step rest st).
Proof.
  induction rest as [|line rest IH]; intros st Hr H; cbn [fold_left]; [exact H|].
  inversion Hr; subst. apply IH; [assumption|].
  apply step_made_of; assumption.
Qed.

(** The lines of a block are stripped lines of the text. *)
Lemma block_lines txt :
  Forall (Forall (fun line => In line (Str.stripped_lines txt)))
    (extract_item_blocks txt).
Proof.
  unfold extract_item_blocks.
  apply (fold_made_of (Str.stripped_lines txt) _ ([], [])).
  - apply List.Forall_forall. auto.
  - split; constructor.
Qed.

Lemma truck_char c :
  Char.is_upper c || Char.is_digit c || false = true -> Char.isspace c = false.
Proof. destruct c as [[] [] [] [] [] [] [] []]; vm_compute; congruence. Qed.

(** A truck code holds no blank. *)
Lemma truck_solid line :
  is_truck_code line = true -> Forall (fun c => Char.isspace c = false) line.
Proof.
  unfold is_truck_code. intros H.
  apply RegexFacts.fullmatch_sound in H.
  apply matches_charset in H.
  eapply List.Forall_impl; [|exact H].
  intros c Hc. cbn in Hc. apply truck_char.
  rewrite !orb_false_r in *.
  destruct (Char.is_upper c), (Char.is_digit c); cbn in *; congruence.
Qed.

(** A text in which no word is a truck code has no item block. *)
Lemma no_truck_no_block txt :
  existsb is_truck_code (Str.split_whitespace txt) = false ->
  extract_item_blocks txt = [].
Proof.
  intros Hno.
  pose proof (KnifeRiverFacts.blocks_valid txt) as Hv.
  pose proof (block_lines txt) as Hl.
  destruct (extract_item_blocks txt) as [|block blocks]; [reflexivity|].
  exfalso.
  inversion Hv as [|? ? Hvalid _]; subst.
  inversion Hl as [|? ? Hlines _]; subst.
  destruct block as [|ticket [|desc [|truck [|qty [|unit [|ext [|extra rest]]]]]]];
    try discriminate Hvalid.
  cbn [knife_river_block_valid] in Hvalid.
  apply andb_true_iff in Hvalid. destruct Hvalid as [Hvalid _].
  apply andb_true_iff in Hvalid. destruct Hvalid as [Hvalid _].
  apply andb_true_iff in Hvalid. destruct Hvalid as [Hvalid _].
  apply andb_true_iff in Hvalid. destruct Hvalid as [_ Htruck].
  rewrite List.Forall_forall in Hlines.
  assert (Hin : In truck (Str.stripped_lines txt)).
  { apply Hlines. right. right. left. reflexivity. }
  apply TokenFacts.stripped_line_stands in Hin. destruct Hin as [Hne Hst].
  assert (Hw : In truck (Str.split_whitespace txt)).
  { apply TokenFacts.standing_word;
      [exact Hne | apply truck_solid; exact Htruck | exact Hst]. }
  assert (E : existsb is_truck_code (Str.split_whitespace txt) = true).
  { apply existsb_exists. exists truck. split; assumption. }
  congruence.
Qed.

End BatchFacts.

(** X12. The second filter of [batch_process_folder] in [Knife_River.py]
    drops no load: a text in which no word is a truck code has no item
    block. *)
Theorem truck_filter_drops_no_block (txt : text) :
  existsb KnifeRiver.is_truck_code (Str.split_whitespace txt) = false ->
  KnifeRiver.extract_item_blocks txt = [].
Proof. apply BatchFacts.no_truck_no_block. Qed.

Lemma truck_filter_drops_no_block_witness :
  KnifeRiver.extract_item_blocks "ORIGINAL 123456 AB1" = [].
Proof.
  apply (truck_filter_drops_no_block "ORIGINAL 123456 AB1").
  vm_compute. reflexivity.
Defined.

Module ParseBlockFacts.

Import Regex RegexSem Lang PyFacts StrFacts Notions Spec KnifeRiver CollapseFacts.

Lemma py_float_numeral t : numeral t -> exists v, Float.py_float t = Ok v.
Proof.
  intros [[Hne Hd]|H].
  - apply FarwestFacts.py_float_digits; assumption.
  - apply FloatFacts.py_float_plain. exact H.
Qed.

(** Digits, then maybe a point and digits: a numeral. *)
Lemma digits_opt_fraction lo hi prev1 w1 rest1 prev2 w2 rest2 :
  matches (Plus digit) prev1 w1 rest1 ->
  matches (Opt (Seq (chr ".") (Rep digit (S lo) hi))) prev2 w2 rest2 ->
  numeral (w1 ++ w2).
Proof.
  intros H1 H2. unfold Plus, digit in H1.
  apply rep_chr_inv in H1. destruct H1 as (D1 & L1 & _).
  assert (N1 : w1 <> []) by (destruct w1; [simpl in L1; lia | discriminate]).
  apply FarwestFacts.opt_inv in H2. destruct H2 as [->|H2].
  - rewrite app_nil_r. left. split; assumption.
  - apply seq_inv in H2. destruct H2 as (p & w3 & -> & Hp & H3).
    apply chr_inv in Hp. destruct Hp as (c & -> & Hc).
    apply same_eq in Hc. subst c.
    unfold digit in H3. apply rep_chr_inv in H3. destruct H3 as (D3 & L3 & _).
    right. exists w1, w3. repeat split; try assumption.
    destruct w3; [simpl in L3; lia | discriminate].
Qed.

Lemma unit_price_numeral line : is_unit_price line = true -> numeral line.
Proof.
  unfold is_unit_price. intros H. apply RegexFacts.fullmatch_sound in H.
  cbn [Seqs] in H. apply seq_inv in H. destruct H as (w1 & w2 & -> & H1 & H2).
  eapply digits_opt_fraction; eassumption.
Qed.

Lemma extended_price_numeral line : is_extended_price line = true -> numeral line.
Proof.
  unfold is_extended_price. intros H. apply RegexFacts.fullmatch_sound in H.
  cbn [Seqs] in H. apply seq_inv in H. destruct H as (w1 & w2 & -> & H1 & H2).
  unfold Plus, digit in H1. apply rep_chr_inv in H1. destruct H1 as (D1 & L1 & _).
  apply seq_inv in H2. destruct H2 as (p & w3 & -> & Hp & H3).
  apply chr_inv in Hp. destruct Hp as (c & -> & Hc). apply same_eq in Hc. subst c.
  unfold Times, digit in H3. apply rep_chr_inv in H3. destruct H3 as (D3 & L3 & _).
  right. exists w1, w3. repeat split; try assumption.
  - destruct w1; [simpl in L1; lia | discriminate].
  - destruct w3; [simpl in L3; lia | discriminate].
Qed.

(** The characters of a numeral and the blanks are not changed by
    [upper], and only they are mapped to themselves. *)
Lemma upper_back c :
  Char.is_digit (Char.upper c) || Char.same "." (Char.upper c)
  || Char.isspace (Char.upper c) = true ->
  Char.upper c = c.
Proof. destruct c as [[] [] [] [] [] [] [] []]; vm_compute; congruence. Qed.

Lemma upper_back_all s t :
  Str.upper s = t ->
  Forall (fun c => Char.is_digit c || Char.same "." c || Char.isspace c = true) t ->
  s = t.
Proof.
  intros <- H. unfold Str.upper in *. symmetry. apply WordsFacts.map_id_on.
  apply List.Forall_map in H. eapply List.Forall_impl; [|exact H].
  intros c. apply upper_back.
Qed.

Lemma numeral_chars t :
  numeral t ->
  Forall (fun c => Char.is_digit c || Char.same "." c || Char.isspace c = true) t.
Proof.
  intros [[_ H]|(x & y & -> & _ & Hx & _ & Hy)].
  - eapply List.Forall_impl; [|exact H]. intros c ->. reflexivity.
  - apply List.Forall_app. split; [|constructor; [reflexivity|]].
    + eapply List.Forall_impl; [|exact Hx]. intros c ->. reflexivity.
    + eapply List.Forall_impl; [|exact Hy]. intros c ->. reflexivity.
Qed.

Lemma blank_chars t :
  every Char.isspace t ->
  Forall (fun c => Char.is_digit c || Char.same "." c || Char.isspace c = true) t.
Proof.
  intros H. eapply List.Forall_impl; [|exact H].
  intros c ->. rewrite orb_true_r. reflexivity.
Qed.

(** A quantity line: a numeral, blanks, and the two letters of the
    unit. *)
Lemma quantity_parts qty :
  is_quantity_line qty = true ->
  exists n w u,
    qty = n ++ w ++ u /\ numeral n /\ every Char.isspace w /\ unit_letters u.
Proof.
  unfold is_quantity_line. intros H. apply RegexFacts.fullmatch_sound in H.
  cbn [Seqs] in H.
  apply seq_inv in H. destruct H as (w1 & t1 & E1 & H1 & H).
  apply seq_inv in H. destruct H as (w2 & t2 & -> & H2 & H).
  apply seq_inv in H. destruct H as (w3 & w4 & -> & H3 & H4).
  pose proof (digits_opt_fraction _ _ _ _ _ _ _ _ H1 H2) as Hn.
  unfold Star, space in H3. apply rep_chr_inv in H3. destruct H3 as (H3 & _).
  cbn [Lit] in H4.
  apply seq_inv in H4. destruct H4 as (a & t4 & -> & Ha & H4).
  apply chr_inv in Ha. destruct Ha as (ca & -> & Hca). apply same_eq in Hca. subst ca.
  apply seq_inv in H4. destruct H4 as (b & t5 & -> & Hb & H5).
  apply chr_inv in Hb. destruct Hb as (cb & -> & Hcb). apply same_eq in Hcb. subst cb.
  apply eps_inv in H5. subst t5.
  rewrite app_assoc in E1. unfold Str.upper in E1.
  apply map_eq_app in E1. destruct E1 as (n & r1 & -> & En & E1).
  apply map_eq_app in E1. destruct E1 as (w & u & -> & Ew & Eu).
  exists n, w, u.
  apply (upper_back_all n) in En; [|apply numeral_chars; exact Hn].
  apply (upper_back_all w) in Ew; [|apply blank_chars; exact H3].
  subst. split; [reflexivity|]. split; [exact Hn|]. split; [exact H3|].
  destruct u as [|c1 [|c2 [|c3 u]]]; try discriminate Eu.
  cbn in Eu. injection Eu as E1 E2. exists c1, c2. auto.
Qed.

Lemma not_T c :
  Char.is_digit c || Char.same "." c || Char.isspace c = true ->
  Char.eqb "T" c = false.
Proof. destruct c as [[] [] [] [] [] [] [] []]; vm_compute; congruence. Qed.

(** [replace("TN", "")] passes over a start without a T. *)
Lemma replace_passes x rest :
  Forall (fun c => Char.eqb "T" c = false) x ->
  Str.replace "TN" [] (x ++ rest) = x ++ Str.replace "TN" [] rest.
Proof.
  unfold Str.replace. induction 1 as [|c x Hc _ IH]; [reflexivity|].
  cbn [app Str.replace_from].
  change (Str.startswith (c :: x ++ rest) "TN")
    with (Char.eqb "T" c && Str.startswith (x ++ rest) "N").
  rewrite Hc. cbn [andb]. rewrite IH. reflexivity.
Qed.

Lemma upper_T c : Char.upper c = "T"%char -> c = "T"%char \/ c = "t"%char.
Proof. destruct c as [[] [] [] [] [] [] [] []]; vm_compute; intros H; try discriminate H; auto. Qed.

Lemma upper_N c : Char.upper c = "N"%char -> c = "N"%char \/ c = "n"%char.
Proof. destruct c as [[] [] [] [] [] [] [] []]; vm_compute; intros H; try discriminate H; auto. Qed.

(** The unit is [TN] in capitals, or [replace] leaves it. *)
Lemma unit_cases u :
  unit_letters u ->
  u = lit "TN"
  \/ (u <> lit "TN" /\ Str.replace "TN" [] u = u
      /\ exists c1 c2, u = [c1; c2] /\ Char.is_digit c1 = false
                       /\ Char.same "." c1 = false /\ Char.isspace c2 = false).
Proof.
  intros (c1 & c2 & -> & H1 & H2).
  apply upper_T in H1. apply upper_N in H2.
  destruct H1 as [->| ->], H2 as [->| ->]; [left; reflexivity | right ..];
    (split; [discriminate|]; split; [reflexivity|]);
    eexists _, _; repeat split; reflexivity.
Qed.

Lemma lstrip_blanks w y :
  every Char.isspace w -> Str.lstrip (w ++ y) = Str.lstrip y.
Proof.
  induction 1 as [|c w Hc _ IH]; [reflexivity|].
  cbn [app Str.lstrip]. rewrite Hc. exact IH.
Qed.

Lemma rstrip_blanks x w :
  every Char.isspace w -> Str.rstrip (x ++ w) = Str.rstrip x.
Proof.
  intros H. unfold Str.rstrip. rewrite rev_app_distr, lstrip_blanks; [reflexivity|].
  apply List.Forall_rev. exact H.
Qed.

Lemma numeral_ends n :
  numeral n ->
  (exists c r, n = c :: r /\ Char.is_digit c = true)
  /\ (exists r d, n = r ++ [d] /\ Char.is_digit d = true).
Proof.
  intros [[Hne Hd]|(x & y & -> & Nx & Hx & Ny & Hy)].
  - split.
    + destruct n as [|c r]; [congruence|]. inversion Hd; subst. eauto.
    + destruct (FloatFacts.nonempty_last n Hne) as (r & d & ->).
      apply every_app in Hd. destruct Hd as [_ Hd]. inversion Hd; subst. eauto.
  - split.
    + destruct x as [|c r]; [congruence|]. inversion Hx; subst.
      eexists _, _. split; [reflexivity | assumption].
    + destruct (FloatFacts.nonempty_last y Ny) as (r & d & ->).
      apply every_app in Hy. destruct Hy as [_ Hd]. inversion Hd; subst.
      exists (x ++ "."%char :: r), d. split; [|assumption].
      rewrite <- app_assoc. reflexivity.
Qed.

Lemma strip_numeral n : numeral n -> Str.strip n = n.
Proof.
  intros H. destruct (numeral_ends n H) as [(c & r & -> & Hc) (r' & d & E & Hd)].
  apply FarwestFacts.strip_id.
  - apply digit_not_space. exact Hc.
  - rewrite E, rev_app_distr. apply digit_not_space. exact Hd.
Qed.

(** The quantity with its unit in capitals: [float] reads the numeral. *)
Lemma quantity_capital n w :
  numeral n -> every Char.isspace w ->
  exists v,
    Float.py_float (Str.strip (Str.replace "TN" [] (n ++ w ++ lit "TN"))) = Ok v.
Proof.
  intros Hn Hw.
  rewrite app_assoc, replace_passes.
  2:{ apply List.Forall_app. split.
      - eapply List.Forall_impl; [|apply numeral_chars; exact Hn]. apply not_T.
      - eapply List.Forall_impl; [|apply blank_chars; exact Hw]. apply not_T. }
  change (Str.replace "TN" [] (lit "TN")) with (@nil ascii).
  rewrite app_nil_r.
  assert (E : Str.strip (n ++ w) = n).
  { unfold Str.strip.
    destruct (numeral_ends n Hn) as [(c & r & -> & Hc) _].
    cbn [app]. rewrite lstrip_keep by (apply digit_not_space; exact Hc).
    change (c :: r ++ w) with ((c :: r) ++ w).
    rewrite rstrip_blanks by exact Hw.
    pose proof (strip_numeral _ Hn) as Hs. unfold Str.strip in Hs.
    rewrite lstrip_keep in Hs by (apply digit_not_space; exact Hc). exact Hs. }
  rewrite E. apply py_float_numeral. exact Hn.
Qed.

Lemma blank_not_digit c : Char.isspace c = true -> Char.is_digit c = false.
Proof. destruct c as [[] [] [] [] [] [] [] []]; vm_compute; congruence. Qed.

Lemma blank_not_point c : Char.isspace c = true -> Char.same "." c = false.
Proof. destruct c as [[] [] [] [] [] [] [] []]; vm_compute; congruence. Qed.

(** The quantity with another unit: [float] raises. *)
Lemma quantity_other n w u :
  numeral n -> every Char.isspace w -> unit_letters u -> u <> lit "TN" ->
  exists msg,
    Float.py_float (Str.strip (Str.replace "TN" [] (n ++ w ++ u)))
    = Raise (ValueError msg).
Proof.
  intros Hn Hw Hu Hne.
  destruct (unit_cases u Hu) as [->|(_ & Er & c1 & c2 & -> & D1 & P1 & S2)];
    [congruence|].
  rewrite app_assoc, replace_passes.
  2:{ apply List.Forall_app. split.
      - eapply List.Forall_impl; [|apply numeral_chars; exact Hn]. apply not_T.
      - eapply List.Forall_impl; [|apply blank_chars; exact Hw]. apply not_T. }
  rewrite Er, <- app_assoc.
  set (qty := n ++ w ++ [c1; c2]).
  assert (Es : Str.strip qty = qty).
  { destruct (numeral_ends n Hn) as [(c & r & En & Hc) _].
    apply FarwestFacts.strip_id.
    - subst qty. rewrite En. cbn [app]. apply digit_not_space. exact Hc.
    - subst qty. rewrite !rev_app_distr. cbn [rev app]. exact S2. }
  rewrite Es. unfold Float.py_float. rewrite Es.
  assert (Hhead : match w ++ [c1; c2] with
                  | c :: _ => Char.is_digit c = false /\ Char.same "." c = false
                  | [] => False
                  end).
  { destruct w as [|b w]; cbn [app]; [auto|].
    inversion Hw; subst. split; [apply blank_not_digit | apply blank_not_point];
      assumption. }
  destruct Hn as [[Hnn Hd]|(x & y & -> & Nx & Hx & Ny & Hy)].
  - subst qty. rewrite FloatFacts.span_digits_app; [|exact Hd|].
    + destruct (w ++ [c1; c2]) as [|c fp]; [contradiction|].
      destruct Hhead as [_ ->]. cbn [andb]. eauto.
    + destruct (w ++ [c1; c2]) as [|c fp]; [exact I | apply Hhead].
  - subst qty. rewrite <- app_assoc. cbn [app].
    rewrite FloatFacts.span_digits_app; [|exact Hx | reflexivity].
    change (Char.same "." ".") with true. cbn [andb].
    assert (Ef : forallb Char.is_digit (y ++ w ++ [c1; c2]) = false).
    { rewrite !forallb_app. cbn [forallb]. rewrite D1. cbn [andb].
      rewrite !andb_false_r. reflexivity. }
    rewrite Ef. cbn [andb]. eauto.
Qed.

(** What [parse_block] does with a block that was found. *)
Lemma parse_block_cases (txt : text) (jobname : option text)
    (block : list text) :
  In block (KnifeRiver.extract_item_blocks txt) ->
  exists ticket desc truck qty unit ext,
    block = [ticket; desc; truck; qty; unit; ext]
    /\ if Str.endswith qty "TN"
       then exists quantity unit_price extended,
           KnifeRiver.parse_block block jobname
           = Ok (KnifeRiver.Load jobname ticket desc truck
                   quantity unit_price extended)
       else exists msg,
           KnifeRiver.parse_block block jobname = Raise (ValueError msg).
Proof.
  intros Hin.
  pose proof (KnifeRiverFacts.blocks_valid txt) as Hv.
  rewrite List.Forall_forall in Hv. specialize (Hv _ Hin).
  destruct block as [|ticket [|desc [|truck [|qty [|unit [|ext [|extra rest]]]]]]];
    try discriminate Hv.
  cbn [Spec.knife_river_block_valid] in Hv.
  apply andb_true_iff in Hv. destruct Hv as [Hv Hext].
  apply andb_true_iff in Hv. destruct Hv as [Hv Hunit].
  apply andb_true_iff in Hv. destruct Hv as [_ Hqty].
  exists ticket, desc, truck, qty, unit, ext. split; [reflexivity|].
  destruct (quantity_parts qty Hqty) as (n & w & u & -> & Hn & Hw & Hu).
  destruct (py_float_numeral unit
              (unit_price_numeral unit Hunit)) as (vu & Eu).
  destruct (py_float_numeral ext
              (extended_price_numeral ext Hext)) as (ve & Ee).
  destruct (Str.endswith (n ++ w ++ u) "TN") eqn:E.
  - apply StrFacts.endswith_spec in E. destruct E as (pre & E).
    assert (Eu' : u = lit "TN").
    { destruct Hu as (c1 & c2 & -> & _).
      rewrite app_assoc in E.
      change (lit "TN") with ["T"%char; "N"%char] in *.
      apply (f_equal (@rev ascii)) in E. rewrite !rev_app_distr in E.
      cbn [rev app] in E. injection E as -> ->. reflexivity. }
    subst u.
    destruct (quantity_capital n w Hn Hw) as (vq & Eq).
    exists vq, vu, ve. cbn [KnifeRiver.parse_block].
    rewrite Eq, Eu, Ee. reflexivity.
  - assert (Hne : u <> lit "TN").
    { intros ->. rewrite app_assoc in E.
      assert (E' : Str.endswith ((n ++ w) ++ lit "TN") "TN" = true)
        by (apply StrFacts.endswith_spec; eauto).
      congruence. }
    destruct (quantity_other n w u Hn Hw Hu Hne) as (msg & Eq).
    exists msg. cbn [KnifeRiver.parse_block]. rewrite Eq. reflexivity.
Qed.

End ParseBlockFacts.

(** X13. [parse_block] on a block that [extract_item_blocks] found: the
    block has six lines, and [parse_block] gives a load when the quantity
    line ends with the unit TN in capitals, and raises ValueError when
    the unit is written otherwise, which [extract_item_blocks] lets
    through. *)
Theorem parse_block_needs_capital_unit (txt : text) (jobname : option text)
    (block : list text) :
  In block (KnifeRiver.extract_item_blocks txt) ->
  exists ticket desc truck qty unit ext,
    block = [ticket; desc; truck; qty; unit; ext]
    /\ if Str.endswith qty "TN"
       then exists quantity unit_price extended,
           KnifeRiver.parse_block block jobname
           = Ok (KnifeRiver.Load jobname ticket desc truck
                   quantity unit_price extended)
       else exists msg,
           KnifeRiver.parse_block block jobname = Raise (ValueError msg).
Proof. apply ParseBlockFacts.parse_block_cases. Qed.

Lemma parse_block_needs_capital_unit_witness :
  exists msg,
    KnifeRiver.parse_block
      (lits ["123456"; "Base Rock"; "ABC1"; "12.50 tn"; "9.82"; "122.75"]) None
    = Raise (ValueError msg).
Proof.
  destruct (parse_block_needs_capital_unit
              (Str.join [LF]
                 (lits ["123456"; "Base Rock"; "ABC1"; "12.50 tn"; "9.82"; "122.75"]))
              None
              (lits ["123456"; "Base Rock"; "ABC1"; "12.50 tn"; "9.82"; "122.75"]))
    as (ticket & desc & truck & qty & unit & ext & E & H).
  - vm_compute. left. reflexivity.
  - injection E as <- <- <- <- <- <-. exact H.
Defined.

Module ProcessTextFacts.

Import PyFacts StrFacts Notions KnifeRiver BatchFacts ParseBlockFacts.

Lemma mapM_all {A B} (f : A -> result B) l :
  Forall (fun a => exists b, f a = Ok b) l ->
  exists bs, mapM f l = Ok bs /\ length bs = length l.
Proof.
  induction 1 as [|a l (b & Hb) _ (bs & IH & Hl)]; cbn [mapM].
  - exists []. split; reflexivity.
  - rewrite Hb. cbn [bind]. rewrite IH. cbn [bind].
    exists (b :: bs). split; [reflexivity | cbn [length]; congruence].
Qed.

Lemma mapM_raises {A B} (f : A -> result B) l a e :
  In a l -> f a = Raise e -> exists e', mapM f l = Raise e'.
Proof.
  induction l as [|x l IH]; intros Hin Ha; [destruct Hin|].
  cbn [mapM]. destruct Hin as [->|Hin].
  - rewrite Ha. cbn [bind]. eauto.
  - destruct (f x) as [b|ex]; cbn [bind]; [|eauto].
    destruct (IH Hin Ha) as (e' & ->). cbn [bind]. eauto.
Qed.

Lemma job_name_ok txt : exists j, extract_job_name_from_text txt = Ok j.
Proof. apply (LabelFacts.knife_river_job_name_loop_ok _ _ [] eq_refl). Qed.

(** One load for each block, when every unit is in capitals. *)
Lemma process_text_ok txt :
  forallb capital_unit (extract_item_blocks txt) = true ->
  exists loads,
    process_text txt = Ok loads
    /\ length loads
       = if Str.contains (Str.upper txt) "ORIGINAL"
         then length (extract_item_blocks txt) else 0%nat.
Proof.
  intros Hcap. unfold process_text.
  destruct (Str.contains (Str.upper txt) "ORIGINAL"); cbn [negb]; [|eauto].
  destruct (existsb is_truck_code (Str.split_whitespace txt)) eqn:Et; cbn [negb].
  2:{ rewrite (no_truck_no_block txt Et). eauto. }
  destruct (job_name_ok txt) as (j & ->). cbn [bind].
  destruct (extract_item_blocks txt) as [|b0 bs] eqn:Eb; cbn [truthy negb]; [eauto|].
  apply mapM_all. apply List.Forall_forall. intros block Hin.
  rewrite <- Eb in Hin.
  destruct (parse_block_cases txt j block Hin)
    as (ticket & desc & truck & qty & unit & ext & -> & H).
  rewrite forallb_forall in Hcap. rewrite <- Eb in Hcap.
  specialize (Hcap _ Hin). cbn [capital_unit] in Hcap. rewrite Hcap in H.
  destruct H as (q & u & e & ->). eauto.
Qed.

(** A block with another unit makes the text raise. *)
Lemma process_text_raises txt block :
  Str.contains (Str.upper txt) "ORIGINAL" = true ->
  In block (extract_item_blocks txt) -> capital_unit block = false ->
  exists e, process_text txt = Raise e.
Proof.
  intros Ho Hin Hcap. unfold process_text. rewrite Ho. cbn [negb].
  destruct (existsb is_truck_code (Str.split_whitespace txt)) eqn:Et; cbn [negb].
  2:{ rewrite (no_truck_no_block txt Et) in Hin. destruct Hin. }
  destruct (job_name_ok txt) as (j & ->). cbn [bind].
  destruct (extract_item_blocks txt) as [|b0 bs] eqn:Eb; [destruct Hin|].
  cbn [truthy negb]. rewrite <- Eb in Hin.
  destruct (parse_block_cases txt j block Hin)
    as (ticket & desc & truck & qty & unit & ext & -> & H).
  cbn [capital_unit] in Hcap. rewrite Hcap in H. destruct H as (msg & H).
  rewrite Eb in Hin. eapply mapM_raises; eassumption.
Qed.

Lemma files_loop_raises texts txt e :
  In (Ok txt) texts -> process_text txt = Raise e ->
  forall all_items, exists e', files_loop texts all_items = Raise e'.
Proof.
  intros Hin Hr. induction texts as [|x texts IH]; intros all_items; [destruct Hin|].
  cbn [files_loop]. destruct x as [t|ex].
  - destruct Hin as [[= ->]|Hin].
    + rewrite Hr. cbn [bind]. eauto.
    + destruct (process_text t) as [items|e0]; cbn [bind]; [|eauto].
      apply IH. exact Hin.
  - destruct Hin as [Hin|Hin]; [discriminate|]. apply IH. exact Hin.
Qed.

End ProcessTextFacts.

(** X14. What a text adds to the batch of [Knife_River.py]: when the unit
    of every block is in capitals, the text gives one load for each of
    its blocks if it holds the word ORIGINAL, in any case, and nothing
    otherwise; neither filter nor [parse_block] raises. *)
Theorem process_text_one_load_per_block (txt : text) :
  forallb Notions.capital_unit (KnifeRiver.extract_item_blocks txt) = true ->
  exists loads,
    KnifeRiver.process_text txt = Ok loads
    /\ length loads
       = if Str.contains (Str.upper txt) "ORIGINAL"
         then length (KnifeRiver.extract_item_blocks txt) else 0%nat.
Proof. apply ProcessTextFacts.process_text_ok. Qed.

Lemma process_text_one_load_per_block_witness :
  exists loads,
    KnifeRiver.process_text (lit "ORIGINAL" ++ LF :: Aux.scenario_b) = Ok loads
    /\ length loads = 1%nat.
Proof.
  apply (process_text_one_load_per_block (lit "ORIGINAL" ++ LF :: Aux.scenario_b)).
  vm_compute. reflexivity.
Defined.

(** X15. Nothing in [batch_process_folder] catches what [parse_block]
    raises: one block whose unit is not in capitals, in one file that
    holds the word ORIGINAL, makes the whole batch raise, and the loads
    of the other files are lost with it. *)
Theorem batch_raises_on_lower_case_unit (texts : list (result text))
    (txt : text) (block : list text) :
  In (Ok txt) texts ->
  Str.contains (Str.upper txt) "ORIGINAL" = true ->
  In block (KnifeRiver.extract_item_blocks txt) ->
  Notions.capital_unit block = false ->
  exists e, KnifeRiver.batch_process_folder texts = Raise e.
Proof.
  intros Hin Ho Hb Hcap.
  destruct (ProcessTextFacts.process_text_raises txt block Ho Hb Hcap) as (e & He).
  destruct (ProcessTextFacts.files_loop_raises texts txt e Hin He []) as (e' & E).
  exists e'. unfold KnifeRiver.batch_process_folder.
  destruct texts; [destruct Hin|]. cbn [truthy negb]. rewrite E. reflexivity.
Qed.

Lemma batch_raises_on_lower_case_unit_witness :
  exists e,
    KnifeRiver.batch_process_folder
      [Ok (lit "ORIGINAL" ++ LF :: Aux.scenario_b);
       Ok (lit "original" ++ LF
             :: Str.join [LF]
                  (lits ["123456"; "Base Rock"; "ABC1"; "12.50 tn"; "9.82"; "122.75"]))]
    = Raise e.
Proof.
  apply (batch_raises_on_lower_case_unit _
           (lit "original" ++ LF
              :: Str.join [LF]
                   (lits ["123456"; "Base Rock"; "ABC1"; "12.50 tn"; "9.82"; "122.75"]))
           (lits ["123456"; "Base Rock"; "ABC1"; "12.50 tn"; "9.82"; "122.75"])).
  - right. left. reflexivity.
  - vm_compute. reflexivity.
  - vm_compute. left. reflexivity.
  - vm_compute. reflexivity.
Defined.

Module FarwestCountFacts.

Import PyFacts Farwest FarwestFacts KnifeRiverParserFacts.

(** Every item takes five lines of its own, the last one maybe three. *)
Lemma items_loop_count lines job_name invoice_number : forall fuel i items,
  (0 <= i)%Z -> (len lines - i <= Z.of_nat fuel)%Z ->
  exists items',
    items_loop fuel lines job_name invoice_number i items = Ok items'
    /\ (5 * len items' <= 5 * len items + Z.max 0 (len lines - i + 2))%Z.
Proof.
  induction fuel as [|fuel IH]; intros i items Hi Hf.
  - cbn [items_loop]. destruct (Z.ltb_spec i (len lines)); [lia|].
    cbn [negb]. eexists. split; [reflexivity | lia].
  - destruct (Z.ltb_spec i (len lines)) as [Hlt|Hge].
    2:{ cbn [items_loop]. destruct (Z.ltb_spec i (len lines)); [lia|].
        cbn [negb]. eexists. split; [reflexivity | lia]. }
    assert (Hskip : exists items',
      items_loop fuel lines job_name invoice_number (i + 1) items = Ok items'
      /\ (5 * len items' <= 5 * len items + Z.max 0 (len lines - i + 2))%Z).
    { destruct (IH (i + 1)%Z items) as (items' & E & Hc); [lia | lia|].
      exists items'. split; [exact E | lia]. }
    destruct (slot_matches_cases lines i decimal_re Hi) as [(S0 & _)|(S0 & _)].
    2:{ rewrite window_skipped by (auto; lia). exact Hskip. }
    destruct (slot_matches_cases lines (i + 1) decimal_re) as [(S1 & _)|(S1 & _)];
      [lia| |].
    2:{ rewrite window_skipped by (auto; lia). exact Hskip. }
    destruct (slot_matches_cases lines (i + 2) date_re) as [(S2 & L2 & _)|(S2 & _)];
      [lia| |].
    2:{ rewrite window_skipped by (auto; lia). exact Hskip. }
    destruct (window_emitted lines job_name invoice_number fuel i items Hi S0 S1 S2)
      as (it & _ & ->).
    destruct (IH (i + 5)%Z (items ++ [it])) as (items' & E & Hc); [lia | lia|].
    exists items'. split; [exact E|].
    rewrite len_app in Hc. change (len [it]) with 1%Z in Hc. lia.
Qed.

End FarwestCountFacts.

(** X16. The items that [extract_line_items] of [Farwest.py] reads never
    share a line: each takes five lines of the text, except that the
    last one may take only its first three. *)
Theorem farwest_items_do_not_overlap (txt : text)
    (job_name invoice_number : option text) :
  exists items,
    Farwest.extract_line_items txt job_name invoice_number = Ok items
    /\ (5 * length items <= length (Str.stripped_lines txt) + 2)%nat.
Proof.
  unfold Farwest.extract_line_items.
  destruct (FarwestCountFacts.items_loop_count (Str.stripped_lines txt)
              job_name invoice_number (length (Str.stripped_lines txt)) 0 [])
    as (items & E & Hc); [lia | unfold len; lia|].
  exists items. split; [exact E|]. unfold len in Hc. cbn [length] in Hc. lia.
Qed.

Module DateFacts.

Import Regex RegexSem Lang PyFacts StrFacts Notions Spec.

(** The words of [\d{lo,hi}/\d{lo,hi}/\d{year}]. *)
Lemma date_words lo hi year g :
  in_language
    (Seqs [Rep digit lo (Some hi); chr "/"; Rep digit lo (Some hi); chr "/";
           Times digit year]) g ->
  slash_date lo hi year g.
Proof.
  intros (prev & rest & H). cbn [Seqs] in H.
  apply seq_inv in H. destruct H as (m & t1 & -> & Hm & H).
  apply seq_inv in H. destruct H as (s1 & t2 & -> & Hs1 & H).
  apply seq_inv in H. destruct H as (d & t3 & -> & Hd & H).
  apply seq_inv in H. destruct H as (s2 & y & -> & Hs2 & Hy).
  apply chr_inv in Hs1. destruct Hs1 as (c1 & -> & Hc1). apply same_eq in Hc1. subst c1.
  apply chr_inv in Hs2. destruct Hs2 as (c2 & -> & Hc2). apply same_eq in Hc2. subst c2.
  unfold digit in Hm, Hd. unfold Times, digit in Hy.
  apply rep_chr_inv in Hm. apply rep_chr_inv in Hd. apply rep_chr_inv in Hy.
  exists m, d, y. split; [reflexivity|]. split; [exact Hm|]. split; [exact Hd | exact Hy].
Qed.

Lemma first_date p lines d :
  first_some (search p) lines = Some d -> in_language (grp p) d.
Proof.
  intros H. apply first_some_In in H. destruct H as (line & _ & H).
  apply (RegexFacts.search_sound p line d H).
Qed.

Lemma knife_river_date raw_text :
  Aux.page_date raw_text = [] \/ slash_date 2 2 2 (Aux.page_date raw_text).
Proof.
  unfold Aux.page_date.
  destruct (first_some _ _) as [d|] eqn:E; [right | left; reflexivity].
  apply first_date in E. apply date_words.
  unfold KnifeRiverParser.date_re in E. cbn [grp] in E. exact E.
Qed.

Lemma missoula_date lines :
  MissoulaLandfillParser._extract_missoula_date lines = []
  \/ slash_date 1 2 2 (MissoulaLandfillParser._extract_missoula_date lines).
Proof.
  unfold MissoulaLandfillParser._extract_missoula_date.
  destruct (first_some _ _) as [d|] eqn:E; [right | left; reflexivity].
  apply first_date in E. apply date_words. exact E.
Qed.

Lemma core_main_date txt page_index :
  Forall (fun c => Char.is_digit c || Char.same "/" c = true)
    (date (CoreMainParser.parse_page txt page_index)).
Proof.
  unfold CoreMainParser.parse_page. cbn [date].
  destruct (search CoreMainParser.date_re txt) as [g|] eqn:E; [|constructor].
  apply RegexFacts.search_sound in E. destruct E as (prev & rest & H).
  cbn [grp CoreMainParser.date_re] in H. unfold Plus in H.
  apply rep_chr_inv in H. destruct H as (H & _).
  apply Forall_strip. exact H.
Qed.

End DateFacts.

(** X17. The date of a page record: the Knife River parser gives nothing
    or two digits, a slash, two digits, a slash and two digits; the
    Missoula Landfill parser gives nothing or one or two digits for the
    month and for the day and two for the year; the Core & Main parser
    gives digits and slashes, in any number and order. *)
Theorem page_record_dates (raw_text : text) (page_number : Z) :
  (exists inv,
      KnifeRiverParser._parse_knife_river_page raw_text page_number = Ok inv
      /\ (date inv = [] \/ Notions.slash_date 2 2 2 (date inv)))
  /\ (exists inv,
      MissoulaLandfillParser._parse_missoula_landfill_page raw_text page_number
      = Ok inv
      /\ (date inv = [] \/ Notions.slash_date 1 2 2 (date inv)))
  /\ Forall (fun c => Char.is_digit c || Char.same "/" c = true)
       (date (CoreMainParser.parse_page raw_text page_number)).
Proof.
  split; [|split].
  - destruct (KnifeRiverParserFacts.knife_river_page_ok raw_text page_number)
      as (t & j & E & _).
    eexists. split; [exact E|]. cbn [date]. apply DateFacts.knife_river_date.
  - destruct (MissoulaFacts.missoula_page_ok raw_text page_number)
      as (n & t & j & E & _).
    eexists. split; [exact E|]. cbn [date]. apply DateFacts.missoula_date.
  - apply DateFacts.core_main_date.
Qed.

Module JobListFacts.

Import PyFacts StrFacts Notions InvoiceSorterUI.

Lemma load_jobnames_filter lines : forall jobnames,
  fold_left
    (fun jobnames line =>
       let name := Str.strip line in
       if truthy name then jobnames ++ [name] else jobnames)
    lines jobnames
  = jobnames ++ List.filter truthy (List.map Str.strip lines).
Proof.
  induction lines as [|line lines IH]; intros jobnames;
    cbn [fold_left List.map List.filter].
  - rewrite app_nil_r. reflexivity.
  - rewrite IH. destruct (truthy (Str.strip line)); [|reflexivity].
    rewrite <- app_assoc. reflexivity.
Qed.

Lemma lower_solid c : Char.isspace c = false -> Char.eqb " " (Char.lower c) = false.
Proof. destruct c as [[] [] [] [] [] [] [] []]; vm_compute; congruence. Qed.

(** A name of the job list is not empty, and neither is its key. *)
Lemma loaded_name file_lines name :
  In name (load_jobnames file_lines) ->
  name <> [] /\ Str.strip name = name /\ job_key name <> [].
Proof.
  unfold load_jobnames. destruct file_lines as [lines|]; [|intros []].
  rewrite load_jobnames_filter. cbn [app]. intros H.
  apply filter_In in H. destruct H as [H Ht].
  apply truthy_true in Ht.
  apply in_map_iff in H. destruct H as (line & <- & _).
  split; [exact Ht|].
  pose proof (strip_head line) as Hh. pose proof (strip_last line) as Hl.
  split.
  - apply FarwestFacts.strip_id; assumption.
  - destruct (Str.strip line) as [|c r]; [congruence|].
    unfold job_key. change (lit " ") with [" "%char].
    rewrite replace_char_filter. unfold Str.lower. cbn [List.map List.filter].
    rewrite (lower_solid c Hh). cbn [negb]. discriminate.
Qed.

(** The loop stops at the first entry whose key holds the target or is
    held by it. *)
Lemma highlight_loop_finds target : forall rest idx k name,
  nth_error rest k = Some name ->
  job_key name = target ->
  exists j, highlight_loop target idx rest = Some j
            /\ (idx <= j <= idx + Z.of_nat k)%Z.
Proof.
  induction rest as [|txt rest IH]; intros idx k name Hn Hk.
  - destruct k; discriminate.
  - cbn [highlight_loop].
    destruct k as [|k].
    + injection Hn as ->. fold (job_key name). rewrite Hk, contains_refl.
      cbn [orb]. exists idx. split; [reflexivity | lia].
    + cbn [nth_error] in Hn.
      destruct (_ || _); [exists idx; split; [reflexivity | lia]|].
      destruct (IH (idx + 1)%Z k name Hn Hk) as (j & E & Hj).
      exists j. split; [exact E | lia].
Qed.

Lemma highlight_loop_sound target : forall rest idx j,
  highlight_loop target idx rest = Some j ->
  exists name,
    nth_error rest (Z.to_nat (j - idx)) = Some name /\ (idx <= j)%Z
    /\ (Str.contains (job_key name) target = true
        \/ Str.contains target (job_key name) = true).
Proof.
  induction rest as [|txt rest IH]; intros idx j H; [discriminate|].
  cbn [highlight_loop] in H. fold (job_key txt) in H.
  destruct (Str.contains (job_key txt) target || Str.contains target (job_key txt))
    eqn:E.
  - injection H as <-. exists txt. rewrite Z.sub_diag.
    split; [reflexivity|]. split; [lia|]. apply orb_true_iff. exact E.
  - destruct (IH _ _ H) as (name & Hn & Hj & Hc).
    exists name. split; [|split; [lia | exact Hc]].
    replace (Z.to_nat (j - idx)) with (S (Z.to_nat (j - (idx + 1)))) by lia.
    exact Hn.
Qed.

End JobListFacts.

(** X18. [auto_highlight_job] compares keys: a name in lower case with
    every space character removed.  When the job list holds a name whose
    key is the key of the parsed job name, and that key is not empty, an
    entry is selected, that one or one before it. *)
Theorem auto_highlight_finds_same_name (job_list : list text) (k : nat)
    (name jobname : text) :
  nth_error job_list k = Some name ->
  Notions.job_key name = Notions.job_key jobname ->
  Notions.job_key jobname <> [] ->
  exists j,
    InvoiceSorterUI.auto_highlight_job job_list jobname = Some j
    /\ (0 <= j <= Z.of_nat k)%Z.
Proof.
  intros Hn Hk Hne. unfold InvoiceSorterUI.auto_highlight_job.
  fold (Notions.job_key jobname).
  destruct jobname as [|c jobname]; [exfalso; apply Hne; reflexivity|].
  cbn [truthy negb].
  destruct (Notions.job_key (c :: jobname)) as [|a key] eqn:E; [congruence|].
  cbn [truthy negb].
  destruct (JobListFacts.highlight_loop_finds _ job_list 0 k name Hn Hk)
    as (j & Ej & Hj).
  exists j. split; [exact Ej | lia].
Qed.

Lemma auto_highlight_finds_same_name_witness :
  exists j,
    InvoiceSorterUI.auto_highlight_job (lits ["Elm Street"; "Hamp Ton"]) "HAMPTON"
    = Some j
    /\ (0 <= j <= 1)%Z.
Proof.
  apply (auto_highlight_finds_same_name (lits ["Elm Street"; "Hamp Ton"]) 1
           "Hamp Ton" "HAMPTON").
  - reflexivity.
  - vm_compute. reflexivity.
  - vm_compute. discriminate.
Defined.

(** X19. In a job list read by [load_jobnames], the entry that
    [auto_highlight_job] selects has a key (its name in lower case with
    every space character removed) that is not empty, and that holds the
    key of the parsed job name or is held by it.  No entry is selected
    only because its key is empty. *)
Theorem auto_highlight_shares_text (file_lines : option (list text))
    (jobname : text) (j : Z) :
  InvoiceSorterUI.auto_highlight_job
    (InvoiceSorterUI.load_jobnames file_lines) jobname = Some j ->
  exists name,
    nth_error (InvoiceSorterUI.load_jobnames file_lines) (Z.to_nat j) = Some name
    /\ (0 <= j)%Z
    /\ Notions.job_key name <> []
    /\ (Str.contains (Notions.job_key name) (Notions.job_key jobname) = true
        \/ Str.contains (Notions.job_key jobname) (Notions.job_key name) = true).
Proof.
  unfold InvoiceSorterUI.auto_highlight_job. fold (Notions.job_key jobname).
  destruct (negb (truthy jobname)); [discriminate|].
  destruct (negb (truthy (Notions.job_key jobname))); [discriminate|].
  intros H. apply JobListFacts.highlight_loop_sound in H.
  destruct H as (name & Hn & Hj & Hc). rewrite Z.sub_0_r in Hn.
  exists name. split; [exact Hn|]. split; [exact Hj|]. split; [|exact Hc].
  apply nth_error_In in Hn.
  apply (JobListFacts.loaded_name file_lines name Hn).
Qed.

Lemma auto_highlight_shares_text_witness :
  exists name,
    nth_error (InvoiceSorterUI.load_jobnames
                 (Some (lits ["  "; "Elm Street "; "Hampton"]))) 1
    = Some name
    /\ Notions.job_key name <> [].
Proof.
  destruct (auto_highlight_shares_text (Some (lits ["  "; "Elm Street "; "Hampton"]))
              "Hampton Rd" 1) as (name & Hn & _ & Hk & _).
  - vm_compute. reflexivity.
  - exists name. split; [exact Hn | exact Hk].
Defined.

Module SheetFacts.

Import PyFacts Notions InvoiceSorterUI.

Lemma max_row_ge (ws : sheet) :
  (0 <= max_row ws)%Z
  /\ forall row column value, ws !! (row, column) = Some value -> (row <= max_row ws)%Z.
Proof.
  unfold max_row.
  apply (map_fold_weak_ind (M := gmap (Z * Z))
           (fun top (m : gmap (Z * Z) text) =>
              (0 <= top)%Z
              /\ forall row column value,
                  m !! (row, column) = Some value -> (row <= top)%Z)).
  - split; [lia|]. intros row column value H. rewrite lookup_empty in H. discriminate.
  - intros key x m top _ [H0 IH]. split; [lia|].
    intros row column value H.
    apply lookup_insert_Some in H. destruct H as [[Hk _]|[_ H]].
    + subst key. cbn [fst]. lia.
    + specialize (IH _ _ _ H). lia.
Qed.

Lemma dated_below_max ws row : dated ws row -> (row <= max_row ws)%Z.
Proof. intros (v & H & _). exact (proj2 (max_row_ge ws) _ _ _ H). Qed.

Lemma dated_or_undated ws row : dated ws row \/ undated ws row.
Proof.
  unfold dated, undated. destruct (cell ws row 1) as [[|c v]|].
  - right. right. reflexivity.
  - left. eexists. split; [reflexivity | discriminate].
  - right. left. reflexivity.
Qed.

(** The loop that looks for a free row: it stops at the first row
    without a date. *)
Lemma empty_row_loop_spec ws row : forall fuel start,
  (max_row ws < start + Z.of_nat fuel)%Z ->
  (start <= row)%Z ->
  (forall r, (start <= r < row)%Z -> dated ws r) ->
  undated ws row ->
  empty_row_loop fuel ws start = Ok row.
Proof.
  induction fuel as [|fuel IH]; intros start Hf Hs Hd Hu.
  - destruct (Z.eq_dec start row) as [->|Hne].
    + cbn [empty_row_loop]. destruct Hu as [-> | ->]; reflexivity.
    + pose proof (dated_below_max ws start (Hd start ltac:(lia))). lia.
  - destruct (Z.eq_dec start row) as [->|Hne].
    + cbn [empty_row_loop]. destruct Hu as [-> | ->]; reflexivity.
    + destruct (Hd start ltac:(lia)) as (v & Hv & Hne').
      cbn [empty_row_loop]. rewrite Hv.
      destruct v as [|c v]; [congruence|]. cbn [truthy negb].
      apply IH; [lia | lia | | exact Hu].
      intros r Hr. apply Hd. lia.
Qed.

(** There is a first row without a date, at or after [start]. *)
Lemma first_undated ws : forall n start,
  (max_row ws < start + Z.of_nat n)%Z ->
  exists row,
    (start <= row)%Z /\ (forall r, (start <= r < row)%Z -> dated ws r)
    /\ undated ws row.
Proof.
  induction n as [|n IH]; intros start Hn.
  - exists start. split; [lia|]. split; [intros r Hr; lia|].
    destruct (dated_or_undated ws start) as [H|H]; [|exact H].
    apply dated_below_max in H. lia.
  - destruct (dated_or_undated ws start) as [H|H].
    + destruct (IH (start + 1)%Z) as (row & Hr & Hd & Hu); [lia|].
      exists row. split; [lia|]. split; [|exact Hu].
      intros r Hr'. destruct (Z.eq_dec r start) as [->|Hne]; [exact H|].
      apply Hd. lia.
    + exists start. split; [lia|]. split; [intros r Hr; lia | exact H].
Qed.

Lemma first_empty_row_ok ws :
  exists row,
    first_empty_row ws = Ok row
    /\ (18 <= row)%Z /\ (forall r, (18 <= r < row)%Z -> dated ws r)
    /\ undated ws row.
Proof.
  pose proof (proj1 (max_row_ge ws)) as H0.
  destruct (first_undated ws (Z.to_nat (max_row ws)) 18) as (row & Hr & Hd & Hu);
    [lia|].
  exists row. split; [|auto].
  unfold first_empty_row. apply empty_row_loop_spec; [lia | assumption..].
Qed.

Lemma first_empty_row_unique ws row :
  (18 <= row)%Z -> (forall r, (18 <= r < row)%Z -> dated ws r) -> undated ws row ->
  first_empty_row ws = Ok row.
Proof.
  intros Hr Hd Hu. pose proof (proj1 (max_row_ge ws)) as H0.
  unfold first_empty_row. apply empty_row_loop_spec; [lia | assumption..].
Qed.

(** The loop of the duplicate check never runs out of rows. *)
Lemma exists_loop_total ws date_str vendor invoice_number total :
  forall fuel row,
    (max_row ws < row + Z.of_nat fuel)%Z ->
    exists answer,
      exists_loop fuel ws date_str vendor invoice_number total row = Ok answer.
Proof.
  induction fuel as [|fuel IH]; intros row Hf; cbn [exists_loop].
  - destruct (cell ws row 1) as [a|] eqn:Ea.
    { pose proof (proj2 (max_row_ge ws) _ _ _ Ea). lia. }
    destruct (cell ws row 2) as [b|] eqn:Eb.
    { pose proof (proj2 (max_row_ge ws) _ _ _ Eb). lia. }
    destruct (cell ws row 3) as [c|] eqn:Ec.
    { pose proof (proj2 (max_row_ge ws) _ _ _ Ec). lia. }
    destruct (cell ws row 4) as [d|] eqn:Ed.
    { pose proof (proj2 (max_row_ge ws) _ _ _ Ed). lia. }
    cbn. eauto.
  - destruct (_ && _ && _ && _); [eauto|].
    destruct (_ && _ && _ && _); [eauto|].
    apply IH. lia.
Qed.



(** What a write does. *)
Lemma check_string_cases value :
  check_string value
  = if refused value
    then Raise (IllegalCharacterError
                  (stored value ^^ " cannot be used in a worksheet."))
    else Ok (stored value).
Proof. reflexivity. Qed.



(** The sheet with the four cells of a row written. *)
Lemma written_row (ws : sheet) row inv :
  let ws' :=
    <[(row, 4%Z) := stored (total inv)]>
      (<[(row, 3%Z) := stored (invoice_number inv)]>
         (<[(row, 2%Z) := stored (vendor inv)]>
            (<[(row, 1%Z) := stored (date inv)]> ws))) in
  holds ws' row inv
  /\ forall r c, r <> row -> cell ws' r c = cell ws r c.
Proof.
  cbv zeta. split.
  - unfold holds, cell, sheet in *.
    repeat split;
      repeat (rewrite lookup_insert_ne by (intros [= ?]; lia));
      rewrite lookup_insert_eq; reflexivity.
  - intros r c Hne. unfold cell, sheet in *.
    repeat (rewrite lookup_insert_ne by (intros [= ?]; lia)). reflexivity.
Qed.

Lemma dated_same ws ws' r :
  cell ws' r 1 = cell ws r 1 -> dated ws r -> dated ws' r.
Proof. unfold dated. intros ->. auto. Qed.

(** The four writes: they go through when no field is refused, and the
    first field that is refused stops them. *)
Lemma writes_cases (ws : sheet) row inv :
  (existsb refused (written_fields inv) = false
   /\ exists ws',
        (let* ws1 := write_cell ws row 1 (date inv) in
         let* ws2 := write_cell ws1 row 2 (vendor inv) in
         let* ws3 := write_cell ws2 row 3 (invoice_number inv) in
         let* ws4 := write_cell ws3 row 4 (total inv) in
         Ok (ws4, Some row)) = Ok (ws', Some row)
        /\ holds ws' row inv
        /\ forall r c, r <> row -> cell ws' r c = cell ws r c)
  \/ (existsb refused (written_fields inv) = true
      /\ exists msg,
           (let* ws1 := write_cell ws row 1 (date inv) in
            let* ws2 := write_cell ws1 row 2 (vendor inv) in
            let* ws3 := write_cell ws2 row 3 (invoice_number inv) in
            let* ws4 := write_cell ws3 row 4 (total inv) in
            Ok (ws4, Some row)) = Raise (IllegalCharacterError msg)).
Proof.
  unfold write_cell, written_fields. cbn [existsb].
  rewrite !check_string_cases.
  destruct (refused (date inv)); cbn [bind orb]; [right; eauto|].
  destruct (refused (vendor inv)); cbn [bind orb]; [right; eauto|].
  destruct (refused (invoice_number inv)); cbn [bind orb]; [right; eauto|].
  destruct (refused (total inv)); cbn [bind orb]; [right; eauto|].
  left. split; [reflexivity|].
  destruct (written_row ws row inv) as [Hh Hf].
  eexists. split; [reflexivity|]. split; [exact Hh | exact Hf].
Qed.

(** What [add_row] does. *)
Lemma add_row_cases ws inv :
  (invoice_exists_in_sheet ws (date inv) (vendor inv) (invoice_number inv) (total inv)
   = Ok true
   /\ add_row ws inv = Ok (ws, None))
  \/ (invoice_exists_in_sheet ws (date inv) (vendor inv) (invoice_number inv)
        (total inv) = Ok false
      /\ exists row,
          first_empty_row ws = Ok row
          /\ (18 <= row)%Z
          /\ (forall r, (18 <= r < row)%Z -> dated ws r)
          /\ undated ws row
          /\ ((existsb refused (written_fields inv) = false
               /\ exists ws',
                    add_row ws inv = Ok (ws', Some row)
                    /\ holds ws' row inv
                    /\ forall r c, r <> row -> cell ws' r c = cell ws r c)
              \/ (existsb refused (written_fields inv) = true
                  /\ exists msg,
                       add_row ws inv = Raise (IllegalCharacterError msg)))).
Proof.
  unfold add_row. cbv zeta.
  pose proof (proj1 (max_row_ge ws)) as H0.
  destruct (exists_loop_total ws (date inv) (vendor inv) (invoice_number inv)
              (total inv) (Z.to_nat (max_row ws)) 18) as (answer & E); [lia|].
  unfold invoice_exists_in_sheet. rewrite E. cbn [bind].
  destruct answer; [left; auto|]. right. split; [reflexivity|].
  destruct (first_empty_row_ok ws) as (row & Er & Hr & Hd & Hu).
  rewrite Er. cbn [bind]. exists row.
  split; [reflexivity|]. split; [exact Hr|]. split; [exact Hd|].
  split; [exact Hu|]. apply writes_cases.
Qed.

(** A row that [add_row] has written. *)
Lemma add_row_written ws inv ws' row :
  add_row ws inv = Ok (ws', Some row) ->
  first_empty_row ws = Ok row
  /\ (18 <= row)%Z
  /\ (forall r, (18 <= r < row)%Z -> dated ws r)
  /\ undated ws row
  /\ holds ws' row inv
  /\ forall r c, r <> row -> cell ws' r c = cell ws r c.
Proof.
  intros E.
  destruct (add_row_cases ws inv)
    as [[_ E']|(_ & r & Er & Hr & Hd & Hu & [(_ & w & E' & Hh & Hf)|(_ & msg & E')])].
  - rewrite E' in E. discriminate E.
  - rewrite E' in E. injection E as -> ->.
    exact (conj Er (conj Hr (conj Hd (conj Hu (conj Hh Hf))))).
  - rewrite E' in E. discriminate E.
Qed.

End SheetFacts.



(** X21. A row that is written with an empty date still counts as free:
    the next invoice that is written on the sheet takes the same row, and
    the first invoice is gone from the sheet. *)
Theorem undated_row_is_overwritten (ws ws1 ws2 : InvoiceSorterUI.sheet)
    (inv1 inv2 : invoice) (row1 row2 : Z) :
  date inv1 = [] ->
  InvoiceSorterUI.add_row ws inv1 = Ok (ws1, Some row1) ->
  InvoiceSorterUI.add_row ws1 inv2 = Ok (ws2, Some row2) ->
  row2 = row1 /\ Notions.holds ws2 row1 inv2.
Proof.
  intros Hdate E1 E2.
  destruct (SheetFacts.add_row_written _ _ _ _ E1) as (_ & Hr & Hd & Hu & Hh & Hf).
  destruct (SheetFacts.add_row_written _ _ _ _ E2) as (Ef & _ & _ & _ & Hh2 & _).
  assert (Er : InvoiceSorterUI.first_empty_row ws1 = Ok row1).
  { apply SheetFacts.first_empty_row_unique; [exact Hr | |].
    - intros r Hr'. apply (SheetFacts.dated_same ws); [apply Hf; lia | apply Hd; lia].
    - right. destruct Hh as (Ha & _). rewrite Ha, Hdate. reflexivity. }
  rewrite Er in Ef. injection Ef as <-. split; [reflexivity | exact Hh2].
Qed.

Lemma undated_row_is_overwritten_witness :
  let inv1 := Invoice "Knife River" "111111" "Hampton" "" "10.00" 1 None None in
  let inv2 := Invoice "Knife River" "222222" "Hampton" "10/01/25" "20.00" 1 None None in
  let write (ws : InvoiceSorterUI.sheet) (inv : invoice) : InvoiceSorterUI.sheet :=
    <[(18%Z, 4%Z) := total inv]>
      (<[(18%Z, 3%Z) := invoice_number inv]>
         (<[(18%Z, 2%Z) := vendor inv]> (<[(18%Z, 1%Z) := date inv]> ws))) in
  InvoiceSorterUI.add_row ∅ inv1 = Ok (write ∅ inv1, Some 18%Z)
  /\ InvoiceSorterUI.add_row (write ∅ inv1) inv2
     = Ok (write (write ∅ inv1) inv2, Some 18%Z)
  /\ Notions.holds (write (write ∅ inv1) inv2) 18 inv2.
Proof.
  intros inv1 inv2 write.
  assert (E1 : InvoiceSorterUI.add_row ∅ inv1 = Ok (write ∅ inv1, Some 18%Z))
    by reflexivity.
  assert (E2 : InvoiceSorterUI.add_row (write ∅ inv1) inv2
               = Ok (write (write ∅ inv1) inv2, Some 18%Z)) by reflexivity.
  split; [exact E1|]. split; [exact E2|].
  exact (proj2 (undated_row_is_overwritten ∅ (write ∅ inv1)
                  (write (write ∅ inv1) inv2) inv1 inv2 18 18 eq_refl E1 E2)).
Defined.

(** X27. Nothing in [add_to_summary] catches what a write raises: when
    the invoice is no duplicate and one of its four fields holds, among
    the characters that a cell would keep, a control character that the
    sheet refuses, the update raises IllegalCharacterError and the
    workbook is not saved. *)
Theorem control_character_stops_summary (ws : InvoiceSorterUI.sheet)
    (inv : invoice) :
  InvoiceSorterUI.invoice_exists_in_sheet ws
    (date inv) (vendor inv) (invoice_number inv) (total inv) = Ok false ->
  existsb Notions.refused (Notions.written_fields inv) = true ->
  exists msg,
    InvoiceSorterUI.add_row ws inv = Raise (IllegalCharacterError msg).
Proof.
  intros Hnew Hbad.
  destruct (SheetFacts.add_row_cases ws inv)
    as [[Hdup _]|(_ & row & _ & _ & _ & _ & [(Hok & _)|(_ & H)])].
  - congruence.
  - congruence.
  - exact H.
Qed.

Lemma control_character_stops_summary_witness :
  let inv := Invoice "Knife River" "968457" "Hampton"
               "10/01/25" (lit "10.00" ++ ["007"%char]) 1 None None in
  exists msg,
    InvoiceSorterUI.add_row ∅ inv = Raise (IllegalCharacterError msg).
Proof.
  intros inv.
  apply (control_character_stops_summary ∅ inv); reflexivity.
Defined.

Module StagingFacts.

Import PyFacts StrFacts Notions InvoiceSorterUI.

Lemma or_default_nil (v : text) : Str.or_default v [] = v.
Proof. destruct v; reflexivity. Qed.

(** A key of the lookup table comes from a job of the list. *)
Lemma job_lookup_sound jobnames key job :
  job_lookup jobnames !! key = Some job ->
  In job jobnames /\ Str.strip (Str.lower job) = key.
Proof.
  unfold job_lookup.
  assert (H : forall (acc : gmap text text),
    (forall k j, acc !! k = Some j -> In j jobnames /\ Str.strip (Str.lower j) = k) ->
    forall rest, (forall j, In j rest -> In j jobnames) ->
    forall k j,
      fold_left (fun lookup j => <[Str.strip (Str.lower j) := j]> lookup) rest acc
      !! k = Some j ->
      In j jobnames /\ Str.strip (Str.lower j) = k).
  { intros acc Hacc rest. revert acc Hacc.
    induction rest as [|x rest IH]; intros acc Hacc Hrest k j; cbn [fold_left].
    - apply Hacc.
    - apply IH.
      + intros k' j' Hl. apply lookup_insert_Some in Hl.
        destruct Hl as [[<- <-]|[_ Hl]].
        * split; [apply Hrest; left; reflexivity | reflexivity].
        * apply Hacc. exact Hl.
      + intros j' Hj'. apply Hrest. right. exact Hj'. }
  apply (H ∅).
  - intros k j Hl. rewrite lookup_empty in Hl. discriminate.
  - auto.
Qed.

Section Step.

Variable parse_fn : Type.
Variable run_parser : parse_fn -> text -> result parsed.
Variable mods : Dispatch.importable parse_fn.
Variable vendor_module_name : text.
Variable jobnames : list text.
Variable before : gmap text info.

Lemma stage_step_invariant now matches inv_path :
  staging_invariant jobnames before now ->
  staging_invariant jobnames before
    (fst (stage_step parse_fn run_parser mods vendor_module_name
            (job_lookup jobnames) (now, matches) inv_path))
  /\ (matches
      <= snd (stage_step parse_fn run_parser mods vendor_module_name
                (job_lookup jobnames) (now, matches) inv_path)
      <= matches + 1)%Z.
Proof.
  intros Hinv. unfold stage_step. cbv beta iota zeta.
  set (i0 := default new_info (now !! inv_path)).
  assert (Hi0 : staged_as_before before inv_path i0 \/ auto_staged jobnames i0).
  { subst i0. pose proof (Hinv inv_path) as H.
    destruct (now !! inv_path) as [i|]; [exact H|].
    left. unfold staged_as_before. rewrite H. split; reflexivity. }
  assert (Hframe : forall (entry : info),
    staged_as_before before inv_path entry \/ auto_staged jobnames entry ->
    forall m, (forall p, p <> inv_path -> m !! p = now !! p) ->
              m !! inv_path = Some entry ->
              staging_invariant jobnames before m).
  { intros entry He m Hm Hp p.
    destruct (decide (p = inv_path)) as [->|Hne].
    - rewrite Hp. exact He.
    - rewrite (Hm p Hne). apply Hinv. }
  destruct (match info_parsed i0 with
            | Some record => Ok record
            | None => parse_first parse_fn run_parser mods vendor_module_name inv_path
            end) as [record|e] eqn:Ep.
  - destruct (job_lookup jobnames !! _) as [job|] eqn:El; cbn [fst snd].
    + split; [|lia].
      apply (Hframe (Info (Some record) (Some job) true)).
      * right. apply job_lookup_sound in El. destruct El as [Hin Hk].
        exists job, record. rewrite or_default_nil in Hk. auto 6.
      * intros p Hne. rewrite !lookup_insert_ne by congruence. reflexivity.
      * apply lookup_insert_eq.
    + split; [|lia].
      apply (Hframe (Info (Some record) (info_jobname i0) (info_staged i0))).
      * destruct Hi0 as [Hb|(job & r0 & Hj & Hs & Hp & Hin & Hk)].
        -- left. exact Hb.
        -- right. rewrite Hp in Ep. injection Ep as <-.
           exists job, r0. cbn [info_jobname info_staged info_parsed]. auto 6.
      * intros p Hne. rewrite !lookup_insert_ne by congruence. reflexivity.
      * apply lookup_insert_eq.
  - cbn [fst snd]. split; [|lia].
    apply (Hframe i0 Hi0).
    + intros p Hne. rewrite lookup_insert_ne by congruence. reflexivity.
    + apply lookup_insert_eq.
Qed.

Lemma stage_fold_invariant invoices : forall now matches,
  staging_invariant jobnames before now ->
  staging_invariant jobnames before
    (fst (fold_left (stage_step parse_fn run_parser mods vendor_module_name
                       (job_lookup jobnames)) invoices (now, matches)))
  /\ (matches
      <= snd (fold_left (stage_step parse_fn run_parser mods vendor_module_name
                           (job_lookup jobnames)) invoices (now, matches))
      <= matches + len invoices)%Z.
Proof.
  induction invoices as [|p invoices IH]; intros now matches Hinv; cbn [fold_left].
  - cbn [fst snd]. split; [exact Hinv | unfold len; cbn [length]; lia].
  - destruct (stage_step_invariant now matches p Hinv) as [H1 H2].
    destruct (stage_step _ _ _ _ _ (now, matches) p) as [now' matches'].
    cbn [fst snd] in H1, H2.
    destruct (IH now' matches' H1) as [H3 H4].
    split; [exact H3|].
    unfold len in *. cbn [length]. lia.
Qed.

End Step.

Lemma invariant_start jobnames before : staging_invariant jobnames before before.
Proof.
  intros p. destruct (before !! p) as [i|] eqn:E; [|reflexivity].
  left. unfold staged_as_before. rewrite E. split; reflexivity.
Qed.

Lemma lower_space c : Char.isspace (Char.lower c) = Char.isspace c.
Proof. destruct c as [[] [] [] [] [] [] [] []]; vm_compute; reflexivity. Qed.

(** Lower case does not make a name blank. *)
Lemma strip_lower_nonempty name :
  name <> [] -> Str.strip name = name -> Str.strip (Str.lower name) <> [].
Proof.
  intros Hne Hs.
  pose proof (strip_head name) as Hh. pose proof (strip_last name) as Hl.
  rewrite Hs in Hh, Hl.
  rewrite FarwestFacts.strip_id.
  - destruct name; [congruence | discriminate].
  - destruct name as [|c r]; [exact I|]. cbn [Str.lower List.map].
    rewrite lower_space. exact Hh.
  - unfold Str.lower. rewrite <- map_rev.
    destruct (rev name) as [|d r]; [exact I|]. cbn [List.map].
    rewrite lower_space. exact Hl.
Qed.

End StagingFacts.

(** X22. After [secret_auto_stage], every entry of [self.invoice_info] is
    staged as it was before, or is staged with a job of the job list that
    is the job name of its parsed record up to case and to the blanks
    around it; the count it reports is at most the number of invoices. *)
Theorem secret_auto_stage_sound {parse_fn : Type}
    (run_parser : parse_fn -> text -> result parsed)
    (mods : Dispatch.importable parse_fn) (vendor_module_name : text)
    (jobnames invoices : list text)
    (invoice_info : gmap text InvoiceSorterUI.info) :
  let after :=
    InvoiceSorterUI.secret_auto_stage parse_fn run_parser mods vendor_module_name
      jobnames invoices invoice_info in
  (forall p i,
      fst after !! p = Some i ->
      Notions.staged_as_before invoice_info p i \/ Notions.auto_staged jobnames i)
  /\ (0 <= snd after <= len invoices)%Z.
Proof.
  cbv zeta. unfold InvoiceSorterUI.secret_auto_stage.
  destruct (StagingFacts.stage_fold_invariant parse_fn run_parser mods vendor_module_name
              jobnames invoice_info invoices invoice_info 0
              (StagingFacts.invariant_start jobnames invoice_info)) as [H1 H2].
  split; [|lia].
  intros p i Hp. specialize (H1 p). rewrite Hp in H1. exact H1.
Qed.

(** X23. With a job list read by [load_jobnames], [secret_auto_stage]
    never stages an invoice whose parsed job name is empty or blank: an
    invoice that was not staged before and is staged afterwards has a
    record with a job name. *)
Theorem blank_job_name_never_staged {parse_fn : Type}
    (run_parser : parse_fn -> text -> result parsed)
    (mods : Dispatch.importable parse_fn) (vendor_module_name : text)
    (file_lines : option (list text)) (invoices : list text)
    (invoice_info : gmap text InvoiceSorterUI.info)
    (p : text) (i : InvoiceSorterUI.info) :
  InvoiceSorterUI.info_staged
    (default InvoiceSorterUI.new_info (invoice_info !! p)) = false ->
  fst (InvoiceSorterUI.secret_auto_stage parse_fn run_parser mods
         vendor_module_name (InvoiceSorterUI.load_jobnames file_lines)
         invoices invoice_info) !! p = Some i ->
  InvoiceSorterUI.info_staged i = true ->
  exists record,
    InvoiceSorterUI.info_parsed i = Some record
    /\ Str.strip (jobname record) <> [].
Proof.
  intros Hold Hp Hs. unfold InvoiceSorterUI.secret_auto_stage in Hp.
  destruct (StagingFacts.stage_fold_invariant parse_fn run_parser mods vendor_module_name
              (InvoiceSorterUI.load_jobnames file_lines) invoice_info invoices
              invoice_info 0
              (StagingFacts.invariant_start _ invoice_info)) as [H1 _].
  specialize (H1 p). rewrite Hp in H1.
  destruct H1 as [[Hb _]|(job & record & _ & _ & Hr & Hin & Hk)].
  - cbv zeta in Hb. congruence.
  - exists record. split; [exact Hr|]. intros E.
    destruct (JobListFacts.loaded_name file_lines job Hin) as (Hne & Hst & _).
    apply (StagingFacts.strip_lower_nonempty job Hne Hst).
    rewrite Hk, E. reflexivity.
Qed.

Lemma blank_job_name_never_staged_witness :
  let record := Invoice "Knife River" "123456" "hampton" "" "10.00" 1 None None in
  let module : Dispatch.py_module unit := <[ lit "parse_invoice" := tt ]> ∅ in
  let mods : Dispatch.importable unit := <[ lit "knife_river_parser" := module ]> ∅ in
  exists i found,
    fst (InvoiceSorterUI.secret_auto_stage unit (fun _ _ => Ok (PList [record])) mods
           "knife_river_parser"
           (InvoiceSorterUI.load_jobnames (Some (lits ["Hampton "; ""])))
           (lits ["a.pdf"]) ∅) !! lit "a.pdf" = Some i
    /\ InvoiceSorterUI.info_parsed i = Some found
    /\ Str.strip (jobname found) <> [].
Proof.
  intros record module mods.
  destruct (fst (InvoiceSorterUI.secret_auto_stage unit
                   (fun _ _ => Ok (PList [record])) mods "knife_river_parser"
                   (InvoiceSorterUI.load_jobnames (Some (lits ["Hampton "; ""])))
                   (lits ["a.pdf"]) ∅) !! lit "a.pdf") as [i|] eqn:E.
  - destruct (blank_job_name_never_staged (fun _ _ => Ok (PList [record])) mods
                "knife_river_parser" (Some (lits ["Hampton "; ""])) (lits ["a.pdf"])
                ∅ "a.pdf" i) as (found & Hf & Hj).
    + reflexivity.
    + exact E.
    + vm_compute in E. injection E as <-. reflexivity.
    + exists i, found. auto.
  - vm_compute in E. discriminate.
Defined.

Module SafeMoveFacts.

Import PyFacts StrFacts Notions InvoiceSorterUI.

Lemma lit_inj (a b : string) : lit a = lit b -> a = b.
Proof.
  unfold lit. intros H. apply (f_equal string_of_list_ascii) in H.
  rewrite !string_of_list_ascii_of_string in H. exact H.
Qed.

Lemma py_str_inj i j : py_str i = py_str j -> i = j.
Proof. unfold py_str. intros H. apply lit_inj in H. apply (inj pretty) in H. exact H. Qed.

(** With a join that puts the folder and a separator before the name,
    two counters give two paths. *)
Lemma numbered_plain_inj (sep dst_folder name ext : text) i j :
  numbered (fun a b => a ++ sep ++ b) dst_folder name ext i
  = numbered (fun a b => a ++ sep ++ b) dst_folder name ext j ->
  i = j.
Proof.
  unfold numbered. intros H.
  apply app_inv_head, app_inv_head, app_inv_head, app_inv_head in H.
  apply app_inv_tail in H. apply py_str_inj. exact H.
Qed.

Section Candidates.

Variable path_join : text -> text -> text.
Variables (existing : gset text) (dst_folder name ext : text).

Hypothesis numbered_inj : forall i j,
  numbered path_join dst_folder name ext i
  = numbered path_join dst_folder name ext j -> i = j.

(** The numbered paths that exist are no more than the paths that
    exist. *)
Lemma numbered_bound (k : nat) :
  (forall i, (1 <= i <= Z.of_nat k)%Z ->
             numbered path_join dst_folder name ext i ∈ existing) ->
  (k <= size existing)%nat.
Proof.
  intros H.
  set (l := List.map (fun n => numbered path_join dst_folder name ext (Z.of_nat n))
              (seq 1 k)).
  assert (Hnd : NoDup l).
  { subst l. apply (NoDup_fmap_2_strong _ (seq 1 k)); [|apply NoDup_seq].
    intros a b _ _ E. apply numbered_inj in E. lia. }
  assert (Hsub : (list_to_set l : gset text) ⊆ existing).
  { intros p Hp. apply elem_of_list_to_set, list_elem_of_In in Hp.
    subst l. apply in_map_iff in Hp. destruct Hp as (n & <- & Hn).
    apply in_seq in Hn. apply H. lia. }
  apply subseteq_size in Hsub.
  rewrite size_list_to_set in Hsub by exact Hnd.
  subst l. rewrite length_map, length_seq in Hsub. exact Hsub.
Qed.

(** The loop finds a path that does not exist before its fuel is
    spent. *)
Lemma free_candidate_ok : forall fuel counter candidate,
  (1 <= counter)%Z ->
  (forall i, (1 <= i < counter - 1)%Z ->
             numbered path_join dst_folder name ext i ∈ existing) ->
  ((2 <= counter)%Z ->
   candidate = numbered path_join dst_folder name ext (counter - 1)%Z) ->
  (Z.of_nat (size existing) + 2 <= Z.of_nat fuel + counter)%Z ->
  exists found,
    free_candidate path_join fuel existing dst_folder name ext candidate counter
    = Ok found
    /\ (found ∉ existing)
    /\ (candidate ∉ existing -> found = candidate).
Proof.
  induction fuel as [|fuel IH]; intros counter candidate Hc Hprev Hcand Hfuel;
    cbn [free_candidate].
  - destruct (decide (candidate ∈ existing)) as [Hin|Hout].
    + exfalso.
      assert (Hb : (Z.to_nat (counter - 1) <= size existing)%nat).
      { apply numbered_bound. intros i Hi.
        destruct (Z.eq_dec i (counter - 1)%Z) as [->|Hne].
        - rewrite <- Hcand by lia. exact Hin.
        - apply Hprev. lia. }
      lia.
    + rewrite bool_decide_eq_false_2 by exact Hout. eauto.
  - destruct (decide (candidate ∈ existing)) as [Hin|Hout].
    + rewrite bool_decide_eq_true_2 by exact Hin.
      destruct (IH (counter + 1)%Z (numbered path_join dst_folder name ext counter))
        as (found & E & Hf & _).
      * lia.
      * intros i Hi. destruct (Z.eq_dec i (counter - 1)%Z) as [->|Hne].
        -- rewrite <- Hcand by lia. exact Hin.
        -- apply Hprev. lia.
      * intros _. f_equal. lia.
      * lia.
      * exists found. split; [exact E|]. split; [exact Hf | contradiction].
    + rewrite bool_decide_eq_false_2 by exact Hout. eauto.
Qed.

End Candidates.

End SafeMoveFacts.

(** X24. [safe_move] never writes over a file: when the numbered names
    that it forms for the destination are all different paths, its loop
    ends, the path that it moves the file to did not exist, and that path
    is the plain destination when the plain destination is free. *)
Theorem safe_move_never_overwrites
    (path_join : text -> text -> text) (basename : text -> text)
    (splitext : text -> text * text)
    (existing : gset text) (src dst_folder : text) :
  (forall i j,
      InvoiceSorterUI.numbered path_join dst_folder
        (fst (splitext (basename src))) (snd (splitext (basename src))) i
      = InvoiceSorterUI.numbered path_join dst_folder
          (fst (splitext (basename src))) (snd (splitext (basename src))) j ->
      i = j) ->
  exists candidate,
    InvoiceSorterUI.safe_move path_join basename splitext existing src dst_folder
    = Ok (candidate, {[candidate]} ∪ existing ∖ {[src]})
    /\ (candidate ∉ existing)
    /\ (path_join dst_folder (basename src) ∉ existing ->
        candidate = path_join dst_folder (basename src)).
Proof.
  intros Hinj. unfold InvoiceSorterUI.safe_move.
  destruct (splitext (basename src)) as [name ext]. cbn [fst snd] in Hinj.
  cbv zeta.
  destruct (SafeMoveFacts.free_candidate_ok path_join existing dst_folder name ext
              Hinj (S (size existing)) 1 (path_join dst_folder (basename src)))
    as (found & E & Hf & Hfree); [lia | intros i Hi; lia | intros H; lia | lia|].
  exists found. rewrite E. cbn [bind]. auto.
Qed.

Lemma safe_move_never_overwrites_witness :
  let path_join := fun a b : text => a ++ lit "/" ++ b in
  let splitext := fun s : text =>
    (firstn (length s - 4) s, skipn (length s - 4) s) in
  let existing : gset text := {[ lit "out/a.pdf"; lit "out/a_1.pdf" ]} in
  exists candidate,
    InvoiceSorterUI.safe_move path_join (fun s => s) splitext existing
      "a.pdf" "out"
    = Ok (candidate, {[candidate]} ∪ existing ∖ {[lit "a.pdf"]})
    /\ (candidate ∉ existing).
Proof.
  intros path_join splitext existing.
  destruct (safe_move_never_overwrites path_join (fun s => s) splitext existing
              "a.pdf" "out") as (candidate & E & Hc & _).
  - intros i j. apply SafeMoveFacts.numbered_plain_inj.
  - exists candidate. split; [exact E | exact Hc].
Defined.

Module JobNameOriginFacts.

Import PyFacts StrFacts Notions.

Lemma strip_idem s : Str.strip (Str.strip s) = Str.strip s.
Proof. apply FarwestFacts.strip_id; [apply strip_head | apply strip_last]. Qed.

Lemma stripped_line_fixed txt line :
  In line (Str.stripped_lines txt) -> Str.strip line = line.
Proof.
  unfold Str.stripped_lines. intros H.
  apply filter_In in H. destruct H as [H _].
  apply in_map_iff in H. destruct H as (raw & <- & _). apply strip_idem.
Qed.

(** Knife River: the job name is none of the words to skip. *)
Lemma knife_river_not_bad lines : forall rest idx j,
  KnifeRiverParser.jobname_loop lines idx rest = Ok j ->
  j = [] \/ Str.upper j ∉ KnifeRiverParser.bad_words.
Proof.
  induction rest as [|ln rest IH]; intros idx j H; cbn [KnifeRiverParser.jobname_loop] in H.
  - injection H as <-. left. reflexivity.
  - destruct (text_eqb (Str.upper ln) "ORIGINAL"); [|apply (IH _ _ H)].
    destruct (if (0 <=? idx - 1)%Z then py_index lines (idx - 1) else Ok [])
      as [c1|]; [|discriminate].
    cbn [bind] in H.
    destruct (if (0 <=? idx - 2)%Z then py_index lines (idx - 2) else Ok [])
      as [c2|]; [|discriminate].
    cbn [bind] in H.
    destruct (truthy c1 && negb (bool_decide (Str.upper c1 ∈ KnifeRiverParser.bad_words)))
      eqn:E1.
    { injection H as <-. right.
      apply andb_true_iff in E1. destruct E1 as [_ E1].
      apply negb_true_iff, bool_decide_eq_false in E1. exact E1. }
    destruct (truthy c2 && negb (bool_decide (Str.upper c2 ∈ KnifeRiverParser.bad_words)))
      eqn:E2.
    { injection H as <-. right.
      apply andb_true_iff in E2. destruct E2 as [_ E2].
      apply negb_true_iff, bool_decide_eq_false in E2. exact E2. }
    injection H as <-. left. reflexivity.
Qed.

(** Missoula Landfill: the line after the second date. *)
Lemma after_second_date_origin lines : forall indices found,
  MissoulaLandfillParser.after_second_date lines indices = Ok (Some found) ->
  exists line, In line lines /\ found = Str.strip line.
Proof.
  induction indices as [|i indices IH]; intros found H;
    cbn [MissoulaLandfillParser.after_second_date] in H; [discriminate|].
  destruct (py_index lines i) as [line|] eqn:Ei; [|discriminate].
  cbn [bind] in H.
  assert (Hin : In line lines).
  { unfold py_index in Ei.
    destruct (_ && _); [|discriminate].
    destruct (nth_error lines _) eqn:En; [|discriminate].
    injection Ei as <-. eapply nth_error_In. exact En. }
  destruct (negb (truthy (Str.strip line))); [apply (IH _ H)|].
  destruct (Str.isdigit (Str.strip line)); [apply (IH _ H)|].
  destruct (existsb _ _); [apply (IH _ H)|].
  injection H as <-. eauto.
Qed.

Lemma fallback_origin lines :
  MissoulaLandfillParser._fallback_jobname lines = []
  \/ In (MissoulaLandfillParser._fallback_jobname lines) lines.
Proof.
  unfold MissoulaLandfillParser._fallback_jobname.
  destruct (List.find _ lines) as [ln|] eqn:E; [right | left; reflexivity].
  apply find_some in E. apply E.
Qed.

Lemma missoula_origin lines j :
  (forall line, In line lines -> Str.strip line = line) ->
  MissoulaLandfillParser._extract_missoula_jobname lines = Ok j ->
  j = [] \/ In j lines.
Proof.
  intros Hfix. unfold MissoulaLandfillParser._extract_missoula_jobname.
  destruct (_ <? 2)%Z.
  { intros [= <-]. apply fallback_origin. }
  destruct (py_index _ 1) as [second|]; [|discriminate].
  cbn [bind].
  destruct (MissoulaLandfillParser.after_second_date lines _) as [[found|]|] eqn:E;
    cbn [bind]; [| |discriminate].
  - intros [= <-]. apply after_second_date_origin in E.
    destruct E as (line & Hin & ->). right. rewrite (Hfix _ Hin). exact Hin.
  - intros [= <-]. apply fallback_origin.
Qed.

(** Core & Main: the line that a scan stops at. *)
Lemma scan_origin nxts found :
  CoreMainParser.scan nxts = Some found ->
  exists nxt, In nxt nxts /\ found = Str.strip nxt.
Proof.
  induction nxts as [|nxt nxts IH]; cbn [CoreMainParser.scan]; [discriminate|].
  destruct (CoreMainParser.skipped nxt).
  - intros H. destruct (IH H) as (n & Hn & ->). exists n. split; [right|]; auto.
  - intros [= <-]. exists nxt. split; [left|]; auto.
Qed.

Lemma scan_fallback_origin nxts found :
  CoreMainParser.scan_fallback nxts = Some found ->
  exists nxt, In nxt nxts /\ found = Str.strip nxt.
Proof.
  induction nxts as [|nxt nxts IH]; cbn [CoreMainParser.scan_fallback]; [discriminate|].
  destruct (CoreMainParser.skipped_fallback nxt).
  - intros H. destruct (IH H) as (n & Hn & ->). exists n. split; [right|]; auto.
  - intros [= <-]. exists nxt. split; [left|]; auto.
Qed.

Lemma primary_origin (P : text -> Prop) : forall rest jobname,
  P jobname ->
  (forall nxt, In nxt rest -> P (Str.strip nxt)) ->
  P (CoreMainParser.primary_loop rest jobname).
Proof.
  induction rest as [|line rest IH]; intros jobname Hj Hr;
    cbn [CoreMainParser.primary_loop]; [exact Hj|].
  destruct (CoreMainParser.is_label line).
  - destruct (CoreMainParser.scan rest) as [found|] eqn:E; [|exact Hj].
    apply scan_origin in E. destruct E as (nxt & Hn & ->).
    apply Hr. right. exact Hn.
  - apply IH; [exact Hj|]. intros nxt Hn. apply Hr. right. exact Hn.
Qed.

Lemma secondary_origin (P : text -> Prop) : forall rest jobname,
  P jobname ->
  (forall nxt, In nxt rest -> P (Str.strip nxt)) ->
  P (CoreMainParser.secondary_loop rest jobname).
Proof.
  induction rest as [|line rest IH]; intros jobname Hj Hr;
    cbn [CoreMainParser.secondary_loop]; [exact Hj|].
  set (jobname' := if text_eqb (Str.lower line) "job name" then _ else jobname).
  assert (Hj' : P jobname').
  { subst jobname'. destruct (text_eqb (Str.lower line) "job name"); [|exact Hj].
    destruct (CoreMainParser.scan_fallback rest) as [found|] eqn:E; [|exact Hj].
    apply scan_fallback_origin in E. destruct E as (nxt & Hn & ->).
    apply Hr. right. exact Hn. }
  destruct (negb (text_eqb jobname' "UNKNOWN")); [exact Hj'|].
  apply IH; [exact Hj'|]. intros nxt Hn. apply Hr. right. exact Hn.
Qed.

Lemma core_main_origin lines :
  (forall line, In line lines -> Str.strip line = line) ->
  CoreMainParser.extract_jobname lines = lit "UNKNOWN"
  \/ In (CoreMainParser.extract_jobname lines) lines.
Proof.
  intros Hfix. unfold CoreMainParser.extract_jobname.
  assert (Hr : forall nxt, In nxt lines ->
            Str.strip nxt = lit "UNKNOWN" \/ In (Str.strip nxt) lines).
  { intros nxt Hn. right. rewrite (Hfix _ Hn). exact Hn. }
  destruct (text_eqb _ "UNKNOWN").
  - apply (secondary_origin (fun j => j = lit "UNKNOWN" \/ In j lines));
      [|exact Hr].
    apply (primary_origin (fun j => j = lit "UNKNOWN" \/ In j lines));
      [left; reflexivity | exact Hr].
  - apply (primary_origin (fun j => j = lit "UNKNOWN" \/ In j lines));
      [left; reflexivity | exact Hr].
Qed.

End JobNameOriginFacts.

(** X25. The job name of a page record is a line of the page, taken as it
    stands: the Knife River parser gives nothing or a stripped line that
    is none of its words to skip, the Missoula Landfill parser nothing or
    a stripped line, the Core & Main parser UNKNOWN or a stripped line. *)
Theorem job_names_are_lines (raw_text : text) (page_number : Z) :
  (exists inv,
      KnifeRiverParser._parse_knife_river_page raw_text page_number = Ok inv
      /\ (jobname inv = []
          \/ (In (jobname inv) (Str.stripped_lines raw_text)
              /\ Str.upper (jobname inv) ∉ KnifeRiverParser.bad_words)))
  /\ (exists inv,
      MissoulaLandfillParser._parse_missoula_landfill_page raw_text page_number
      = Ok inv
      /\ (jobname inv = [] \/ In (jobname inv) (Str.stripped_lines raw_text)))
  /\ (jobname (CoreMainParser.parse_page raw_text page_number) = lit "UNKNOWN"
      \/ In (jobname (CoreMainParser.parse_page raw_text page_number))
           (Str.stripped_lines raw_text)).
Proof.
  split; [|split].
  - destruct (KnifeRiverParserFacts.knife_river_page_ok raw_text page_number)
      as (t & j & E & Hj & _).
    eexists. split; [exact E|]. cbn [jobname].
    destruct (KnifeRiverParserFacts.jobname_loop_ok (Str.stripped_lines raw_text)
                (Str.stripped_lines raw_text) [] eq_refl) as (j' & Hj' & Hin).
    change (len []) with 0%Z in Hj'. rewrite Hj in Hj'. injection Hj' as <-.
    destruct Hin as [->|Hin]; [left; reflexivity|].
    destruct (JobNameOriginFacts.knife_river_not_bad _ _ _ _ Hj) as [->|Hb];
      [left; reflexivity | right; auto].
  - unfold MissoulaLandfillParser._parse_missoula_landfill_page.
    destruct (MissoulaFacts.invoice_number_ok raw_text) as (n & -> & _).
    destruct (MissoulaFacts.total_shape raw_text) as (t & -> & _).
    destruct (MissoulaFacts.jobname_ok (Str.stripped_lines raw_text)) as (j & Ej).
    rewrite Ej. cbn [bind]. eexists. split; [reflexivity|]. cbn [jobname].
    apply (JobNameOriginFacts.missoula_origin _ _
             (JobNameOriginFacts.stripped_line_fixed raw_text) Ej).
  - unfold CoreMainParser.parse_page. cbn [jobname].
    apply JobNameOriginFacts.core_main_origin.
    apply JobNameOriginFacts.stripped_line_fixed.
Qed.

Module SplitFacts.

Import PyFacts Notions KNSplit.

Lemma split_fold pages : forall (folder : gmap text Z) count,
  fold_left
    (fun (st : gmap text Z * Z) inv =>
       let '(folder, count) := st in
       let page_number := (page inv - 1)%Z in
       (<[filename inv := page_number]> folder, (count + 1)%Z))
    pages (folder, count)
  = (fold_left (fun (folder : gmap text Z) inv =>
                  <[filename inv := (page inv - 1)%Z]> folder)
       pages folder,
     (count + len pages)%Z).
Proof.
  induction pages as [|inv pages IH]; intros folder count; cbn [fold_left].
  - unfold len. cbn [length]. f_equal. lia.
  - rewrite IH. f_equal. unfold len. cbn [length]. lia.
Qed.

(** The files of the folder are those it had and the names of the
    pages. *)
Lemma split_dom pages : forall (folder : gmap text Z),
  dom (fold_left (fun (folder : gmap text Z) inv =>
                    <[filename inv := (page inv - 1)%Z]> folder)
         pages folder)
  = dom folder ∪ list_to_set (List.map filename pages).
Proof.
  induction pages as [|inv pages IH]; intros folder; cbn [fold_left List.map].
  - cbn [list_to_set foldr]. rewrite union_empty_r_L. reflexivity.
  - rewrite IH, dom_insert_L. cbn [list_to_set foldr].
    rewrite (union_comm_L {[filename inv]} (dom folder)), union_assoc_L.
    reflexivity.
Qed.

Lemma size_cons (x : text) (l : list text) :
  (size ({[x]} ∪ list_to_set l : gset text) <= S (size (list_to_set l : gset text)))%nat.
Proof.
  rewrite size_union_alt, size_singleton.
  pose proof (subseteq_size (list_to_set l ∖ {[x]}) (list_to_set l : gset text)) as H.
  assert (Hsub : (list_to_set l ∖ {[x]} : gset text) ⊆ list_to_set l).
  { intros y Hy. apply elem_of_difference in Hy. tauto. }
  specialize (H Hsub). lia.
Qed.

Lemma size_names (l : list text) :
  (size (list_to_set l : gset text) <= length l)%nat.
Proof.
  induction l as [|x l IH]; cbn [list_to_set foldr length].
  - rewrite size_empty. lia.
  - pose proof (size_cons x l). lia.
Qed.

(** A list of names with the same name at two places has fewer names
    than places. *)
Lemma size_names_twice (l : list text) i j x :
  i <> j -> nth_error l i = Some x -> nth_error l j = Some x ->
  (size (list_to_set l : gset text) < length l)%nat.
Proof.
  revert i j. induction l as [|y l IH]; intros i j Hij Hi Hj.
  - destruct i; discriminate.
  - cbn [list_to_set foldr length].
    assert (Hdup : forall k, nth_error l k = Some y ->
              (size ({[y]} ∪ list_to_set l : gset text) < S (length l))%nat).
    { intros k Hk.
      assert (E : ({[y]} ∪ list_to_set l : gset text) = list_to_set l).
      { apply nth_error_In, list_elem_of_In in Hk.
        apply (elem_of_list_to_set (C := gset text)) in Hk.
        apply subseteq_union_1_L. intros z Hz.
        apply elem_of_singleton in Hz. subst z. exact Hk. }
      rewrite E. pose proof (size_names l). lia. }
    destruct i as [|i], j as [|j]; cbn [nth_error] in Hi, Hj.
    + congruence.
    + injection Hi as ->. apply (Hdup j Hj).
    + injection Hj as ->. apply (Hdup i Hi).
    + assert (H : (size (list_to_set l : gset text) < length l)%nat)
        by (apply (IH i j); [congruence | assumption..]).
      pose proof (size_cons y l). lia.
Qed.

End SplitFacts.

(** X26. [split] of [KNSplit.py] names the file of a page after its
    vendor, job, date and total, not after its invoice number or its
    page.  It returns the number of the pages, and when two pages get the
    same name it has written fewer files than it reports: the later page
    took the place of the earlier one. *)
Theorem split_counts_more_than_it_writes (parsed_pages : list invoice)
    (i j : nat) (inv1 inv2 : invoice) :
  i <> j ->
  nth_error parsed_pages i = Some inv1 ->
  nth_error parsed_pages j = Some inv2 ->
  KNSplit.filename inv1 = KNSplit.filename inv2 ->
  snd (KNSplit.split parsed_pages ∅) = len parsed_pages
  /\ (Z.of_nat (size (fst (KNSplit.split parsed_pages ∅)))
      < snd (KNSplit.split parsed_pages ∅))%Z.
Proof.
  intros Hij Hi Hj Hname. unfold KNSplit.split.
  rewrite SplitFacts.split_fold. cbn [fst snd]. split; [lia|].
  rewrite <- size_dom, SplitFacts.split_dom, dom_empty_L, union_empty_l_L.
  assert (H : (size (list_to_set (List.map KNSplit.filename parsed_pages) : gset text)
               < length (List.map KNSplit.filename parsed_pages))%nat).
  { apply (SplitFacts.size_names_twice _ i j (KNSplit.filename inv1) Hij).
    - rewrite nth_error_map, Hi. reflexivity.
    - rewrite nth_error_map, Hj, Hname. reflexivity. }
  rewrite length_map in H. unfold len. lia.
Qed.

Lemma split_counts_more_than_it_writes_witness :
  let inv1 := Invoice "Knife River" "111111" "Hampton" "10/01/25" "10.00" 1 None None in
  let inv2 := Invoice "Knife River" "222222" "Hampton" "10/01/25" "10.00" 2 None None in
  snd (KNSplit.split [inv1; inv2] ∅) = 2%Z
  /\ (Z.of_nat (size (fst (KNSplit.split [inv1; inv2] ∅))) < 2)%Z.
Proof.
  intros inv1 inv2.
  apply (split_counts_more_than_it_writes [inv1; inv2] 0 1 inv1 inv2);
    [discriminate | reflexivity..].
Defined.
